(* ===== verification/_CoqProject ===== *)
-Q . S2P
Prelude.v
CInt.v
Bytes.v
Fe25519.v
FeBytes.v
ScOps.v
Scalar25519.v
FePow.v
Prime25519.v
Edwards.v
CurveGroup.v
Ge25519.v
Recode.v
ScalarMult.v
GeBaseData.v
GeBase.v
GeCodec.v
GeFromFe.v
Ed25519.v
Keccak.v
Keccak800.v
SpongeSpec.v
Blocks.v
Arx.v
Sha2.v
Sha512.v
Blake2b.v
Blake3.v
Blake3Tree.v
Sponge.v
TreeHash.v
EthashData.v
EthashCore.v
Ethash.v
EthashVariants.v
Primes.v
EthashSizes.v
Chains.v
Dcrypt.v
Swaps.v
MegaBtx.v
FixedChains.v
ProgpowDag.v
ProgpowEthash.v
Progpow.v
ProgpowLibs.v
ProgpowManaged.v
ProgpowVariants.v
