(* ===== verification/Prelude.v ===== *)
(** * Verification of the native C code of HashStormCore

    HashStormCore is a mining pool.  Its managed processes (pool core, writers,
    APIs) call C and C++ libraries under src/src/Native to hash headers and to
    handle CryptoNote addresses and blocks.  This development models C files of
    those libraries and proves them correct.  Paths below are relative to
    src/src/Native.

    ** The program's parts and the files that model them

    1. Arithmetic of Ed25519 (libcryptonote/crypto/crypto-ops.c, crypto-ops-data.c):
       field elements of ten int32_t limbs, scalars of 21-bit int64_t limbs, five
       representations of curve points.
       - CInt: checked C integer arithmetic; an overflow of a signed type is [None].
       - Bytes: byte strings, load_3, load_4, runs of byte stores.
       - Fe25519 (fe_0 ... fe_sq2), FeBytes (fe_tobytes, fe_isnegative,
         fe_isnonzero, the decoding block of the ge_ functions), FePow (fe_invert,
         fe_divpowm1): one definition per C function.
       - ScOps: the language of the straight-line reductions and its interval
         analysis; Scalar25519: sc_reduce, sc_reduce32, sc_add, sc_sub, sc_mulsub,
         sc_check, sc_isnonzero.
       - Prime25519, Edwards, CurveGroup: the mathematics the code relies on. p is
         prime, the addition law is complete and associative, the points form a
         group (class [EdGroup], instance on [cpt]).
       - Ge25519 (ge_add ... ge_mul8, tobytes), Recode (slide, the signed digits),
         ScalarMult (table selection, the four scalar multiplications), GeBaseData
         and GeBase (the precomputed tables), GeCodec (decoding), GeFromFe (the map
         from field elements to the curve).
       - Ed25519: the contracts of the ge_ functions over the group of points.
    2. Keccak.
       - Keccak: the permutations of libcryptonote/crypto/keccak.c,
         libkawpow/keccak/keccakf1600.c and libethhash/sha3.c, and FIPS 202's;
         Keccak800: libkawpow/keccak/keccakf800.c, the width ProgPoW uses.
       - SpongeSpec: the sponge on byte strings, the abstract specification.
       - Sponge: keccak, keccak1600, cn_fast_hash (libcryptonote), ethash_keccak256
         and 512 (libkawpow), the incremental sha3 and shake contexts
         (libmultihash/verthash/tiny_sha3/sha3.c), sha3_256 and sha3_512 (libethhash).
    3. TreeHash: the transaction tree (libcryptonote/crypto/tree-hash.c), which
       calls cn_fast_hash; the client of the class [NodeHash].
    4. EthashData, EthashCore, Ethash and EthashVariants: the proof of work of
       libethhash and of its variants libetchash, libubqhash and libethhashb3
       (internal.c, ethash.h and size tables of each).  EthashCore is the code they
       share, over the class [EthashParams] of what they change (epoch length, hash
       functions) with the laws [ParamsLaws]; Ethash is the instance of libethhash,
       EthashVariants has a Module for each of the others.
    5. Primes: ethash_find_largest_prime (libkawpow/ethash/primes.c), which sizes the
       ProgPoW datasets; its lemma on small divisors is the one of Prime25519.
       EthashSizes: the size tables of libethhash hold what it computes, by trial
       division on the kernel's 63-bit integers.
    6. Chains: the hashes of libmultihash whose order the input selects (x16r.c,
       x16rv2.c, x16s.c, x21s.c, minotaur/minotaurx.c).  The hash functions they
       call are vendored and are the class [HashLib]; the only thing assumed of
       them is the length of their digests ([HashLaws], instance [toy_lib]).
    7. The BLAKE functions of the Ethash variants.  Blocks: memcpy, and cutting a
       message into blocks so that the last is not known to be full before it is
       over; Arx: the rounds of columns and diagonals on a 4x4 matrix of words.
       Blake2b: libubqhash/blake2.c, blake2.h and blake2-impl.h against RFC 7693.
       Blake3 and Blake3Tree: the BLAKE3 of libethhashb3/internal.c and internal.h
       against the tree of the specification; Blake3 has the code and the chunks,
       Blake3Tree the stack of chaining values and the hasher.
    8. SHA-2.  Sha2: FIPS 180-4, its constants from the fractional parts of roots of
       primes, and the lemmas both widths share.  Sha512: libmultihash/sha512_256.c and
       .h, streaming.  Dcrypt: libmultihash/dcrypt.c, its own SHA-256 and the walk over
       hex strings built on it.
    9. MegaBtx: libmultihash/megabtx.c, next_permutation and the three groups of hash
       functions in the orders it makes; over [HashLib] like part 6.  Swaps has the
       swaps of two entries of a list, which part 11 shares.
    10. FixedChains: the hashes of libmultihash with a fixed order (x11.c, c11.c, x13.c,
       x14.c, x15.c, x17.c, quark.c, hmq17.c, skydoge.c, qubit.c, nist5.c, phi.c, geek.c,
       s3.c, fresh.c, shavite3.c, groestl.c) as programs over uninitialised buffers, with
       a static analysis; over [HashLib] and sm3.
    11. ProgPoW (libkawpow, libmeowpow, libmerakipow, libfiropow, libsccpow,
       libprogpowz: ethash/ethash.cpp, ethash.hpp, ethash-internal.hpp, progpow.cpp,
       progpow.hpp, kiss99.hpp, bit_manipulation.h, managed.cpp).
       - ProgpowDag: epoch contexts over the class [DagParams] of what the libraries
         change (laws [DagLaws]): the light cache, the dataset items, the L1 cache and
         the lazy lookups that fill the dataset of a full context.
       - ProgpowEthash: the Ethash hash over either kind of context, its verification,
         the searches, find_epoch_number.
       - Progpow: the random program, the rounds, hash, verify, hashext and the searches
         over the class [ProgpowParams] (laws [ProgpowLaws]).
       - ProgpowLibs: the instances of the six libraries and the properties of the
         family; ProgpowVariants: a Module per library with its own functions.
       - ProgpowManaged: the global contexts of managed.cpp, a state machine whose steps
         are those of any number of threads, each with the condition it waits for.

    Part 3 calls part 2, part 4 parts 2 and 7, part 11 parts 2 and 5 (and part 4 for the
    light cache it compares with); the others stand alone (their callers are C++ or C#).

    ** How the C code is modelled

    Fallible code returns [option]: [None] is undefined behaviour (signed overflow,
    access outside an array, division by zero, an uninitialised read), a failed
    assert, a null pointer read or written, or a loop that would not end; a return value that reports an error is a
    value ([Some None], a success flag).  The monad is [bind] with the notation
    [let! x := m in k] below.  Signed arithmetic is checked in CInt; unsigned
    arithmetic wraps with [u32], [u64].  Left shifts of negative carries and
    narrowing conversions behave as GCC and MSVC define them.  Hosts are
    little-endian; the fix_endian macros are then empty.  Output buffers are
    results; functions whose outputs alias their inputs (ge_ functions, in-place
    tree levels, in-place hashing) read before they write, or are modelled on one
    buffer updated entry by entry where the order matters (TreeHash).

    Loops over data are structural or take fuel.  The fuel is always a bound the
    data gives: the number of bytes left for the absorbing loops (each step drops a
    block), 64 for the levels of tree_hash (each halves a 64-bit count), the number
    of entries for the others, the square root and the bound for the prime search,
    64 for the merges of BLAKE3 (each halves a 64-bit count of chunks);
    the theorems state that a result is returned, so running out is excluded.

    ** What the theorems show

    - Field and scalar arithmetic never overflows within its bounds and computes
      modulo p = 2^255 - 19 and modulo the group order (fe_mul_correct,
      fe_tobytes_canonical, fe_invert_correct, sc_reduce_correct,
      sc_mulsub_correct, ...); fe_sq is fe_mul, sc_reduce32 is sc_reduce.
    - Point operations, encoding and decoding refine the group of the curve: scalar
      multiplications give a*A and a*A + b*B, decoding accepts exactly the encodings
      of points and round-trips with encoding, the table entries are the multiples
      they are documented to be, the assertions of ge_fromfe_frombytes_vartime never
      fail.
    The permutations are FIPS 202's; the three block-handling strategies are the
      same sponge below 2^31 bytes, where libcryptonote's length is still the int it
      narrows to; the SHA-3 context gives one digest however a message is cut.
    - tree_hash builds the documented tree without reading an entry it has not
      written; branches round-trip and bind their leaf up to a hash collision that
      is computed.
    - Ethash: light and full clients agree on every header and nonce, every block the
      tables cover gives a client that computes a hash, and the quick check accepts
      a share exactly when its hash is at most the boundary.
    - The variants: the same path of a share, with the functions and the epochs each
      changes (ubqhash_share: the cache of RFC 7693's BLAKE2b from epoch 22 on;
      ethashb3_share: results hashed with BLAKE3; etchash_share: epochs that double at
      the fork, with the seed of every block), and where they go wrong: libetchash reads
      past its tables, its seeds do not double with its epochs, the 32-bit counter of a
      seed never reaches 2^32 epochs, and the quick check of libethhashb3 uses another
      hash than its ethash_hash.
    - BLAKE2b and BLAKE3 (hash, keyed and key-derivation modes) return the digest of
      their specifications however a message is cut into updates; blake2b refuses
      exactly the arguments its checks name.
    - ethash_find_largest_prime terminates and meets its header's contract.
    - x16r and x16rv2 run the algorithms of the hex digits of the previous block's
      first eight bytes, x16s and x21s a permutation of the sixteen algorithms, and
      the result does not depend on the uninitialised buffers; from 2^31 bytes on the
      length becomes negative and they read past the input; minotaurx walks seven
      nodes and always ends at its yespower gate.
    - The hashes of a fixed order compute their chains without reading a byte of their
      buffers before it is written (fixed_chains_correct).
    - SHA-512/256 is FIPS 180-4's however a message is cut; the SHA-256 of dcrypt.c is
      FIPS 180-4's except for three lengths modulo 64, where one block is missing.
      dcrypt's walk ends without an access outside the blocks it asks malloc for, and
      the call returns the specified digest exactly when malloc gives two of its blocks
      room for SHA-256's padding, which it does not ask for; otherwise it writes past
      them.
    - An epoch context is created for every epoch whose sizes fit an int; light and full
      contexts give the same hashes over any sequence of them (progpow_contexts_agree),
      which for libprogpowz are those of libethhash's clients, made from its size tables,
      where the hash is Ethash's; verify and hashext
      accept exactly the shares; a search finds the first solution of its range; the
      random program permutes the registers from every seed; and a full context must not
      serve the Ethash and the ProgPoW hash in turn (mixed_lookups).
    - The global contexts: however the calls of several threads and their hashes over
      light contexts interleave, no freed context is read, every thread gets a context of
      the epoch it asked for, no schedule of enabled steps deadlocks, and every call ends
      in three steps at most (global_contexts_safe, global_contexts_return).
    - next_permutation goes through the permutations in lexicographic order without
      leaving its array; megabtx_hash runs each function of a group once, in the order
      the timestamp ranks, up to what the last loop reads of uninitialised entries, the
      only uninitialised memory its result depends on.

    ** Bounds

    The limb bounds are the ones of the comments in crypto-ops.c, widened where the
    callers exceed them ([fe_bd]); scalars have a[31] <= 127 where the
    recodings need it (slide loses a carry above 2^253 + 1); lists of hashes are
    shorter than 2^58, datasets below 2^38 bytes, messages of BLAKE3 below 2^64 bytes
    (its counter of chunks and its stack of 54 values), of SHA-2 below 2^29 bytes (32-bit
    bit counts; dcrypt inputs below 2^28), so that the C counters do not wrap, of
    cn_fast_hash, x16s, x21s, x16r and x16rv2 below 2^31 (an int length; what happens
    above is stated with them); blocks below 2^64, whose epochs end seed_loop below 2^32 in
    as many iterations as its fuel; the walk of dcrypt appends 64 characters a step up to 2^20, so 16385 steps are enough;
    headers have the 12 (x16), 72 (megabtx) or 80 (minotaurx) bytes the chained hashes read.
    ProgPoW epochs are below 32640 (libkawpow, libmerakipow, libprogpowz), 32576
    (libfiropow, libsccpow) and 8160 (libmeowpow), the last whose dataset has at most
    2^31 - 1 items; the fuel of a search is the length of its range.  In ProgpowManaged
    the statements behind the mutex are three steps, a hash over a light context, which
    only reads it, is one, and addresses are any that the heap does not use.

    ** Not modelled

    The managed code; C++ (libzanonote and libcryptonote block parsing, CryptoNight,
    RandomX, Verus, Dero, BeamHash); vendored libraries (sphlib, scrypt, yescrypt,
    Argon2, libsais); files and memory maps of the Ethash libraries; SSE2 paths; the
    destroy functions of ProgPoW contexts, and hashes of several threads over one shared
    full context, which race on the check and the store of its lazy dataset (a finding;
    one thread's hashes over a full context are modelled).  libphihash sizes its dataset with std::pow on doubles, for which the
    models have no semantics.  Copies of the modelled C files in other libraries (the
    Keccak and primes files of the ProgPoW libraries and libphihash, the curve code of
    libzanonote) are not modelled again.  What a further version could add over the same
    interfaces: the chains over Lyra2 and SWIFFTX (x22i.c, phi2.c, allium.c, Lyra2RE.c),
    the portable Haraka of libverushash, libphihash over a parameter for its sizes.

    ** This file

    The error monad and its reasoning rules ([safe], [safe_bind]), congruence modulo
    n as a setoid, little-endian values of byte strings and limb lists. *)
From Stdlib Require Import ZArith Lia List Bool Setoid Morphisms.
Import ListNotations.
Local Open Scope Z_scope.

(** ** The error monad of the models

    [None] is undefined behaviour of the C program (a signed overflow, a read
    outside an array) or a failed assertion. *)

Definition bind {A B : Type} (m : option A) (k : A -> option B) : option B :=
  match m with
  | Some a => k a
  | None => None
  end.

Notation "'let!' x := m 'in' k" := (bind m (fun x => k))
  (at level 10, x pattern, m at level 200, k at level 200).

(** assert(b). *)
Definition c_assert (b : bool) : option unit := if b then Some tt else None.

(** [safe m Q]: the computation [m] is defined and its result satisfies [Q]. *)
Definition safe {A : Type} (m : option A) (Q : A -> Prop) : Prop :=
  match m with
  | Some a => Q a
  | None => False
  end.

Lemma safe_some {A} (m : option A) (Q : A -> Prop) :
  safe m Q -> exists a, m = Some a /\ Q a.
Proof. destruct m as [a|]; simpl; [eauto | tauto]. Qed.

Lemma safe_bind {A B} (m : option A) (k : A -> option B) (P : A -> Prop) (Q : B -> Prop) :
  safe m P -> (forall a, P a -> safe (k a) Q) -> safe (bind m k) Q.
Proof. destruct m; simpl; auto. Qed.

Lemma safe_mono {A} (m : option A) (P Q : A -> Prop) :
  safe m P -> (forall a, P a -> Q a) -> safe m Q.
Proof. destruct m; simpl; auto. Qed.

Lemma bind_Some {A B} (m : option A) (k : A -> option B) b :
  bind m k = Some b -> exists a, m = Some a /\ k a = Some b.
Proof. destruct m as [a|]; simpl; [eauto | discriminate]. Qed.

Lemma safe_eq {A} (m : option A) a : safe m (fun x => x = a) -> m = Some a.
Proof. destruct m; simpl; [intros -> | intros []]; reflexivity. Qed.

(** A loop over a list. *)
Fixpoint foldM {A B} (f : A -> B -> option A) (a : A) (l : list B) : option A :=
  match l with
  | [] => Some a
  | b :: l => let! a := f a b in foldM f a l
  end.

(** A loop whose steps are defined and keep an invariant. *)
Lemma foldM_safe {A B} (P : A -> Prop) (f : A -> B -> option A) l :
  (forall a b, In b l -> P a -> safe (f a b) P) -> forall a, P a -> safe (foldM f a l) P.
Proof.
  induction l as [|b l IH]; intros St a Pa; [exact Pa|]. cbn [foldM].
  eapply safe_bind; [apply (St a b); [now left | exact Pa]|]. intros a' Pa'. apply IH; [|exact Pa'].
  intros a'' b' I. apply St. now right.
Qed.

(** Two loops with the same steps on the states of an invariant. *)
Lemma foldM_ext {A B} (P : A -> Prop) (f g : A -> B -> option A) l :
  (forall a b, In b l -> P a -> f a b = g a b /\ safe (f a b) P) -> forall a, P a -> foldM f a l = foldM g a l.
Proof.
  induction l as [|b l IH]; intros St a Pa; [reflexivity|]. cbn [foldM].
  destruct (St a b (or_introl eq_refl) Pa) as [E S]. rewrite <- E. apply safe_some in S. destruct S as (a' & -> & Pa').
  cbn [bind]. apply IH; [|exact Pa']. intros a'' b' I. apply St. now right.
Qed.

Lemma foldM_ext_eq {A B} (f g : A -> B -> option A) : (forall a b, f a b = g a b) -> forall l a, foldM f a l = foldM g a l.
Proof.
  intros E l. induction l as [|b l IH]; intros a; [reflexivity|]. cbn [foldM]. rewrite E.
  destruct (g a b) as [a'|]; [apply IH | reflexivity].
Qed.

Lemma fold_left_ext_inv {A B} (P : A -> Prop) (f g : A -> B -> A) l :
  (forall a b, In b l -> P a -> f a b = g a b /\ P (g a b)) -> forall a, P a ->
  fold_left f l a = fold_left g l a /\ P (fold_left f l a).
Proof.
  induction l as [|b l IH]; intros St a Pa; [split; [reflexivity | exact Pa]|]. cbn [fold_left].
  destruct (St a b (or_introl eq_refl) Pa) as [E Pb]. rewrite E. apply IH; [|exact Pb].
  intros a' b' I. apply St. now right.
Qed.

Lemma drop_repeat {A} (x : A) k : forall n, skipn k (repeat x n) = repeat x (n - k)%nat.
Proof. induction k as [|k IH]; intros [|n]; try reflexivity. exact (IH n). Qed.

(** Splits the conjunctions that are visible, without unfolding predicates. *)
Ltac conjs := repeat lazymatch goal with |- _ /\ _ => split end.

(** ** Congruence modulo [n], as a setoid *)

Definition cong (n a b : Z) : Prop := a mod n = b mod n.

Notation "a =[ n ]= b" := (cong n a b) (at level 70, n at level 200, b at next level).

#[export] Instance cong_equiv n : Equivalence (cong n).
Proof.
  split; unfold cong; repeat intro; congruence.
Qed.

#[export] Instance cong_add n : Proper (cong n ==> cong n ==> cong n) Z.add.
Proof. intros a a' E b b' F. unfold cong in *. rewrite Zplus_mod, E, F, <- Zplus_mod. reflexivity. Qed.

#[export] Instance cong_mul n : Proper (cong n ==> cong n ==> cong n) Z.mul.
Proof. intros a a' E b b' F. unfold cong in *. rewrite Zmult_mod, E, F, <- Zmult_mod. reflexivity. Qed.

#[export] Instance cong_sub n : Proper (cong n ==> cong n ==> cong n) Z.sub.
Proof. intros a a' E b b' F. unfold cong in *. rewrite Zminus_mod, E, F, <- Zminus_mod. reflexivity. Qed.

#[export] Instance cong_opp n : Proper (cong n ==> cong n) Z.opp.
Proof.
  intros a a' E. rewrite <- (Z.sub_0_l a), <- (Z.sub_0_l a'). apply cong_sub; [reflexivity | exact E].
Qed.

#[export] Instance cong_pow n : Proper (cong n ==> eq ==> cong n) Z.pow.
Proof.
  intros a a' E k k' <-. destruct (Z.neg_nonneg_cases k) as [K|K].
  - rewrite !Z.pow_neg_r by exact K. reflexivity.
  - revert k K. refine (natlike_ind _ _ _).
    + reflexivity.
    + intros k K IH. rewrite !Z.pow_succ_r by exact K. apply cong_mul; assumption.
Qed.

(** A multiple of the modulus can be dropped. *)
Lemma cong_quot n a b k : a = b + k * n -> a =[n]= b.
Proof. intros ->. unfold cong. apply Z_mod_plus_full. Qed.

Lemma cong_drop n a k : a - k * n =[n]= a.
Proof. apply (cong_quot n _ _ (- k)). ring. Qed.

Lemma cong_iff n a b : n <> 0 -> (a =[n]= b) <-> exists k, a = b + k * n.
Proof.
  intros N. split.
  - intros E. exists (a / n - b / n). unfold cong in E.
    pose proof (Z.div_mod a n N). pose proof (Z.div_mod b n N). nia.
  - intros [k ->]. unfold cong. apply Z_mod_plus_full.
Qed.

Lemma cong_mod n a : n <> 0 -> a mod n =[n]= a.
Proof. intros N. unfold cong. now rewrite Zmod_mod. Qed.

(** ** Bytes and positional values *)

Definition is_byte (b : Z) : Prop := 0 <= b < 256.

(** The integer of a little-endian byte string. *)
Fixpoint le_val (s : list Z) : Z :=
  match s with
  | [] => 0
  | b :: s' => b + 256 * le_val s'
  end.

(** The value of a list of limbs, each with the width of its position. *)
Fixpoint limbs_val (l : list (Z * Z)) : Z :=
  match l with
  | [] => 0
  | (x, w) :: l' => x + 2 ^ w * limbs_val l'
  end.

(** Limbs in their canonical range. *)
Definition limbs_ok (l : list (Z * Z)) : Prop := Forall (fun '(x, w) => 0 <= w /\ 0 <= x < 2 ^ w) l.

Definition limbs_width (l : list (Z * Z)) : Z := fold_right (fun xw acc => snd xw + acc) 0 l.

Lemma le_val_bound s : Forall is_byte s -> 0 <= le_val s < 2 ^ (8 * Z.of_nat (length s)).
Proof.
  induction 1 as [|b s B _ IH]; cbn [le_val]; [simpl; lia|].
  replace (8 * Z.of_nat (length (b :: s))) with (8 + 8 * Z.of_nat (length s))
    by (simpl length; lia).
  rewrite Z.pow_add_r by lia. unfold is_byte in B. change (2 ^ 8) with 256. nia.
Qed.

Lemma le_val_app s t : le_val (s ++ t) = le_val s + 2 ^ (8 * Z.of_nat (length s)) * le_val t.
Proof.
  induction s as [|b s IH]; cbn [le_val app].
  - replace (8 * Z.of_nat (length (@nil Z))) with 0 by reflexivity. rewrite Z.pow_0_r. lia.
  - rewrite IH.
    replace (8 * Z.of_nat (length (b :: s))) with (8 + 8 * Z.of_nat (length s))
      by (simpl length; lia).
    rewrite Z.pow_add_r by lia. change (2 ^ 8) with 256. ring.
Qed.

Lemma limbs_val_bound l : limbs_ok l -> 0 <= limbs_val l < 2 ^ limbs_width l /\ 0 <= limbs_width l.
Proof.
  induction 1 as [|[x w] l [W X] _ [IH IW]]; [simpl; lia|].
  cbn [limbs_val]. change (limbs_width ((x, w) :: l)) with (w + limbs_width l). rewrite Z.pow_add_r by assumption.
  pose proof (Z.pow_pos_nonneg 2 w). nia.
Qed.

(** Dividing by the weight of a prefix drops it. *)
Lemma limbs_val_skip l1 l2 : limbs_ok l1 ->
  limbs_val (l1 ++ l2) / 2 ^ limbs_width l1 = limbs_val l2.
Proof.
  induction 1 as [|[x w] l [W X] Hl IH].
  - apply Z.div_1_r.
  - cbn [limbs_val app]. change (limbs_width ((x, w) :: l)) with (w + limbs_width l).
    pose proof (limbs_val_bound l Hl) as [_ LW].
    pose proof (Z.pow_pos_nonneg 2 w ltac:(lia) W).
    pose proof (Z.pow_pos_nonneg 2 (limbs_width l) ltac:(lia) LW).
    rewrite Z.pow_add_r by assumption. rewrite <- Z.div_div by lia.
    rewrite (Z.mul_comm (2 ^ w)), Z.div_add by lia.
    rewrite (Z.div_small x) by lia. rewrite Z.add_0_l. exact IH.
Qed.

Lemma pow2_split a b : 0 <= a <= b -> 2 ^ b = 2 ^ a * 2 ^ (b - a).
Proof. intros H. rewrite <- Z.pow_add_r by lia. f_equal. lia. Qed.

(** The [n]-byte little-endian encoding of an integer. *)
Definition le_bytes (n : nat) (v : Z) : list Z :=
  map (fun j => (v / 2 ^ (8 * Z.of_nat j)) mod 256) (seq 0 n).

Lemma length_le_bytes n v : length (le_bytes n v) = n.
Proof. unfold le_bytes. now rewrite length_map, length_seq. Qed.

Lemma le_bytes_byte n v : Forall is_byte (le_bytes n v).
Proof.
  unfold le_bytes. apply Forall_forall. intros x Hx.
  apply in_map_iff in Hx. destruct Hx as (j & <- & _). unfold is_byte. apply Z.mod_pos_bound. lia.
Qed.

Lemma le_bytes_S n v : le_bytes (S n) v = v mod 256 :: le_bytes n (v / 256).
Proof.
  unfold le_bytes. cbn [seq map]. f_equal.
  - change (8 * Z.of_nat 0) with 0. now rewrite Z.pow_0_r, Z.div_1_r.
  - rewrite <- seq_shift, map_map. apply map_ext. intros j.
    replace (8 * Z.of_nat (S j)) with (8 + 8 * Z.of_nat j) by lia.
    rewrite (Z.pow_add_r 2 8) by lia. change (2 ^ 8) with 256.
    rewrite Z.div_div; [reflexivity | lia | apply Z.pow_pos_nonneg; lia].
Qed.

Lemma le_val_le_bytes n v : le_val (le_bytes n v) = v mod 2 ^ (8 * Z.of_nat n).
Proof.
  revert v. induction n as [|n IH]; intros v.
  - simpl. now rewrite Z.mod_1_r.
  - rewrite le_bytes_S. cbn [le_val]. rewrite IH.
    replace (8 * Z.of_nat (S n)) with (8 + 8 * Z.of_nat n) by lia.
    rewrite (Z.pow_add_r 2 8) by lia. change (2 ^ 8) with 256.
    rewrite Z.rem_mul_r; [lia | lia | apply Z.pow_pos_nonneg; lia].
Qed.

Lemma le_bytes_le_val s : Forall is_byte s -> le_bytes (length s) (le_val s) = s.
Proof.
  induction 1 as [|b s B _ IH]; [reflexivity|].
  cbn [length le_val]. rewrite le_bytes_S. unfold is_byte in B.
  rewrite (Z.mul_comm 256), Z_mod_plus_full, Z.mod_small by lia.
  rewrite Z.div_add, (Z.div_small b) by lia. now rewrite Z.add_0_l, IH.
Qed.

(** The hex digits of a byte of a number. *)
Lemma nibbles v k : 0 <= k -> (v / 2 ^ k) mod 256 / 16 = (v / 2 ^ (k + 4)) mod 16 /\
  ((v / 2 ^ k) mod 256) mod 16 = (v / 2 ^ k) mod 16.
Proof.
  intros H. rewrite Z.pow_add_r, <- Z.div_div by (try apply Z.pow_nonzero; lia). change (2 ^ 4) with 16.
  generalize (v / 2 ^ k). intros w.
  assert (E : w mod 256 = w mod 16 + (w / 16) mod 16 * 16)
    by (change 256 with (16 * 16); rewrite Z.rem_mul_r by lia; ring).
  rewrite E. split.
  - rewrite Z.div_add, (Z.div_small (w mod 16)) by (apply Z.mod_pos_bound || lia; lia). apply Z.add_0_l.
  - rewrite Z_mod_plus_full. apply Z.mod_mod. lia.
Qed.

(** Big-endian values. *)
Definition be_val (b : list Z) : Z := le_val (rev b).
Definition be_bytes (n : nat) (v : Z) : list Z := rev (le_bytes n v).

Lemma be_val_bound b : Forall is_byte b -> 0 <= be_val b < 2 ^ (8 * Z.of_nat (length b)).
Proof. intros F. unfold be_val. rewrite <- length_rev. apply le_val_bound. now apply Forall_rev. Qed.

Lemma be_bytes_byte n v : Forall is_byte (be_bytes n v).
Proof. apply Forall_rev, le_bytes_byte. Qed.

Lemma length_be_bytes n v : length (be_bytes n v) = n.
Proof. unfold be_bytes. now rewrite length_rev, length_le_bytes. Qed.

(** One byte of a limb string, read from two neighbouring limbs. *)
Lemma lor_shift_add a b w k : 0 <= k <= w -> 0 <= a < 2 ^ w ->
  Z.lor (Z.shiftr a k) (Z.shiftl b (w - k)) = a / 2 ^ k + b * 2 ^ (w - k).
Proof.
  intros K A. rewrite Z.shiftr_div_pow2, Z.shiftl_mul_pow2 by lia.
  assert (Q : 0 <= a / 2 ^ k < 2 ^ (w - k)).
  { split; [apply Z.div_pos; [lia | apply Z.pow_pos_nonneg; lia]|].
    apply Z.div_lt_upper_bound; [apply Z.pow_pos_nonneg; lia|].
    rewrite <- pow2_split by lia. lia. }
  symmetry. rewrite <- Z.lxor_lor.
  - apply Z.add_nocarry_lxor. apply Z.bits_inj'. intros n Hn.
    rewrite Z.land_spec, Z.bits_0, <- Z.shiftl_mul_pow2 by lia.
    destruct (Z.lt_ge_cases n (w - k)) as [L|G].
    + rewrite Z.shiftl_spec_low by exact L. apply andb_false_r.
    + rewrite <- (Z.mod_small _ _ Q), Z.mod_pow2_bits_high by lia. reflexivity.
  - apply Z.bits_inj'. intros n Hn.
    rewrite Z.land_spec, Z.bits_0, <- Z.shiftl_mul_pow2 by lia.
    destruct (Z.lt_ge_cases n (w - k)) as [L|G].
    + rewrite Z.shiftl_spec_low by exact L. apply andb_false_r.
    + rewrite <- (Z.mod_small _ _ Q), Z.mod_pow2_bits_high by lia. reflexivity.
Qed.

Lemma mod_256_drop v w : 8 <= w -> forall x, (x + 2 ^ w * v) mod 256 = x mod 256.
Proof.
  intros W x. replace (2 ^ w * v) with ((2 ^ (w - 8) * v) * 256).
  - apply Z_mod_plus_full.
  - replace 256 with (2 ^ 8) by reflexivity. rewrite (pow2_split 8 w) by lia. ring.
Qed.
