(* ===== verification/CInt.v ===== *)
(** C integers: int32_t and int64_t operations that fail on a signed overflow, the
    modular conversions, interval reasoning about chains of checked operations, and
    the carries the limb arithmetic is made of. *)
From Stdlib Require Import ZArith Lia List Bool.
From S2P Require Import Prelude.
Import ListNotations.
Local Open Scope Z_scope.

Inductive ity : Set := I32 | I64.

Definition imin (t : ity) : Z :=
  match t with I32 => -2147483648 | I64 => -9223372036854775808 end.
Definition imax (t : ity) : Z :=
  match t with I32 => 2147483647 | I64 => 9223372036854775807 end.

Definition cint := option Z.
Definition cret (z : Z) : cint := Some z.
Coercion cret : Z >-> cint.

Definition ck (t : ity) (z : Z) : cint :=
  if (imin t <=? z) && (z <=? imax t) then Some z else None.

(** Two's-complement reduction to the width of [t]. *)
Definition wrap (t : ity) (z : Z) : Z :=
  (z - imin t) mod (imax t - imin t + 1) + imin t.

(** Addition, subtraction, multiplication and negation are checked: [None] on
    a signed overflow.  A left shift of a signed operand loses the bits that
    leave the word, which is what GCC and MSVC define it to be (ISO C leaves a
    shift of a negative operand undefined, and the sources shift negative
    carries); a right shift is arithmetic. *)
Definition lift1 (f : Z -> cint) (a : cint) : cint :=
  match a with Some x => f x | None => None end.
Definition lift2 (f : Z -> Z -> cint) (a b : cint) : cint :=
  match a, b with Some x, Some y => f x y | _, _ => None end.

Definition i_add (t : ity) : cint -> cint -> cint := lift2 (fun x y => ck t (x + y)).
Definition i_sub (t : ity) : cint -> cint -> cint := lift2 (fun x y => ck t (x - y)).
Definition i_mul (t : ity) : cint -> cint -> cint := lift2 (fun x y => ck t (x * y)).
Definition i_opp (t : ity) : cint -> cint := lift1 (fun x => ck t (- x)).
Definition i_shl (t : ity) (a : cint) (k : Z) : cint :=
  lift1 (fun x => Some (wrap t (Z.shiftl x k))) a.
Definition i_shr (a : cint) (k : Z) : cint := lift1 (fun x => Some (Z.shiftr x k)) a.
Definition i_or : cint -> cint -> cint := lift2 (fun x y => Some (Z.lor x y)).
Definition i_and : cint -> cint -> cint := lift2 (fun x y => Some (Z.land x y)).
Definition i_xor : cint -> cint -> cint := lift2 (fun x y => Some (Z.lxor x y)).

(** Conversions to narrower types: modular, as GCC and MSVC define them. *)
Definition to_i32 (z : Z) : Z := (z + 2147483648) mod 4294967296 - 2147483648.
Definition to_u8 (z : Z) : Z := z mod 256.
Definition u32 (z : Z) : Z := z mod 4294967296.
Definition u64 (z : Z) : Z := z mod 18446744073709551616.

(** An unsigned int from 2^31 on becomes negative. *)
Lemma to_i32_negative z : 2147483648 <= z < 4294967296 -> to_i32 z = z - 4294967296.
Proof.
  intros H. unfold to_i32. rewrite (Z.mod_eq (z + _)) by lia.
  assert (D : (z + 2147483648) / 4294967296 = 1) by (symmetry; apply (Z.div_unique _ _ _ (z - 2147483648)); lia).
  rewrite D. lia.
Qed.

Lemma to_i32_id z : imin I32 <= z <= imax I32 -> to_i32 z = z.
Proof. unfold to_i32, imin, imax. intros H. rewrite Z.mod_small; lia. Qed.

Declare Scope i32_scope.
Delimit Scope i32_scope with i32.
Declare Scope i64_scope.
Delimit Scope i64_scope with i64.

Notation "a + b" := (i_add I64 a b) : i64_scope.
Notation "a - b" := (i_sub I64 a b) : i64_scope.
Notation "a * b" := (i_mul I64 a b) : i64_scope.
Notation "- a" := (i_opp I64 a) : i64_scope.
Notation "a << k" := (i_shl I64 a k%Z) (at level 54, left associativity) : i64_scope.
Notation "a >> k" := (i_shr a k%Z) (at level 54, left associativity) : i64_scope.
Notation "a .| b" := (i_or a b) (at level 58, left associativity) : i64_scope.
Notation "a .& b" := (i_and a b) (at level 57, left associativity) : i64_scope.

Notation "a + b" := (i_add I32 a b) : i32_scope.
Notation "a - b" := (i_sub I32 a b) : i32_scope.
Notation "a * b" := (i_mul I32 a b) : i32_scope.
Notation "- a" := (i_opp I32 a) : i32_scope.
Notation "a << k" := (i_shl I32 a k%Z) (at level 54, left associativity) : i32_scope.
Notation "a >> k" := (i_shr a k%Z) (at level 54, left associativity) : i32_scope.
Notation "a .| b" := (i_or a b) (at level 58, left associativity) : i32_scope.
Notation "a .& b" := (i_and a b) (at level 57, left associativity) : i32_scope.

(** ** Interval reasoning *)

Definition rng (e : cint) (v lo hi : Z) : Prop := e = Some v /\ lo <= v <= hi.

Definition fits (t : ity) (lo hi : Z) : bool := (imin t <=? lo) && (hi <=? imax t).

Lemma ck_ok t z lo hi : lo <= z <= hi -> fits t lo hi = true -> ck t z = Some z.
Proof.
  unfold fits, ck. intros [H1 H2] H. apply andb_true_iff in H.
  destruct H as [A B]. apply Z.leb_le in A, B.
  destruct (Z.leb_spec (imin t) z), (Z.leb_spec z (imax t)); simpl; auto; lia.
Qed.

Lemma wrap_ok t z lo hi : lo <= z <= hi -> fits t lo hi = true -> wrap t z = z.
Proof.
  unfold fits, wrap. intros Z H. apply andb_true_iff in H. destruct H as [A B].
  apply Z.leb_le in A, B. rewrite Z.mod_small by lia. lia.
Qed.

Lemma wrap_mod_256 t z : wrap t z mod 256 = z mod 256.
Proof.
  unfold wrap. destruct t; cbn [imin imax]; Z.div_mod_to_equations; lia.
Qed.

Lemma rng_lit c : rng (cret c) c c c.
Proof. split; [reflexivity | lia]. Qed.

Lemma rng_var x lo hi : lo <= x <= hi -> rng (cret x) x lo hi.
Proof. split; auto. Qed.

Lemma rng_add t a b x y l1 h1 l2 h2 lo hi :
  rng a x l1 h1 -> rng b y l2 h2 -> l1 + l2 = lo -> h1 + h2 = hi ->
  fits t lo hi = true -> rng (i_add t a b) (x + y) lo hi.
Proof.
  intros [-> B1] [-> B2] <- <- F. split; [|lia].
  simpl. eapply ck_ok; [|exact F]. lia.
Qed.

Lemma rng_sub t a b x y l1 h1 l2 h2 lo hi :
  rng a x l1 h1 -> rng b y l2 h2 -> l1 - h2 = lo -> h1 - l2 = hi ->
  fits t lo hi = true -> rng (i_sub t a b) (x - y) lo hi.
Proof.
  intros [-> B1] [-> B2] <- <- F. split; [|lia].
  simpl. eapply ck_ok; [|exact F]. lia.
Qed.

Lemma i_add_some t x y : imin t <= x + y <= imax t -> i_add t (cret x) (cret y) = Some (x + y).
Proof. intros H. cbn. apply (ck_ok t _ _ _ H). unfold fits. rewrite !Z.leb_refl. reflexivity. Qed.

Lemma i_sub_some t x y : imin t <= x - y <= imax t -> i_sub t (cret x) (cret y) = Some (x - y).
Proof. intros H. cbn. apply (ck_ok t _ _ _ H). unfold fits. rewrite !Z.leb_refl. reflexivity. Qed.

Lemma i_opp_some t x : imin t <= - x <= imax t -> i_opp t (cret x) = Some (- x).
Proof. intros H. cbn. apply (ck_ok t _ _ _ H). unfold fits. rewrite !Z.leb_refl. reflexivity. Qed.

Definition mul_lo (l1 h1 l2 h2 : Z) : Z := Z.min (Z.min (l1 * l2) (l1 * h2)) (Z.min (h1 * l2) (h1 * h2)).
Definition mul_hi (l1 h1 l2 h2 : Z) : Z := Z.max (Z.max (l1 * l2) (l1 * h2)) (Z.max (h1 * l2) (h1 * h2)).

Lemma mul_bound x y l1 h1 l2 h2 : l1 <= x <= h1 -> l2 <= y <= h2 ->
  mul_lo l1 h1 l2 h2 <= x * y <= mul_hi l1 h1 l2 h2.
Proof.
  intros Hx Hy. unfold mul_lo, mul_hi.
  assert (A : Z.min (l1 * y) (h1 * y) <= x * y <= Z.max (l1 * y) (h1 * y)).
  { destruct (Z.le_ge_cases 0 y); nia. }
  assert (B : forall c, Z.min (c * l2) (c * h2) <= c * y <= Z.max (c * l2) (c * h2)).
  { intros c. destruct (Z.le_ge_cases 0 c); nia. }
  pose proof (B l1). pose proof (B h1). lia.
Qed.

Lemma rng_mul t a b x y l1 h1 l2 h2 lo hi :
  rng a x l1 h1 -> rng b y l2 h2 ->
  mul_lo l1 h1 l2 h2 = lo -> mul_hi l1 h1 l2 h2 = hi ->
  fits t lo hi = true -> rng (i_mul t a b) (x * y) lo hi.
Proof.
  intros [-> B1] [-> B2] <- <- F. pose proof (mul_bound _ _ _ _ _ _ B1 B2).
  split; [|lia]. simpl. eapply ck_ok; [|exact F]. lia.
Qed.

Lemma rng_opp t a x l h lo hi :
  rng a x l h -> - h = lo -> - l = hi -> fits t lo hi = true -> rng (i_opp t a) (- x) lo hi.
Proof.
  intros [-> B] <- <- F. split; [|lia]. simpl. eapply ck_ok; [|exact F]. lia.
Qed.

Lemma rng_shl t a k x l h lo hi :
  rng a x l h -> 0 <= k -> l * 2 ^ k = lo -> h * 2 ^ k = hi -> fits t lo hi = true ->
  rng (i_shl t a k) (x * 2 ^ k) lo hi.
Proof.
  intros [-> B] K <- <- F. assert (0 < 2 ^ k) by (apply Z.pow_pos_nonneg; lia).
  assert (l * 2 ^ k <= x * 2 ^ k <= h * 2 ^ k) by nia.
  split; [|lia]. simpl. rewrite Z.shiftl_mul_pow2 by exact K. f_equal. eapply wrap_ok; [|exact F]. lia.
Qed.

Lemma rng_shr a k x l h lo hi :
  rng a x l h -> 0 <= k -> l / 2 ^ k = lo -> h / 2 ^ k = hi ->
  rng (i_shr a k) (x / 2 ^ k) lo hi.
Proof.
  intros [-> B] K <- <-. assert (0 < 2 ^ k) by (apply Z.pow_pos_nonneg; lia).
  split; [simpl; now rewrite Z.shiftr_div_pow2 by exact K|].
  split; apply Z.div_le_mono; lia.
Qed.

Lemma safe_rng {B} e v lo hi (k : Z -> option B) (Q : B -> Prop) :
  rng e v lo hi -> (forall x, x = v -> lo <= x <= hi -> safe (k x) Q) -> safe (bind e k) Q.
Proof. intros [-> R] H. simpl. apply H; auto. Qed.

Ltac zcst z :=
  lazymatch z with
  | Z0 => idtac
  | Zpos _ => idtac
  | Zneg _ => idtac
  | _ => fail
  end.

Ltac zeval :=
  lazymatch goal with
  | |- ?a = ?e => let v := eval vm_compute in a in unify e v; exact (eq_refl v)
  end.

Ltac rng_go :=
  lazymatch goal with
  | |- rng (cret ?x) _ _ _ =>
      first [ zcst x; exact (rng_lit x)
            | match goal with H : ?l <= x <= ?h |- _ => exact (rng_var x l h H) end ]
  | |- rng (i_add _ _ _) _ _ _ => eapply rng_add; [rng_go | rng_go | zeval | zeval | reflexivity]
  | |- rng (i_sub _ _ _) _ _ _ => eapply rng_sub; [rng_go | rng_go | zeval | zeval | reflexivity]
  | |- rng (i_mul _ _ _) _ _ _ => eapply rng_mul; [rng_go | rng_go | zeval | zeval | reflexivity]
  | |- rng (i_opp _ _) _ _ _ => eapply rng_opp; [rng_go | zeval | zeval | reflexivity]
  | |- rng (i_shl _ _ _) _ _ _ => eapply rng_shl; [rng_go | lia | zeval | zeval | reflexivity]
  | |- rng (i_shr _ _) _ _ _ => eapply rng_shr; [rng_go | lia | zeval | zeval]
  end.

Ltac cstep :=
  lazymatch goal with
  | |- safe (bind _ _) _ => eapply safe_rng; [rng_go | intros ? ?Ev ?Bd]
  end.

(** ** The carry step *)

(** [carry = a >> k; a -= carry << k]: the floor carry of the top limb, dropped. *)
Definition fcarry_top (t : ity) (k : Z) (a : Z) : option Z :=
  let! carry := i_shr a k in
  i_sub t a (i_shl t carry k).


(** [carry = (a + (1 << (k-1))) >> k; b += carry; a -= carry << k]: rounding carry. *)
Definition rcarry (t : ity) (k : Z) (a b : Z) : option (Z * Z) :=
  let! carry := i_shr (i_add t a (i_shl t 1 (k - 1))) k in
  let! b := i_add t b carry in
  let! a := i_sub t a (i_shl t carry k) in
  Some (a, b).

(** [carry = (a + (1 << (k-1))) >> k; b += carry * 19; a -= carry << k]: the
    rounding carry of the top limb, which wraps to the bottom one. *)
Definition rcarry19 (t : ity) (k : Z) (a b : Z) : option (Z * Z) :=
  let! carry := i_shr (i_add t a (i_shl t 1 (k - 1))) k in
  let! b := i_add t b (i_mul t carry 19) in
  let! a := i_sub t a (i_shl t carry k) in
  Some (a, b).

(** [carry = a >> k; b += carry; a -= carry << k]: floor carry. *)
Definition fcarry (t : ity) (k : Z) (a b : Z) : option (Z * Z) :=
  let! carry := i_shr a k in
  let! b := i_add t b carry in
  let! a := i_sub t a (i_shl t carry k) in
  Some (a, b).

Lemma scale_bound c lo hi w : 0 <= w -> lo <= c <= hi -> lo * w <= c * w <= hi * w.
Proof. intros W [A B]. split; apply Z.mul_le_mono_nonneg_r; assumption. Qed.

Section CarryLemmas.
Context (t : ity) (k a b la ha lb hb : Z).
Context (Ba : la <= a <= ha) (Bb : lb <= b <= hb).

(** The checks of a rounding carry on the intervals of [a] and [b]: half
    weight [r], weight [w], carry in [clo, chi], new [b] in [lo, hi]. *)
Definition rc_ok (r w clo chi lo hi : Z) : bool :=
  (1 <=? k) && (2 ^ (k - 1) =? r) && (2 ^ k =? w) &&
  ((la + r) / w =? clo) && ((ha + r) / w =? chi) && fits t r r &&
  fits t (la + r) (ha + r) && fits t (clo * w) (chi * w) && fits t (- r) (r - 1) &&
  fits t lo hi.

Definition fc_ok (w clo chi lo hi : Z) : bool :=
  (0 <=? k) && (2 ^ k =? w) && (la / w =? clo) && (ha / w =? chi) &&
  fits t (clo * w) (chi * w) && fits t 0 (w - 1) && fits t lo hi.

Lemma round_parts r w clo chi lo hi : rc_ok r w clo chi lo hi = true ->
  exists c, i_shr (i_add t a (i_shl t 1 (k - 1))) k = Some c /\ clo <= c <= chi /\
    i_sub t a (i_shl t c k) = Some (a - c * w) /\ - r <= a - c * w <= r - 1.
Proof.
  unfold rc_ok. intros H. repeat rewrite andb_true_iff in H.
  destruct H as (((((((((K & R) & W) & C1) & C2) & F0) & F1) & F3) & F4) & _).
  apply Z.leb_le in K. apply Z.eqb_eq in R, W, C1, C2.
  assert (W2 : w = 2 * r).
  { rewrite <- W, <- R. replace k with (Z.succ (k - 1)) at 1 by lia.
    rewrite Z.pow_succ_r by lia. lia. }
  assert (R0 : 0 < r) by (rewrite <- R; apply Z.pow_pos_nonneg; lia).
  assert (E1 : rng (i_shl t 1 (k - 1)) (1 * 2 ^ (k - 1)) r r)
    by (eapply rng_shl; [apply rng_lit | lia | lia | lia | exact F0]).
  rewrite Z.mul_1_l, R in E1.
  pose proof (rng_add t _ _ _ _ _ _ _ _ _ _ (rng_var a la ha Ba) E1 eq_refl eq_refl F1) as E2.
  assert (E3 : rng (i_shr (i_add t a (i_shl t 1 (k - 1))) k) ((a + r) / w) clo chi)
    by (rewrite <- W in C1, C2 |- *; eapply rng_shr; [exact E2 | lia | exact C1 | exact C2]).
  destruct E3 as [E3 Bc]. exists ((a + r) / w).
  pose proof (Z.div_mod (a + r) w ltac:(lia)) as DM.
  pose proof (Z.mod_pos_bound (a + r) w ltac:(lia)) as MB.
  assert (Ra : - r <= a - (a + r) / w * w <= r - 1) by lia.
  pose proof (scale_bound _ clo chi w ltac:(lia) Bc) as Rc.
  repeat split; [exact E3 | apply Bc | apply Bc | | apply Ra | apply Ra].
  simpl. rewrite Z.shiftl_mul_pow2, W by lia.
  rewrite (wrap_ok t _ _ _ Rc F3). exact (ck_ok t _ _ _ Ra F4).
Qed.

Lemma floor_parts w clo chi lo hi : fc_ok w clo chi lo hi = true ->
  exists c, i_shr a k = Some c /\ clo <= c <= chi /\
    i_sub t a (i_shl t c k) = Some (a - c * w) /\ 0 <= a - c * w <= w - 1.
Proof.
  unfold fc_ok. intros H. repeat rewrite andb_true_iff in H.
  destruct H as ((((((K & W) & C1) & C2) & F3) & F4) & _).
  apply Z.leb_le in K. apply Z.eqb_eq in W, C1, C2.
  assert (W0 : 0 < w) by (rewrite <- W; apply Z.pow_pos_nonneg; lia).
  assert (E3 : rng (i_shr a k) (a / w) clo chi)
    by (rewrite <- W in C1, C2 |- *; eapply rng_shr;
        [exact (rng_var a la ha Ba) | exact K | exact C1 | exact C2]).
  destruct E3 as [E3 Bc]. exists (a / w).
  pose proof (Z.div_mod a w ltac:(lia)) as DM.
  pose proof (Z.mod_pos_bound a w ltac:(lia)) as MB.
  assert (Ra : 0 <= a - a / w * w <= w - 1) by lia.
  pose proof (scale_bound _ clo chi w ltac:(lia) Bc) as Rc.
  repeat split; [exact E3 | apply Bc | apply Bc | | apply Ra | apply Ra].
  simpl. rewrite Z.shiftl_mul_pow2, W by lia.
  rewrite (wrap_ok t _ _ _ Rc F3). exact (ck_ok t _ _ _ Ra F4).
Qed.

(** What a carry leaves: [m] is the factor by which the carry enters [b]. *)
Definition carry_post (m w alo ahi clo chi lo hi : Z) (p : Z * Z) : Prop :=
  exists c, a = fst p + c * w /\ snd p = b + c * m /\
    alo <= fst p <= ahi /\ lo <= snd p <= hi /\ clo <= c <= chi.

Lemma rcarry_safe r w clo chi : rc_ok r w clo chi (lb + clo) (hb + chi) = true ->
  safe (rcarry t k a b) (carry_post 1 w (- r) (r - 1) clo chi (lb + clo) (hb + chi)).
Proof.
  intros H. destruct (round_parts _ _ _ _ _ _ H) as (c & E & Bc & S & R).
  assert (F : fits t (lb + clo) (hb + chi) = true)
    by (unfold rc_ok in H; repeat rewrite andb_true_iff in H; tauto).
  unfold rcarry. rewrite E. cbn [bind]. unfold i_add, cret at 1 2, lift2.
  rewrite (ck_ok t (b + c) (lb + clo) (hb + chi) ltac:(lia) F). cbn [bind].
  rewrite S. cbn. exists c. cbn. lia.
Qed.

Lemma rcarry19_safe r w clo chi lo hi : rc_ok r w clo chi lo hi = true ->
  lb + clo * 19 = lo -> hb + chi * 19 = hi -> fits t (clo * 19) (chi * 19) = true ->
  safe (rcarry19 t k a b) (carry_post 19 w (- r) (r - 1) clo chi lo hi).
Proof.
  intros H <- <- F19. destruct (round_parts _ _ _ _ _ _ H) as (c & E & Bc & S & R).
  assert (F : fits t (lb + clo * 19) (hb + chi * 19) = true)
    by (unfold rc_ok in H; repeat rewrite andb_true_iff in H; tauto).
  unfold rcarry19. rewrite E. cbn [bind]. unfold i_add, i_mul, cret at 1 2 3, lift2.
  rewrite (ck_ok t (c * 19) (clo * 19) (chi * 19) ltac:(lia) F19). cbn [bind].
  rewrite (ck_ok t (b + c * 19) (lb + clo * 19) (hb + chi * 19) ltac:(lia) F). cbn [bind].
  rewrite S. cbn. exists c. cbn. lia.
Qed.

Lemma fcarry_safe w clo chi : fc_ok w clo chi (lb + clo) (hb + chi) = true ->
  safe (fcarry t k a b) (carry_post 1 w 0 (w - 1) clo chi (lb + clo) (hb + chi)).
Proof.
  intros H. destruct (floor_parts _ _ _ _ _ H) as (c & E & Bc & S & R).
  assert (F : fits t (lb + clo) (hb + chi) = true)
    by (unfold fc_ok in H; repeat rewrite andb_true_iff in H; tauto).
  unfold fcarry. rewrite E. cbn [bind]. unfold i_add, cret at 1 2, lift2.
  rewrite (ck_ok t (b + c) (lb + clo) (hb + chi) ltac:(lia) F). cbn [bind].
  rewrite S. cbn. exists c. cbn. lia.
Qed.

Lemma fcarry_top_safe w clo chi : fc_ok w clo chi 0 0 = true ->
  safe (fcarry_top t k a) (fun a' => exists c, a = a' + c * w /\ 0 <= a' <= w - 1).
Proof.
  intros H. destruct (floor_parts _ _ _ _ _ H) as (c & E & Bc & S & R).
  unfold fcarry_top. rewrite E. cbn [bind]. rewrite S. cbn. exists c. lia.
Qed.
End CarryLemmas.

(** Interval of a variable, read from the context. *)
Ltac bounds_of x k :=
  lazymatch goal with
  | H : ?l <= x <= ?h |- _ => k l h H
  end.

Ltac zv e := eval vm_compute in e.

(** One carry of a chain: the new limbs, the carry, and their intervals. *)
Ltac carry_with a b m w alo ahi clo chi tac :=
  bounds_of b ltac:(fun lb hb Hb =>
    let lo := zv (lb + clo * m) in
    let hi := zv (hb + chi * m) in
    let alo := zv alo in
    let ahi := zv ahi in
    eapply (safe_bind _ _ (carry_post a b m w alo ahi clo chi lo hi));
    [ tac lb hb Hb lo hi
    | intros [? ?] (?c & ?Ea & ?Eb & ?Bd & ?Bd & ?Bc); cbn [fst snd] in *;
      try rewrite Z.mul_1_r in * |- ]).

Ltac carry_step :=
  lazymatch goal with
  | |- safe (bind (rcarry ?t ?k ?a ?b) _) _ =>
      bounds_of a ltac:(fun la ha Ha =>
        let r := zv (2 ^ (k - 1)) in let w := zv (2 ^ k) in
        let clo := zv ((la + r) / w) in let chi := zv ((ha + r) / w) in
        carry_with a b 1 w (- r) (r - 1) clo chi ltac:(fun lb hb Hb lo hi =>
          exact (rcarry_safe t k a b la ha lb hb Ha Hb r w clo chi (eq_refl true))))
  | |- safe (bind (rcarry19 ?t ?k ?a ?b) _) _ =>
      bounds_of a ltac:(fun la ha Ha =>
        let r := zv (2 ^ (k - 1)) in let w := zv (2 ^ k) in
        let clo := zv ((la + r) / w) in let chi := zv ((ha + r) / w) in
        carry_with a b 19 w (- r) (r - 1) clo chi ltac:(fun lb hb Hb lo hi =>
          exact (rcarry19_safe t k a b la ha lb hb Ha Hb r w clo chi lo hi
                   (eq_refl true) (eq_refl lo) (eq_refl hi) (eq_refl true))))
  | |- safe (bind (fcarry ?t ?k ?a ?b) _) _ =>
      bounds_of a ltac:(fun la ha Ha =>
        let w := zv (2 ^ k) in
        let clo := zv (la / w) in let chi := zv (ha / w) in
        carry_with a b 1 w 0 (w - 1) clo chi ltac:(fun lb hb Hb lo hi =>
          exact (fcarry_safe t k a b la ha lb hb Ha Hb w clo chi (eq_refl true))))
  | |- safe (bind (fcarry_top ?t ?k ?a) _) _ =>
      bounds_of a ltac:(fun la ha Ha =>
        let w := zv (2 ^ k) in let w1 := zv (w - 1) in
        let clo := zv (la / w) in let chi := zv (ha / w) in
        eapply (safe_bind _ _ (fun a' => exists c, a = a' + c * w /\ 0 <= a' <= w1));
        [ exact (fcarry_top_safe t k a la ha Ha w clo chi (eq_refl true))
        | intros ? (?c & ?Ea & ?Bd) ])
  end.

(** A checked straight-line program, step by step. *)
Ltac csteps := repeat first [cstep | carry_step].

(** Splits the conjunction of interval hypotheses of a limb array. *)
Ltac split_bds H := repeat match type of H with (_ <= _ <= _) /\ _ => destruct H as [? H] end.
