(* ===== verification/Bytes.v ===== *)
(** Byte strings: loads and stores of the C code.

    An [unsigned char] array is a [list Z]; a read outside it is undefined
    ([None]).  [load_3] and [load_4] are the two loaders of
    libcryptonote/crypto/crypto-ops.c; [store8] is a run of assignments
    [s[0] = e0; s[1] = e1; ...], each truncated to a byte.  The lemmas relate
    both to [le_val], the little-endian value of a string, and to [limbs_val],
    the value of a list of limbs. *)
From Stdlib Require Import ZArith Lia List Bool.
From S2P Require Import Prelude CInt.
Import ListNotations.
Local Open Scope Z_scope.

(** ** Definitions *)

(** [n] bytes. *)
Definition is_bytes (n : nat) (s : list Z) : Prop := length s = n /\ Forall is_byte s.

Definition load_3 (s : list Z) (i : nat) : option Z :=
  let! in0 := nth_error s i in
  let! in1 := nth_error s (i + 1) in
  let! in2 := nth_error s (i + 2) in
  let result := in0 in
  let result := Z.lor result (u64 (Z.shiftl in1 8)) in
  let result := Z.lor result (u64 (Z.shiftl in2 16)) in
  Some result.

Definition load_4 (s : list Z) (i : nat) : option Z :=
  let! in0 := nth_error s i in
  let! in1 := nth_error s (i + 1) in
  let! in2 := nth_error s (i + 2) in
  let! in3 := nth_error s (i + 3) in
  let result := in0 in
  let result := Z.lor result (u64 (Z.shiftl in1 8)) in
  let result := Z.lor result (u64 (Z.shiftl in2 16)) in
  let result := Z.lor result (u64 (Z.shiftl in3 24)) in
  Some result.

Fixpoint store8 (l : list cint) : option (list Z) :=
  match l with
  | [] => Some []
  | e :: l' =>
      let! x := e in
      let! r := store8 l' in
      Some (to_u8 x :: r)
  end.

(** The bit fields of [v] at the given (offset, width) positions. *)
Definition fields (l : list (Z * Z)) (v : Z) : list (Z * Z) :=
  map (fun '(o, w) => ((v / 2 ^ o) mod 2 ^ w, w)) l.

(** The positions follow one another from [o] and end at [e]. *)
Fixpoint contiguous (o : Z) (l : list (Z * Z)) (e : Z) : bool :=
  match l with
  | [] => o =? e
  | (o', w) :: l' => (o' =? o) && (0 <=? w) && contiguous (o + w) l' e
  end.

(** ** Loads *)

Lemma lor_byte x b k : 0 <= k -> 0 <= x < 2 ^ k -> Z.lor x (Z.shiftl b k) = x + b * 2 ^ k.
Proof.
  intros K X. pose proof (lor_shift_add x b k 0 ltac:(lia) X) as E.
  now rewrite Z.shiftr_0_r, Z.pow_0_r, Z.div_1_r, Z.sub_0_r in E.
Qed.

Lemma u64_small z : 0 <= z < 18446744073709551616 -> u64 z = z.
Proof. apply Z.mod_small. Qed.

Lemma nth_error_byte s i b : Forall is_byte s -> nth_error s i = Some b -> 0 <= b < 256.
Proof. intros F E. rewrite Forall_forall in F. apply F. eapply nth_error_In, E. Qed.

Lemma nth_error_ex {A} (s : list A) i : (i < length s)%nat -> exists b, nth_error s i = Some b.
Proof.
  intros L. destruct (nth_error s i) eqn:E; [eauto|]. apply nth_error_None in E. lia.
Qed.

Lemma skipn_nth {A} (s : list A) i b : nth_error s i = Some b -> skipn i s = b :: skipn (S i) s.
Proof.
  revert i; induction s as [|x s IH]; intros [|i] E; try discriminate.
  - injection E as <-. reflexivity.
  - exact (IH i E).
Qed.

(** Dividing by a power of 256 drops bytes. *)
Lemma le_val_skipn s i : Forall is_byte s -> le_val s / 2 ^ (8 * Z.of_nat i) = le_val (skipn i s).
Proof.
  intros F. revert i. induction F as [|b s B F IH]; intros [|i].
  - reflexivity.
  - cbn [le_val skipn]. now rewrite Z.div_0_l by (apply Z.pow_nonzero; lia).
  - change (8 * Z.of_nat 0) with 0. now rewrite Z.pow_0_r, Z.div_1_r.
  - replace (8 * Z.of_nat (S i)) with (8 + 8 * Z.of_nat i) by lia.
    rewrite Z.pow_add_r by lia. change (2 ^ 8) with 256.
    rewrite <- Z.div_div by (try apply Z.pow_pos_nonneg; lia).
    cbn [le_val skipn]. unfold is_byte in B.
    replace (b + 256 * le_val s) with (b + le_val s * 256) by ring.
    rewrite Z.div_add, (Z.div_small b) by lia. apply IH.
Qed.

Lemma le_val_nonneg s : Forall is_byte s -> 0 <= le_val s.
Proof. intros F. apply le_val_bound in F. lia. Qed.

Lemma load_3_val s i : Forall is_byte s -> (i + 3 <= length s)%nat ->
  load_3 s i = Some ((le_val s / 2 ^ (8 * Z.of_nat i)) mod 2 ^ 24).
Proof.
  intros F L.
  destruct (nth_error_ex s i ltac:(lia)) as [b0 E0], (nth_error_ex s (i + 1) ltac:(lia)) as [b1 E1],
    (nth_error_ex s (i + 2) ltac:(lia)) as [b2 E2].
  pose proof (nth_error_byte _ _ _ F E0). pose proof (nth_error_byte _ _ _ F E1).
  pose proof (nth_error_byte _ _ _ F E2).
  unfold load_3. rewrite E0, E1, E2. cbn [bind]. f_equal.
  rewrite !u64_small by (rewrite Z.shiftl_mul_pow2; lia).
  rewrite (lor_byte b0), lor_byte by lia. rewrite le_val_skipn by exact F.
  replace (i + 1)%nat with (S i) in E1 by lia. replace (i + 2)%nat with (S (S i)) in E2 by lia.
  rewrite (skipn_nth _ _ _ E0), (skipn_nth _ _ _ E1), (skipn_nth _ _ _ E2). cbn [le_val].
  replace (b0 + 256 * (b1 + 256 * (b2 + 256 * le_val (skipn (S (S (S i))) s))))
    with (b0 + b1 * 2 ^ 8 + b2 * 2 ^ 16 + le_val (skipn (S (S (S i))) s) * 2 ^ 24) by ring.
  rewrite Z_mod_plus_full, Z.mod_small; lia.
Qed.

Lemma load_4_val s i : Forall is_byte s -> (i + 4 <= length s)%nat ->
  load_4 s i = Some ((le_val s / 2 ^ (8 * Z.of_nat i)) mod 2 ^ 32).
Proof.
  intros F L.
  destruct (nth_error_ex s i ltac:(lia)) as [b0 E0], (nth_error_ex s (i + 1) ltac:(lia)) as [b1 E1],
    (nth_error_ex s (i + 2) ltac:(lia)) as [b2 E2], (nth_error_ex s (i + 3) ltac:(lia)) as [b3 E3].
  pose proof (nth_error_byte _ _ _ F E0). pose proof (nth_error_byte _ _ _ F E1).
  pose proof (nth_error_byte _ _ _ F E2). pose proof (nth_error_byte _ _ _ F E3).
  unfold load_4. rewrite E0, E1, E2, E3. cbn [bind]. f_equal.
  rewrite !u64_small by (rewrite Z.shiftl_mul_pow2; lia).
  rewrite (lor_byte b0), (lor_byte (b0 + b1 * 2 ^ 8)), lor_byte by lia. rewrite le_val_skipn by exact F.
  replace (i + 1)%nat with (S i) in E1 by lia. replace (i + 2)%nat with (S (S i)) in E2 by lia.
  replace (i + 3)%nat with (S (S (S i))) in E3 by lia.
  rewrite (skipn_nth _ _ _ E0), (skipn_nth _ _ _ E1), (skipn_nth _ _ _ E2), (skipn_nth _ _ _ E3).
  cbn [le_val].
  replace (b0 + 256 * (b1 + 256 * (b2 + 256 * (b3 + 256 * le_val (skipn (S (S (S (S i)))) s)))))
    with (b0 + b1 * 2 ^ 8 + b2 * 2 ^ 16 + b3 * 2 ^ 24 + le_val (skipn (S (S (S (S i)))) s) * 2 ^ 32)
    by ring.
  rewrite Z_mod_plus_full, Z.mod_small; lia.
Qed.

(** [(load >> sh) & (2^w - 1)] is a bit field of the string's value. *)
Lemma field_of_load v o n sh w : 0 <= o -> 0 <= sh -> 0 <= w -> sh + w <= n ->
  Z.land (2 ^ w - 1) (Z.shiftr ((v / 2 ^ o) mod 2 ^ n) sh) = (v / 2 ^ (o + sh)) mod 2 ^ w.
Proof.
  intros O SH W N. rewrite Z.land_comm. replace (2 ^ w - 1) with (Z.ones w)
    by (rewrite Z.ones_equiv; lia).
  rewrite Z.land_ones by lia. rewrite Z.shiftr_div_pow2 by lia.
  rewrite Z.pow_add_r, <- Z.div_div by (try apply Z.pow_pos_nonneg; lia).
  set (x := v / 2 ^ o). rewrite (pow2_split sh n) by lia.
  rewrite Z.rem_mul_r by (try apply Z.pow_pos_nonneg; try apply Z.pow_nonzero; lia).
  rewrite (Z.mul_comm (2 ^ sh)), Z.div_add, Z.div_small
    by (try apply Z.pow_nonzero; try apply Z.mod_pos_bound; try apply Z.pow_pos_nonneg; lia).
  rewrite Z.add_0_l. rewrite (pow2_split w (n - sh)) by lia.
  rewrite Z.rem_mul_r by (try apply Z.pow_pos_nonneg; try apply Z.pow_nonzero; lia).
  rewrite (Z.mul_comm (2 ^ w)), Z_mod_plus_full. apply Zmod_mod.
Qed.

Lemma fields_val l v : forall o e, 0 <= o -> contiguous o l e = true ->
  limbs_val (fields l v) = (v / 2 ^ o) mod 2 ^ (e - o) /\ o <= e.
Proof.
  induction l as [|[o' w] l IH]; intros o e O C; unfold fields in *; cbn [contiguous map limbs_val] in *.
  - apply Z.eqb_eq in C. subst e. rewrite Z.sub_diag, Z.mod_1_r. lia.
  - repeat rewrite andb_true_iff in C. destruct C as [[C1 C2] C3].
    apply Z.eqb_eq in C1. apply Z.leb_le in C2. subst o'.
    destruct (IH (o + w) e ltac:(lia) C3) as [-> E]. split; [|lia].
    replace (e - o) with (w + (e - (o + w))) by lia.
    rewrite (Z.pow_add_r 2 w), (Z.pow_add_r 2 o) by lia.
    rewrite <- Z.div_div by (try apply Z.pow_pos_nonneg; try apply Z.pow_nonzero; lia).
    rewrite Z.rem_mul_r by (try apply Z.pow_pos_nonneg; try apply Z.pow_nonzero; lia). reflexivity.
Qed.

Lemma fields_val_0 l v e : contiguous 0 l e = true -> limbs_val (fields l v) = v mod 2 ^ e.
Proof.
  intros C. destruct (fields_val l v 0 e ltac:(lia) C) as [-> _].
  now rewrite Z.pow_0_r, Z.div_1_r, Z.sub_0_r.
Qed.

(** ** Stores *)

(** A byte inside a limb: [w - k] bits of the current limb remain. *)
Lemma store8_shr l n a k w r k' :
  0 <= k -> k' = k + 8 -> k' <= w ->
  store8 l = Some (le_bytes n (limbs_val ((a / 2 ^ k', w - k') :: r))) ->
  store8 (i_shr (cret a) k :: l) = Some (le_bytes (S n) (limbs_val ((a / 2 ^ k, w - k) :: r))).
Proof.
  intros K -> W E. cbn [store8 i_shr lift1 cret bind]. rewrite E. cbn [bind].
  rewrite le_bytes_S. cbn [limbs_val]. unfold to_u8.
  rewrite Z.shiftr_div_pow2, mod_256_drop by lia.
  set (R := limbs_val r).
  assert (EV : (a / 2 ^ k + 2 ^ (w - k) * R) / 256 = a / 2 ^ (k + 8) + 2 ^ (w - (k + 8)) * R).
  { rewrite (pow2_split 8 (w - k)) by lia. change (2 ^ 8) with 256.
    replace (256 * 2 ^ (w - k - 8) * R) with ((2 ^ (w - k - 8) * R) * 256) by ring.
    rewrite Z.div_add, Z.div_div, (Z.pow_add_r 2 k 8)
      by (try apply Z.pow_nonzero; lia).
    do 3 f_equal. lia. }
  rewrite EV. reflexivity.
Qed.

Lemma lor_mod_256 x y : Z.lor x y mod 256 = Z.lor (x mod 256) (y mod 256).
Proof.
  change 256 with (2 ^ 8). rewrite <- !Z.land_ones by lia. apply Z.land_lor_distr_l.
Qed.

(** A byte that straddles two limbs. *)
Lemma store8_straddle t l n a k w b v r s d :
  0 <= k -> s = w - k -> 0 <= s <= 8 -> d = 8 - s -> d <= v -> 0 <= a < 2 ^ w ->
  store8 l = Some (le_bytes n (limbs_val ((b / 2 ^ d, v - d) :: r))) ->
  store8 (i_or (i_shr (cret a) k) (i_shl t (cret b) s) :: l) =
    Some (le_bytes (S n) (limbs_val ((a / 2 ^ k, w - k) :: (b, v) :: r))).
Proof.
  intros K -> S -> V A E. cbn [store8 i_shr i_shl i_or lift1 lift2 cret bind]. rewrite E.
  cbn [bind]. rewrite le_bytes_S. cbn [limbs_val] in *. unfold to_u8.
  rewrite lor_mod_256, wrap_mod_256, <- lor_mod_256, lor_shift_add by lia. rewrite (Z.mul_comm b).
  set (q := a / 2 ^ k).
  assert (Q : 0 <= q < 2 ^ (w - k)).
  { split; [apply Z.div_pos; [lia | apply Z.pow_pos_nonneg; lia]|].
    apply Z.div_lt_upper_bound; [apply Z.pow_pos_nonneg; lia|].
    rewrite <- pow2_split by lia. lia. }
  set (R := limbs_val r).
  assert (P : 2 ^ (w - k) * 2 ^ v = 256 * 2 ^ (v - (8 - (w - k)))).
  { change 256 with (2 ^ 8). rewrite <- !Z.pow_add_r by lia. f_equal. lia. }
  replace (q + 2 ^ (w - k) * (b + 2 ^ v * R))
    with (q + 2 ^ (w - k) * b + (2 ^ (v - (8 - (w - k))) * R) * 256)
    by (rewrite Z.mul_add_distr_l, (Z.mul_assoc (2 ^ (w - k))), P; ring).
  rewrite Z_mod_plus_full, Z.div_add by lia.
  assert (EV : (q + 2 ^ (w - k) * b) / 256 = b / 2 ^ (8 - (w - k))).
  { change 256 with (2 ^ 8). rewrite (pow2_split (w - k) 8) by lia.
    rewrite <- Z.div_div by (try apply Z.pow_pos_nonneg; lia).
    now rewrite (Z.mul_comm _ b), Z.div_add, (Z.div_small q) by lia. }
  rewrite EV. reflexivity.
Qed.

(** The next byte starts a new limb. *)
Lemma limbs_val_next a k w b v r : 0 <= w -> 0 <= a < 2 ^ w -> k = w ->
  limbs_val ((a / 2 ^ k, w - k) :: (b, v) :: r) = limbs_val ((b / 2 ^ 0, v - 0) :: r).
Proof.
  intros W A ->. cbn [limbs_val]. rewrite Z.div_small by exact A.
  rewrite Z.sub_diag, Z.pow_0_r, Z.div_1_r, Z.sub_0_r. lia.
Qed.

(** The first byte of the first limb. *)
Lemma limbs_val_start a w r : limbs_val ((a, w) :: r) = limbs_val ((a / 2 ^ 0, w - 0) :: r).
Proof. now rewrite Z.pow_0_r, Z.div_1_r, Z.sub_0_r. Qed.

(** The last byte of a string. *)
Lemma store8_last a k w : 0 <= k ->
  store8 [i_shr (cret a) k] = Some (le_bytes 1 (limbs_val [(a / 2 ^ k, w)])).
Proof.
  intros K. cbn [store8 i_shr lift1 cret bind]. rewrite le_bytes_S. cbn [limbs_val].
  unfold to_u8. rewrite Z.shiftr_div_pow2 by lia. now rewrite Z.mul_0_r, Z.add_0_r.
Qed.

(** One byte of a store: picks the lemma for the shape of the byte's expression. *)
Ltac store_step t :=
  lazymatch goal with
  | |- store8 (i_or (i_shr (cret ?a) ?k) (i_shl t (cret ?b) ?s) :: _) = _ =>
      let d := eval vm_compute in (8 - s) in
      eapply (store8_straddle t _ _ a k _ b _ _ s d);
      [lia | reflexivity | lia | reflexivity | lia | lia | ]
  | |- store8 [i_shr (cret ?a) ?k] = _ => apply store8_last; lia
  | |- store8 (i_shr (cret ?a) ?k :: _) = _ =>
      let k' := eval vm_compute in (k + 8) in
      first [ eapply (store8_shr _ _ a k _ _ k'); [lia | reflexivity | lia | ] ]
  end;
  try lazymatch goal with
  | |- _ = Some (le_bytes _ (limbs_val ((?a / 2 ^ ?k, ?w - ?k) :: (?b, ?v) :: ?r))) =>
      let z := eval vm_compute in (w - k) in
      match z with
      | 0 => rewrite (limbs_val_next a k w b v r) by lia
      end
  end.
