(* ===== verification/Fe25519.v ===== *)
(** Field arithmetic modulo 2^255 - 19 (libcryptonote/crypto/crypto-ops.c, the fe_ functions).

    A field element is ten limbs in radix 2^25.5.  Every arithmetic step of the
    C functions is a checked step, so a theorem [safe (fe_mul f g) Q] says that
    no signed overflow happens and that the result satisfies [Q]. *)
From Stdlib Require Import ZArith Lia List Bool.
From S2P Require Import Prelude CInt.
Import ListNotations.
Local Open Scope Z_scope.

(** ** Data *)

(** [typedef int32_t fe[10];] the same record holds the ten int64_t
    accumulators h0..h9 of a multiplication. *)
Record fe : Set := mkfe
  { fe0 : Z; fe1 : Z; fe2 : Z; fe3 : Z; fe4 : Z; fe5 : Z; fe6 : Z; fe7 : Z; fe8 : Z; fe9 : Z }.

Definition P25519 : Z := 2 ^ 255 - 19.

(** The integer a limb array stands for. *)
Definition fe_val (f : fe) : Z :=
  fe0 f + 2 ^ 26 * fe1 f + 2 ^ 51 * fe2 f + 2 ^ 77 * fe3 f + 2 ^ 102 * fe4 f
  + 2 ^ 128 * fe5 f + 2 ^ 153 * fe6 f + 2 ^ 179 * fe7 f + 2 ^ 204 * fe8 f + 2 ^ 230 * fe9 f.

(** Limb bounds: even limbs by [e], odd limbs by [o]. *)
Definition fe_within (e o : Z) (f : fe) : Prop :=
  - e <= fe0 f <= e /\ - o <= fe1 f <= o /\ - e <= fe2 f <= e /\ - o <= fe3 f <= o /\
  - e <= fe4 f <= e /\ - o <= fe5 f <= o /\ - e <= fe6 f <= e /\ - o <= fe7 f <= o /\
  - e <= fe8 f <= e /\ - o <= fe9 f <= o.

(** "|f| bounded by n/100*2^25, n/100*2^24, n/100*2^25, n/100*2^24, etc." *)
Definition fe_bd (n : Z) : fe -> Prop := fe_within (n * 2 ^ 25 / 100) (n * 2 ^ 24 / 100).

(** ** Constants and limb-wise operations *)

Definition fe_0 : fe := mkfe 0 0 0 0 0 0 0 0 0 0.
Definition fe_1 : fe := mkfe 1 0 0 0 0 0 0 0 0 0.

Definition fe_add (f g : fe) : option fe :=
  let '(mkfe f0 f1 f2 f3 f4 f5 f6 f7 f8 f9) := f in
  let '(mkfe g0 g1 g2 g3 g4 g5 g6 g7 g8 g9) := g in
  let! h0 := (f0 + g0)%i32 in
  let! h1 := (f1 + g1)%i32 in
  let! h2 := (f2 + g2)%i32 in
  let! h3 := (f3 + g3)%i32 in
  let! h4 := (f4 + g4)%i32 in
  let! h5 := (f5 + g5)%i32 in
  let! h6 := (f6 + g6)%i32 in
  let! h7 := (f7 + g7)%i32 in
  let! h8 := (f8 + g8)%i32 in
  let! h9 := (f9 + g9)%i32 in
  Some (mkfe h0 h1 h2 h3 h4 h5 h6 h7 h8 h9).

Definition fe_sub (f g : fe) : option fe :=
  let '(mkfe f0 f1 f2 f3 f4 f5 f6 f7 f8 f9) := f in
  let '(mkfe g0 g1 g2 g3 g4 g5 g6 g7 g8 g9) := g in
  let! h0 := (f0 - g0)%i32 in
  let! h1 := (f1 - g1)%i32 in
  let! h2 := (f2 - g2)%i32 in
  let! h3 := (f3 - g3)%i32 in
  let! h4 := (f4 - g4)%i32 in
  let! h5 := (f5 - g5)%i32 in
  let! h6 := (f6 - g6)%i32 in
  let! h7 := (f7 - g7)%i32 in
  let! h8 := (f8 - g8)%i32 in
  let! h9 := (f9 - g9)%i32 in
  Some (mkfe h0 h1 h2 h3 h4 h5 h6 h7 h8 h9).

Definition fe_neg (f : fe) : option fe :=
  let '(mkfe f0 f1 f2 f3 f4 f5 f6 f7 f8 f9) := f in
  let! h0 := (- f0)%i32 in
  let! h1 := (- f1)%i32 in
  let! h2 := (- f2)%i32 in
  let! h3 := (- f3)%i32 in
  let! h4 := (- f4)%i32 in
  let! h5 := (- f5)%i32 in
  let! h6 := (- f6)%i32 in
  let! h7 := (- f7)%i32 in
  let! h8 := (- f8)%i32 in
  let! h9 := (- f9)%i32 in
  Some (mkfe h0 h1 h2 h3 h4 h5 h6 h7 h8 h9).

Definition fe_copy (f : fe) : fe :=
  let '(mkfe f0 f1 f2 f3 f4 f5 f6 f7 f8 f9) := f in mkfe f0 f1 f2 f3 f4 f5 f6 f7 f8 f9.

(** The run-time check of fe_cmov on its selector, in unsigned arithmetic. *)
Definition fe_cmov_assert (b : Z) : bool :=
  Z.lor (Z.land (u32 (b - 1)) (u32 (Z.lnot b)))
        (Z.land (u32 (b - 2)) (u32 (Z.lnot (u32 (b - 1))))) =? u32 (-1).

Definition fe_cmov (f g : fe) (b : Z) : option fe :=
  let '(mkfe f0 f1 f2 f3 f4 f5 f6 f7 f8 f9) := f in
  let '(mkfe g0 g1 g2 g3 g4 g5 g6 g7 g8 g9) := g in
  if fe_cmov_assert b then
    let mask := u32 (- b) in
    let x0 := Z.land (u32 (Z.lxor f0 g0)) mask in
    let x1 := Z.land (u32 (Z.lxor f1 g1)) mask in
    let x2 := Z.land (u32 (Z.lxor f2 g2)) mask in
    let x3 := Z.land (u32 (Z.lxor f3 g3)) mask in
    let x4 := Z.land (u32 (Z.lxor f4 g4)) mask in
    let x5 := Z.land (u32 (Z.lxor f5 g5)) mask in
    let x6 := Z.land (u32 (Z.lxor f6 g6)) mask in
    let x7 := Z.land (u32 (Z.lxor f7 g7)) mask in
    let x8 := Z.land (u32 (Z.lxor f8 g8)) mask in
    let x9 := Z.land (u32 (Z.lxor f9 g9)) mask in
    Some (mkfe (Z.lxor f0 (to_i32 x0)) (Z.lxor f1 (to_i32 x1)) (Z.lxor f2 (to_i32 x2)) (Z.lxor f3 (to_i32 x3)) (Z.lxor f4 (to_i32 x4)) (Z.lxor f5 (to_i32 x5)) (Z.lxor f6 (to_i32 x6)) (Z.lxor f7 (to_i32 x7)) (Z.lxor f8 (to_i32 x8)) (Z.lxor f9 (to_i32 x9)))
  else None.

(** ** Multiplication and squaring *)

(** The carry chain that ends fe_mul, fe_sq and fe_sq2. *)
Definition fe_carry (h : fe) : option fe :=
  let '(mkfe h0 h1 h2 h3 h4 h5 h6 h7 h8 h9) := h in
  let! (h0, h1) := rcarry I64 26 h0 h1 in
  let! (h4, h5) := rcarry I64 26 h4 h5 in
  let! (h1, h2) := rcarry I64 25 h1 h2 in
  let! (h5, h6) := rcarry I64 25 h5 h6 in
  let! (h2, h3) := rcarry I64 26 h2 h3 in
  let! (h6, h7) := rcarry I64 26 h6 h7 in
  let! (h3, h4) := rcarry I64 25 h3 h4 in
  let! (h7, h8) := rcarry I64 25 h7 h8 in
  let! (h4, h5) := rcarry I64 26 h4 h5 in
  let! (h8, h9) := rcarry I64 26 h8 h9 in
  let! (h9, h0) := rcarry19 I64 25 h9 h0 in
  let! (h0, h1) := rcarry I64 26 h0 h1 in
  Some (mkfe (to_i32 h0) (to_i32 h1) (to_i32 h2) (to_i32 h3) (to_i32 h4) (to_i32 h5) (to_i32 h6) (to_i32 h7) (to_i32 h8) (to_i32 h9)).

(** The schoolbook products of fe_mul. *)
Definition fe_mul_products (f g : fe) : option fe :=
  let '(mkfe f0 f1 f2 f3 f4 f5 f6 f7 f8 f9) := f in
  let '(mkfe g0 g1 g2 g3 g4 g5 g6 g7 g8 g9) := g in
  let! g1_19 := (19 * g1)%i32 in
  let! g2_19 := (19 * g2)%i32 in
  let! g3_19 := (19 * g3)%i32 in
  let! g4_19 := (19 * g4)%i32 in
  let! g5_19 := (19 * g5)%i32 in
  let! g6_19 := (19 * g6)%i32 in
  let! g7_19 := (19 * g7)%i32 in
  let! g8_19 := (19 * g8)%i32 in
  let! g9_19 := (19 * g9)%i32 in
  let! f1_2 := (2 * f1)%i32 in
  let! f3_2 := (2 * f3)%i32 in
  let! f5_2 := (2 * f5)%i32 in
  let! f7_2 := (2 * f7)%i32 in
  let! f9_2 := (2 * f9)%i32 in
  let! f0g0 := (f0 * g0)%i64 in
  let! f0g1 := (f0 * g1)%i64 in
  let! f0g2 := (f0 * g2)%i64 in
  let! f0g3 := (f0 * g3)%i64 in
  let! f0g4 := (f0 * g4)%i64 in
  let! f0g5 := (f0 * g5)%i64 in
  let! f0g6 := (f0 * g6)%i64 in
  let! f0g7 := (f0 * g7)%i64 in
  let! f0g8 := (f0 * g8)%i64 in
  let! f0g9 := (f0 * g9)%i64 in
  let! f1g0 := (f1 * g0)%i64 in
  let! f1g1_2 := (f1_2 * g1)%i64 in
  let! f1g2 := (f1 * g2)%i64 in
  let! f1g3_2 := (f1_2 * g3)%i64 in
  let! f1g4 := (f1 * g4)%i64 in
  let! f1g5_2 := (f1_2 * g5)%i64 in
  let! f1g6 := (f1 * g6)%i64 in
  let! f1g7_2 := (f1_2 * g7)%i64 in
  let! f1g8 := (f1 * g8)%i64 in
  let! f1g9_38 := (f1_2 * g9_19)%i64 in
  let! f2g0 := (f2 * g0)%i64 in
  let! f2g1 := (f2 * g1)%i64 in
  let! f2g2 := (f2 * g2)%i64 in
  let! f2g3 := (f2 * g3)%i64 in
  let! f2g4 := (f2 * g4)%i64 in
  let! f2g5 := (f2 * g5)%i64 in
  let! f2g6 := (f2 * g6)%i64 in
  let! f2g7 := (f2 * g7)%i64 in
  let! f2g8_19 := (f2 * g8_19)%i64 in
  let! f2g9_19 := (f2 * g9_19)%i64 in
  let! f3g0 := (f3 * g0)%i64 in
  let! f3g1_2 := (f3_2 * g1)%i64 in
  let! f3g2 := (f3 * g2)%i64 in
  let! f3g3_2 := (f3_2 * g3)%i64 in
  let! f3g4 := (f3 * g4)%i64 in
  let! f3g5_2 := (f3_2 * g5)%i64 in
  let! f3g6 := (f3 * g6)%i64 in
  let! f3g7_38 := (f3_2 * g7_19)%i64 in
  let! f3g8_19 := (f3 * g8_19)%i64 in
  let! f3g9_38 := (f3_2 * g9_19)%i64 in
  let! f4g0 := (f4 * g0)%i64 in
  let! f4g1 := (f4 * g1)%i64 in
  let! f4g2 := (f4 * g2)%i64 in
  let! f4g3 := (f4 * g3)%i64 in
  let! f4g4 := (f4 * g4)%i64 in
  let! f4g5 := (f4 * g5)%i64 in
  let! f4g6_19 := (f4 * g6_19)%i64 in
  let! f4g7_19 := (f4 * g7_19)%i64 in
  let! f4g8_19 := (f4 * g8_19)%i64 in
  let! f4g9_19 := (f4 * g9_19)%i64 in
  let! f5g0 := (f5 * g0)%i64 in
  let! f5g1_2 := (f5_2 * g1)%i64 in
  let! f5g2 := (f5 * g2)%i64 in
  let! f5g3_2 := (f5_2 * g3)%i64 in
  let! f5g4 := (f5 * g4)%i64 in
  let! f5g5_38 := (f5_2 * g5_19)%i64 in
  let! f5g6_19 := (f5 * g6_19)%i64 in
  let! f5g7_38 := (f5_2 * g7_19)%i64 in
  let! f5g8_19 := (f5 * g8_19)%i64 in
  let! f5g9_38 := (f5_2 * g9_19)%i64 in
  let! f6g0 := (f6 * g0)%i64 in
  let! f6g1 := (f6 * g1)%i64 in
  let! f6g2 := (f6 * g2)%i64 in
  let! f6g3 := (f6 * g3)%i64 in
  let! f6g4_19 := (f6 * g4_19)%i64 in
  let! f6g5_19 := (f6 * g5_19)%i64 in
  let! f6g6_19 := (f6 * g6_19)%i64 in
  let! f6g7_19 := (f6 * g7_19)%i64 in
  let! f6g8_19 := (f6 * g8_19)%i64 in
  let! f6g9_19 := (f6 * g9_19)%i64 in
  let! f7g0 := (f7 * g0)%i64 in
  let! f7g1_2 := (f7_2 * g1)%i64 in
  let! f7g2 := (f7 * g2)%i64 in
  let! f7g3_38 := (f7_2 * g3_19)%i64 in
  let! f7g4_19 := (f7 * g4_19)%i64 in
  let! f7g5_38 := (f7_2 * g5_19)%i64 in
  let! f7g6_19 := (f7 * g6_19)%i64 in
  let! f7g7_38 := (f7_2 * g7_19)%i64 in
  let! f7g8_19 := (f7 * g8_19)%i64 in
  let! f7g9_38 := (f7_2 * g9_19)%i64 in
  let! f8g0 := (f8 * g0)%i64 in
  let! f8g1 := (f8 * g1)%i64 in
  let! f8g2_19 := (f8 * g2_19)%i64 in
  let! f8g3_19 := (f8 * g3_19)%i64 in
  let! f8g4_19 := (f8 * g4_19)%i64 in
  let! f8g5_19 := (f8 * g5_19)%i64 in
  let! f8g6_19 := (f8 * g6_19)%i64 in
  let! f8g7_19 := (f8 * g7_19)%i64 in
  let! f8g8_19 := (f8 * g8_19)%i64 in
  let! f8g9_19 := (f8 * g9_19)%i64 in
  let! f9g0 := (f9 * g0)%i64 in
  let! f9g1_38 := (f9_2 * g1_19)%i64 in
  let! f9g2_19 := (f9 * g2_19)%i64 in
  let! f9g3_38 := (f9_2 * g3_19)%i64 in
  let! f9g4_19 := (f9 * g4_19)%i64 in
  let! f9g5_38 := (f9_2 * g5_19)%i64 in
  let! f9g6_19 := (f9 * g6_19)%i64 in
  let! f9g7_38 := (f9_2 * g7_19)%i64 in
  let! f9g8_19 := (f9 * g8_19)%i64 in
  let! f9g9_38 := (f9_2 * g9_19)%i64 in
  let! h0 := (f0g0 + f1g9_38 + f2g8_19 + f3g7_38 + f4g6_19 + f5g5_38 + f6g4_19 + f7g3_38 + f8g2_19 + f9g1_38)%i64 in
  let! h1 := (f0g1 + f1g0 + f2g9_19 + f3g8_19 + f4g7_19 + f5g6_19 + f6g5_19 + f7g4_19 + f8g3_19 + f9g2_19)%i64 in
  let! h2 := (f0g2 + f1g1_2 + f2g0 + f3g9_38 + f4g8_19 + f5g7_38 + f6g6_19 + f7g5_38 + f8g4_19 + f9g3_38)%i64 in
  let! h3 := (f0g3 + f1g2 + f2g1 + f3g0 + f4g9_19 + f5g8_19 + f6g7_19 + f7g6_19 + f8g5_19 + f9g4_19)%i64 in
  let! h4 := (f0g4 + f1g3_2 + f2g2 + f3g1_2 + f4g0 + f5g9_38 + f6g8_19 + f7g7_38 + f8g6_19 + f9g5_38)%i64 in
  let! h5 := (f0g5 + f1g4 + f2g3 + f3g2 + f4g1 + f5g0 + f6g9_19 + f7g8_19 + f8g7_19 + f9g6_19)%i64 in
  let! h6 := (f0g6 + f1g5_2 + f2g4 + f3g3_2 + f4g2 + f5g1_2 + f6g0 + f7g9_38 + f8g8_19 + f9g7_38)%i64 in
  let! h7 := (f0g7 + f1g6 + f2g5 + f3g4 + f4g3 + f5g2 + f6g1 + f7g0 + f8g9_19 + f9g8_19)%i64 in
  let! h8 := (f0g8 + f1g7_2 + f2g6 + f3g5_2 + f4g4 + f5g3_2 + f6g2 + f7g1_2 + f8g0 + f9g9_38)%i64 in
  let! h9 := (f0g9 + f1g8 + f2g7 + f3g6 + f4g5 + f5g4 + f6g3 + f7g2 + f8g1 + f9g0)%i64 in
  Some (mkfe h0 h1 h2 h3 h4 h5 h6 h7 h8 h9).

Definition fe_mul (f g : fe) : option fe :=
  let! h := fe_mul_products f g in
  fe_carry h.

(** The products of fe_sq. *)
Definition fe_sq_products (f : fe) : option fe :=
  let '(mkfe f0 f1 f2 f3 f4 f5 f6 f7 f8 f9) := f in
  let! f0_2 := (2 * f0)%i32 in
  let! f1_2 := (2 * f1)%i32 in
  let! f2_2 := (2 * f2)%i32 in
  let! f3_2 := (2 * f3)%i32 in
  let! f4_2 := (2 * f4)%i32 in
  let! f5_2 := (2 * f5)%i32 in
  let! f6_2 := (2 * f6)%i32 in
  let! f7_2 := (2 * f7)%i32 in
  let! f5_38 := (38 * f5)%i32 in
  let! f6_19 := (19 * f6)%i32 in
  let! f7_38 := (38 * f7)%i32 in
  let! f8_19 := (19 * f8)%i32 in
  let! f9_38 := (38 * f9)%i32 in
  let! f0f0 := (f0 * f0)%i64 in
  let! f0f1_2 := (f0_2 * f1)%i64 in
  let! f0f2_2 := (f0_2 * f2)%i64 in
  let! f0f3_2 := (f0_2 * f3)%i64 in
  let! f0f4_2 := (f0_2 * f4)%i64 in
  let! f0f5_2 := (f0_2 * f5)%i64 in
  let! f0f6_2 := (f0_2 * f6)%i64 in
  let! f0f7_2 := (f0_2 * f7)%i64 in
  let! f0f8_2 := (f0_2 * f8)%i64 in
  let! f0f9_2 := (f0_2 * f9)%i64 in
  let! f1f1_2 := (f1_2 * f1)%i64 in
  let! f1f2_2 := (f1_2 * f2)%i64 in
  let! f1f3_4 := (f1_2 * f3_2)%i64 in
  let! f1f4_2 := (f1_2 * f4)%i64 in
  let! f1f5_4 := (f1_2 * f5_2)%i64 in
  let! f1f6_2 := (f1_2 * f6)%i64 in
  let! f1f7_4 := (f1_2 * f7_2)%i64 in
  let! f1f8_2 := (f1_2 * f8)%i64 in
  let! f1f9_76 := (f1_2 * f9_38)%i64 in
  let! f2f2 := (f2 * f2)%i64 in
  let! f2f3_2 := (f2_2 * f3)%i64 in
  let! f2f4_2 := (f2_2 * f4)%i64 in
  let! f2f5_2 := (f2_2 * f5)%i64 in
  let! f2f6_2 := (f2_2 * f6)%i64 in
  let! f2f7_2 := (f2_2 * f7)%i64 in
  let! f2f8_38 := (f2_2 * f8_19)%i64 in
  let! f2f9_38 := (f2 * f9_38)%i64 in
  let! f3f3_2 := (f3_2 * f3)%i64 in
  let! f3f4_2 := (f3_2 * f4)%i64 in
  let! f3f5_4 := (f3_2 * f5_2)%i64 in
  let! f3f6_2 := (f3_2 * f6)%i64 in
  let! f3f7_76 := (f3_2 * f7_38)%i64 in
  let! f3f8_38 := (f3_2 * f8_19)%i64 in
  let! f3f9_76 := (f3_2 * f9_38)%i64 in
  let! f4f4 := (f4 * f4)%i64 in
  let! f4f5_2 := (f4_2 * f5)%i64 in
  let! f4f6_38 := (f4_2 * f6_19)%i64 in
  let! f4f7_38 := (f4 * f7_38)%i64 in
  let! f4f8_38 := (f4_2 * f8_19)%i64 in
  let! f4f9_38 := (f4 * f9_38)%i64 in
  let! f5f5_38 := (f5 * f5_38)%i64 in
  let! f5f6_38 := (f5_2 * f6_19)%i64 in
  let! f5f7_76 := (f5_2 * f7_38)%i64 in
  let! f5f8_38 := (f5_2 * f8_19)%i64 in
  let! f5f9_76 := (f5_2 * f9_38)%i64 in
  let! f6f6_19 := (f6 * f6_19)%i64 in
  let! f6f7_38 := (f6 * f7_38)%i64 in
  let! f6f8_38 := (f6_2 * f8_19)%i64 in
  let! f6f9_38 := (f6 * f9_38)%i64 in
  let! f7f7_38 := (f7 * f7_38)%i64 in
  let! f7f8_38 := (f7_2 * f8_19)%i64 in
  let! f7f9_76 := (f7_2 * f9_38)%i64 in
  let! f8f8_19 := (f8 * f8_19)%i64 in
  let! f8f9_38 := (f8 * f9_38)%i64 in
  let! f9f9_38 := (f9 * f9_38)%i64 in
  let! h0 := (f0f0 + f1f9_76 + f2f8_38 + f3f7_76 + f4f6_38 + f5f5_38)%i64 in
  let! h1 := (f0f1_2 + f2f9_38 + f3f8_38 + f4f7_38 + f5f6_38)%i64 in
  let! h2 := (f0f2_2 + f1f1_2 + f3f9_76 + f4f8_38 + f5f7_76 + f6f6_19)%i64 in
  let! h3 := (f0f3_2 + f1f2_2 + f4f9_38 + f5f8_38 + f6f7_38)%i64 in
  let! h4 := (f0f4_2 + f1f3_4 + f2f2 + f5f9_76 + f6f8_38 + f7f7_38)%i64 in
  let! h5 := (f0f5_2 + f1f4_2 + f2f3_2 + f6f9_38 + f7f8_38)%i64 in
  let! h6 := (f0f6_2 + f1f5_4 + f2f4_2 + f3f3_2 + f7f9_76 + f8f8_19)%i64 in
  let! h7 := (f0f7_2 + f1f6_2 + f2f5_2 + f3f4_2 + f8f9_38)%i64 in
  let! h8 := (f0f8_2 + f1f7_4 + f2f6_2 + f3f5_4 + f4f4 + f9f9_38)%i64 in
  let! h9 := (f0f9_2 + f1f8_2 + f2f7_2 + f3f6_2 + f4f5_2)%i64 in
  Some (mkfe h0 h1 h2 h3 h4 h5 h6 h7 h8 h9).

Definition fe_sq (f : fe) : option fe :=
  let! h := fe_sq_products f in
  fe_carry h.

(** The products of fe_sq2, each sum doubled. *)
Definition fe_sq2_products (f : fe) : option fe :=
  let '(mkfe f0 f1 f2 f3 f4 f5 f6 f7 f8 f9) := f in
  let! f0_2 := (2 * f0)%i32 in
  let! f1_2 := (2 * f1)%i32 in
  let! f2_2 := (2 * f2)%i32 in
  let! f3_2 := (2 * f3)%i32 in
  let! f4_2 := (2 * f4)%i32 in
  let! f5_2 := (2 * f5)%i32 in
  let! f6_2 := (2 * f6)%i32 in
  let! f7_2 := (2 * f7)%i32 in
  let! f5_38 := (38 * f5)%i32 in
  let! f6_19 := (19 * f6)%i32 in
  let! f7_38 := (38 * f7)%i32 in
  let! f8_19 := (19 * f8)%i32 in
  let! f9_38 := (38 * f9)%i32 in
  let! f0f0 := (f0 * f0)%i64 in
  let! f0f1_2 := (f0_2 * f1)%i64 in
  let! f0f2_2 := (f0_2 * f2)%i64 in
  let! f0f3_2 := (f0_2 * f3)%i64 in
  let! f0f4_2 := (f0_2 * f4)%i64 in
  let! f0f5_2 := (f0_2 * f5)%i64 in
  let! f0f6_2 := (f0_2 * f6)%i64 in
  let! f0f7_2 := (f0_2 * f7)%i64 in
  let! f0f8_2 := (f0_2 * f8)%i64 in
  let! f0f9_2 := (f0_2 * f9)%i64 in
  let! f1f1_2 := (f1_2 * f1)%i64 in
  let! f1f2_2 := (f1_2 * f2)%i64 in
  let! f1f3_4 := (f1_2 * f3_2)%i64 in
  let! f1f4_2 := (f1_2 * f4)%i64 in
  let! f1f5_4 := (f1_2 * f5_2)%i64 in
  let! f1f6_2 := (f1_2 * f6)%i64 in
  let! f1f7_4 := (f1_2 * f7_2)%i64 in
  let! f1f8_2 := (f1_2 * f8)%i64 in
  let! f1f9_76 := (f1_2 * f9_38)%i64 in
  let! f2f2 := (f2 * f2)%i64 in
  let! f2f3_2 := (f2_2 * f3)%i64 in
  let! f2f4_2 := (f2_2 * f4)%i64 in
  let! f2f5_2 := (f2_2 * f5)%i64 in
  let! f2f6_2 := (f2_2 * f6)%i64 in
  let! f2f7_2 := (f2_2 * f7)%i64 in
  let! f2f8_38 := (f2_2 * f8_19)%i64 in
  let! f2f9_38 := (f2 * f9_38)%i64 in
  let! f3f3_2 := (f3_2 * f3)%i64 in
  let! f3f4_2 := (f3_2 * f4)%i64 in
  let! f3f5_4 := (f3_2 * f5_2)%i64 in
  let! f3f6_2 := (f3_2 * f6)%i64 in
  let! f3f7_76 := (f3_2 * f7_38)%i64 in
  let! f3f8_38 := (f3_2 * f8_19)%i64 in
  let! f3f9_76 := (f3_2 * f9_38)%i64 in
  let! f4f4 := (f4 * f4)%i64 in
  let! f4f5_2 := (f4_2 * f5)%i64 in
  let! f4f6_38 := (f4_2 * f6_19)%i64 in
  let! f4f7_38 := (f4 * f7_38)%i64 in
  let! f4f8_38 := (f4_2 * f8_19)%i64 in
  let! f4f9_38 := (f4 * f9_38)%i64 in
  let! f5f5_38 := (f5 * f5_38)%i64 in
  let! f5f6_38 := (f5_2 * f6_19)%i64 in
  let! f5f7_76 := (f5_2 * f7_38)%i64 in
  let! f5f8_38 := (f5_2 * f8_19)%i64 in
  let! f5f9_76 := (f5_2 * f9_38)%i64 in
  let! f6f6_19 := (f6 * f6_19)%i64 in
  let! f6f7_38 := (f6 * f7_38)%i64 in
  let! f6f8_38 := (f6_2 * f8_19)%i64 in
  let! f6f9_38 := (f6 * f9_38)%i64 in
  let! f7f7_38 := (f7 * f7_38)%i64 in
  let! f7f8_38 := (f7_2 * f8_19)%i64 in
  let! f7f9_76 := (f7_2 * f9_38)%i64 in
  let! f8f8_19 := (f8 * f8_19)%i64 in
  let! f8f9_38 := (f8 * f9_38)%i64 in
  let! f9f9_38 := (f9 * f9_38)%i64 in
  let! h0 := (f0f0 + f1f9_76 + f2f8_38 + f3f7_76 + f4f6_38 + f5f5_38)%i64 in
  let! h1 := (f0f1_2 + f2f9_38 + f3f8_38 + f4f7_38 + f5f6_38)%i64 in
  let! h2 := (f0f2_2 + f1f1_2 + f3f9_76 + f4f8_38 + f5f7_76 + f6f6_19)%i64 in
  let! h3 := (f0f3_2 + f1f2_2 + f4f9_38 + f5f8_38 + f6f7_38)%i64 in
  let! h4 := (f0f4_2 + f1f3_4 + f2f2 + f5f9_76 + f6f8_38 + f7f7_38)%i64 in
  let! h5 := (f0f5_2 + f1f4_2 + f2f3_2 + f6f9_38 + f7f8_38)%i64 in
  let! h6 := (f0f6_2 + f1f5_4 + f2f4_2 + f3f3_2 + f7f9_76 + f8f8_19)%i64 in
  let! h7 := (f0f7_2 + f1f6_2 + f2f5_2 + f3f4_2 + f8f9_38)%i64 in
  let! h8 := (f0f8_2 + f1f7_4 + f2f6_2 + f3f5_4 + f4f4 + f9f9_38)%i64 in
  let! h9 := (f0f9_2 + f1f8_2 + f2f7_2 + f3f6_2 + f4f5_2)%i64 in
  let! h0 := (h0 + h0)%i64 in
  let! h1 := (h1 + h1)%i64 in
  let! h2 := (h2 + h2)%i64 in
  let! h3 := (h3 + h3)%i64 in
  let! h4 := (h4 + h4)%i64 in
  let! h5 := (h5 + h5)%i64 in
  let! h6 := (h6 + h6)%i64 in
  let! h7 := (h7 + h7)%i64 in
  let! h8 := (h8 + h8)%i64 in
  let! h9 := (h9 + h9)%i64 in
  Some (mkfe h0 h1 h2 h3 h4 h5 h6 h7 h8 h9).

Definition fe_sq2 (f : fe) : option fe :=
  let! h := fe_sq2_products f in
  fe_carry h.

(** ** Proof vocabulary *)

(** The part of a schoolbook product above 2^255, in units of 2^255. *)
Definition fe_mul_quot (f g : fe) : Z :=
  (2 * fe1 f * fe9 g + fe2 f * fe8 g + 2 * fe3 f * fe7 g + fe4 f * fe6 g + 2 * fe5 f * fe5 g + fe6 f * fe4 g + 2 * fe7 f * fe3 g + fe8 f * fe2 g + 2 * fe9 f * fe1 g)
  + 2 ^ 26 * (fe2 f * fe9 g + fe3 f * fe8 g + fe4 f * fe7 g + fe5 f * fe6 g + fe6 f * fe5 g + fe7 f * fe4 g + fe8 f * fe3 g + fe9 f * fe2 g)
  + 2 ^ 51 * (2 * fe3 f * fe9 g + fe4 f * fe8 g + 2 * fe5 f * fe7 g + fe6 f * fe6 g + 2 * fe7 f * fe5 g + fe8 f * fe4 g + 2 * fe9 f * fe3 g)
  + 2 ^ 77 * (fe4 f * fe9 g + fe5 f * fe8 g + fe6 f * fe7 g + fe7 f * fe6 g + fe8 f * fe5 g + fe9 f * fe4 g)
  + 2 ^ 102 * (2 * fe5 f * fe9 g + fe6 f * fe8 g + 2 * fe7 f * fe7 g + fe8 f * fe6 g + 2 * fe9 f * fe5 g)
  + 2 ^ 128 * (fe6 f * fe9 g + fe7 f * fe8 g + fe8 f * fe7 g + fe9 f * fe6 g)
  + 2 ^ 153 * (2 * fe7 f * fe9 g + fe8 f * fe8 g + 2 * fe9 f * fe7 g)
  + 2 ^ 179 * (fe8 f * fe9 g + fe9 f * fe8 g)
  + 2 ^ 204 * (2 * fe9 f * fe9 g).

(** The ten limbs of a product before carrying: the convolution of the limbs,
    the part above 2^255 folded back with the factor 19. *)
Definition fe_conv (f g : fe) : fe :=
  mkfe
    (fe0 f * fe0 g + 38 * fe1 f * fe9 g + 19 * fe2 f * fe8 g + 38 * fe3 f * fe7 g + 19 * fe4 f * fe6 g + 38 * fe5 f * fe5 g + 19 * fe6 f * fe4 g + 38 * fe7 f * fe3 g + 19 * fe8 f * fe2 g + 38 * fe9 f * fe1 g)
    (fe0 f * fe1 g + fe1 f * fe0 g + 19 * fe2 f * fe9 g + 19 * fe3 f * fe8 g + 19 * fe4 f * fe7 g + 19 * fe5 f * fe6 g + 19 * fe6 f * fe5 g + 19 * fe7 f * fe4 g + 19 * fe8 f * fe3 g + 19 * fe9 f * fe2 g)
    (fe0 f * fe2 g + 2 * fe1 f * fe1 g + fe2 f * fe0 g + 38 * fe3 f * fe9 g + 19 * fe4 f * fe8 g + 38 * fe5 f * fe7 g + 19 * fe6 f * fe6 g + 38 * fe7 f * fe5 g + 19 * fe8 f * fe4 g + 38 * fe9 f * fe3 g)
    (fe0 f * fe3 g + fe1 f * fe2 g + fe2 f * fe1 g + fe3 f * fe0 g + 19 * fe4 f * fe9 g + 19 * fe5 f * fe8 g + 19 * fe6 f * fe7 g + 19 * fe7 f * fe6 g + 19 * fe8 f * fe5 g + 19 * fe9 f * fe4 g)
    (fe0 f * fe4 g + 2 * fe1 f * fe3 g + fe2 f * fe2 g + 2 * fe3 f * fe1 g + fe4 f * fe0 g + 38 * fe5 f * fe9 g + 19 * fe6 f * fe8 g + 38 * fe7 f * fe7 g + 19 * fe8 f * fe6 g + 38 * fe9 f * fe5 g)
    (fe0 f * fe5 g + fe1 f * fe4 g + fe2 f * fe3 g + fe3 f * fe2 g + fe4 f * fe1 g + fe5 f * fe0 g + 19 * fe6 f * fe9 g + 19 * fe7 f * fe8 g + 19 * fe8 f * fe7 g + 19 * fe9 f * fe6 g)
    (fe0 f * fe6 g + 2 * fe1 f * fe5 g + fe2 f * fe4 g + 2 * fe3 f * fe3 g + fe4 f * fe2 g + 2 * fe5 f * fe1 g + fe6 f * fe0 g + 38 * fe7 f * fe9 g + 19 * fe8 f * fe8 g + 38 * fe9 f * fe7 g)
    (fe0 f * fe7 g + fe1 f * fe6 g + fe2 f * fe5 g + fe3 f * fe4 g + fe4 f * fe3 g + fe5 f * fe2 g + fe6 f * fe1 g + fe7 f * fe0 g + 19 * fe8 f * fe9 g + 19 * fe9 f * fe8 g)
    (fe0 f * fe8 g + 2 * fe1 f * fe7 g + fe2 f * fe6 g + 2 * fe3 f * fe5 g + fe4 f * fe4 g + 2 * fe5 f * fe3 g + fe6 f * fe2 g + 2 * fe7 f * fe1 g + fe8 f * fe0 g + 38 * fe9 f * fe9 g)
    (fe0 f * fe9 g + fe1 f * fe8 g + fe2 f * fe7 g + fe3 f * fe6 g + fe4 f * fe5 g + fe5 f * fe4 g + fe6 f * fe3 g + fe7 f * fe2 g + fe8 f * fe1 g + fe9 f * fe0 g).

Definition fe_double (f : fe) : fe :=
  mkfe (fe0 f + fe0 f) (fe1 f + fe1 f) (fe2 f + fe2 f) (fe3 f + fe3 f) (fe4 f + fe4 f) (fe5 f + fe5 f) (fe6 f + fe6 f) (fe7 f + fe7 f) (fe8 f + fe8 f) (fe9 f + fe9 f).

(** Bound on the ten accumulators before the carry chain. *)
Definition fe_wide : fe -> Prop := fe_within 3100000000000000000 3100000000000000000.

(** ** Proofs *)

Ltac fe_open f F :=
  destruct f as [?f0 ?f1 ?f2 ?f3 ?f4 ?f5 ?f6 ?f7 ?f8 ?f9];
  cbv [fe_bd fe_within fe0 fe1 fe2 fe3 fe4 fe5 fe6 fe7 fe8 fe9] in F;
  try (cbn in F); split_bds F.

Ltac fe_cbn := cbv [fe_val fe_mul_quot P25519 fe0 fe1 fe2 fe3 fe4 fe5 fe6 fe7 fe8 fe9].

Lemma fe_carry_safe h : fe_wide h ->
  safe (fe_carry h) (fun r => fe_bd 101 r /\ fe_val r =[P25519]= fe_val h).
Proof.
  intros B. unfold fe_wide in B. fe_open h B. unfold fe_carry.
  csteps. unfold safe. rewrite !to_i32_id by (cbv [imin imax]; lia). split.
  - cbv [fe_bd fe_within]. fe_cbn. cbn. lia.
  - fe_cbn.
    match goal with E : _ = _ + ?c * 19 |- _ => apply (cong_quot _ _ _ (- c)) end.
    lia.
Qed.

(** *** Products *)

Lemma fe_conv_val f g : fe_val (fe_conv f g) = fe_val f * fe_val g - fe_mul_quot f g * P25519.
Proof. destruct f, g. unfold fe_conv. fe_cbn. ring. Qed.

Lemma fe_mul_products_conv f g : fe_bd 330 f -> fe_bd 330 g ->
  safe (fe_mul_products f g) (fun h => fe_wide h /\ h = fe_conv f g).
Proof.
  intros F G. fe_open f F. fe_open g G. unfold fe_mul_products.
  csteps. cbn [safe]. split.
  - unfold fe_wide, fe_within. fe_cbn. lia.
  - subst. unfold fe_conv. fe_cbn. f_equal; ring.
Qed.

Lemma fe_sq_products_conv f : fe_bd 330 f ->
  safe (fe_sq_products f) (fun h => fe_wide h /\ h = fe_conv f f).
Proof.
  intros F. fe_open f F. unfold fe_sq_products.
  csteps. cbn [safe]. split.
  - unfold fe_wide, fe_within. fe_cbn. lia.
  - subst. unfold fe_conv. fe_cbn. f_equal; ring.
Qed.

Lemma fe_sq2_products_conv f : fe_bd 330 f ->
  safe (fe_sq2_products f) (fun h => fe_wide h /\ h = fe_double (fe_conv f f)).
Proof.
  intros F. fe_open f F. unfold fe_sq2_products.
  csteps. cbn [safe]. split.
  - unfold fe_wide, fe_within. fe_cbn. lia.
  - subst. unfold fe_conv, fe_double. fe_cbn. f_equal; ring.
Qed.

Lemma fe_double_val f : fe_val (fe_double f) = 2 * fe_val f.
Proof. destruct f. unfold fe_double. fe_cbn. ring. Qed.

Lemma fe_mul_safe f g : fe_bd 330 f -> fe_bd 330 g ->
  safe (fe_mul f g) (fun h => fe_bd 101 h /\ fe_val h =[P25519]= fe_val f * fe_val g).
Proof.
  intros F G. unfold fe_mul. eapply safe_bind; [apply fe_mul_products_conv; eassumption|].
  intros w [W ->]. eapply safe_mono; [apply fe_carry_safe, W|].
  intros h [B C]. split; [exact B|]. rewrite C, fe_conv_val. apply cong_drop.
Qed.

Lemma fe_sq_safe f : fe_bd 330 f ->
  safe (fe_sq f) (fun h => fe_bd 101 h /\ fe_val h =[P25519]= fe_val f * fe_val f).
Proof.
  intros F. unfold fe_sq. eapply safe_bind; [apply fe_sq_products_conv; eassumption|].
  intros w [W ->]. eapply safe_mono; [apply fe_carry_safe, W|].
  intros h [B C]. split; [exact B|]. rewrite C, fe_conv_val. apply cong_drop.
Qed.

Lemma fe_sq2_safe f : fe_bd 330 f ->
  safe (fe_sq2 f) (fun h => fe_bd 101 h /\ fe_val h =[P25519]= 2 * (fe_val f * fe_val f)).
Proof.
  intros F. unfold fe_sq2. eapply safe_bind; [apply fe_sq2_products_conv; eassumption|].
  intros w [W ->]. eapply safe_mono; [apply fe_carry_safe, W|].
  intros h [B C]. split; [exact B|]. rewrite C, fe_double_val, fe_conv_val. now rewrite cong_drop.
Qed.

(** *** Limb-wise operations *)

Lemma fe_within_mono e o e' o' f : e <= e' -> o <= o' -> fe_within e o f -> fe_within e' o' f.
Proof. unfold fe_within. lia. Qed.

Lemma bd_mono a b k : 0 <= k -> a <= b -> a * k / 100 <= b * k / 100.
Proof. intros K L. apply Z.div_le_mono; [lia|]. apply Z.mul_le_mono_nonneg_r; assumption. Qed.

Lemma fe_bd_mono a b f : a <= b -> fe_bd a f -> fe_bd b f.
Proof. intros L. apply fe_within_mono; apply bd_mono; try exact L; apply Z.pow_nonneg; lia. Qed.

(** Discharges the overflow checks of a limb-wise operation. *)
Ltac limbwise :=
  repeat (first [rewrite i_add_some by (cbv [imin imax]; lia)
                | rewrite i_sub_some by (cbv [imin imax]; lia)
                | rewrite i_opp_some by (cbv [imin imax]; lia)]; cbn [bind]).

Section Limbwise.
Context (e o e' o' : Z) (f g : fe).
Context (F : fe_within e o f) (G : fe_within e' o' g).
Context (E : e + e' <= 2147483647) (O : o + o' <= 2147483647).

Lemma fe_add_within :
  safe (fe_add f g) (fun h => fe_within (e + e') (o + o') h /\ fe_val h = fe_val f + fe_val g).
Proof.
  destruct f, g. cbv [fe_within fe0 fe1 fe2 fe3 fe4 fe5 fe6 fe7 fe8 fe9] in F, G.
  unfold fe_add. limbwise. unfold safe, fe_within. fe_cbn. lia.
Qed.

Lemma fe_sub_within :
  safe (fe_sub f g) (fun h => fe_within (e + e') (o + o') h /\ fe_val h = fe_val f - fe_val g).
Proof.
  destruct f, g. cbv [fe_within fe0 fe1 fe2 fe3 fe4 fe5 fe6 fe7 fe8 fe9] in F, G.
  unfold fe_sub. limbwise. unfold safe, fe_within. fe_cbn. lia.
Qed.
End Limbwise.

Lemma fe_neg_within e o f : fe_within e o f -> e <= 2147483647 -> o <= 2147483647 ->
  safe (fe_neg f) (fun h => fe_within e o h /\ fe_val h = - fe_val f).
Proof.
  intros F E O. destruct f. cbv [fe_within fe0 fe1 fe2 fe3 fe4 fe5 fe6 fe7 fe8 fe9] in F.
  unfold fe_neg. limbwise. unfold safe, fe_within. fe_cbn. lia.
Qed.

Lemma bd_add a b k : a * k / 100 + b * k / 100 <= (a + b) * k / 100.
Proof. rewrite Z.mul_add_distr_r. set (x := a * k). set (y := b * k). Z.div_mod_to_equations; lia. Qed.

Lemma bd_fits a b k : 0 <= k <= 2 ^ 25 -> a + b <= 6000 -> a * k / 100 + b * k / 100 <= 2147483647.
Proof.
  intros K AB. pose proof (bd_add a b k). pose proof (bd_mono (a + b) 6000 k ltac:(lia) AB).
  pose proof (Z.div_le_mono (6000 * k) (6000 * 2 ^ 25) 100 ltac:(lia) ltac:(lia)).
  change (6000 * 2 ^ 25 / 100) with 2013265920 in *. lia.
Qed.

Lemma fe_add_safe a b f g : a + b <= 6000 -> fe_bd a f -> fe_bd b g ->
  safe (fe_add f g) (fun h => fe_bd (a + b) h /\ fe_val h = fe_val f + fe_val g).
Proof.
  intros AB F G. eapply safe_mono; [eapply fe_add_within; eauto; apply bd_fits; lia|].
  intros h [B V]. split; [|exact V]. eapply fe_within_mono; [| |exact B]; apply bd_add.
Qed.

Lemma fe_sub_safe a b f g : a + b <= 6000 -> fe_bd a f -> fe_bd b g ->
  safe (fe_sub f g) (fun h => fe_bd (a + b) h /\ fe_val h = fe_val f - fe_val g).
Proof.
  intros AB F G. eapply safe_mono; [eapply fe_sub_within; eauto; apply bd_fits; lia|].
  intros h [B V]. split; [|exact V]. eapply fe_within_mono; [| |exact B]; apply bd_add.
Qed.

Lemma fe_neg_safe a f : a <= 6000 -> fe_bd a f ->
  safe (fe_neg f) (fun h => fe_bd a h /\ fe_val h = - fe_val f).
Proof.
  intros A F. pose proof (bd_fits a 0 (2 ^ 25) ltac:(lia) ltac:(lia)).
  pose proof (bd_fits a 0 (2 ^ 24) ltac:(lia) ltac:(lia)).
  apply fe_neg_within; [exact F | |]; cbn in *; lia.
Qed.

(** *** The selector of fe_cmov *)

Definition fe_i32 (f : fe) : Prop := fe_within 2147483647 2147483647 f.

Lemma cmov_assert_01 b : b = 0 \/ b = 1 -> fe_cmov_assert b = true.
Proof. intros [-> | ->]; reflexivity. Qed.

Lemma land_lnot_bit31 b : 0 < b < 4294967296 ->
  Z.testbit (Z.land (u32 (b - 1)) (u32 (Z.lnot b))) 31 = false.
Proof.
  intros B. unfold u32. change 4294967296 with (2 ^ 32) in *.
  rewrite Z.land_spec, !Z.mod_pow2_bits_low, Z.lnot_spec by lia.
  destruct (Z.testbit b 31) eqn:E; [apply andb_false_r|].
  rewrite Z.testbit_false in E by lia. apply andb_false_iff. left.
  rewrite Z.testbit_false by lia. change (2 ^ 31) with 2147483648 in *. change (2 ^ 32) with 4294967296 in *.
  Z.div_mod_to_equations. lia.
Qed.

Lemma cmov_assert_iff b : 0 <= b < 4294967296 -> fe_cmov_assert b = true <-> b = 0 \/ b = 1.
Proof.
  intros B. split; [|apply cmov_assert_01]. intros E. apply Z.eqb_eq in E.
  destruct (Z.eq_dec b 0) as [|N0]; [auto|]. destruct (Z.eq_dec b 1) as [|N1]; [auto|]. exfalso.
  apply (f_equal (fun x => Z.testbit x 31)) in E.
  rewrite Z.lor_spec, land_lnot_bit31 in E by lia.
  assert (U : u32 (b - 1) = b - 1) by (apply Z.mod_small; lia).
  rewrite U in E. replace (b - 2) with (b - 1 - 1) in E by lia.
  rewrite land_lnot_bit31 in E by lia. discriminate.
Qed.

Lemma to_i32_u32 z : imin I32 <= z <= imax I32 -> to_i32 (u32 z) = z.
Proof.
  cbv [imin imax to_i32 u32]. intros H. rewrite Zplus_mod_idemp_l, Z.mod_small; lia.
Qed.

Lemma lxor_i32 x y : imin I32 <= x <= imax I32 -> imin I32 <= y <= imax I32 ->
  imin I32 <= Z.lxor x y <= imax I32.
Proof.
  cbv [imin imax]. intros X Y.
  assert (R : forall z, -2147483648 <= z <= 2147483647 <-> Z.shiftr z 31 = 0 \/ Z.shiftr z 31 = -1).
  { intros z. rewrite Z.shiftr_div_pow2 by lia. change (2 ^ 31) with 2147483648.
    split; intros H; Z.div_mod_to_equations; lia. }
  apply R. apply R in X, Y. rewrite Z.shiftr_lxor.
  destruct X as [-> | ->], Y as [-> | ->]; cbn; auto.
Qed.

Lemma cmov_limb_0 x y : Z.lxor x (to_i32 (Z.land (u32 (Z.lxor x y)) (u32 (- 0)))) = x.
Proof. change (u32 (- 0)) with 0. rewrite Z.land_0_r. apply Z.lxor_0_r. Qed.

Lemma cmov_limb_1 x y : imin I32 <= x <= imax I32 -> imin I32 <= y <= imax I32 ->
  Z.lxor x (to_i32 (Z.land (u32 (Z.lxor x y)) (u32 (- 1)))) = y.
Proof.
  intros X Y. change (u32 (- 1)) with (Z.ones 32). rewrite Z.land_ones by lia.
  change (2 ^ 32) with 4294967296. fold (u32 (u32 (Z.lxor x y))).
  replace (u32 (u32 (Z.lxor x y))) with (u32 (Z.lxor x y)) by (unfold u32; now rewrite Zmod_mod).
  rewrite to_i32_u32 by (apply lxor_i32; assumption).
  now rewrite <- Z.lxor_assoc, Z.lxor_nilpotent, Z.lxor_0_l.
Qed.

Lemma fe_cmov_safe f g b : fe_i32 f -> fe_i32 g -> b = 0 \/ b = 1 ->
  fe_cmov f g b = Some (if b =? 1 then g else f).
Proof.
  intros F G B. destruct f, g. cbv [fe_i32 fe_within fe0 fe1 fe2 fe3 fe4 fe5 fe6 fe7 fe8 fe9] in F, G.
  unfold fe_cmov. rewrite (cmov_assert_01 b B). destruct B as [-> | ->]; cbn [Z.eqb Pos.eqb].
  - rewrite !cmov_limb_0. reflexivity.
  - rewrite !cmov_limb_1 by (cbv [imin imax]; lia). reflexivity.
Qed.

(** ** Properties *)

(** C34.  Field multiplication.  Under the bounds documented for fe_mul
    (|f|, |g| within 1.65*2^26, 1.65*2^25, ...) no step of the schoolbook
    products or of the carry chain overflows its int32_t or int64_t, the result
    stands for f*g modulo 2^255 - 19, and its limbs are within the documented
    1.01*2^25, 1.01*2^24, ... *)
Theorem fe_mul_correct f g : fe_bd 330 f -> fe_bd 330 g ->
  exists h, fe_mul f g = Some h /\ fe_bd 101 h /\ fe_val h =[P25519]= fe_val f * fe_val g.
Proof. intros F G. apply safe_some, fe_mul_safe; assumption. Qed.

Definition fe_ex1 : fe := mkfe 110729625 (-55364812) 7 (-3) 110729625 1 (-110729625) 55364812 0 (-55364812).
Definition fe_ex2 : fe := mkfe (-19) 3 (-110729625) 55364812 2 (-1) 8 9 110729625 (-55364812).

Lemma fe_mul_correct_witness :
  exists h, fe_mul fe_ex1 fe_ex2 = Some h /\ fe_bd 101 h /\
            fe_val h =[P25519]= fe_val fe_ex1 * fe_val fe_ex2.
Proof. apply fe_mul_correct; vm_compute; intuition discriminate. Defined.

(** The dedicated squaring routine is multiplication: on every input within
    the documented bounds fe_sq f and fe_mul f f return the same ten limbs. *)
Theorem fe_sq_is_mul f : fe_bd 330 f -> fe_sq f = fe_mul f f.
Proof.
  intros F. unfold fe_sq, fe_mul.
  destruct (safe_some _ _ (fe_sq_products_conv f F)) as (h & -> & _ & ->).
  destruct (safe_some _ _ (fe_mul_products_conv f f F F)) as (h & -> & _ & ->). reflexivity.
Qed.

Lemma fe_sq_is_mul_witness : fe_sq fe_ex1 = fe_mul fe_ex1 fe_ex1.
Proof. apply fe_sq_is_mul; vm_compute; intuition discriminate. Defined.

(** The constant-time conditional move: with a selector 0 or 1 it returns
    the first or the second operand, limb for limb, and any other selector
    fails its run-time check. *)
Theorem fe_cmov_correct f g b : fe_i32 f -> fe_i32 g -> 0 <= b < 2 ^ 32 ->
  fe_cmov f g b = if b =? 0 then Some f else if b =? 1 then Some g else None.
Proof.
  intros F G B. pose proof (cmov_assert_iff b B) as A.
  destruct (Z.eqb_spec b 0) as [->|N0]; [exact (fe_cmov_safe f g 0 F G (or_introl eq_refl))|].
  destruct (Z.eqb_spec b 1) as [->|N1]; [exact (fe_cmov_safe f g 1 F G (or_intror eq_refl))|].
  unfold fe_cmov. destruct f, g, (fe_cmov_assert b); [|reflexivity].
  destruct (proj1 A eq_refl); contradiction.
Qed.

Lemma fe_cmov_correct_witness :
  fe_cmov fe_ex1 fe_ex2 1 = if 1 =? 0 then Some fe_ex1 else if 1 =? 1 then Some fe_ex2 else None.
Proof. apply fe_cmov_correct; vm_compute; intuition discriminate. Defined.
