(* ===== verification/FeBytes.v ===== *)
(** Encoding and decoding of field elements (libcryptonote/crypto/crypto-ops.c):
    fe_tobytes, fe_isnegative, fe_isnonzero, and the "fe_frombytes" block that
    ge_frombytes_vartime and ge_fromfe_frombytes_vartime both begin with. *)
From Stdlib Require Import ZArith Lia List Bool.
From S2P Require Import Prelude CInt Bytes Fe25519.
Import ListNotations.
Local Open Scope Z_scope.

(** ** Definitions *)

(** The quotient estimate of fe_tobytes: q = floor(h / p). *)
Definition fe_tobytes_q (h : fe) : option Z :=
  let '(mkfe h0 h1 h2 h3 h4 h5 h6 h7 h8 h9) := h in
  let! q := ((19 * h9 + (1 << 24)) >> 25)%i32 in
  let! q := ((h0 + q) >> 26)%i32 in
  let! q := ((h1 + q) >> 25)%i32 in
  let! q := ((h2 + q) >> 26)%i32 in
  let! q := ((h3 + q) >> 25)%i32 in
  let! q := ((h4 + q) >> 26)%i32 in
  let! q := ((h5 + q) >> 25)%i32 in
  let! q := ((h6 + q) >> 26)%i32 in
  let! q := ((h7 + q) >> 25)%i32 in
  let! q := ((h8 + q) >> 26)%i32 in
  let! q := ((h9 + q) >> 25)%i32 in
  Some q.

(** The byte assignments that end fe_tobytes. *)
Definition fe_store (h : fe) : option (list Z) :=
  let '(mkfe h0 h1 h2 h3 h4 h5 h6 h7 h8 h9) := h in
  store8
    [ (h0 >> 0)%i32; (h0 >> 8)%i32; (h0 >> 16)%i32; ((h0 >> 24) .| (h1 << 2))%i32;
      (h1 >> 6)%i32; (h1 >> 14)%i32; ((h1 >> 22) .| (h2 << 3))%i32;
      (h2 >> 5)%i32; (h2 >> 13)%i32; ((h2 >> 21) .| (h3 << 5))%i32;
      (h3 >> 3)%i32; (h3 >> 11)%i32; ((h3 >> 19) .| (h4 << 6))%i32;
      (h4 >> 2)%i32; (h4 >> 10)%i32; (h4 >> 18)%i32;
      (h5 >> 0)%i32; (h5 >> 8)%i32; (h5 >> 16)%i32; ((h5 >> 24) .| (h6 << 1))%i32;
      (h6 >> 7)%i32; (h6 >> 15)%i32; ((h6 >> 23) .| (h7 << 3))%i32;
      (h7 >> 5)%i32; (h7 >> 13)%i32; ((h7 >> 21) .| (h8 << 4))%i32;
      (h8 >> 4)%i32; (h8 >> 12)%i32; ((h8 >> 20) .| (h9 << 6))%i32;
      (h9 >> 2)%i32; (h9 >> 10)%i32; (h9 >> 18)%i32 ].

(** The limbs of the canonical representative: h - q*p with every limb carried. *)
Definition fe_tobytes_limbs (h : fe) : option fe :=
  let! q := fe_tobytes_q h in
  let '(mkfe h0 h1 h2 h3 h4 h5 h6 h7 h8 h9) := h in
  let! h0 := (h0 + 19 * q)%i32 in
  let! (h0, h1) := fcarry I32 26 h0 h1 in
  let! (h1, h2) := fcarry I32 25 h1 h2 in
  let! (h2, h3) := fcarry I32 26 h2 h3 in
  let! (h3, h4) := fcarry I32 25 h3 h4 in
  let! (h4, h5) := fcarry I32 26 h4 h5 in
  let! (h5, h6) := fcarry I32 25 h5 h6 in
  let! (h6, h7) := fcarry I32 26 h6 h7 in
  let! (h7, h8) := fcarry I32 25 h7 h8 in
  let! (h8, h9) := fcarry I32 26 h8 h9 in
  let! h9 := fcarry_top I32 25 h9 in
  Some (mkfe h0 h1 h2 h3 h4 h5 h6 h7 h8 h9).

Definition fe_tobytes (h : fe) : option (list Z) :=
  let! l := fe_tobytes_limbs h in
  fe_store l.

Definition fe_isnegative (f : fe) : option Z :=
  let! s := fe_tobytes f in
  let! s0 := nth_error s 0 in
  Some (Z.land s0 1).

(** [(((int) (s[0] | ... | s[31]) - 1) >> 8) + 1], also the body of sc_isnonzero. *)
Definition or_nonzero (s : list Z) : option Z :=
  let o := fold_left Z.lor s 0 in
  ((o - 1 >> 8) + 1)%i32.

Definition fe_isnonzero (f : fe) : option Z :=
  let! s := fe_tobytes f in
  or_nonzero s.

(** The ten accumulators h0..h9 loaded from a 32-byte string; [top] is the mask
    applied to the last load (8388607 in ge_frombytes_vartime, none in
    ge_fromfe_frombytes_vartime). *)
Definition fe_load (top : Z -> Z) (s : list Z) : option fe :=
  let! l0 := load_4 s 0 in
  let! l1 := load_3 s 4 in
  let! l2 := load_3 s 7 in
  let! l3 := load_3 s 10 in
  let! l4 := load_3 s 13 in
  let! l5 := load_4 s 16 in
  let! l6 := load_3 s 20 in
  let! l7 := load_3 s 23 in
  let! l8 := load_3 s 26 in
  let! l9 := load_3 s 29 in
  Some (mkfe l0 (u64 (Z.shiftl l1 6)) (u64 (Z.shiftl l2 5)) (u64 (Z.shiftl l3 3))
          (u64 (Z.shiftl l4 2)) l5 (u64 (Z.shiftl l6 7)) (u64 (Z.shiftl l7 5))
          (u64 (Z.shiftl l8 4)) (u64 (Z.shiftl (top l9) 2))).

(** The carries of the "fe_frombytes" block. *)
Definition fe_load_carry (h : fe) : option fe :=
  let '(mkfe h0 h1 h2 h3 h4 h5 h6 h7 h8 h9) := h in
  let! (h9, h0) := rcarry19 I64 25 h9 h0 in
  let! (h1, h2) := rcarry I64 25 h1 h2 in
  let! (h3, h4) := rcarry I64 25 h3 h4 in
  let! (h5, h6) := rcarry I64 25 h5 h6 in
  let! (h7, h8) := rcarry I64 25 h7 h8 in
  let! (h0, h1) := rcarry I64 26 h0 h1 in
  let! (h2, h3) := rcarry I64 26 h2 h3 in
  let! (h4, h5) := rcarry I64 26 h4 h5 in
  let! (h6, h7) := rcarry I64 26 h6 h7 in
  let! (h8, h9) := rcarry I64 26 h8 h9 in
  Some (mkfe (to_i32 h0) (to_i32 h1) (to_i32 h2) (to_i32 h3) (to_i32 h4)
             (to_i32 h5) (to_i32 h6) (to_i32 h7) (to_i32 h8) (to_i32 h9)).

(** The canonicity check of ge_frombytes_vartime on the loaded accumulators. *)
Definition fe_load_noncanonical (h : fe) : bool :=
  (fe9 h =? 33554428) && (fe8 h =? 268435440) && (fe7 h =? 536870880) &&
  (fe6 h =? 2147483520) && (fe5 h =? 4294967295) && (fe4 h =? 67108860) &&
  (fe3 h =? 134217720) && (fe2 h =? 536870880) && (fe1 h =? 1073741760) &&
  (4294967277 <=? fe0 h).

(** The decoding block of ge_frombytes_vartime: load, canonicity check, carries;
    [Some None] is the early [return -1]. *)
Definition fe_frombytes_check (s : list Z) : option (option fe) :=
  let! l := fe_load (Z.land 8388607) s in
  if fe_load_noncanonical l then Some None else
  let! h := fe_load_carry l in
  Some (Some h).

(** ** fe_tobytes *)

(** A chain of floors over the limbs is one floor of the whole value. *)
Definition floor_chain (l : list (Z * Z)) (q : Z) : Z :=
  fold_left (fun q '(h, w) => (h + q) / 2 ^ w) l q.

Lemma floor_chain_val l q : Forall (fun hw => 0 <= snd hw) l ->
  floor_chain l q = (limbs_val l + q) / 2 ^ limbs_width l /\ 0 <= limbs_width l.
Proof.
  intros F. revert q. induction F as [|[h w] l W F IH]; intros q.
  - cbn. now rewrite Z.div_1_r.
  - cbn [snd] in W. destruct (IH ((h + q) / 2 ^ w)) as [E N].
    change (limbs_width ((h, w) :: l)) with (w + limbs_width l). split; [|lia].
    change (floor_chain ((h, w) :: l) q) with (floor_chain l ((h + q) / 2 ^ w)).
    rewrite E. cbn [limbs_val]. rewrite Z.pow_add_r by assumption.
    pose proof (Z.pow_pos_nonneg 2 w ltac:(lia) W).
    pose proof (Z.pow_pos_nonneg 2 (limbs_width l) ltac:(lia) N).
    rewrite <- Z.div_div by lia. f_equal.
    replace (h + 2 ^ w * limbs_val l + q) with ((h + q) + limbs_val l * 2 ^ w) by ring.
    rewrite Z.div_add by lia. ring.
Qed.

Definition fe_limbs (h : fe) : list (Z * Z) :=
  let '(mkfe h0 h1 h2 h3 h4 h5 h6 h7 h8 h9) := h in
  [(h0, 26); (h1, 25); (h2, 26); (h3, 25); (h4, 26);
   (h5, 25); (h6, 26); (h7, 25); (h8, 26); (h9, 25)].

Lemma fe_limbs_val h : limbs_val (fe_limbs h) = fe_val h.
Proof. destruct h. cbn [fe_limbs limbs_val]. fe_cbn. ring. Qed.

Lemma fe_tobytes_q_val h : fe_bd 330 h ->
  safe (fe_tobytes_q h) (fun q =>
    q = (fe_val h + (19 * fe9 h + 2 ^ 24) / 2 ^ 25) / 2 ^ 255 /\ -4 <= q <= 4).
Proof.
  intros B. rewrite <- fe_limbs_val. fe_open h B. unfold fe_tobytes_q. csteps. cbn [safe].
  split; [|lia].
  rewrite Ev9, Ev8, Ev7, Ev6, Ev5, Ev4, Ev3, Ev2, Ev1, Ev0, Ev.
  cbn [fe9]. rewrite Z.mul_1_l.
  edestruct (floor_chain_val (fe_limbs (mkfe f0 f1 f2 f3 f4 f5 f6 f7 f8 f9))) as [E _].
  - repeat constructor; discriminate.
  - exact E.
Qed.

(** The estimate is the exact quotient by p, and removing q*p leaves a value
    whose residue modulo 2^255 is the canonical representative. *)
Lemma fe_quotient h : fe_bd 330 h ->
  let q := (fe_val h + (19 * fe9 h + 2 ^ 24) / 2 ^ 25) / 2 ^ 255 in
  q = fe_val h / P25519.
Proof.
  intros B. cbv zeta. set (y := (19 * fe9 h + 2 ^ 24) / 2 ^ 25).
  assert (Y : 2 ^ 25 * y <= 19 * fe9 h + 2 ^ 24 < 2 ^ 25 * y + 2 ^ 25)
    by (subst y; Z.div_mod_to_equations; lia).
  clearbody y.
  assert (P : 0 < P25519) by reflexivity.
  pose proof (Z.div_mod (fe_val h) P25519 ltac:(lia)) as DM.
  pose proof (Z.mod_pos_bound (fe_val h) P25519 P) as MB.
  set (q := fe_val h / P25519) in *. set (r := fe_val h mod P25519) in *.
  clearbody q r. fe_open h B. revert DM MB Y. fe_cbn. intros DM MB Y.
  symmetry. apply Z.div_unique with (r := r + y - 19 * q); [left|]; lia.
Qed.

Lemma fe_store_val h0 h1 h2 h3 h4 h5 h6 h7 h8 h9 :
  0 <= h0 < 2 ^ 26 -> 0 <= h1 < 2 ^ 25 -> 0 <= h2 < 2 ^ 26 -> 0 <= h3 < 2 ^ 25 ->
  0 <= h4 < 2 ^ 26 -> 0 <= h5 < 2 ^ 25 -> 0 <= h6 < 2 ^ 26 -> 0 <= h7 < 2 ^ 25 ->
  0 <= h8 < 2 ^ 26 -> 0 <= h9 < 2 ^ 25 ->
  fe_store (mkfe h0 h1 h2 h3 h4 h5 h6 h7 h8 h9) =
    Some (le_bytes 32 (fe_val (mkfe h0 h1 h2 h3 h4 h5 h6 h7 h8 h9))).
Proof.
  intros. rewrite <- fe_limbs_val. unfold fe_store, fe_limbs.
  rewrite limbs_val_start.
  repeat store_step I32.
Qed.

Definition fe_carried (h : fe) : Prop :=
  0 <= fe0 h < 2 ^ 26 /\ 0 <= fe1 h < 2 ^ 25 /\ 0 <= fe2 h < 2 ^ 26 /\ 0 <= fe3 h < 2 ^ 25 /\
  0 <= fe4 h < 2 ^ 26 /\ 0 <= fe5 h < 2 ^ 25 /\ 0 <= fe6 h < 2 ^ 26 /\ 0 <= fe7 h < 2 ^ 25 /\
  0 <= fe8 h < 2 ^ 26 /\ 0 <= fe9 h < 2 ^ 25.

Lemma fe_tobytes_limbs_safe h : fe_bd 330 h ->
  safe (fe_tobytes_limbs h) (fun l => fe_carried l /\ fe_val l = fe_val h mod P25519).
Proof.
  intros B. destruct (safe_some _ _ (fe_tobytes_q_val h B)) as (q & E & V & Q).
  rewrite (fe_quotient h B) in V.
  assert (P : 0 < P25519) by reflexivity.
  pose proof (Z.div_mod (fe_val h) P25519 ltac:(lia)) as DM.
  pose proof (Z.mod_pos_bound (fe_val h) P25519 P) as MB.
  rewrite <- V in DM. set (r := fe_val h mod P25519) in *. clearbody r. clear V.
  unfold fe_tobytes_limbs. rewrite E. cbn [bind]. clear E. fe_open h B.
  csteps. cbn [safe]. split; [unfold fe_carried; fe_cbn; lia|].
  revert DM MB. fe_cbn. intros DM MB. lia.
Qed.

Lemma fe_tobytes_safe h : fe_bd 330 h ->
  fe_tobytes h = Some (le_bytes 32 (fe_val h mod P25519)).
Proof.
  intros B. unfold fe_tobytes.
  destruct (safe_some _ _ (fe_tobytes_limbs_safe h B)) as (l & -> & C & <-).
  destruct l. unfold fe_carried in C. cbn in C. apply fe_store_val; lia.
Qed.

(** *** Sign and zero tests *)

Lemma fe_isnegative_safe f : fe_bd 330 f ->
  fe_isnegative f = Some ((fe_val f mod P25519) mod 2).
Proof.
  intros F. unfold fe_isnegative. rewrite fe_tobytes_safe by exact F. cbn [bind].
  rewrite le_bytes_S. cbn [nth_error bind]. f_equal.
  change 1 with (Z.ones 1). rewrite Z.land_ones by lia. change (2 ^ 1) with 2.
  set (v := fe_val f mod P25519). Z.div_mod_to_equations; lia.
Qed.

(** The disjunction of the bytes of a string is a byte, zero only for zero. *)
Lemma fold_lor_byte s : Forall is_byte s -> forall a, is_byte a ->
  is_byte (fold_left Z.lor s a) /\ (fold_left Z.lor s a = 0 <-> a = 0 /\ Forall (fun b => b = 0) s).
Proof.
  induction 1 as [|b s B F IH]; intros a A; cbn [fold_left].
  - intuition.
  - assert (AB : is_byte (Z.lor a b)).
    { unfold is_byte in *. split; [apply Z.lor_nonneg; lia|].
      rewrite <- (Z.mod_small a 256), <- (Z.mod_small b 256) by lia.
      rewrite <- lor_mod_256. apply Z.mod_pos_bound. lia. }
    destruct (IH _ AB) as [I1 I2]. split; [exact I1|]. rewrite I2, Z.lor_eq_0_iff.
    split; [intros [[-> ->] ?] | intros [-> G]; inversion G; subst]; auto.
Qed.

Lemma le_val_0 s : Forall is_byte s -> le_val s = 0 <-> Forall (fun b => b = 0) s.
Proof.
  induction 1 as [|b s B F IH]; cbn [le_val]; [intuition|].
  pose proof (le_val_nonneg s F). unfold is_byte in B. split; intros G.
  - constructor; [lia|]. apply IH. lia.
  - inversion G; subst. rewrite (proj2 IH) by assumption. lia.
Qed.

Lemma or_nonzero_val s : Forall is_byte s ->
  or_nonzero s = Some (if le_val s =? 0 then 0 else 1).
Proof.
  intros F. destruct (fold_lor_byte s F 0 ltac:(unfold is_byte; lia)) as [B E].
  pose proof (le_val_0 s F) as Z0. unfold or_nonzero.
  set (o := fold_left Z.lor s 0) in *. clearbody o. unfold is_byte in B.
  rewrite i_sub_some by (cbv [imin imax]; lia).
  unfold i_shr, lift1. rewrite Z.shiftr_div_pow2 by lia.
  destruct (Z.eqb_spec (le_val s) 0) as [Q|Q].
  - replace o with 0 by (symmetry; apply E; split; [reflexivity | now apply Z0]). reflexivity.
  - rewrite Z.div_small; [reflexivity|]. split; [|change (2 ^ 8) with 256; lia].
    enough (o <> 0) by lia. intros O. apply Q, Z0. now apply E.
Qed.

Lemma fe_isnonzero_safe f : fe_bd 330 f ->
  fe_isnonzero f = Some (if fe_val f mod P25519 =? 0 then 0 else 1).
Proof.
  intros F. unfold fe_isnonzero. rewrite fe_tobytes_safe by exact F. cbn [bind].
  rewrite or_nonzero_val by apply le_bytes_byte.
  rewrite le_val_le_bytes, (Z.mod_small (fe_val f mod P25519)); [reflexivity|].
  assert (P : 0 < P25519 < 2 ^ (8 * Z.of_nat 32)) by (split; reflexivity).
  pose proof (Z.mod_pos_bound (fe_val f) P25519 ltac:(lia)). lia.
Qed.

(** *** Loading *)

(** The ten fields of a load, the last of [w] bits. *)
Definition fe_load_fields (w : Z) : list (Z * Z) :=
  [(0, 32); (32, 24); (56, 24); (80, 24); (104, 24); (128, 32); (160, 24); (184, 24); (208, 24); (232, w)].

(** The bounds of the loaded accumulators; the last is [2^(w+2)] for a top limb
    of [w] bits. *)
Definition fe_loaded (w : Z) (h : fe) : Prop :=
  exists l0 l1 l2 l3 l4 l5 l6 l7 l8 l9,
    h = mkfe l0 (l1 * 2 ^ 6) (l2 * 2 ^ 5) (l3 * 2 ^ 3) (l4 * 2 ^ 2)
             l5 (l6 * 2 ^ 7) (l7 * 2 ^ 5) (l8 * 2 ^ 4) (l9 * 2 ^ 2) /\
    (0 <= l0 < 2 ^ 32 /\ 0 <= l1 < 2 ^ 24 /\ 0 <= l2 < 2 ^ 24 /\ 0 <= l3 < 2 ^ 24 /\
     0 <= l4 < 2 ^ 24 /\ 0 <= l5 < 2 ^ 32 /\ 0 <= l6 < 2 ^ 24 /\ 0 <= l7 < 2 ^ 24 /\
     0 <= l8 < 2 ^ 24 /\ 0 <= l9 < 2 ^ w).

Lemma u64_shl l k : 0 <= k <= 7 -> 0 <= l < 2 ^ 24 -> u64 (Z.shiftl l k) = l * 2 ^ k.
Proof.
  intros K L. rewrite Z.shiftl_mul_pow2 by lia. apply u64_small.
  pose proof (Z.pow_le_mono_r 2 k 7 ltac:(lia) ltac:(lia)).
  pose proof (Z.pow_pos_nonneg 2 k ltac:(lia) ltac:(lia)). nia.
Qed.

(** The load reads the string's value modulo 2^(232 + w), w bits being kept of
    the last load. *)
Lemma fe_load_gen top w s : is_bytes 32 s -> 0 <= w <= 24 ->
  (forall x, 0 <= x < 2 ^ 24 -> top x = x mod 2 ^ w) ->
  safe (fe_load top s) (fun h => fe_loaded w h /\ fe_val h = le_val s mod 2 ^ (232 + w)).
Proof.
  intros [L F] W T. unfold fe_load.
  repeat first [rewrite load_4_val by (first [exact F | rewrite L; lia])
               | rewrite load_3_val by (first [exact F | rewrite L; lia])]; cbn [bind].
  set (v := le_val s).
  assert (M : forall k n, 0 <= n -> 0 <= (v / 2 ^ k) mod 2 ^ n < 2 ^ n)
    by (intros; apply Z.mod_pos_bound, Z.pow_pos_nonneg; lia).
  assert (M24 : forall k, 0 <= (v / 2 ^ k) mod 2 ^ 24 < 2 ^ 24) by (intros; apply M; lia).
  rewrite T by apply M24.
  assert (P : 2 ^ w <= 2 ^ 24) by (apply Z.pow_le_mono_r; lia).
  assert (PW : 0 < 2 ^ w) by (apply Z.pow_pos_nonneg; lia).
  assert (R : ((v / 2 ^ 232) mod 2 ^ 24) mod 2 ^ w = (v / 2 ^ 232) mod 2 ^ w).
  { rewrite (pow2_split w 24), Z.rem_mul_r by (try apply Z.pow_pos_nonneg; try apply Z.pow_nonzero; lia).
    rewrite (Z.mul_comm (2 ^ w)), Z_mod_plus_full. apply Zmod_mod. }
  change (8 * Z.of_nat 29) with 232. rewrite R.
  rewrite !u64_shl by (first [lia | apply M24
    | pose proof (M 232 w ltac:(lia)); split; [apply M; lia | lia]]).
  cbn [safe]. split.
  - do 10 eexists. split; [reflexivity|]. repeat apply conj; apply M; lia.
  - assert (C : contiguous 0 (fe_load_fields w) (232 + w) = true).
    { unfold fe_load_fields. cbn [contiguous]. repeat (apply andb_true_intro; split);
        first [apply Z.leb_le; lia | apply Z.eqb_eq; lia]. }
    rewrite <- (fields_val_0 _ v _ C). unfold fe_load_fields. cbv [fields]. cbn [map limbs_val]. fe_cbn.
    change (8 * Z.of_nat 0) with 0. change (8 * Z.of_nat 4) with 32.
    change (8 * Z.of_nat 7) with 56. change (8 * Z.of_nat 10) with 80.
    change (8 * Z.of_nat 13) with 104. change (8 * Z.of_nat 16) with 128.
    change (8 * Z.of_nat 20) with 160. change (8 * Z.of_nat 23) with 184.
    change (8 * Z.of_nat 26) with 208. ring.
Qed.

Lemma fe_load_frombytes s : is_bytes 32 s ->
  safe (fe_load (Z.land 8388607) s) (fun h => fe_loaded 23 h /\ fe_val h = le_val s mod 2 ^ 255).
Proof.
  intros S. apply (fe_load_gen _ 23 s S); [lia|]. intros x X.
  rewrite Z.land_comm. exact (Z.land_ones x 23 ltac:(lia)).
Qed.

Lemma fe_load_fromfe s : is_bytes 32 s ->
  safe (fe_load (fun l => l) s) (fun h => fe_loaded 24 h /\ fe_val h = le_val s).
Proof.
  intros S. eapply safe_mono; [apply (fe_load_gen _ 24 s S); [lia|]|].
  - intros x X. symmetry. now apply Z.mod_small.
  - intros h [H V]. split; [exact H|]. destruct S as [L F]. apply le_val_bound in F.
    rewrite L in F. rewrite V. apply Z.mod_small. exact F.
Qed.

Lemma fe_loaded_mono h : fe_loaded 23 h -> fe_loaded 24 h.
Proof.
  intros (l0 & l1 & l2 & l3 & l4 & l5 & l6 & l7 & l8 & l9 & E & B).
  exists l0, l1, l2, l3, l4, l5, l6, l7, l8, l9. split; [exact E|]. lia.
Qed.

Lemma fe_load_carry_safe h : fe_loaded 24 h ->
  safe (fe_load_carry h) (fun r => fe_bd 101 r /\ fe_val r =[P25519]= fe_val h).
Proof.
  intros (l0 & l1 & l2 & l3 & l4 & l5 & l6 & l7 & l8 & l9 & -> & B).
  assert (W : fe_within 0 0 fe_0) by (unfold fe_within, fe_0; cbn; lia). clear W.
  assert (R : exists h0 h1 h2 h3 h4 h5 h6 h7 h8 h9,
    mkfe l0 (l1 * 2 ^ 6) (l2 * 2 ^ 5) (l3 * 2 ^ 3) (l4 * 2 ^ 2)
         l5 (l6 * 2 ^ 7) (l7 * 2 ^ 5) (l8 * 2 ^ 4) (l9 * 2 ^ 2)
    = mkfe h0 h1 h2 h3 h4 h5 h6 h7 h8 h9 /\
    0 <= h0 <= 4294967296 /\ 0 <= h1 <= 1073741824 /\ 0 <= h2 <= 536870912 /\
    0 <= h3 <= 134217728 /\ 0 <= h4 <= 67108864 /\ 0 <= h5 <= 4294967296 /\
    0 <= h6 <= 2147483648 /\ 0 <= h7 <= 536870912 /\ 0 <= h8 <= 268435456 /\
    0 <= h9 <= 67108864).
  { do 10 eexists. split; [reflexivity|]. lia. }
  destruct R as (h0 & h1 & h2 & h3 & h4 & h5 & h6 & h7 & h8 & h9 & -> & R).
  clear B. split_bds R. unfold fe_load_carry. csteps.
  unfold safe. rewrite !to_i32_id by (cbv [imin imax]; lia). split.
  - cbv [fe_bd fe_within]. fe_cbn. cbn. lia.
  - fe_cbn.
    match goal with E : _ = _ + ?c * 19 |- _ => apply (cong_quot _ _ _ (- c)) end.
    lia.
Qed.

(** The canonicity check compares the loaded value with p. *)
Lemma fe_load_noncanonical_iff h : fe_loaded 23 h ->
  fe_load_noncanonical h = (P25519 <=? fe_val h).
Proof.
  intros (l0 & l1 & l2 & l3 & l4 & l5 & l6 & l7 & l8 & l9 & -> & B).
  unfold fe_load_noncanonical. fe_cbn. apply Bool.eq_true_iff_eq.
  repeat rewrite andb_true_iff. rewrite !Z.eqb_eq, !Z.leb_le. lia.
Qed.

(** ** Properties *)

(** Canonical encoding.  For limbs within 1.65*2^26, 1.65*2^25, ... (one
    and a half times the bounds fe_tobytes documents) the limbs after the carry
    chain and the 32 bytes
    written are the little-endian digits of the unique representative of h in
    [0, 2^255 - 19), whatever limb representation h had. *)
Theorem fe_tobytes_canonical h : fe_bd 330 h ->
  fe_tobytes h = Some (le_bytes 32 (fe_val h mod P25519)).
Proof. apply fe_tobytes_safe. Qed.

Lemma fe_tobytes_canonical_witness :
  fe_tobytes (mkfe (-1) 0 0 0 (-73819750) 0 0 0 5 36909875) =
    Some (le_bytes 32 (fe_val (mkfe (-1) 0 0 0 (-73819750) 0 0 0 5 36909875) mod P25519)).
Proof. apply fe_tobytes_canonical; vm_compute; intuition discriminate. Defined.

Lemma fe_frombytes_check_safe s : is_bytes 32 s ->
  safe (fe_frombytes_check s) (fun r =>
    match r with
    | None => P25519 <= le_val s mod 2 ^ 255
    | Some h => le_val s mod 2 ^ 255 < P25519 /\ fe_bd 101 h /\
                fe_val h =[P25519]= le_val s mod 2 ^ 255
    end).
Proof.
  intros S. unfold fe_frombytes_check.
  eapply safe_bind; [apply fe_load_frombytes, S|]. intros l [L V].
  rewrite fe_load_noncanonical_iff by exact L. rewrite V.
  destruct (Z.leb_spec P25519 (le_val s mod 2 ^ 255)) as [G|G]; [exact G|].
  eapply safe_bind; [apply fe_load_carry_safe, fe_loaded_mono, L|].
  intros r [R C]. cbn [safe]. rewrite V in C. auto.
Qed.

(** Encode/decode round trip.  Decoding the encoding of a field element is
    accepted by the canonicity check and gives back the same element modulo p,
    with limbs that satisfy every precondition of the arithmetic. *)
Theorem fe_bytes_roundtrip h : fe_bd 330 h ->
  exists s r, fe_tobytes h = Some s /\ fe_frombytes_check s = Some (Some r) /\
              fe_bd 101 r /\ fe_val r =[P25519]= fe_val h.
Proof.
  intros B. eexists. rewrite fe_tobytes_safe by exact B.
  assert (P : 0 < P25519 < 2 ^ 255) by (split; reflexivity).
  pose proof (Z.mod_pos_bound (fe_val h) P25519 ltac:(lia)) as M.
  set (v := fe_val h mod P25519) in *.
  destruct (safe_some _ _ (fe_frombytes_check_safe (le_bytes 32 v)
    (conj (length_le_bytes _ _) (le_bytes_byte _ _)))) as (r & E & Q).
  rewrite le_val_le_bytes in Q. change (8 * Z.of_nat 32) with 256 in Q.
  rewrite (Z.mod_small v), (Z.mod_small v) in Q by (change (2 ^ 256) with (2 * 2 ^ 255); lia).
  destruct r as [r|]; [|lia]. exists r. split; [reflexivity|]. split; [exact E|].
  destruct Q as (_ & R & C). split; [exact R|]. rewrite C. subst v. apply cong_mod. lia.
Qed.

Definition fe_ex3 : fe := mkfe (-19) 3 (-73819750) 36909875 2 (-1) 8 9 73819750 (-36909875).

Lemma fe_bytes_roundtrip_witness :
  exists s r, fe_tobytes fe_ex3 = Some s /\ fe_frombytes_check s = Some (Some r) /\
              fe_bd 101 r /\ fe_val r =[P25519]= fe_val fe_ex3.
Proof. apply fe_bytes_roundtrip; vm_compute; intuition discriminate. Defined.

(** Decoding accepts exactly the canonical encodings: a 32-byte string is
    rejected if and only if its low 255 bits are at least p, and otherwise the
    limbs stand for those 255 bits. *)
Theorem fe_frombytes_canonical s : is_bytes 32 s ->
  exists r, fe_frombytes_check s = Some r /\
    (r = None <-> P25519 <= le_val s mod 2 ^ 255) /\
    forall h, r = Some h -> fe_bd 101 h /\ fe_val h =[P25519]= le_val s mod 2 ^ 255.
Proof.
  intros S. destruct (safe_some _ _ (fe_frombytes_check_safe s S)) as (r & E & Q).
  exists r. split; [exact E|]. destruct r as [h|].
  - destruct Q as (L & B & C). split; [split; [discriminate | lia]|].
    intros h' [= <-]. split; assumption.
  - split; [tauto | discriminate].
Qed.

Lemma fe_frombytes_canonical_witness :
  exists r, fe_frombytes_check (le_bytes 32 (P25519 + 5)) = Some r /\
    (r = None <-> P25519 <= le_val (le_bytes 32 (P25519 + 5)) mod 2 ^ 255) /\
    forall h, r = Some h ->
      fe_bd 101 h /\ fe_val h =[P25519]= le_val (le_bytes 32 (P25519 + 5)) mod 2 ^ 255.
Proof.
  apply fe_frombytes_canonical. split; [apply length_le_bytes | apply le_bytes_byte].
Defined.

(** The sign and zero tests read the canonical representative, so they do
    not depend on the limb representation: fe_isnegative is its lowest bit and
    fe_isnonzero is 0 exactly for a multiple of p. *)
Theorem fe_tests_correct f : fe_bd 330 f ->
  fe_isnegative f = Some ((fe_val f mod P25519) mod 2) /\
  exists z, fe_isnonzero f = Some z /\ (z = 0 \/ z = 1) /\ (z = 0 <-> fe_val f =[P25519]= 0).
Proof.
  intros F. split; [apply fe_isnegative_safe, F|]. rewrite fe_isnonzero_safe by exact F.
  eexists. split; [reflexivity|]. unfold cong. rewrite (Z.mod_0_l P25519) by discriminate.
  destruct (Z.eqb_spec (fe_val f mod P25519) 0); intuition discriminate.
Qed.

Lemma fe_tests_correct_witness :
  fe_isnegative fe_ex3 = Some ((fe_val fe_ex3 mod P25519) mod 2) /\
  exists z, fe_isnonzero fe_ex3 = Some z /\ (z = 0 \/ z = 1) /\ (z = 0 <-> fe_val fe_ex3 =[P25519]= 0).
Proof. apply fe_tests_correct; vm_compute; intuition discriminate. Defined.

(** The store [s[12] = (h3 >> 19) | (h4 << 6)] shifts a limb of up to 26 bits left
    by 6: for limbs the arithmetic produces, the int32_t shift overflows.  The
    byte is right all the same, because the bits lost are not part of it. *)
Lemma fe_tobytes_shift_overflow :
  exists h l, fe_bd 101 h /\ fe_tobytes_limbs h = Some l /\ imax I32 < fe4 l * 2 ^ 6.
Proof.
  exists (mkfe 0 0 0 0 33554432 0 0 0 0 0), (mkfe 0 0 0 0 33554432 0 0 0 0 0).
  split; [vm_compute; intuition discriminate|]. split; reflexivity.
Qed.
