(* ===== verification/ScOps.v ===== *)
(** Straight-line programs on 21-bit limbs (libcryptonote/crypto/crypto-ops.c,
    the reduction steps of the sc_ functions), with a verified interval analysis.

    sc_reduce, sc_reduce32, sc_add, sc_sub and sc_mulsub all consist of four
    kinds of steps on int64_t limbs s0, s1, ...; [sc_op] names them, [exec] is
    their meaning with every addition and multiplication checked for overflow.
    [abs] computes intervals for the limbs; [run_sound] shows that a program the
    analysis accepts never overflows, ends within the computed intervals, and
    keeps the value modulo the group order. *)
From Stdlib Require Import ZArith Lia List Bool.
From stdpp Require Import base list.
From S2P Require Import Prelude CInt.
Import ListNotations.
Local Open Scope Z_scope.

(** ** Definitions *)

(** The order of the base point: l = 2^252 + 27742317777372353535851937790883648493. *)
Definition L25519 : Z := 2 ^ 252 + 27742317777372353535851937790883648493.

(** The integer of a list of limbs in radix 2^21. *)
Definition sc_val (s : list Z) : Z := foldr (fun x acc => x + 2 ^ 21 * acc) 0 s.

(** The steps.  The state is the list of live limbs s0, s1, ..., sk. *)
Inductive sc_op : Set :=
  | Rnd (i : nat)   (* carry_i = (s_i + (1<<20)) >> 21; s_{i+1} += carry_i; s_i -= carry_i << 21 *)
  | Flr (i : nat)   (* carry_i = s_i >> 21; s_{i+1} += carry_i; s_i -= carry_i << 21 *)
  | Fold            (* the top limb s_k, times the six constants, into s_{k-12}, ..., s_{k-7} *)
  | Zero.           (* s12 = 0: a new top limb *)

Definition sc_carry (c : Z -> Z -> option (Z * Z)) (i : nat) (s : list Z) : option (list Z) :=
  let! x := s !! i in
  let! y := s !! (S i) in
  let! (x, y) := c x y in
  Some (<[S i := y]> (<[i := x]> s)).

(** [y += x * c] for a positive constant, [y -= x * -c] for a negative one. *)
Definition sc_madd_val (x y c : Z) : cint :=
  if 0 <=? c then (y + x * c)%i64 else (y - x * (Z.opp c))%i64.

Definition sc_madd (x : Z) (j : nat) (c : Z) (s : list Z) : option (list Z) :=
  let! y := (s !! j : option Z) in
  let! y := sc_madd_val x y c in
  Some (<[j := y]> s).

Definition sc_consts : list Z := [666643; 470296; 654183; -997805; 136657; -683901].

Fixpoint sc_madds (x : Z) (j : nat) (cs : list Z) (s : list Z) : option (list Z) :=
  match cs with
  | [] => Some s
  | c :: cs => let! s := sc_madd x j c s in sc_madds x (S j) cs s
  end.

Definition sc_fold (s : list Z) : option (list Z) :=
  let k := (length s - 1)%nat in
  let! x := s !! k in
  sc_madds x (k - 12) sc_consts (take k s).

Definition exec (o : sc_op) (s : list Z) : option (list Z) :=
  match o with
  | Rnd i => sc_carry (rcarry I64 21) i s
  | Flr i => sc_carry (fcarry I64 21) i s
  | Fold => sc_fold s
  | Zero => Some (s ++ [0])
  end.

Fixpoint run (p : list sc_op) (s : list Z) : option (list Z) :=
  match p with
  | [] => Some s
  | o :: p => let! s := exec o s in run p s
  end.

(** ** The interval analysis *)

Definition ivl : Set := Z * Z.
Definition inside (x : Z) (b : ivl) : Prop := b.1 <= x <= b.2.
Definition within (s : list Z) (bs : list ivl) : Prop := Forall2 inside s bs.

Definition abs_rnd (a b : ivl) : option (ivl * ivl) :=
  let clo := (a.1 + 2 ^ 20) / 2 ^ 21 in
  let chi := (a.2 + 2 ^ 20) / 2 ^ 21 in
  if rc_ok I64 21 a.1 a.2 (2 ^ 20) (2 ^ 21) clo chi (b.1 + clo) (b.2 + chi)
  then Some ((- 2 ^ 20, 2 ^ 20 - 1), (b.1 + clo, b.2 + chi)) else None.

Definition abs_flr (a b : ivl) : option (ivl * ivl) :=
  let clo := a.1 / 2 ^ 21 in
  let chi := a.2 / 2 ^ 21 in
  if fc_ok I64 21 a.1 a.2 (2 ^ 21) clo chi (b.1 + clo) (b.2 + chi)
  then Some ((0, 2 ^ 21 - 1), (b.1 + clo, b.2 + chi)) else None.

Definition abs_carry (f : ivl -> ivl -> option (ivl * ivl)) (i : nat) (bs : list ivl) : option (list ivl) :=
  let! a := bs !! i in
  let! b := bs !! (S i) in
  let! (a, b) := f a b in
  Some (<[S i := b]> (<[i := a]> bs)).

Definition abs_madd (x : ivl) (j : nat) (c : Z) (bs : list ivl) : option (list ivl) :=
  let! y := bs !! j in
  let lo := mul_lo x.1 x.2 c c in
  let hi := mul_hi x.1 x.2 c c in
  if fits I64 lo hi && fits I64 (- hi) (- lo) && fits I64 (y.1 + lo) (y.2 + hi)
  then Some (<[j := (y.1 + lo, y.2 + hi)]> bs) else None.

Fixpoint abs_madds (x : ivl) (j : nat) (cs : list Z) (bs : list ivl) : option (list ivl) :=
  match cs with
  | [] => Some bs
  | c :: cs => let! bs := abs_madd x j c bs in abs_madds x (S j) cs bs
  end.

Definition abs_fold (bs : list ivl) : option (list ivl) :=
  let k := (length bs - 1)%nat in
  let! x := bs !! k in
  if (12 <=? k)%nat then abs_madds x (k - 12) sc_consts (take k bs) else None.

Definition abs (o : sc_op) (bs : list ivl) : option (list ivl) :=
  match o with
  | Rnd i => abs_carry abs_rnd i bs
  | Flr i => abs_carry abs_flr i bs
  | Fold => abs_fold bs
  | Zero => Some (bs ++ [(0, 0)])
  end.

Fixpoint abs_run (p : list sc_op) (bs : list ivl) : option (list ivl) :=
  match p with
  | [] => Some bs
  | o :: p => let! bs := abs o bs in abs_run p bs
  end.

(** ** Values under update *)

Lemma sc_val_cons x s : sc_val (x :: s) = x + 2 ^ 21 * sc_val s.
Proof. reflexivity. Qed.

Lemma pow21_S i : 2 ^ (21 * Z.of_nat (S i)) = 2 ^ 21 * 2 ^ (21 * Z.of_nat i).
Proof. rewrite <- Z.pow_add_r by lia. f_equal. lia. Qed.

Lemma sc_val_insert s i x y : s !! i = Some x ->
  sc_val (<[i := y]> s) = sc_val s + (y - x) * 2 ^ (21 * Z.of_nat i).
Proof.
  revert i. induction s as [|z s IH]; intros [|i] E; try discriminate.
  - injection E as ->. change (<[0%nat := y]> (x :: s)) with (y :: s). rewrite !sc_val_cons.
    change (2 ^ (21 * Z.of_nat 0)) with 1. ring.
  - change (<[S i := y]> (z :: s)) with (z :: <[i := y]> s).
    rewrite !sc_val_cons, (IH i E), pow21_S. ring.
Qed.

Lemma sc_val_app s t : sc_val (s ++ t) = sc_val s + 2 ^ (21 * Z.of_nat (length s)) * sc_val t.
Proof.
  induction s as [|x s IH].
  - change (2 ^ (21 * Z.of_nat (length (@nil Z)))) with 1. change (sc_val []) with 0. cbn [app]. lia.
  - change (length (x :: s)) with (S (length s)). cbn [app].
    rewrite !sc_val_cons, IH, pow21_S. ring.
Qed.

(** ** Soundness of the analysis *)

Lemma within_lookup s bs i b : within s bs -> bs !! i = Some b ->
  exists x, s !! i = Some x /\ inside x b.
Proof. intros W E. destruct (Forall2_lookup_r _ _ _ _ _ W E) as (x & ? & ?). eauto. Qed.

Lemma within_insert s bs i x b : within s bs -> inside x b -> within (<[i := x]> s) (<[i := b]> bs).
Proof. intros W I. apply Forall2_insert; assumption. Qed.

Lemma carry_sound c f i s bs bs' :
  (forall x y a b a' b', inside x a -> inside y b -> f a b = Some (a', b') ->
     safe (c x y) (fun p => inside p.1 a' /\ inside p.2 b' /\ p.1 + 2 ^ 21 * p.2 = x + 2 ^ 21 * y)) ->
  within s bs -> abs_carry f i bs = Some bs' ->
  safe (sc_carry c i s) (fun s' => within s' bs' /\ sc_val s' = sc_val s).
Proof.
  intros H W E. unfold abs_carry in E.
  destruct (bind_Some _ _ _ E) as (a & Ea & E1). destruct (bind_Some _ _ _ E1) as (b & Eb & E2).
  destruct (bind_Some _ _ _ E2) as ([a' b'] & Ef & [= <-]).
  destruct (within_lookup _ _ _ _ W Ea) as (x & Ex & Ix).
  destruct (within_lookup _ _ _ _ W Eb) as (y & Ey & Iy).
  unfold sc_carry. rewrite Ex, Ey. cbn [bind].
  eapply safe_bind; [apply (H _ _ _ _ _ _ Ix Iy Ef)|]. intros [x' y'] (Ix' & Iy' & V). cbn [fst snd] in *.
  cbn [safe]. split; [now apply within_insert, Iy'; apply within_insert|].
  rewrite (sc_val_insert _ (S i) y), (sc_val_insert _ i x), pow21_S; [|exact Ex|].
  - replace (y' - y) with (y' - y) by reflexivity.
    replace (2 ^ 21 * 2 ^ (21 * Z.of_nat i)) with (2 ^ (21 * Z.of_nat i) * 2 ^ 21) by ring.
    transitivity (sc_val s + 2 ^ (21 * Z.of_nat i) * ((x' + 2 ^ 21 * y') - (x + 2 ^ 21 * y))); [ring|].
    rewrite V. ring.
  - rewrite list_lookup_insert_ne by lia. exact Ey.
Qed.

Lemma rnd_sound x y a b a' b' : inside x a -> inside y b -> abs_rnd a b = Some (a', b') ->
  safe (rcarry I64 21 x y)
    (fun p => inside p.1 a' /\ inside p.2 b' /\ p.1 + 2 ^ 21 * p.2 = x + 2 ^ 21 * y).
Proof.
  unfold inside, abs_rnd. intros X Y E. destruct (rc_ok _ _ _ _ _ _ _ _ _ _) eqn:R; [|discriminate].
  injection E as <- <-. cbn [fst snd].
  eapply safe_mono; [exact (rcarry_safe I64 21 x y _ _ _ _ X Y _ _ _ _ R)|].
  intros p (c & E1 & E2 & B1 & B2 & _). lia.
Qed.

Lemma flr_sound x y a b a' b' : inside x a -> inside y b -> abs_flr a b = Some (a', b') ->
  safe (fcarry I64 21 x y)
    (fun p => inside p.1 a' /\ inside p.2 b' /\ p.1 + 2 ^ 21 * p.2 = x + 2 ^ 21 * y).
Proof.
  unfold inside, abs_flr. intros X Y E. destruct (fc_ok _ _ _ _ _ _ _ _) eqn:R; [|discriminate].
  injection E as <- <-. cbn [fst snd].
  eapply safe_mono; [exact (fcarry_safe I64 21 x y _ _ _ _ X Y _ _ _ R)|].
  intros p (c & E1 & E2 & B1 & B2 & _). lia.
Qed.

Lemma madd_sound x bx j c s bs bs' :
  inside x bx -> within s bs -> abs_madd bx j c bs = Some bs' ->
  safe (sc_madd x j c s) (fun s' => within s' bs' /\
    sc_val s' = sc_val s + x * c * 2 ^ (21 * Z.of_nat j)).
Proof.
  intros X W E. unfold abs_madd in E. destruct (bind_Some _ _ _ E) as ([l h] & Eb & E1). cbn [fst snd] in E1.
  destruct (fits I64 _ _ && _ && _) eqn:R in E1; [|discriminate]. injection E1 as <-.
  repeat rewrite andb_true_iff in R. destruct R as [[R1 R2] R3].
  destruct (within_lookup _ _ _ _ W Eb) as (y & Ey & Iy). unfold inside in *. cbn [fst snd] in Iy.
  pose proof (mul_bound x c _ _ c c X ltac:(lia)) as M.
  unfold sc_madd. rewrite Ey. cbn [bind].
  assert (A : sc_madd_val x y c = Some (y + x * c)).
  { unfold sc_madd_val. destruct (Z.leb_spec 0 c); unfold i_add, i_sub, i_mul, cret, lift2.
    - rewrite (ck_ok I64 (x * c) _ _ M R1). apply (ck_ok I64 _ (l + mul_lo bx.1 bx.2 c c) (h + mul_hi bx.1 bx.2 c c)); [lia | exact R3].
    - rewrite Z.mul_opp_r, (ck_ok I64 (- (x * c)) (- mul_hi bx.1 bx.2 c c) (- mul_lo bx.1 bx.2 c c) ltac:(lia) R2), Z.sub_opp_r.
      apply (ck_ok I64 _ (l + mul_lo bx.1 bx.2 c c) (h + mul_hi bx.1 bx.2 c c)); [lia | exact R3]. }
  rewrite A. cbn [bind safe]. split.
  - apply within_insert; [exact W|]. unfold inside. cbn [fst snd]. lia.
  - rewrite (sc_val_insert _ _ _ _ Ey). ring.
Qed.

Lemma madds_sound x bx cs : inside x bx -> forall j s bs bs',
  within s bs -> abs_madds bx j cs bs = Some bs' ->
  safe (sc_madds x j cs s) (fun s' => within s' bs' /\
    sc_val s' = sc_val s + x * sc_val cs * 2 ^ (21 * Z.of_nat j)).
Proof.
  intros X. induction cs as [|c cs IH]; intros j s bs bs' W E; cbn [abs_madds sc_madds] in *.
  - injection E as <-. cbn [safe]. split; [exact W|]. change (sc_val []) with 0. ring.
  - destruct (bind_Some _ _ _ E) as (b1 & E1 & E2).
    eapply safe_bind; [exact (madd_sound _ _ _ _ _ _ _ X W E1)|]. intros s1 [W1 V1].
    eapply safe_mono; [exact (IH _ _ _ _ W1 E2)|]. intros s2 [W2 V2]. split; [exact W2|].
    rewrite V2, V1, sc_val_cons, pow21_S. ring.
Qed.

(** The constants: 2^252 is their value modulo l. *)
Lemma sc_consts_val : sc_val sc_consts = 2 ^ 252 - L25519.
Proof. reflexivity. Qed.

Lemma fold_sound s bs bs' : within s bs -> abs_fold bs = Some bs' ->
  safe (sc_fold s) (fun s' => within s' bs' /\ exists x, last s = Some x /\
    sc_val s' = sc_val s - x * 2 ^ (21 * Z.of_nat (length s - 13)) * L25519).
Proof.
  intros W E. unfold abs_fold in E. destruct (bind_Some _ _ _ E) as (b & Eb & E1).
  pose proof (Forall2_length _ _ _ W) as LEN. rewrite <- LEN in *.
  set (k := (length s - 1)%nat) in *.
  destruct (12 <=? k)%nat eqn:K; [|discriminate]. apply Nat.leb_le in K.
  destruct (within_lookup _ _ _ _ W Eb) as (x & Ex & Ix).
  unfold sc_fold. fold k. rewrite Ex. cbn [bind].
  assert (Wk : within (take k s) (take k bs)) by (apply Forall2_take, W).
  eapply safe_mono; [exact (madds_sound x b _ Ix _ _ _ _ Wk E1)|].
  intros s' [W' V]. split; [exact W'|]. exists x. rewrite last_lookup.
  split; [rewrite <- Ex; f_equal; lia|].
  assert (D : s = take k s ++ [x]).
  { rewrite <- (take_S_r _ _ _ Ex). symmetry. apply take_ge. lia. }
  assert (VS : sc_val s = sc_val (take k s) + x * 2 ^ (21 * Z.of_nat k)).
  { rewrite D at 1. rewrite sc_val_app, length_take, Nat.min_l by lia.
    rewrite sc_val_cons. change (sc_val []) with 0. ring. }
  rewrite V, VS, sc_consts_val.
  replace (length s - 13)%nat with (k - 12)%nat by lia.
  replace (21 * Z.of_nat k) with (252 + 21 * Z.of_nat (k - 12)) by lia.
  rewrite Z.pow_add_r by lia. ring.
Qed.

(** A step that is not a fold keeps the value itself. *)
Definition no_fold (o : sc_op) : bool := match o with Fold => false | _ => true end.

Lemma exec_sound o s bs bs' : within s bs -> abs o bs = Some bs' ->
  safe (exec o s) (fun s' => within s' bs' /\ (sc_val s' =[L25519]= sc_val s) /\
    (no_fold o = true -> sc_val s' = sc_val s)).
Proof.
  intros W E. destruct o as [i|i| |]; cbn [exec abs no_fold] in *.
  - eapply safe_mono; [exact (carry_sound _ _ _ _ _ _ rnd_sound W E)|].
    intros s' [W' ->]. repeat split; auto.
  - eapply safe_mono; [exact (carry_sound _ _ _ _ _ _ flr_sound W E)|].
    intros s' [W' ->]. repeat split; auto.
  - eapply safe_mono; [exact (fold_sound _ _ _ W E)|].
    intros s' (W' & x & _ & V). repeat split; [exact W' | | discriminate].
    rewrite V. apply cong_drop.
  - injection E as <-. cbn [safe].
    assert (V : sc_val (s ++ [0]) = sc_val s)
      by (rewrite sc_val_app, sc_val_cons; change (sc_val []) with 0; ring).
    rewrite V. repeat split; auto.
    apply Forall2_app; [exact W|]. repeat constructor; cbn; lia.
Qed.

Theorem run_sound p : forall s bs bs', within s bs -> abs_run p bs = Some bs' ->
  safe (run p s) (fun s' => within s' bs' /\ (sc_val s' =[L25519]= sc_val s) /\
    (forallb no_fold p = true -> sc_val s' = sc_val s)).
Proof.
  induction p as [|o p IH]; intros s bs bs' W E; cbn [run abs_run forallb] in *.
  - injection E as <-. cbn [safe]. repeat split; auto.
  - destruct (bind_Some _ _ _ E) as (b1 & E1 & E2).
    eapply safe_bind; [exact (exec_sound _ _ _ _ W E1)|]. intros s1 (W1 & C1 & V1).
    eapply safe_mono; [exact (IH _ _ _ W1 E2)|]. intros s2 (W2 & C2 & V2).
    split; [exact W2|]. split; [now rewrite C2|].
    intros NF. apply andb_true_iff in NF. rewrite V2, V1 by tauto. reflexivity.
Qed.
