(* ===== verification/Scalar25519.v ===== *)
(** Arithmetic modulo the group order l (libcryptonote/crypto/crypto-ops.c, the
    sc_ functions): loads of 21-bit limbs, the products of sc_mulsub, the shared
    reduction tail and the stores. *)
From Stdlib Require Import ZArith Lia List Bool.
From stdpp Require Import base list.
From S2P Require Import Prelude CInt Bytes FeBytes ScOps.
Import ListNotations.
Local Open Scope Z_scope.

(** ** Definitions *)

(** [2097151 & (load_3(s + o) >> k)] and [2097151 & (load_4(s + o) >> k)]; the
    top limb of a scalar is not masked. *)
Definition ld3 (s : list Z) (o : nat) (k : Z) : option Z :=
  let! x := load_3 s o in Some (Z.land 2097151 (Z.shiftr x k)).
Definition ld4 (s : list Z) (o : nat) (k : Z) : option Z :=
  let! x := load_4 s o in Some (Z.land 2097151 (Z.shiftr x k)).
Definition ld4_top (s : list Z) (o : nat) (k : Z) : option Z :=
  let! x := load_4 s o in Some (Z.shiftr x k).

Fixpoint all_some (l : list (option Z)) : option (list Z) :=
  match l with
  | [] => Some []
  | e :: l => let! x := e in let! r := all_some l in Some (x :: r)
  end.

(** The limbs of a 32-byte scalar. *)
Definition sc_load12 (s : list Z) : option (list Z) :=
  all_some [ld3 s 0 0; ld4 s 2 5; ld3 s 5 2; ld4 s 7 7; ld4 s 10 4; ld3 s 13 1; ld4 s 15 6;
            ld3 s 18 3; ld3 s 21 0; ld4 s 23 5; ld3 s 26 2; ld4_top s 28 7].

(** The limbs of the 64-byte input of sc_reduce. *)
Definition sc_load24 (s : list Z) : option (list Z) :=
  all_some [ld3 s 0 0; ld4 s 2 5; ld3 s 5 2; ld4 s 7 7; ld4 s 10 4; ld3 s 13 1; ld4 s 15 6;
            ld3 s 18 3; ld3 s 21 0; ld4 s 23 5; ld3 s 26 2; ld4 s 28 7; ld4 s 31 4; ld3 s 34 1;
            ld4 s 36 6; ld3 s 39 3; ld3 s 42 0; ld4 s 44 5; ld3 s 47 2; ld4 s 49 7; ld4 s 52 4;
            ld3 s 55 1; ld4 s 57 6; ld4_top s 60 3].

(** The byte assignments that end every sc_ function. *)
Definition sc_store (s : list Z) : option (list Z) :=
  match s with
  | [s0; s1; s2; s3; s4; s5; s6; s7; s8; s9; s10; s11] =>
      store8
        [ (s0 >> 0)%i64; (s0 >> 8)%i64; ((s0 >> 16) .| (s1 << 5))%i64;
          (s1 >> 3)%i64; (s1 >> 11)%i64; ((s1 >> 19) .| (s2 << 2))%i64;
          (s2 >> 6)%i64; ((s2 >> 14) .| (s3 << 7))%i64; (s3 >> 1)%i64;
          (s3 >> 9)%i64; ((s3 >> 17) .| (s4 << 4))%i64; (s4 >> 4)%i64;
          (s4 >> 12)%i64; ((s4 >> 20) .| (s5 << 1))%i64; (s5 >> 7)%i64;
          ((s5 >> 15) .| (s6 << 6))%i64; (s6 >> 2)%i64; (s6 >> 10)%i64;
          ((s6 >> 18) .| (s7 << 3))%i64; (s7 >> 5)%i64; (s7 >> 13)%i64;
          (s8 >> 0)%i64; (s8 >> 8)%i64; ((s8 >> 16) .| (s9 << 5))%i64;
          (s9 >> 3)%i64; (s9 >> 11)%i64; ((s9 >> 19) .| (s10 << 2))%i64;
          (s10 >> 6)%i64; ((s10 >> 14) .| (s11 << 7))%i64; (s11 >> 1)%i64;
          (s11 >> 9)%i64; (s11 >> 17)%i64 ]
  | _ => None
  end.

(** Folds of s23..s18, rounding carries, folds of s17..s12. *)
Definition ops_top : list sc_op :=
  [Fold; Fold; Fold; Fold; Fold; Fold] ++
  map Rnd [6; 8; 10; 12; 14; 16]%nat ++ map Rnd [7; 9; 11; 13; 15]%nat ++
  [Fold; Fold; Fold; Fold; Fold; Fold].

(** [s12 = 0], rounding carries of all limbs, fold of s12. *)
Definition ops_round : list sc_op :=
  Zero :: map Rnd [0; 2; 4; 6; 8; 10]%nat ++ map Rnd [1; 3; 5; 7; 9; 11]%nat ++ [Fold].

(** [s12 = 0] and floor carries into s12; then the last fold and floor carries. *)
Definition ops_floor12 : list sc_op := Zero :: map Flr [0; 1; 2; 3; 4; 5; 6; 7; 8; 9; 10; 11]%nat.
Definition ops_floor11 : list sc_op := map Flr [0; 1; 2; 3; 4; 5; 6; 7; 8; 9; 10]%nat.

(** The common tail, from "carry0 = (s0 + (1<<20)) >> 21" to the end. *)
Definition sc_tail (s : list Z) : option (list Z) :=
  let! s := run ops_round s in
  let! s := run ops_floor12 s in
  let! s := run [Fold] s in
  let! s := run ops_floor11 s in
  sc_store s.

Definition sc_reduce (s : list Z) : option (list Z) :=
  let! s := sc_load24 s in
  let! s := run ops_top s in
  sc_tail s.

Definition sc_reduce32 (s : list Z) : option (list Z) :=
  let! s := sc_load12 s in
  sc_tail s.

Fixpoint limbwise (f : cint -> cint -> cint) (a b : list Z) : option (list Z) :=
  match a, b with
  | [], [] => Some []
  | x :: a, y :: b => let! z := f x y in let! r := limbwise f a b in Some (z :: r)
  | _, _ => None
  end.

Definition sc_add (a b : list Z) : option (list Z) :=
  let! a := sc_load12 a in
  let! b := sc_load12 b in
  let! s := limbwise (i_add I64) a b in
  sc_tail s.

Definition sc_sub (a b : list Z) : option (list Z) :=
  let! a := sc_load12 a in
  let! b := sc_load12 b in
  let! s := limbwise (i_sub I64) a b in
  sc_tail s.

(** The products of sc_mulsub: the limbs of c - a*b. *)
Definition sc_mulsub_products (a b c : list Z) : option (list Z) :=
  match a, b, c with
  | [a0; a1; a2; a3; a4; a5; a6; a7; a8; a9; a10; a11],
    [b0; b1; b2; b3; b4; b5; b6; b7; b8; b9; b10; b11],
    [c0; c1; c2; c3; c4; c5; c6; c7; c8; c9; c10; c11] =>
      let! s0 := (c0 - a0 * b0)%i64 in
      let! s1 := (c1 - (a0 * b1 + a1 * b0))%i64 in
      let! s2 := (c2 - (a0 * b2 + a1 * b1 + a2 * b0))%i64 in
      let! s3 := (c3 - (a0 * b3 + a1 * b2 + a2 * b1 + a3 * b0))%i64 in
      let! s4 := (c4 - (a0 * b4 + a1 * b3 + a2 * b2 + a3 * b1 + a4 * b0))%i64 in
      let! s5 := (c5 - (a0 * b5 + a1 * b4 + a2 * b3 + a3 * b2 + a4 * b1 + a5 * b0))%i64 in
      let! s6 := (c6 - (a0 * b6 + a1 * b5 + a2 * b4 + a3 * b3 + a4 * b2 + a5 * b1 + a6 * b0))%i64 in
      let! s7 := (c7 - (a0 * b7 + a1 * b6 + a2 * b5 + a3 * b4 + a4 * b3 + a5 * b2 + a6 * b1 + a7 * b0))%i64 in
      let! s8 := (c8 - (a0 * b8 + a1 * b7 + a2 * b6 + a3 * b5 + a4 * b4 + a5 * b3 + a6 * b2 + a7 * b1 + a8 * b0))%i64 in
      let! s9 := (c9 - (a0 * b9 + a1 * b8 + a2 * b7 + a3 * b6 + a4 * b5 + a5 * b4 + a6 * b3 + a7 * b2 + a8 * b1 + a9 * b0))%i64 in
      let! s10 := (c10 - (a0 * b10 + a1 * b9 + a2 * b8 + a3 * b7 + a4 * b6 + a5 * b5 + a6 * b4 + a7 * b3 + a8 * b2 + a9 * b1 + a10 * b0))%i64 in
      let! s11 := (c11 - (a0 * b11 + a1 * b10 + a2 * b9 + a3 * b8 + a4 * b7 + a5 * b6 + a6 * b5 + a7 * b4 + a8 * b3 + a9 * b2 + a10 * b1 + a11 * b0))%i64 in
      let! s12 := (-(a1 * b11 + a2 * b10 + a3 * b9 + a4 * b8 + a5 * b7 + a6 * b6 + a7 * b5 + a8 * b4 + a9 * b3 + a10 * b2 + a11 * b1))%i64 in
      let! s13 := (-(a2 * b11 + a3 * b10 + a4 * b9 + a5 * b8 + a6 * b7 + a7 * b6 + a8 * b5 + a9 * b4 + a10 * b3 + a11 * b2))%i64 in
      let! s14 := (-(a3 * b11 + a4 * b10 + a5 * b9 + a6 * b8 + a7 * b7 + a8 * b6 + a9 * b5 + a10 * b4 + a11 * b3))%i64 in
      let! s15 := (-(a4 * b11 + a5 * b10 + a6 * b9 + a7 * b8 + a8 * b7 + a9 * b6 + a10 * b5 + a11 * b4))%i64 in
      let! s16 := (-(a5 * b11 + a6 * b10 + a7 * b9 + a8 * b8 + a9 * b7 + a10 * b6 + a11 * b5))%i64 in
      let! s17 := (-(a6 * b11 + a7 * b10 + a8 * b9 + a9 * b8 + a10 * b7 + a11 * b6))%i64 in
      let! s18 := (-(a7 * b11 + a8 * b10 + a9 * b9 + a10 * b8 + a11 * b7))%i64 in
      let! s19 := (-(a8 * b11 + a9 * b10 + a10 * b9 + a11 * b8))%i64 in
      let! s20 := (-(a9 * b11 + a10 * b10 + a11 * b9))%i64 in
      let! s21 := (-(a10 * b11 + a11 * b10))%i64 in
      let! s22 := (-a11 * b11)%i64 in
      Some [s0; s1; s2; s3; s4; s5; s6; s7; s8; s9; s10; s11; s12; s13; s14; s15; s16; s17; s18; s19; s20; s21; s22; 0]
  | _, _, _ => None
  end.

(** The carries of sc_mulsub before the folds. *)
Definition ops_mulsub : list sc_op :=
  map Rnd [0; 2; 4; 6; 8; 10; 12; 14; 16; 18; 20; 22]%nat ++
  map Rnd [1; 3; 5; 7; 9; 11; 13; 15; 17; 19; 21]%nat.

Definition sc_mulsub (a b c : list Z) : option (list Z) :=
  let! a := sc_load12 a in
  let! b := sc_load12 b in
  let! c := sc_load12 c in
  let! s := sc_mulsub_products a b c in
  let! s := run ops_mulsub s in
  let! s := run ops_top s in
  sc_tail s.

Definition sc_0 : list Z := repeat 0 32.

(** [(a >> 63) - ((-a) >> 63)]. *)
Definition signum (a : Z) : cint := ((a >> 63) - ((- a) >> 63))%i64.

Definition sc_check (s : list Z) : option Z :=
  let! s0 := load_4 s 0 in
  let! s1 := load_4 s 4 in
  let! s2 := load_4 s 8 in
  let! s3 := load_4 s 12 in
  let! s4 := load_4 s 16 in
  let! s5 := load_4 s 20 in
  let! s6 := load_4 s 24 in
  let! s7 := load_4 s 28 in
  let! d0 := (1559614444 - s0)%i64 in
  let! d1 := (1477600026 - s1)%i64 in
  let! d2 := (2734136534 - s2)%i64 in
  let! d3 := (350157278 - s3)%i64 in
  let! d4 := (- s4)%i64 in
  let! d5 := (- s5)%i64 in
  let! d6 := (- s6)%i64 in
  let! d7 := (268435456 - s7)%i64 in
  ((signum d0 + (signum d1 << 1) + (signum d2 << 2) + (signum d3 << 3) + (signum d4 << 4)
    + (signum d5 << 5) + (signum d6 << 6) + (signum d7 << 7)) >> 8)%i64.

Definition sc_isnonzero (s : list Z) : option Z := or_nonzero s.

(** ** Loads *)

(** The bit fields the loads read. *)
Definition fields12 : list (Z * Z) :=
  [(0, 21); (21, 21); (42, 21); (63, 21); (84, 21); (105, 21); (126, 21); (147, 21); (168, 21);
   (189, 21); (210, 21); (231, 25)].
Definition fields24 : list (Z * Z) :=
  [(0, 21); (21, 21); (42, 21); (63, 21); (84, 21); (105, 21); (126, 21); (147, 21); (168, 21);
   (189, 21); (210, 21); (231, 21); (252, 21); (273, 21); (294, 21); (315, 21); (336, 21); (357, 21);
   (378, 21); (399, 21); (420, 21); (441, 21); (462, 21); (483, 29)].

Definition field_bounds (l : list (Z * Z)) : list ivl := map (fun '(_, w) => (0, 2 ^ w - 1)) l.

(** All limbs but the last in radix 2^21. *)
Fixpoint radix21 (l : list (Z * Z)) : bool :=
  match l with
  | [] => true
  | [_] => true
  | (_, w) :: l => (w =? 21) && radix21 l
  end.

Lemma sc_val_limbs l : radix21 l = true -> sc_val (map fst l) = limbs_val l.
Proof.
  induction l as [|[x w] l IH]; [reflexivity|]. intros R.
  cbn [map fst limbs_val]. rewrite sc_val_cons. destruct l as [|y l].
  - change (sc_val (map fst [])) with 0. cbn [limbs_val]. ring.
  - cbn [radix21] in R. apply andb_true_iff in R. destruct R as [W R]. apply Z.eqb_eq in W.
    rewrite (IH R), W. reflexivity.
Qed.

Lemma radix21_fields l v : radix21 l = true -> radix21 (fields l v) = true.
Proof.
  induction l as [|[o w] [|y l] IH]; try reflexivity. intros R.
  cbn [radix21] in R. apply andb_true_iff in R. destruct R as [W R].
  specialize (IH R). unfold fields in *. cbn [map] in *. destruct y as [o' w'].
  cbn [radix21]. rewrite W. exact IH.
Qed.

Lemma fields_within l v : forallb (fun '(_, w) => 0 <=? w) l = true ->
  within (map fst (fields l v)) (field_bounds l).
Proof.
  induction l as [|[o w] l IH]; [constructor|]. cbn [forallb]. intros H.
  apply andb_true_iff in H. destruct H as [W H]. apply Z.leb_le in W.
  constructor; [|exact (IH H)]. unfold inside. cbn [fst snd].
  pose proof (Z.mod_pos_bound (v / 2 ^ o) (2 ^ w) ltac:(apply Z.pow_pos_nonneg; lia)). lia.
Qed.

Section Load.
Context (n : nat) (s : list Z) (S : is_bytes n s).

Lemma ld3_field o k p : (o + 3 <= n)%nat -> 0 <= k <= 3 -> 8 * Z.of_nat o + k = p ->
  ld3 s o k = Some ((le_val s / 2 ^ p) mod 2 ^ 21).
Proof.
  destruct S as [L F]. intros O K <-. unfold ld3. rewrite load_3_val by (try exact F; lia).
  cbn [bind]. f_equal. change 2097151 with (2 ^ 21 - 1). apply field_of_load; lia.
Qed.

Lemma ld4_field o k p : (o + 4 <= n)%nat -> 0 <= k <= 11 -> 8 * Z.of_nat o + k = p ->
  ld4 s o k = Some ((le_val s / 2 ^ p) mod 2 ^ 21).
Proof.
  destruct S as [L F]. intros O K <-. unfold ld4. rewrite load_4_val by (try exact F; lia).
  cbn [bind]. f_equal. change 2097151 with (2 ^ 21 - 1). apply field_of_load; lia.
Qed.

Lemma ld4_top_field o k p w : (o + 4 <= n)%nat -> 0 <= k <= 32 -> 8 * Z.of_nat o + k = p -> w = 32 - k ->
  ld4_top s o k = Some ((le_val s / 2 ^ p) mod 2 ^ w).
Proof.
  destruct S as [L F]. intros O K <- ->. unfold ld4_top. rewrite load_4_val by (try exact F; lia).
  cbn [bind]. f_equal. rewrite <- (field_of_load _ _ 32 k) by lia.
  rewrite Z.land_comm. replace (2 ^ (32 - k) - 1) with (Z.ones (32 - k)) by (rewrite Z.ones_equiv; lia).
  rewrite Z.land_ones by lia. symmetry. apply Z.mod_small.
  rewrite Z.shiftr_div_pow2 by lia.
  pose proof (Z.mod_pos_bound (le_val s / 2 ^ (8 * Z.of_nat o)) (2 ^ 32) ltac:(lia)) as M.
  split; [apply Z.div_pos; [lia | apply Z.pow_pos_nonneg; lia]|].
  apply Z.div_lt_upper_bound; [apply Z.pow_pos_nonneg; lia|].
  rewrite <- pow2_split by lia. apply M.
Qed.
End Load.

Ltac load_fields S :=
  repeat first
    [ erewrite (ld3_field _ _ S) by first [reflexivity | lia]
    | erewrite (ld4_field _ _ S) by first [reflexivity | lia]
    | erewrite (ld4_top_field _ _ S) by first [reflexivity | lia] ];
  cbn [all_some bind].

Lemma sc_load12_fields s : is_bytes 32 s ->
  sc_load12 s = Some (map fst (fields fields12 (le_val s))).
Proof. intros S. unfold sc_load12. load_fields S. reflexivity. Qed.

Lemma sc_load24_fields s : is_bytes 64 s ->
  sc_load24 s = Some (map fst (fields fields24 (le_val s))).
Proof. intros S. unfold sc_load24. load_fields S. reflexivity. Qed.

Lemma sc_load12_safe s : is_bytes 32 s ->
  safe (sc_load12 s) (fun l => within l (field_bounds fields12) /\ sc_val l = le_val s).
Proof.
  intros S. rewrite sc_load12_fields by exact S. cbn [safe].
  split; [now apply fields_within|].
  rewrite sc_val_limbs by (now apply radix21_fields).
  rewrite (fields_val_0 _ _ 256) by reflexivity. apply Z.mod_small.
  destruct S as [L F]. apply le_val_bound in F. now rewrite L in F.
Qed.

Lemma sc_load24_safe s : is_bytes 64 s ->
  safe (sc_load24 s) (fun l => within l (field_bounds fields24) /\ sc_val l = le_val s).
Proof.
  intros S. rewrite sc_load24_fields by exact S. cbn [safe].
  split; [now apply fields_within|].
  rewrite sc_val_limbs by (now apply radix21_fields).
  rewrite (fields_val_0 _ _ 512) by reflexivity. apply Z.mod_small.
  destruct S as [L F]. apply le_val_bound in F. now rewrite L in F.
Qed.

(** ** Store *)

Definition digit21 (x : Z) : Prop := 0 <= x < 2 ^ 21.

Lemma sc_store_val lo x : length lo = 11%nat -> Forall digit21 lo ->
  sc_store (lo ++ [x]) = Some (le_bytes 32 (sc_val (lo ++ [x]))).
Proof.
  intros L D. do 11 (destruct lo as [|? lo]; [discriminate L|]). destruct lo; [|discriminate L].
  clear L. repeat match goal with H : Forall _ (_ :: _) |- _ => inversion H; subst; clear H end.
  unfold digit21 in *. cbn [app sc_store].
  match goal with |- _ = Some (le_bytes 32 (sc_val ?l)) =>
    replace (sc_val l) with (limbs_val (map (fun x => (x, 21)) (removelast l) ++ [(x, 25)]))
      by (cbn [map removelast app limbs_val]; unfold sc_val; cbn [foldr]; ring)
  end.
  cbn [map removelast app].
  rewrite limbs_val_start.
  repeat store_step I64.
Qed.

(** ** The reduction tail *)

Definition canon21 (b : ivl) : bool := (b.1 =? 0) && (b.2 =? 2 ^ 21 - 1).

Lemma within_canon lo bs : within lo bs -> forallb canon21 bs = true -> Forall digit21 lo.
Proof.
  induction 1 as [|x b lo bs I W IH]; intros H; constructor; cbn [forallb] in H;
    apply andb_true_iff in H; destruct H as [C H]; [|auto].
  unfold canon21 in C. apply andb_true_iff in C. destruct C as [C1 C2].
  apply Z.eqb_eq in C1, C2. unfold inside in I. unfold digit21. lia.
Qed.

Lemma sc_val_digits lo : Forall digit21 lo -> 0 <= sc_val lo < 2 ^ (21 * Z.of_nat (length lo)).
Proof.
  induction 1 as [|x lo D _ IH]; [cbn; lia|]. change (length (x :: lo)) with (S (length lo)).
  rewrite sc_val_cons, pow21_S. unfold digit21 in D. lia.
Qed.

Lemma sc_val_within s bs : within s bs ->
  sc_val (map fst bs) <= sc_val s <= sc_val (map snd bs).
Proof.
  induction 1 as [|x b s bs I W IH]; [cbn; lia|]. cbn [map]. rewrite !sc_val_cons.
  unfold inside in I. lia.
Qed.

(** What the analysis of [sc_tail] has to find for initial intervals [bs]. *)
Definition tail_ok (bs : list ivl) : bool :=
  match abs_run ops_round bs with
  | Some b1 =>
      (- 2 ^ 252 <=? sc_val (map fst b1)) && (sc_val (map snd b1) <? 2 ^ 252) &&
      match abs_run ops_floor12 b1 with
      | Some b2 =>
          (length b2 =? 13)%nat && forallb canon21 (take 12 b2) &&
          match abs_run [Fold] b2 with
          | Some b3 =>
              match abs_run ops_floor11 b3 with
              | Some b4 => (length b4 =? 12)%nat && forallb canon21 (take 11 b4)
              | None => false
              end
          | None => false
          end
      | None => false
      end
  | None => false
  end.

Lemma within_take n s bs : within s bs -> within (take n s) (take n bs).
Proof. intros W. apply Forall2_take, W. Qed.

Lemma split_last (s : list Z) n : length s = S n -> exists x, s = take n s ++ [x].
Proof.
  intros L. destruct (nth_error s n) as [x|] eqn:E.
  - exists x. rewrite <- (firstn_skipn n s) at 1. f_equal.
    destruct (skipn n s) as [|y [|]] eqn:K; apply (f_equal (@length Z)) in K as K';
      rewrite length_skipn in K'; cbn in K'; try lia.
    rewrite <- (firstn_skipn n s), nth_error_app2, length_firstn, K in E by (rewrite length_firstn; lia).
    rewrite L, Nat.min_l, Nat.sub_diag in E by lia. now injection E as ->.
  - apply nth_error_None in E. lia.
Qed.

(** The last two passes on a value in [-2^252, 2^252): exactly one multiple of l
    is added when the value is negative. *)
Lemma sc_floor_fold s bs b1 b2 :
  within s bs -> - 2 ^ 252 <= sc_val s < 2 ^ 252 ->
  abs_run ops_floor12 bs = Some b1 -> length b1 = 13%nat -> forallb canon21 (take 12 b1) = true ->
  abs_run [Fold] b1 = Some b2 ->
  safe (let! s := run ops_floor12 s in run [Fold] s) (fun s' =>
    within s' b2 /\ sc_val s' = sc_val s mod L25519).
Proof.
  intros W B A1 L1 C1 A2.
  eapply safe_bind; [exact (run_sound _ _ _ _ W A1)|]. intros s1 (W1 & _ & V1).
  specialize (V1 eq_refl).
  pose proof (Forall2_length _ _ _ W1) as LEN.
  cbn [run exec]. cbn [abs_run abs bind] in A2. destruct (bind_Some _ _ _ A2) as (b2' & E2 & [= ->]).
  eapply safe_bind; [exact (fold_sound _ _ _ W1 E2)|]. intros s2 (W2 & x & LX & V2).
  cbn [safe]. split; [exact W2|].
  destruct (split_last s1 12 ltac:(lia)) as [x' E]. rewrite E, last_snoc in LX. injection LX as ->.
  pose proof (sc_val_digits _ (within_canon _ _ (within_take 12 _ _ W1) C1)) as D.
  rewrite length_take, LEN, L1 in D. change (21 * Z.of_nat (12 `min` 13)) with 252 in D.
  assert (V : sc_val s1 = sc_val (take 12 s1) + 2 ^ 252 * x).
  { rewrite E at 1. rewrite sc_val_app, length_take, LEN, L1, sc_val_cons.
    change (sc_val []) with 0. change (21 * Z.of_nat (12 `min` 13)) with 252. ring. }
  rewrite LEN, L1 in V2. change (2 ^ (21 * Z.of_nat (13 - 13))) with 1 in V2.
  assert (L : 2 ^ 252 < L25519) by reflexivity.
  rewrite V1 in V. assert (X : x = -1 \/ x = 0) by lia.
  apply Z.mod_unique with (q := x); [left|]; destruct X as [-> | ->]; lia.
Qed.

Lemma sc_tail_safe s bs : within s bs -> tail_ok bs = true ->
  sc_tail s = Some (le_bytes 32 (sc_val s mod L25519)).
Proof.
  unfold tail_ok. intros W H.
  destruct (abs_run ops_round bs) as [b1|] eqn:A1; [|discriminate].
  repeat rewrite andb_true_iff in H. destruct H as [[H1 H2] H].
  apply Z.leb_le in H1. apply Z.ltb_lt in H2.
  destruct (abs_run ops_floor12 b1) as [b2|] eqn:A2; [|discriminate].
  repeat rewrite andb_true_iff in H. destruct H as [[L2 C2] H]. apply Nat.eqb_eq in L2.
  destruct (abs_run [Fold] b2) as [b3|] eqn:A3; [|discriminate].
  destruct (abs_run ops_floor11 b3) as [b4|] eqn:A4; [|discriminate].
  rewrite andb_true_iff in H. destruct H as [L4 C4]. apply Nat.eqb_eq in L4.
  unfold sc_tail.
  destruct (safe_some _ _ (run_sound _ _ _ _ W A1)) as (s1 & -> & W1 & M1 & _). cbn [bind].
  pose proof (sc_val_within _ _ W1) as B1.
  pose proof (sc_floor_fold s1 b1 b2 b3 W1 ltac:(lia) A2 L2 C2 A3) as F.
  destruct (run ops_floor12 s1) as [s2|]; [|contradiction F]. cbn [bind] in *.
  destruct (safe_some _ _ F) as (s3 & -> & W3 & V3). cbn [bind].
  destruct (safe_some _ _ (run_sound _ _ _ _ W3 A4)) as (s4 & -> & W4 & _ & V4). cbn [bind].
  rewrite <- M1, <- V3, <- (V4 eq_refl).
  pose proof (Forall2_length _ _ _ W4) as LEN.
  destruct (split_last s4 11 ltac:(lia)) as [x E]. rewrite E.
  apply sc_store_val; [rewrite length_take; lia|].
  exact (within_canon _ _ (within_take 11 _ _ W4) C4).
Qed.

(** ** The functions *)

Lemma top_safe s bs bs' : within s bs -> abs_run ops_top bs = Some bs' -> tail_ok bs' = true ->
  (let! s := run ops_top s in sc_tail s) = Some (le_bytes 32 (sc_val s mod L25519)).
Proof.
  intros W A T. destruct (safe_some _ _ (run_sound _ _ _ _ W A)) as (s1 & -> & W1 & M1 & _).
  cbn [bind]. rewrite (sc_tail_safe _ _ W1 T). now rewrite M1.
Qed.

Definition limbs12 : list ivl := field_bounds fields12.

Lemma sc_reduce32_safe s : is_bytes 32 s ->
  sc_reduce32 s = Some (le_bytes 32 (le_val s mod L25519)).
Proof.
  intros S. unfold sc_reduce32.
  destruct (safe_some _ _ (sc_load12_safe s S)) as (l & -> & W & V). cbn [bind].
  rewrite (sc_tail_safe _ _ W); [now rewrite V | vm_compute; reflexivity].
Qed.

Lemma sc_reduce_safe s : is_bytes 64 s ->
  sc_reduce s = Some (le_bytes 32 (le_val s mod L25519)).
Proof.
  intros S. unfold sc_reduce.
  destruct (safe_some _ _ (sc_load24_safe s S)) as (l & -> & W & V). cbn [bind].
  erewrite (top_safe _ _ _ W); [now rewrite V | vm_compute; reflexivity | vm_compute; reflexivity].
Qed.

(** Limb-wise sums and differences. *)
Definition abs_add (a b : ivl) : ivl := (a.1 + b.1, a.2 + b.2).
Definition abs_sub (a b : ivl) : ivl := (a.1 - b.2, a.2 - b.1).
Definition all_fit (c : list ivl) : bool := forallb (fun z => fits I64 z.1 z.2) c.

Lemma limbwise_add a ba b bb : within a ba -> within b bb -> length ba = length bb ->
  all_fit (zip_with abs_add ba bb) = true ->
  safe (limbwise (i_add I64) a b) (fun s =>
    within s (zip_with abs_add ba bb) /\ sc_val s = sc_val a + sc_val b).
Proof.
  intros A. revert b bb. induction A as [|x p a ba X A IH]; intros b bb B L F;
    destruct B as [|y q b bb Y B]; try discriminate L.
  - cbn. split; [constructor | reflexivity].
  - cbn [zip_with all_fit forallb] in F. apply andb_true_iff in F. destruct F as [F1 F2].
    cbn [limbwise]. unfold inside in X, Y.
    change (i_add I64 (cret x) (cret y)) with (ck I64 (x + y)).
    rewrite (ck_ok I64 (x + y) (p.1 + q.1) (p.2 + q.2) ltac:(lia) F1). cbn [bind].
    eapply safe_bind; [exact (IH b bb B ltac:(cbn in L; lia) F2)|]. intros r [W V]. cbn [safe].
    split; [constructor; [unfold inside, abs_add; cbn; lia | exact W]|].
    rewrite !sc_val_cons, V. ring.
Qed.

Lemma limbwise_sub a ba b bb : within a ba -> within b bb -> length ba = length bb ->
  all_fit (zip_with abs_sub ba bb) = true ->
  safe (limbwise (i_sub I64) a b) (fun s =>
    within s (zip_with abs_sub ba bb) /\ sc_val s = sc_val a - sc_val b).
Proof.
  intros A. revert b bb. induction A as [|x p a ba X A IH]; intros b bb B L F;
    destruct B as [|y q b bb Y B]; try discriminate L.
  - cbn. split; [constructor | reflexivity].
  - cbn [zip_with all_fit forallb] in F. apply andb_true_iff in F. destruct F as [F1 F2].
    cbn [limbwise]. unfold inside in X, Y.
    change (i_sub I64 (cret x) (cret y)) with (ck I64 (x - y)).
    rewrite (ck_ok I64 (x - y) (p.1 - q.2) (p.2 - q.1) ltac:(lia) F1). cbn [bind].
    eapply safe_bind; [exact (IH b bb B ltac:(cbn in L; lia) F2)|]. intros r [W V]. cbn [safe].
    split; [constructor; [unfold inside, abs_sub; cbn; lia | exact W]|].
    rewrite !sc_val_cons, V. ring.
Qed.

Lemma sc_add_safe a b : is_bytes 32 a -> is_bytes 32 b ->
  sc_add a b = Some (le_bytes 32 ((le_val a + le_val b) mod L25519)).
Proof.
  intros A B. unfold sc_add.
  destruct (safe_some _ _ (sc_load12_safe a A)) as (la & -> & Wa & Va).
  destruct (safe_some _ _ (sc_load12_safe b B)) as (lb & -> & Wb & Vb). cbn [bind].
  destruct (safe_some _ _ (limbwise_add _ _ _ _ Wa Wb eq_refl eq_refl)) as (s & -> & W & V).
  cbn [bind]. rewrite (sc_tail_safe _ _ W); [now rewrite V, Va, Vb | vm_compute; reflexivity].
Qed.

Lemma sc_sub_safe a b : is_bytes 32 a -> is_bytes 32 b ->
  sc_sub a b = Some (le_bytes 32 ((le_val a - le_val b) mod L25519)).
Proof.
  intros A B. unfold sc_sub.
  destruct (safe_some _ _ (sc_load12_safe a A)) as (la & -> & Wa & Va).
  destruct (safe_some _ _ (sc_load12_safe b B)) as (lb & -> & Wb & Vb). cbn [bind].
  destruct (safe_some _ _ (limbwise_sub _ _ _ _ Wa Wb eq_refl eq_refl)) as (s & -> & W & V).
  cbn [bind]. rewrite (sc_tail_safe _ _ W); [now rewrite V, Va, Vb | vm_compute; reflexivity].
Qed.

(** *** sc_mulsub *)

Definition products_bounds : list ivl :=
  repeat (- 2 ^ 46, 2 ^ 21) 11 ++ repeat (- 2 ^ 48, 2 ^ 25) 11 ++ [(- 2 ^ 50, 0); (0, 0)].

Lemma inside_mono x b l h : l <= x <= h -> (b.1 <=? l) && (h <=? b.2) = true -> inside x b.
Proof.
  intros X H. apply andb_true_iff in H. destruct H as [H1 H2]. apply Z.leb_le in H1, H2.
  unfold inside. lia.
Qed.

Ltac open_within W :=
  repeat lazymatch type of W with
  | within _ (_ :: _) => apply Forall2_cons_inv_r in W; destruct W as (? & ? & ? & W & ->)
  | Forall2 _ _ (_ :: _) => apply Forall2_cons_inv_r in W; destruct W as (? & ? & ? & W & ->)
  | within _ [] => apply Forall2_nil_inv_r in W; subst
  | Forall2 _ _ [] => apply Forall2_nil_inv_r in W; subst
  end.

Lemma sc_mulsub_products_safe a b c : within a limbs12 -> within b limbs12 -> within c limbs12 ->
  safe (sc_mulsub_products a b c) (fun s =>
    within s products_bounds /\ sc_val s = sc_val c - sc_val a * sc_val b).
Proof.
  intros A B C. unfold limbs12, field_bounds, fields12 in *. cbn [map] in *.
  open_within A. open_within B. open_within C.
  unfold inside in *. cbn [fst snd] in *.
  unfold sc_mulsub_products. csteps. cbn [safe]. split.
  - unfold products_bounds. cbn [repeat app].
    repeat (constructor; [first [eapply inside_mono; [eassumption | reflexivity]
                                | unfold inside; cbn; lia]|]). constructor.
  - subst. unfold sc_val. cbn [foldr]. ring.
Qed.

Lemma sc_mulsub_safe a b c : is_bytes 32 a -> is_bytes 32 b -> is_bytes 32 c ->
  sc_mulsub a b c = Some (le_bytes 32 ((le_val c - le_val a * le_val b) mod L25519)).
Proof.
  intros A B C. unfold sc_mulsub.
  destruct (safe_some _ _ (sc_load12_safe a A)) as (la & -> & Wa & Va).
  destruct (safe_some _ _ (sc_load12_safe b B)) as (lb & -> & Wb & Vb).
  destruct (safe_some _ _ (sc_load12_safe c C)) as (lc & -> & Wc & Vc). cbn [bind].
  destruct (safe_some _ _ (sc_mulsub_products_safe _ _ _ Wa Wb Wc)) as (s & -> & W & V). cbn [bind].
  destruct (abs_run ops_mulsub products_bounds) as [b1|] eqn:A1; [|vm_compute in A1; discriminate A1].
  destruct (safe_some _ _ (run_sound _ _ _ _ W A1)) as (s1 & -> & W1 & _ & V1). cbn [bind].
  vm_compute in A1. injection A1 as <-.
  erewrite (top_safe _ _ _ W1); [|vm_compute; reflexivity | vm_compute; reflexivity].
  now rewrite (V1 eq_refl), V, Va, Vb, Vc.
Qed.

(** *** sc_check *)

Lemma signum_val d : - 2 ^ 62 <= d <= 2 ^ 62 -> signum d = cret (Z.sgn d).
Proof.
  intros D. unfold signum. rewrite i_opp_some by (cbv [imin imax]; lia).
  unfold i_shr, cret, lift1, i_sub, lift2. rewrite !Z.shiftr_div_pow2 by lia.
  destruct (Z.lt_trichotomy d 0) as [N|[->|P]]; [|reflexivity|].
  - replace (d / 2 ^ 63) with (-1) by (apply Z.div_unique with (r := d + 2 ^ 63); lia).
    rewrite (Z.div_small (- d)) by lia. rewrite Z.sgn_neg by exact N. reflexivity.
  - replace (- d / 2 ^ 63) with (-1) by (apply Z.div_unique with (r := - d + 2 ^ 63); lia).
    rewrite (Z.div_small d) by lia. rewrite Z.sgn_pos by exact P. reflexivity.
Qed.

(** The weighted signs of the word differences have the sign of the difference. *)
Definition weigh (b : Z) (l : list Z) : Z := foldr (fun x acc => x + b * acc) 0 l.

Lemma weigh_signs l : Forall (fun d => - 2 ^ 32 < d < 2 ^ 32) l ->
  Z.sgn (weigh 2 (map Z.sgn l)) = Z.sgn (weigh (2 ^ 32) l).
Proof.
  induction 1 as [|d l D _ IH]; [reflexivity|]. cbn [map].
  change (weigh 2 (Z.sgn d :: map Z.sgn l)) with (Z.sgn d + 2 * weigh 2 (map Z.sgn l)).
  change (weigh (2 ^ 32) (d :: l)) with (d + 2 ^ 32 * weigh (2 ^ 32) l).
  set (T := weigh 2 _) in *. set (V := weigh _ l) in *. clearbody T V.
  destruct (Z.lt_trichotomy V 0) as [N|[->|P]].
  - rewrite (Z.sgn_neg V N) in IH. assert (T < 0) by lia. rewrite !Z.sgn_neg; lia.
  - assert (T = 0) as -> by (now apply Z.sgn_null_iff). rewrite !Z.mul_0_r, !Z.add_0_r.
    apply Z.sgn_sgn.
  - rewrite (Z.sgn_pos V P) in IH. assert (T > 0) by lia. rewrite !Z.sgn_pos; lia.
Qed.

(** The sum of the weighted signs, shifted right by 8, is -1 or 0. *)
Lemma sign_sum d0 d1 d2 d3 d4 d5 d6 d7 :
  Forall (fun d => - 2 ^ 32 < d < 2 ^ 32) [d0; d1; d2; d3; d4; d5; d6; d7] ->
  ((signum d0 + (signum d1 << 1) + (signum d2 << 2) + (signum d3 << 3) + (signum d4 << 4)
    + (signum d5 << 5) + (signum d6 << 6) + (signum d7 << 7)) >> 8)%i64 =
  Some (if weigh (2 ^ 32) [d0; d1; d2; d3; d4; d5; d6; d7] <? 0 then -1 else 0).
Proof.
  intros D. pose proof (weigh_signs _ D) as WS.
  repeat match goal with H : Forall _ (_ :: _) |- _ =>
    apply Forall_cons_1 in H; let B := fresh "B" in destruct H as [B H] end.
  rewrite !signum_val by lia.
  assert (SG : forall z, -1 <= Z.sgn z <= 1) by (intros z; destruct z; cbn; lia).
  pose proof (SG d0). pose proof (SG d1). pose proof (SG d2). pose proof (SG d3).
  pose proof (SG d4). pose proof (SG d5). pose proof (SG d6). pose proof (SG d7). clear SG.
  set (W := weigh (2 ^ 32) _) in *. clearbody W.
  cbn [map] in WS. unfold weigh in WS. cbn [foldr] in WS.
  generalize dependent (Z.sgn d0). generalize dependent (Z.sgn d1). generalize dependent (Z.sgn d2).
  generalize dependent (Z.sgn d3). generalize dependent (Z.sgn d4). generalize dependent (Z.sgn d5).
  generalize dependent (Z.sgn d6). generalize dependent (Z.sgn d7).
  intros g7 G7 g6 G6 g5 G5 g4 G4 g3 G3 g2 G2 g1 G1 g0 WS G0.
  match goal with |- ?e = _ => assert (R : exists v, rng e v (-1) 0 /\
    v = (g0 + g1 * 2 ^ 1 + g2 * 2 ^ 2 + g3 * 2 ^ 3 + g4 * 2 ^ 4 + g5 * 2 ^ 5 + g6 * 2 ^ 6 + g7 * 2 ^ 7) / 2 ^ 8) end.
  { eexists. split; [rng_go | reflexivity]. }
  destruct R as (v & [-> _] & ->). f_equal.
  set (T := g0 + 2 * _) in WS.
  replace (g0 + g1 * 2 ^ 1 + g2 * 2 ^ 2 + g3 * 2 ^ 3 + g4 * 2 ^ 4 + g5 * 2 ^ 5 + g6 * 2 ^ 6 + g7 * 2 ^ 7)
    with T by (unfold T; ring).
  assert (TB : -255 <= T <= 255) by (unfold T; lia). clearbody T.
  destruct (Z.ltb_spec W 0) as [N|N].
  - rewrite (Z.sgn_neg W N) in WS. symmetry. apply Z.div_unique with (r := T + 256); lia.
  - apply Z.div_small. lia.
Qed.

Definition fields32 : list (Z * Z) :=
  [(0, 32); (32, 32); (64, 32); (96, 32); (128, 32); (160, 32); (192, 32); (224, 32)].

Lemma sc_check_safe s : is_bytes 32 s ->
  sc_check s = Some (if le_val s <? L25519 then 0 else -1).
Proof.
  intros [L F].
  assert (V : limbs_val (fields fields32 (le_val s)) = le_val s).
  { rewrite (fields_val_0 _ _ 256) by reflexivity. apply Z.mod_small.
    apply le_val_bound in F. now rewrite L in F. }
  unfold sc_check. rewrite !load_4_val by (first [exact F | rewrite L; lia]). cbn [bind].
  change (8 * Z.of_nat 0) with 0. change (8 * Z.of_nat 4) with 32. change (8 * Z.of_nat 8) with 64.
  change (8 * Z.of_nat 12) with 96. change (8 * Z.of_nat 16) with 128. change (8 * Z.of_nat 20) with 160.
  change (8 * Z.of_nat 24) with 192. change (8 * Z.of_nat 28) with 224.
  unfold fields, fields32 in V. cbn [map limbs_val] in V.
  assert (M : forall k, 0 <= (le_val s / 2 ^ k) mod 2 ^ 32 <= 4294967295)
    by (intros k; pose proof (Z.mod_pos_bound (le_val s / 2 ^ k) (2 ^ 32) ltac:(lia)); lia).
  pose proof (M 0). pose proof (M 32). pose proof (M 64). pose proof (M 96).
  pose proof (M 128). pose proof (M 160). pose proof (M 192). pose proof (M 224). clear M.
  set (s0 := (_ / 2 ^ 0) mod _) in *. set (s1 := (_ / 2 ^ 32) mod _) in *.
  set (s2 := (_ / 2 ^ 64) mod _) in *. set (s3 := (_ / 2 ^ 96) mod _) in *.
  set (s4 := (_ / 2 ^ 128) mod _) in *. set (s5 := (_ / 2 ^ 160) mod _) in *.
  set (s6 := (_ / 2 ^ 192) mod _) in *. set (s7 := (_ / 2 ^ 224) mod _) in *.
  clearbody s0 s1 s2 s3 s4 s5 s6 s7.
  apply safe_eq. csteps. rewrite sign_sum by (repeat constructor; lia). cbn [safe].
  replace (weigh _ _) with (L25519 - 1 - le_val s).
  - destruct (Z.ltb_spec (L25519 - 1 - le_val s) 0), (Z.ltb_spec (le_val s) L25519); lia.
  - rewrite <- V. subst. unfold weigh. cbn [foldr].
    change (L25519 - 1) with (2 ^ 252 + 27742317777372353535851937790883648492). ring.
Qed.

(** ** Properties *)

(** C33.  Scalar multiplication modulo the group order.  For any three 32-byte
    strings, reduced or not, sc_mulsub never overflows an int64_t and returns
    the canonical 32-byte encoding of (c - a*b) mod l. *)
Theorem sc_mulsub_correct a b c : is_bytes 32 a -> is_bytes 32 b -> is_bytes 32 c ->
  sc_mulsub a b c = Some (le_bytes 32 ((le_val c - le_val a * le_val b) mod L25519)).
Proof. apply sc_mulsub_safe. Qed.

Definition ff32 : list Z := repeat 255 32.

Lemma sc_mulsub_correct_witness :
  sc_mulsub ff32 ff32 ff32 =
    Some (le_bytes 32 ((le_val ff32 - le_val ff32 * le_val ff32) mod L25519)).
Proof.
  apply sc_mulsub_correct; (split; [reflexivity | repeat constructor; discriminate]).
Defined.

(** sc_reduce reduces any 64-byte string modulo l: no int64_t overflow, and
    the 32 bytes are the canonical encoding. *)
Theorem sc_reduce_correct s : is_bytes 64 s ->
  sc_reduce s = Some (le_bytes 32 (le_val s mod L25519)).
Proof. apply sc_reduce_safe. Qed.

Lemma sc_reduce_correct_witness :
  sc_reduce (ff32 ++ ff32) = Some (le_bytes 32 (le_val (ff32 ++ ff32) mod L25519)).
Proof.
  apply sc_reduce_correct. split; [reflexivity | repeat constructor; discriminate].
Defined.

(** sc_reduce32 agrees with sc_reduce on the zero-extended string, and both
    are reduction modulo l. *)
Theorem sc_reduce32_is_reduce s : is_bytes 32 s ->
  sc_reduce32 s = sc_reduce (s ++ repeat 0 32) /\
  sc_reduce32 s = Some (le_bytes 32 (le_val s mod L25519)).
Proof.
  intros S. rewrite sc_reduce32_safe by exact S. split; [|reflexivity].
  assert (S64 : is_bytes 64 (s ++ repeat 0 32)).
  { destruct S as [L F]. split; [rewrite length_app, L; reflexivity|].
    apply Forall_app. split; [exact F | repeat constructor; discriminate]. }
  rewrite sc_reduce_safe by exact S64. rewrite le_val_app.
  change (le_val (repeat 0 32)) with 0. now rewrite Z.mul_0_r, Z.add_0_r.
Qed.

Lemma sc_reduce32_is_reduce_witness :
  sc_reduce32 ff32 = sc_reduce (ff32 ++ repeat 0 32) /\
  sc_reduce32 ff32 = Some (le_bytes 32 (le_val ff32 mod L25519)).
Proof.
  apply sc_reduce32_is_reduce. split; [reflexivity | repeat constructor; discriminate].
Defined.

(** sc_add and sc_sub are addition and subtraction modulo l with a
    canonical result, for any two 32-byte strings. *)
Theorem sc_add_sub_correct a b : is_bytes 32 a -> is_bytes 32 b ->
  sc_add a b = Some (le_bytes 32 ((le_val a + le_val b) mod L25519)) /\
  sc_sub a b = Some (le_bytes 32 ((le_val a - le_val b) mod L25519)).
Proof. intros A B. split; [apply sc_add_safe | apply sc_sub_safe]; assumption. Qed.

Lemma sc_add_sub_correct_witness :
  sc_add ff32 sc_0 = Some (le_bytes 32 ((le_val ff32 + le_val sc_0) mod L25519)) /\
  sc_sub ff32 sc_0 = Some (le_bytes 32 ((le_val ff32 - le_val sc_0) mod L25519)).
Proof.
  apply sc_add_sub_correct; (split; [reflexivity | repeat constructor; discriminate]).
Defined.

(** sc_check accepts (returns 0) exactly the canonical scalars, those
    below l, and returns -1 on all others; every reduction passes it. *)
Theorem sc_check_correct s : is_bytes 32 s ->
  sc_check s = Some (if le_val s <? L25519 then 0 else -1) /\
  (let! r := sc_reduce32 s in sc_check r) = Some 0.
Proof.
  intros S. split; [apply sc_check_safe, S|]. rewrite sc_reduce32_safe by exact S. cbn [bind].
  rewrite sc_check_safe by (split; [apply length_le_bytes | apply le_bytes_byte]).
  rewrite le_val_le_bytes.
  assert (L : 0 < L25519 < 2 ^ (8 * Z.of_nat 32)) by (split; reflexivity).
  pose proof (Z.mod_pos_bound (le_val s) L25519 ltac:(lia)).
  rewrite (Z.mod_small (le_val s mod L25519)) by lia.
  now rewrite (proj2 (Z.ltb_lt _ _)) by lia.
Qed.

Lemma sc_check_correct_witness :
  sc_check (le_bytes 32 L25519) = Some (if le_val (le_bytes 32 L25519) <? L25519 then 0 else -1) /\
  (let! r := sc_reduce32 (le_bytes 32 L25519) in sc_check r) = Some 0.
Proof. apply sc_check_correct. split; [reflexivity | apply le_bytes_byte]. Defined.

(** sc_isnonzero is 0 on the zero scalar (the one sc_0 writes) and 1 on
    every other 32-byte string. *)
Theorem sc_isnonzero_correct s : is_bytes 32 s ->
  sc_isnonzero s = Some (if le_val s =? 0 then 0 else 1) /\
  (sc_isnonzero s = Some 0 <-> s = sc_0).
Proof.
  intros [L F]. unfold sc_isnonzero. rewrite or_nonzero_val by exact F. split; [reflexivity|].
  assert (E : s = le_bytes 32 (le_val s)) by (rewrite <- L; symmetry; now apply le_bytes_le_val).
  destruct (Z.eqb_spec (le_val s) 0) as [Z0|N]; split; try reflexivity; try discriminate.
  - intros _. rewrite E, Z0. reflexivity.
  - intros ->. exfalso. now apply N.
Qed.

Lemma sc_isnonzero_correct_witness :
  sc_isnonzero ff32 = Some (if le_val ff32 =? 0 then 0 else 1) /\
  (sc_isnonzero ff32 = Some 0 <-> ff32 = sc_0).
Proof. apply sc_isnonzero_correct. split; [reflexivity | repeat constructor; discriminate]. Defined.
