(* ===== verification/FePow.v ===== *)
(** Powers of field elements (libcryptonote/crypto/crypto-ops.c): the addition
    chains of fe_invert and fe_divpowm1. *)
From Stdlib Require Import ZArith Lia List Bool.
From S2P Require Import Prelude CInt Fe25519.
Local Open Scope Z_scope.

(** ** Definitions *)

(** [for (i = 0; i < n; ++i) { fe_sq(t, t); }] *)
Fixpoint fe_sq_loop (n : nat) (t : fe) : option fe :=
  match n with
  | O => Some t
  | S n => let! t := fe_sq t in fe_sq_loop n t
  end.

Definition fe_invert (z : fe) : option fe :=
  let! t0 := fe_sq z in
  let! t1 := fe_sq t0 in
  let! t1 := fe_sq t1 in
  let! t1 := fe_mul z t1 in
  let! t0 := fe_mul t0 t1 in
  let! t2 := fe_sq t0 in
  let! t1 := fe_mul t1 t2 in
  let! t2 := fe_sq t1 in
  let! t2 := fe_sq_loop 4 t2 in
  let! t1 := fe_mul t2 t1 in
  let! t2 := fe_sq t1 in
  let! t2 := fe_sq_loop 9 t2 in
  let! t2 := fe_mul t2 t1 in
  let! t3 := fe_sq t2 in
  let! t3 := fe_sq_loop 19 t3 in
  let! t2 := fe_mul t3 t2 in
  let! t2 := fe_sq t2 in
  let! t2 := fe_sq_loop 9 t2 in
  let! t1 := fe_mul t2 t1 in
  let! t2 := fe_sq t1 in
  let! t2 := fe_sq_loop 49 t2 in
  let! t2 := fe_mul t2 t1 in
  let! t3 := fe_sq t2 in
  let! t3 := fe_sq_loop 99 t3 in
  let! t2 := fe_mul t3 t2 in
  let! t2 := fe_sq t2 in
  let! t2 := fe_sq_loop 49 t2 in
  let! t1 := fe_mul t2 t1 in
  let! t1 := fe_sq t1 in
  let! t1 := fe_sq_loop 4 t1 in
  fe_mul t1 t0.

Definition fe_divpowm1 (u v : fe) : option fe :=
  let! v3 := fe_sq v in
  let! v3 := fe_mul v3 v in
  let! uv7 := fe_sq v3 in
  let! uv7 := fe_mul uv7 v in
  let! uv7 := fe_mul uv7 u in
  let! t0 := fe_sq uv7 in
  let! t1 := fe_sq t0 in
  let! t1 := fe_sq t1 in
  let! t1 := fe_mul uv7 t1 in
  let! t0 := fe_mul t0 t1 in
  let! t0 := fe_sq t0 in
  let! t0 := fe_mul t1 t0 in
  let! t1 := fe_sq t0 in
  let! t1 := fe_sq_loop 4 t1 in
  let! t0 := fe_mul t1 t0 in
  let! t1 := fe_sq t0 in
  let! t1 := fe_sq_loop 9 t1 in
  let! t1 := fe_mul t1 t0 in
  let! t2 := fe_sq t1 in
  let! t2 := fe_sq_loop 19 t2 in
  let! t1 := fe_mul t2 t1 in
  let! t1 := fe_sq_loop 10 t1 in
  let! t0 := fe_mul t1 t0 in
  let! t1 := fe_sq t0 in
  let! t1 := fe_sq_loop 49 t1 in
  let! t1 := fe_mul t1 t0 in
  let! t2 := fe_sq t1 in
  let! t2 := fe_sq_loop 99 t2 in
  let! t1 := fe_mul t2 t1 in
  let! t1 := fe_sq_loop 50 t1 in
  let! t0 := fe_mul t1 t0 in
  let! t0 := fe_sq t0 in
  let! t0 := fe_sq t0 in
  let! t0 := fe_mul t0 uv7 in
  let! t0 := fe_mul t0 v3 in
  fe_mul t0 u.

(** ** Monomials *)

(** [t] stands for u^i * v^j and fits the preconditions of the products. *)
Definition mono (u v : fe) (i j : Z) (t : fe) : Prop :=
  fe_bd 330 t /\ 0 <= i /\ 0 <= j /\ fe_val t =[P25519]= fe_val u ^ i * fe_val v ^ j.

Section Mono.
Context (u v : fe).

Lemma mono_1 : fe_bd 330 u -> mono u v 1 0 u.
Proof.
  intros B. split; [exact B|]. rewrite Z.pow_1_r, Z.pow_0_r, Z.mul_1_r. repeat split; lia.
Qed.

Lemma mono_2 : fe_bd 330 v -> mono u v 0 1 v.
Proof.
  intros B. split; [exact B|]. rewrite Z.pow_1_r, Z.pow_0_r, Z.mul_1_l. repeat split; lia.
Qed.

Lemma mono_mul i j i' j' i2 j2 a b : mono u v i j a -> mono u v i' j' b ->
  i + i' = i2 -> j + j' = j2 ->
  safe (fe_mul a b) (fun t => fe_bd 101 t /\ mono u v i2 j2 t).
Proof.
  intros (A & I & J & VA) (B & I' & J' & VB) <- <-.
  eapply safe_mono; [apply fe_mul_safe; assumption|]. intros t [T VT].
  split; [exact T|]. split; [eapply fe_bd_mono; [|exact T]; lia|]. repeat split; [lia | lia|].
  rewrite VT, VA, VB, !Z.pow_add_r by assumption.
  replace (fe_val u ^ i * fe_val v ^ j * (fe_val u ^ i' * fe_val v ^ j'))
    with (fe_val u ^ i * fe_val u ^ i' * (fe_val v ^ j * fe_val v ^ j')) by ring. reflexivity.
Qed.

Lemma mono_sq i j i2 j2 a : mono u v i j a -> i + i = i2 -> j + j = j2 ->
  safe (fe_sq a) (fun t => fe_bd 101 t /\ mono u v i2 j2 t).
Proof.
  intros M I J. pose proof (mono_mul _ _ _ _ _ _ _ _ M M I J) as S. destruct M as (A & _).
  unfold fe_sq, fe_mul in *.
  destruct (safe_some _ _ (fe_sq_products_conv a A)) as (w & -> & _ & ->).
  destruct (safe_some _ _ (fe_mul_products_conv a a A A)) as (w & E & _ & ->).
  rewrite E in S. exact S.
Qed.

Lemma mono_sq_loop n i j i2 j2 a : mono u v i j a ->
  i * 2 ^ Z.of_nat n = i2 -> j * 2 ^ Z.of_nat n = j2 -> safe (fe_sq_loop n a) (mono u v i2 j2).
Proof.
  intros M <- <-. revert i j a M. induction n as [|n IH]; intros i j a M; cbn [fe_sq_loop].
  - cbn [safe]. now rewrite !Z.mul_1_r.
  - eapply safe_bind; [exact (mono_sq _ _ _ _ _ M eq_refl eq_refl)|]. intros t [_ T].
    eapply safe_mono; [exact (IH _ _ _ T)|]. intros r R.
    rewrite Nat2Z.inj_succ, Z.pow_succ_r by lia.
    replace (i * (2 * 2 ^ Z.of_nat n)) with ((i + i) * 2 ^ Z.of_nat n) by ring.
    replace (j * (2 * 2 ^ Z.of_nat n)) with ((j + j) * 2 ^ Z.of_nat n) by ring. exact R.
Qed.
End Mono.

(** One step of a chain; the exponents are computed. *)
Ltac pow_step :=
  lazymatch goal with
  | |- safe (bind (fe_sq _) _) _ =>
      eapply safe_bind; [eapply mono_sq; [eassumption | zeval | zeval] | intros ? [? ?]]
  | |- safe (bind (fe_mul _ _) _) _ =>
      eapply safe_bind; [eapply mono_mul; [eassumption | eassumption | zeval | zeval] | intros ? [? ?]]
  | |- safe (bind (fe_sq_loop _ _) _) _ =>
      eapply safe_bind; [eapply mono_sq_loop; [eassumption | zeval | zeval] | intros ? ?]
  end.

Lemma fe_invert_safe z : fe_bd 330 z ->
  safe (fe_invert z) (fun r => fe_bd 101 r /\ fe_val r =[P25519]= fe_val z ^ (P25519 - 2)).
Proof.
  intros B. pose proof (mono_1 z z B). unfold fe_invert. repeat pow_step.
  eapply safe_mono; [eapply mono_mul; [eassumption | eassumption | zeval | zeval]|].
  intros r (R & _ & _ & _ & V). split; [exact R|]. rewrite V, Z.pow_0_r, Z.mul_1_r. reflexivity.
Qed.

Lemma fe_divpowm1_safe u v : fe_bd 330 u -> fe_bd 330 v ->
  safe (fe_divpowm1 u v) (fun r => fe_bd 101 r /\
    fe_val r =[P25519]= fe_val u * fe_val v ^ 3 * (fe_val u * fe_val v ^ 7) ^ ((P25519 - 5) / 8)).
Proof.
  intros U V. pose proof (mono_1 u v U). pose proof (mono_2 u v V). unfold fe_divpowm1.
  repeat pow_step.
  set (e := (P25519 - 5) / 8). assert (E0 : 0 <= e) by (vm_compute; discriminate).
  eapply safe_mono;
    [eapply (mono_mul u v _ _ _ _ (1 + e) (3 + 7 * e));
     [eassumption | eassumption | vm_compute; reflexivity | vm_compute; reflexivity]|].
  clearbody e. intros r (R & _ & _ & _ & E). split; [exact R|]. rewrite E.
  rewrite Z.pow_mul_l, <- Z.pow_mul_r, !Z.pow_add_r, Z.pow_1_r by lia.
  match goal with |- ?a =[_]= ?b => replace a with b by ring end. reflexivity.
Qed.

(** ** Properties *)

(** fe_invert raises to the power p - 2: the 254 squarings and 11
    multiplications of the chain never overflow for an argument within 1.65*2^26,
    1.65*2^25, ..., and the result stands for z^(2^255 - 21). *)
Theorem fe_invert_correct z : fe_bd 330 z ->
  exists r, fe_invert z = Some r /\ fe_bd 101 r /\ fe_val r =[P25519]= fe_val z ^ (P25519 - 2).
Proof. intros B. apply safe_some, fe_invert_safe, B. Qed.

Lemma fe_invert_correct_witness :
  exists r, fe_invert fe_ex1 = Some r /\ fe_bd 101 r /\ fe_val r =[P25519]= fe_val fe_ex1 ^ (P25519 - 2).
Proof. apply fe_invert_correct; vm_compute; intuition discriminate. Defined.

(** fe_divpowm1 computes u * v^3 * (u * v^7)^((p-5)/8), the candidate for a
    square root of u/v. *)
Theorem fe_divpowm1_correct u v : fe_bd 330 u -> fe_bd 330 v ->
  exists r, fe_divpowm1 u v = Some r /\ fe_bd 101 r /\
    fe_val r =[P25519]= fe_val u * fe_val v ^ 3 * (fe_val u * fe_val v ^ 7) ^ ((P25519 - 5) / 8).
Proof. intros U V. apply safe_some, fe_divpowm1_safe; assumption. Qed.

Lemma fe_divpowm1_correct_witness :
  exists r, fe_divpowm1 fe_ex1 fe_ex2 = Some r /\ fe_bd 101 r /\
    fe_val r =[P25519]=
      fe_val fe_ex1 * fe_val fe_ex2 ^ 3 * (fe_val fe_ex1 * fe_val fe_ex2 ^ 7) ^ ((P25519 - 5) / 8).
Proof. apply fe_divpowm1_correct; vm_compute; intuition discriminate. Defined.
