(* ===== verification/Prime25519.v ===== *)
(** The field: 2^255 - 19 is prime, by Pocklington's criterion, and what that
    gives the arithmetic modulo p (inverses, no zero divisors, non-squares). *)
From Stdlib Require Import ZArith Lia List Bool Znumtheory Zpow_facts Zdivisibility ZmodInv.
From S2P Require Import Prelude Fe25519.
Import ListNotations.
Local Open Scope Z_scope.

(** ** Prime divisors *)

Lemma prime_divisor n : 1 < n -> ~ Z.prime n ->
  exists p, Z.prime p /\ (p | n) /\ p * p <= n.
Proof.
  intros N. revert N. assert (0 <= n \/ n < 0) as [P|?] by lia; [|lia].
  pattern n. apply Z_lt_induction; [|exact P]. clear n P. intros n IH N NP.
  destruct (not_prime_divide n N) as (d & D & [e E]); [now rewrite <- prime_alt|].
  assert (H : exists m, 1 < m < n /\ (m | n) /\ m * m <= n).
  { destruct (Z.le_ge_cases (d * d) n) as [L|G].
    - exists d. repeat split; [lia | lia | exists e; lia | exact L].
    - exists e. repeat split; [nia | nia | exists d; lia | nia]. }
  destruct H as (m & M & MD & MM).
  destruct (prime_dec m) as [Pm|Pm]; rewrite <- prime_alt in Pm.
  - exists m. auto.
  - destruct (IH m ltac:(lia) ltac:(lia) Pm) as (p & Pp & PD & PP). exists p.
    split; [exact Pp|]. split; [now apply Z.divide_trans with m|]. lia.
Qed.

(** Trial division. *)
Fixpoint trial (k : nat) (d n : Z) : bool :=
  match k with
  | O => n <? d * d
  | S k => if n <? d * d then true else negb (n mod d =? 0) && trial k (d + 1) n
  end.

Lemma trial_sound k d n : 1 < d -> trial k d n = true -> forall m, d <= m -> m * m <= n -> ~ (m | n).
Proof.
  revert d. induction k as [|k IH]; intros d D T m M MM; cbn [trial] in T.
  - apply Z.ltb_lt in T. nia.
  - destruct (Z.ltb_spec n (d * d)); [nia|].
    apply andb_true_iff in T. destruct T as [T1 T2]. apply negb_true_iff, Z.eqb_neq in T1.
    destruct (Z.eq_dec m d) as [->|N]; [|apply (IH (d + 1)); lia || assumption].
    intros DV. apply T1, Z.mod_divide; [lia | exact DV].
Qed.

Lemma trial_prime k n : 1 < n -> trial k 2 n = true -> Z.prime n.
Proof.
  intros N T. destruct (prime_dec n) as [P|P]; rewrite <- prime_alt in P; [exact P|].
  destruct (prime_divisor n N P) as (p & Pp & PD & PP). exfalso.
  pose proof (Z.prime_ge_2 p Pp). exact (trial_sound _ 2 n ltac:(lia) T p ltac:(lia) PP PD).
Qed.

(** ** Pocklington's criterion *)

Lemma coprime_exponent q m : 1 < q -> 0 < m -> Z.coprime q m ->
  exists u t, 0 <= u /\ 0 <= t /\ q * u = 1 + m * t.
Proof.
  intros Q M C. apply Z.Bezout_coprime in C. destruct C as (x & y & E).
  exists (x + m * (Z.abs x + Z.abs y + 1)), (q * (Z.abs x + Z.abs y + 1) - y). nia.
Qed.

Lemma order_step n p q a : Z.prime p -> (p | n) -> 1 < n -> Z.prime q -> (q | n - 1) ->
  a ^ (n - 1) mod n = 1 -> Z.gcd (a ^ ((n - 1) / q) - 1) n = 1 -> (q | p - 1).
Proof.
  intros P PN N Q QN A G.
  pose proof (Z.prime_ge_2 p P). pose proof (Z.prime_ge_2 q Q).
  destruct (Z.eq_dec ((p - 1) mod q) 0) as [D|D]; [apply Z.mod_divide; [lia | exact D] | exfalso].
  rewrite Z.mod_divide in D by lia.
  destruct (coprime_exponent q (p - 1) ltac:(lia) ltac:(lia) (Z.coprime_prime_l _ _ Q D))
    as (u & t & U & T & E).
  set (k := (n - 1) / q) in *.
  assert (K : n - 1 = k * q).
  { destruct QN as [c C]. unfold k. rewrite C, Z.div_mul by lia. reflexivity. }
  assert (K0 : 0 <= k) by (apply Z.div_pos; lia).
  set (b := a ^ k) in *.
  assert (B1 : b ^ q =[p]= 1).
  { unfold b. rewrite <- Z.pow_mul_r, <- K by lia. apply cong_iff; [lia|].
    destruct PN as [c C]. exists (c * (a ^ (n - 1) / n)).
    pose proof (Z.div_mod (a ^ (n - 1)) n ltac:(lia)) as DM. rewrite A in DM. lia. }
  assert (NB : ~ (p | b - 1)).
  { intros DB. assert (p | 1) as D1 by (rewrite <- G; apply Z.gcd_greatest; assumption).
    apply Z.divide_pos_le in D1; lia. }
  assert (B0 : b mod p <> 0).
  { intros Z0. assert (b =[p]= 0) as C0 by (unfold cong; now rewrite Z0, Z.mod_0_l by lia).
    rewrite C0 in B1. rewrite Z.pow_0_l in B1 by lia.
    unfold cong in B1. rewrite Z.mod_0_l, Z.mod_1_l in B1 by lia. discriminate. }
  apply NB. assert (b =[p]= 1) as C1.
  - assert (F : b ^ (p - 1) =[p]= 1)
      by (unfold cong; rewrite (ZmodInv.Z.fermat_nz p b P B0), Z.mod_1_l by lia; reflexivity).
    transitivity (b ^ (q * u)).
    + assert (0 <= (p - 1) * t) by (apply Z.mul_nonneg_nonneg; lia).
      rewrite E, Z.pow_add_r, Z.pow_1_r, Z.pow_mul_r by lia. rewrite F, Z.pow_1_l by lia.
      now rewrite Z.mul_1_r.
    + rewrite Z.pow_mul_r by lia. rewrite B1, Z.pow_1_l by lia. reflexivity.
  - apply cong_iff in C1; [|lia]. destruct C1 as [c C]. exists c. lia.
Qed.

(** One check of a certificate: base 2, the listed prime factors of [n - 1]. *)
Definition pock_check (n q : Z) : bool :=
  ((n - 1) mod q =? 0) && (Zpow_mod 2 (n - 1) n =? 1) &&
  (Z.gcd (Zpow_mod 2 ((n - 1) / q) n - 1) n =? 1).

Lemma pock_step n p q : 1 < n -> Z.prime p -> (p | n) -> Z.prime q -> pock_check n q = true -> (q | p - 1).
Proof.
  intros N P PN Q H. unfold pock_check in H. repeat rewrite andb_true_iff in H.
  destruct H as [[H1 H2] H3]. apply Z.eqb_eq in H1, H2, H3.
  pose proof (Z.prime_ge_2 q Q).
  rewrite Zpow_mod_correct in H2, H3 by lia.
  apply (order_step n p q 2); auto.
  - apply Z.mod_divide; [lia | exact H1].
  - apply Z.bezout_1_gcd. apply Z.gcd_bezout in H3. destruct H3 as (x & y & E).
    exists x, (y - x * (2 ^ ((n - 1) / q) / n)).
    pose proof (Z.div_mod (2 ^ ((n - 1) / q)) n ltac:(lia)) as DM.
    set (r := 2 ^ ((n - 1) / q)) in *. set (m := r mod n) in *. set (c := r / n) in *.
    rewrite DM. lia.
Qed.

Lemma pock_prime1 n q : Z.prime q -> pock_check n q && (n <? q * q) && (1 <? n) = true -> Z.prime n.
Proof.
  intros Q H. repeat rewrite andb_true_iff in H. destruct H as [[H1 H2] H3]. apply Z.ltb_lt in H2, H3.
  destruct (prime_dec n) as [P|P]; rewrite <- prime_alt in P; [exact P | exfalso].
  destruct (prime_divisor n H3 P) as (p & Pp & PD & PP).
  pose proof (Z.prime_ge_2 p Pp).
  pose proof (pock_step n p q H3 Pp PD Q H1) as D. apply Z.divide_pos_le in D; [|lia].
  pose proof (Z.prime_ge_2 q Q).
  assert (q * q <= p * p) by (apply Z.mul_le_mono_nonneg; lia). lia.
Qed.

Lemma pock_prime2 n q r : Z.prime q -> Z.prime r ->
  pock_check n q && pock_check n r && (n <? (q * r) * (q * r)) && negb (q =? r) && (1 <? n) = true ->
  Z.prime n.
Proof.
  intros Q R H. repeat rewrite andb_true_iff in H. destruct H as [[[[H1 H2] H3] H4] H5].
  apply Z.ltb_lt in H3, H5. apply negb_true_iff, Z.eqb_neq in H4.
  destruct (prime_dec n) as [P|P]; rewrite <- prime_alt in P; [exact P | exfalso].
  destruct (prime_divisor n H5 P) as (p & Pp & PD & PP).
  pose proof (Z.prime_ge_2 p Pp). pose proof (Z.prime_ge_2 q Q). pose proof (Z.prime_ge_2 r R).
  pose proof (pock_step n p q H5 Pp PD Q H1) as [c C].
  pose proof (pock_step n p r H5 Pp PD R H2) as Dr.
  rewrite C in Dr. apply Z.divide_prime_mul in Dr; [|exact R].
  destruct Dr as [[e E]|Dr]; [|apply H4; symmetry; now apply Z.divide_prime_prime].
  assert (0 < q * r) by (apply Z.mul_pos_pos; lia).
  assert (Pe : p - 1 = e * (q * r)) by (rewrite C, E; ring).
  assert (0 < e) by (apply (Z.mul_pos_cancel_r e (q * r)); lia).
  assert (1 * (q * r) <= e * (q * r)) by (apply Z.mul_le_mono_nonneg_r; lia).
  assert (q * r <= p) by lia.
  assert ((q * r) * (q * r) <= p * p) by (apply Z.mul_le_mono_nonneg; lia). lia.
Qed.

(** ** The certificate *)

Lemma prime_991 : Z.prime 991. Proof. apply (trial_prime 40); [lia | vm_compute; reflexivity]. Qed.
Lemma prime_103 : Z.prime 103. Proof. apply (trial_prime 40); [lia | vm_compute; reflexivity]. Qed.
Lemma prime_127 : Z.prime 127. Proof. apply (trial_prime 40); [lia | vm_compute; reflexivity]. Qed.
Lemma prime_4153 : Z.prime 4153. Proof. apply (trial_prime 100); [lia | vm_compute; reflexivity]. Qed.
Lemma prime_430751 : Z.prime 430751. Proof. apply (trial_prime 800); [lia | vm_compute; reflexivity]. Qed.
Lemma prime_569003 : Z.prime 569003. Proof. apply (trial_prime 800); [lia | vm_compute; reflexivity]. Qed.

Lemma prime_c1 : Z.prime 8574133.
Proof. apply (pock_prime2 _ 991 103 prime_991 prime_103). vm_compute. reflexivity. Qed.
Lemma prime_c2 : Z.prime 1919519569386763.
Proof. apply (pock_prime2 _ 8574133 127 prime_c1 prime_127). vm_compute. reflexivity. Qed.
Lemma prime_c3 : Z.prime 2773320623.
Proof. apply (pock_prime1 _ 569003 prime_569003). vm_compute. reflexivity. Qed.
Lemma prime_c4 : Z.prime 72106336199.
Proof. apply (pock_prime1 _ 2773320623 prime_c3). vm_compute. reflexivity. Qed.
Lemma prime_c5 : Z.prime 75445702479781427272750846543864801.
Proof. apply (pock_prime2 _ 1919519569386763 72106336199 prime_c2 prime_c4). vm_compute. reflexivity. Qed.
Lemma prime_c6 : Z.prime 31757755568855353.
Proof. apply (pock_prime2 _ 430751 4153 prime_430751 prime_4153). vm_compute. reflexivity. Qed.
Lemma prime_c7 : Z.prime 74058212732561358302231226437062788676166966415465897661863160754340907.
Proof. apply (pock_prime2 _ 75445702479781427272750846543864801 31757755568855353 prime_c5 prime_c6). vm_compute. reflexivity. Qed.

Theorem p25519_prime : Z.prime P25519.
Proof.
  apply (pock_prime1 _ 74058212732561358302231226437062788676166966415465897661863160754340907 prime_c7).
  vm_compute. reflexivity.
Qed.

(** ** The field *)

Local Notation "a == b" := (cong P25519 a b) (at level 70).

Lemma p_pos : 0 < P25519. Proof. reflexivity. Qed.

Lemma cong_0 a : a == 0 <-> (P25519 | a).
Proof. pose proof p_pos. unfold cong. rewrite Z.mod_0_l by lia. apply Z.mod_divide. lia. Qed.

Lemma cong_sub_0 a b : a == b <-> a - b == 0.
Proof.
  split; intros E.
  - rewrite E, Z.sub_diag. reflexivity.
  - replace a with (a - b + b) by ring. rewrite E. reflexivity.
Qed.

Lemma mul_cong_0 a b : a * b == 0 -> a == 0 \/ b == 0.
Proof. rewrite !cong_0. intros D. now apply Z.divide_prime_mul in D; [|exact p25519_prime]. Qed.

Lemma mul_cong_cancel a b c : ~ (c == 0) -> a * c == b * c -> a == b.
Proof.
  intros C E. apply cong_sub_0 in E. rewrite <- Z.mul_sub_distr_r in E.
  destruct (mul_cong_0 _ _ E) as [D|D]; [now apply cong_sub_0 | contradiction].
Qed.

(** Fermat: z^(p-2) is the inverse of z. *)
Lemma inv_cong z : ~ (z == 0) -> z * z ^ (P25519 - 2) == 1.
Proof.
  intros N. pose proof p_pos as P.
  assert (E : z * z ^ (P25519 - 2) = z ^ (P25519 - 1)).
  { rewrite <- Z.pow_succ_r by (vm_compute; discriminate). f_equal. }
  rewrite E. unfold cong.
  rewrite (ZmodInv.Z.fermat_nz _ _ p25519_prime).
  - symmetry. now apply Z.mod_1_l.
  - intros Z0. apply N. unfold cong. now rewrite Z0, Z.mod_0_l by lia.
Qed.

Lemma one_neq_0 : ~ (1 == 0).
Proof. unfold cong. vm_compute. discriminate. Qed.

(** Arithmetic modulo p that is cheap to evaluate: 2^255 == 19. *)
Definition red (z : Z) : Z := Z.land z (Z.ones 255) + 19 * Z.shiftr z 255.

Lemma red_cong z : red z == z.
Proof.
  unfold red. rewrite Z.land_ones, Z.shiftr_div_pow2 by discriminate.
  apply (cong_quot _ _ _ (- (z / 2 ^ 255))). pose proof (Z.div_mod z (2 ^ 255) ltac:(discriminate)).
  unfold P25519. set (q := z / 2 ^ 255) in *. set (r := z mod 2 ^ 255) in *. lia.
Qed.

Definition mulp (a b : Z) : Z := red (red (a * b)).

Lemma mulp_cong a b : mulp a b == a * b.
Proof. unfold mulp. now rewrite !red_cong. Qed.

(** A sound test of equality modulo p. *)
Definition eqp (a b : Z) : bool :=
  let r := red (red (a - b)) in (r =? 0) || (r =? P25519).

Lemma eqp_sound a b : eqp a b = true -> a == b.
Proof.
  unfold eqp. cbv zeta. intros H. apply cong_sub_0.
  transitivity (red (red (a - b))); [now rewrite !red_cong|].
  apply orb_true_iff in H as [H|H]; apply Z.eqb_eq in H; rewrite H; reflexivity.
Qed.

Fixpoint fpow (a : Z) (n : positive) : Z :=
  match n with
  | xH => a
  | xO n => let b := fpow a n in mulp b b
  | xI n => let b := fpow a n in mulp a (mulp b b)
  end.

Lemma fpow_cong a n : fpow a n == a ^ Zpos n.
Proof.
  induction n as [n IH|n IH|]; cbn [fpow].
  - rewrite !mulp_cong, IH, Pos2Z.inj_xI, Z.pow_add_r, Z.pow_1_r, Z.mul_comm by discriminate.
    rewrite <- Z.pow_add_r by discriminate. replace (Zpos n + Zpos n) with (2 * Zpos n) by lia. reflexivity.
  - rewrite mulp_cong, IH, Pos2Z.inj_xO, <- Z.pow_add_r by discriminate.
    replace (Zpos n + Zpos n) with (2 * Zpos n) by lia. reflexivity.
  - now rewrite Z.pow_1_r.
Qed.

Lemma fermat x : ~ (x == 0) -> x ^ (P25519 - 1) == 1.
Proof.
  intros N. unfold cong. rewrite (ZmodInv.Z.fermat_nz _ _ p25519_prime); [reflexivity|].
  intros H. apply N. unfold cong. now rewrite H, Z.mod_0_l by discriminate.
Qed.

(** Euler's criterion, the direction used: a square has a^((p-1)/2) == 1. *)
Lemma nonsquare a x : eqp (fpow a (Z.to_pos ((P25519 - 1) / 2))) (-1) = true -> ~ (x * x == a).
Proof.
  intros H E. apply eqp_sound in H. rewrite fpow_cong in H.
  set (h := Zpos (Z.to_pos ((P25519 - 1) / 2))) in H. assert (Hh : 2 * h = P25519 - 1) by reflexivity.
  assert (H0 : 0 < h) by reflexivity. clearbody h.
  rewrite <- E, <- Z.pow_2_r, <- Z.pow_mul_r, Hh in H by lia.
  assert (N : ~ (x == 0)).
  { intros X0. rewrite X0, Z.pow_0_l in H by reflexivity. vm_compute in H. discriminate. }
  rewrite (fermat x N) in H. vm_compute in H. discriminate.
Qed.

(** A square root of -1 is not a square, as (p-1)/4 is odd. *)
Lemma root_nonsquare i x : i * i == -1 -> ~ (x * x == i).
Proof.
  intros I E. set (k := (P25519 - 1) / 4). assert (K : 4 * k = P25519 - 1) by reflexivity.
  assert (Ko : k = 2 * (k / 2) + 1) by reflexivity. assert (K0 : 0 <= k / 2) by (now apply Z.leb_le).
  clearbody k. rewrite <- E in I.
  assert (N : ~ (x == 0)).
  { intros X0. rewrite X0 in I. vm_compute in I. discriminate. }
  pose proof (fermat x N) as F. rewrite <- K, Z.pow_mul_r in F by lia.
  replace (x ^ 4) with (x * x * (x * x)) in F by ring. rewrite I in F.
  rewrite Ko, Z.pow_add_r, Z.pow_1_r, Z.pow_mul_r in F by lia.
  change ((-1) ^ 2) with 1 in F. rewrite Z.pow_1_l in F by exact K0. vm_compute in F. discriminate.
Qed.
