(* ===== verification/Edwards.v ===== *)
(** The curve -x^2 + y^2 = 1 + d x^2 y^2 over the integers modulo 2^255 - 19:
    the constants of libcryptonote/crypto/crypto-ops-data.c, the addition law as
    a relation without divisions, its completeness, and the interface of a group
    of curve points against which the group operations are verified. *)
From Stdlib Require Import ZArith Lia List Bool Setoid Morphisms Zpow_facts.
From S2P Require Import Prelude Fe25519 Prime25519.
Import ListNotations.
Local Open Scope Z_scope.

(** ** The constants *)

Definition fe_d : fe := mkfe (-10913610) 13857413 (-15372611) 6949391 114729 (-8787816) (-6275908) (-3247719) (-18696448) (-12055116).
Definition fe_sqrtm1 : fe := mkfe (-32595792) (-7943725) 9377950 3500415 12389472 (-272473) (-25146209) (-2005654) 326686 11406482.
Definition fe_d2 : fe := mkfe (-21827239) (-5839606) (-30745221) 13898782 229458 15978800 (-12551817) (-6495438) 29715968 9444199.
Definition fe_ma2 : fe := mkfe (-12721188) (-3529) 0 0 0 0 0 0 0 0.
Definition fe_ma : fe := mkfe (-486662) 0 0 0 0 0 0 0 0 0.
Definition fe_fffb1 : fe := mkfe (-31702527) (-2466483) (-26106795) (-12203692) (-12169197) (-321052) 14850977 (-10296299) (-16929438) (-407568).
Definition fe_fffb2 : fe := mkfe 8166131 (-6741800) (-17040804) 3154616 21461005 1466302 (-30876704) (-6368709) 10503587 (-13363080).
Definition fe_fffb3 : fe := mkfe (-13620103) 14639558 4532995 7679154 16815101 (-15883539) (-22863840) (-14813421) 13716513 (-6477756).
Definition fe_fffb4 : fe := mkfe (-21786234) (-12173074) 21573800 4524538 (-4645904) 16204591 8012863 (-8444712) 3212926 6885324.

(** ** Definitions *)

Declare Scope fld_scope.
Delimit Scope fld_scope with fld.
Notation "a == b" := (cong P25519 a b) (at level 70) : fld_scope.
Local Open Scope fld_scope.

(** An affine point, its coordinates taken modulo p. *)
Definition pt : Set := (Z * Z)%type.

Definition d25519 : Z := fe_val fe_d.

Definition pt_eq (P Q : pt) : Prop := fst P == fst Q /\ snd P == snd Q.

Definition on_curve (P : pt) : Prop :=
  let '(x, y) := P in y * y - x * x == 1 + d25519 * (x * x) * (y * y).

(** R = P + Q: x3 (1 + d x1 x2 y1 y2) = x1 y2 + x2 y1 and
    y3 (1 - d x1 x2 y1 y2) = y1 y2 + x1 x2. *)
Definition ed_add (P Q R : pt) : Prop :=
  let '(x1, y1) := P in
  let '(x2, y2) := Q in
  let '(x3, y3) := R in
  x3 * (1 + d25519 * x1 * x2 * y1 * y2) == x1 * y2 + x2 * y1 /\
  y3 * (1 - d25519 * x1 * x2 * y1 * y2) == y1 * y2 + x1 * x2.

Definition pt_zero : pt := (0, 1).
Definition pt_opp (P : pt) : pt := (- fst P, snd P).

(** The interface: a commutative group whose elements have curve points as
    coordinates, its addition being the addition law. *)
Class EdGroup (G : Type) := {
  g_add : G -> G -> G;
  g_zero : G;
  g_opp : G -> G;
  g_xy : G -> pt;
  g_assoc a b c : g_add a (g_add b c) = g_add (g_add a b) c;
  g_comm a b : g_add a b = g_add b a;
  g_zero_l a : g_add g_zero a = a;
  g_opp_l a : g_add (g_opp a) a = g_zero;
  g_xy_zero : pt_eq (g_xy g_zero) pt_zero;
  g_xy_opp a : pt_eq (g_xy (g_opp a)) (pt_opp (g_xy a));
  g_xy_curve a : on_curve (g_xy a);
  g_xy_add a b : ed_add (g_xy a) (g_xy b) (g_xy (g_add a b)) }.

(** The multiple n*a. *)
Definition g_pos {G} `{EdGroup G} (n : positive) (a : G) : G := Pos.iter (g_add a) g_zero n.
Definition g_mul {G} `{EdGroup G} (n : Z) (a : G) : G :=
  match n with
  | Z0 => g_zero
  | Zpos n => g_pos n a
  | Zneg n => g_opp (g_pos n a)
  end.

(** ** Completeness of the addition law *)

Lemma cong_ring a b : a = b -> a == b.
Proof. intros ->. reflexivity. Qed.

Lemma sqrtm1_sq : fe_val fe_sqrtm1 * fe_val fe_sqrtm1 == -1.
Proof. vm_compute. reflexivity. Qed.

Lemma d_nonsquare w : ~ (w * w == d25519).
Proof.
  intros E. apply (nonsquare (121665 * 121666) (121666 * fe_val fe_sqrtm1 * w)); [vm_compute; reflexivity|].
  transitivity (121666 * 121666 * (fe_val fe_sqrtm1 * fe_val fe_sqrtm1) * (w * w)); [apply cong_ring; ring|].
  rewrite E, sqrtm1_sq.
  assert (D : 121666 * d25519 == -121665) by (vm_compute; reflexivity).
  transitivity (- 121666 * (121666 * d25519)); [apply cong_ring; ring|]. rewrite D. reflexivity.
Qed.

(** A ratio of squares is a square. *)
Lemma d_no_ratio a b : ~ (b == 0) -> ~ (d25519 * (b * b) == a * a).
Proof.
  intros B E. apply (d_nonsquare (a * b ^ (P25519 - 2))).
  pose proof (inv_cong b B) as I. set (j := b ^ (P25519 - 2)) in *. clearbody j.
  transitivity (a * a * (j * j)); [apply cong_ring; ring|]. rewrite <- E.
  transitivity (d25519 * ((b * j) * (b * j))); [apply cong_ring; ring|]. rewrite I.
  apply cong_ring. ring.
Qed.

Lemma mul_nonzero a b : ~ (a == 0) -> ~ (b == 0) -> ~ (a * b == 0).
Proof. intros A B E. destruct (mul_cong_0 _ _ E); contradiction. Qed.

Lemma nonzero_mul a b : ~ (a * b == 0) -> ~ (a == 0) /\ ~ (b == 0).
Proof.
  intros N. split; intros E; apply N; rewrite E; apply cong_ring; ring.
Qed.

Lemma two_nonzero : ~ (2 == 0).
Proof. vm_compute. discriminate. Qed.

(** The key identity of the completeness proof. *)
Lemma square_identity i e x1 y1 x2 y2 :
  i * i == -1 -> e * e == 1 -> on_curve (x1, y1) -> on_curve (x2, y2) ->
  d25519 * x1 * x2 * y1 * y2 == e ->
  d25519 * ((x1 * y1 * (i * x2 + y2)) * (x1 * y1 * (i * x2 + y2))) ==
    (i * x1 + e * y1) * (i * x1 + e * y1).
Proof.
  unfold on_curve. intros I E C1 C2 D.
  transitivity (d25519 * (x1 * x1) * (y1 * y1) * ((i * i) * (x2 * x2) + y2 * y2)
                + 2 * i * (d25519 * x1 * x2 * y1 * y2) * (x1 * y1)); [apply cong_ring; ring|].
  rewrite I, D.
  transitivity (d25519 * (x1 * x1) * (y1 * y1) * (y2 * y2 - x2 * x2) + 2 * i * e * (x1 * y1));
    [apply cong_ring; ring|].
  rewrite C2.
  transitivity (d25519 * (x1 * x1) * (y1 * y1)
                + (d25519 * x1 * x2 * y1 * y2) * (d25519 * x1 * x2 * y1 * y2)
                + 2 * i * e * (x1 * y1)); [apply cong_ring; ring|].
  rewrite D, E.
  transitivity ((1 + d25519 * (x1 * x1) * (y1 * y1)) + 2 * i * e * (x1 * y1)); [apply cong_ring; ring|].
  rewrite <- C1.
  transitivity (1 * (y1 * y1) + -1 * (x1 * x1) + 2 * i * e * (x1 * y1)); [apply cong_ring; ring|].
  rewrite <- I, <- E. apply cong_ring. ring.
Qed.

Lemma denominator_nonzero e P Q : e * e == 1 -> on_curve P -> on_curve Q ->
  ~ (d25519 * fst P * fst Q * snd P * snd Q == e).
Proof.
  destruct P as [x1 y1], Q as [x2 y2]. cbn [fst snd]. intros E C1 C2 D.
  assert (E0 : ~ (e == 0)).
  { intros Z0. rewrite Z0 in E. vm_compute in E. discriminate. }
  assert (N : ~ (d25519 * x1 * x2 * y1 * y2 == 0)) by (now rewrite D).
  destruct (nonzero_mul _ _ N) as [N1 Ny2]. destruct (nonzero_mul _ _ N1) as [N2 Ny1].
  destruct (nonzero_mul _ _ N2) as [N3 Nx2]. destruct (nonzero_mul _ _ N3) as [_ Nx1].
  set (i := fe_val fe_sqrtm1). pose proof sqrtm1_sq as I. fold i in I. clearbody i.
  assert (I' : - i * - i == -1) by (rewrite <- I; apply cong_ring; ring).
  assert (K : forall i, i * i == -1 -> i * x2 + y2 == 0).
  { intros j J. destruct (Z.eq_dec ((j * x2 + y2) mod P25519) 0) as [Z0|N0].
    - unfold cong. rewrite Z0. reflexivity.
    - exfalso. eapply (d_no_ratio (j * x1 + e * y1) (x1 * y1 * (j * x2 + y2))).
      + apply mul_nonzero; [now apply mul_nonzero|]. intros Z0. apply N0. unfold cong in Z0.
        rewrite Z0. reflexivity.
      + now apply square_identity. }
  pose proof (K i I) as K1. pose proof (K (- i) I') as K2.
  apply (mul_nonzero 2 y2 two_nonzero Ny2).
  transitivity ((i * x2 + y2) + (- i * x2 + y2)); [apply cong_ring; ring|].
  rewrite K1, K2. reflexivity.
Qed.

Lemma ed_complete x1 y1 x2 y2 : on_curve (x1, y1) -> on_curve (x2, y2) ->
  ~ (1 + d25519 * x1 * x2 * y1 * y2 == 0) /\ ~ (1 - d25519 * x1 * x2 * y1 * y2 == 0).
Proof.
  intros C1 C2. split; intros Z0.
  - apply (denominator_nonzero (-1) (x1, y1) (x2, y2)); [reflexivity | assumption | assumption|].
    cbn [fst snd]. replace (d25519 * x1 * x2 * y1 * y2) with ((1 + d25519 * x1 * x2 * y1 * y2) - 1) by ring.
    rewrite Z0. reflexivity.
  - apply (denominator_nonzero 1 (x1, y1) (x2, y2)); [reflexivity | assumption | assumption|].
    cbn [fst snd]. replace (d25519 * x1 * x2 * y1 * y2) with (1 - (1 - d25519 * x1 * x2 * y1 * y2)) by ring.
    rewrite Z0. reflexivity.
Qed.

(** The sum is determined. *)
Lemma ed_add_unique P Q R R' : on_curve P -> on_curve Q -> ed_add P Q R -> ed_add P Q R' -> pt_eq R R'.
Proof.
  destruct P as [x1 y1], Q as [x2 y2], R as [x3 y3], R' as [x4 y4].
  intros C1 C2 [A1 A2] [B1 B2]. destruct (ed_complete _ _ _ _ C1 C2) as [N1 N2].
  split; cbn [fst snd]; [apply (mul_cong_cancel _ _ _ N1) | apply (mul_cong_cancel _ _ _ N2)].
  - now rewrite A1, B1.
  - now rewrite A2, B2.
Qed.

(** The sum of two curve points is a curve point. *)
Lemma closure_identity (d x1 y1 x2 y2 : Z) :
  let D := d * x1 * x2 * y1 * y2 in
  let A := x1 * y2 + x2 * y1 in
  let B := y1 * y2 + x1 * x2 in
  B^2 * (1 + D)^2 - A^2 * (1 - D)^2 - (1 - D^2)^2 - d * A^2 * B^2 =
  (y1^2 - x1^2 - 1 - d * x1^2 * y1^2) * ((1)*d^3*x1^2*y1^2*x2^4*y2^4 + (-1)*d^2*x1^2*x2^4*y2^4 + (1)*d^2*y1^2*x2^4*y2^4 + (-1)*d^2*x2^4*y2^4 + (-1)*d*x1^2*x2^4*y2^2 + (1)*d*x1^2*x2^2*y2^4 + (1)*d*y1^2*x2^4*y2^2 + (-1)*d*y1^2*x2^2*y2^4 + (-2)*d*x2^4*y2^4 + (-2)*d*x2^2*y2^2 + (-2)*x2^4*y2^2 + (1)*x2^4 + (2)*x2^2*y2^4 + (-4)*x2^2*y2^2 + (1)*y2^4) +
  (y2^2 - x2^2 - 1 - d * x2^2 * y2^2) * ((1)*d*x1^4*x2^2*y2^2 + (2)*d*x1^2*x2^2*y2^2 + (1)*d*y1^4*x2^2*y2^2 + (-2)*d*y1^2*x2^2*y2^2 + (1)*d*x2^2*y2^2 + (2)*x1^2*x2^2*y2^2 + (-1)*x1^2*x2^2 + (1)*x1^2*y2^2 + (-2)*y1^2*x2^2*y2^2 + (1)*y1^2*x2^2 + (-1)*y1^2*y2^2 + (2)*x2^2*y2^2 + (-1)*x2^2 + (1)*y2^2 + (1)*1).
Proof. cbv zeta. ring. Qed.

Lemma ed_closed P Q R : on_curve P -> on_curve Q -> ed_add P Q R -> on_curve R.
Proof.
  destruct P as [x1 y1], Q as [x2 y2], R as [x3 y3]. intros C1 C2 [A1 A2].
  destruct (ed_complete _ _ _ _ C1 C2) as [N1 N2]. unfold on_curve in *.
  set (d := d25519) in *. set (D := d * x1 * x2 * y1 * y2) in *.
  pose proof (closure_identity d x1 y1 x2 y2) as I. cbv zeta in I. fold D in I.
  assert (K1 : y1^2 - x1^2 - 1 - d * x1^2 * y1^2 == 0).
  { apply cong_sub_0 in C1. rewrite <- C1. apply cong_ring. ring. }
  assert (K2 : y2^2 - x2^2 - 1 - d * x2^2 * y2^2 == 0).
  { apply cong_sub_0 in C2. rewrite <- C2. apply cong_ring. ring. }
  apply cong_ring in I. rewrite K1, K2, !Z.mul_0_l, Z.add_0_l in I.
  assert (N : ~ ((1 + D) * (1 - D) * ((1 + D) * (1 - D)) == 0)) by (repeat apply mul_nonzero; assumption).
  apply (mul_cong_cancel _ _ _ N). apply cong_sub_0. rewrite <- I, <- A1, <- A2.
  apply cong_ring. ring.
Qed.

Lemma zero_on_curve : on_curve pt_zero.
Proof. unfold on_curve, pt_zero. apply cong_ring. ring. Qed.

Lemma opp_on_curve P : on_curve P -> on_curve (pt_opp P).
Proof.
  destruct P as [x y]. unfold on_curve, pt_opp. cbn [fst snd]. intros C.
  transitivity (y * y - x * x); [apply cong_ring; ring|]. rewrite C. apply cong_ring. ring.
Qed.
