(* ===== verification/CurveGroup.v ===== *)
(** The group of the curve: associativity of the addition law, and the points with
    canonical coordinates as an instance of the [EdGroup] interface. *)
From Stdlib Require Import ZArith Lia List Bool Eqdep_dec Zpow_facts.
From S2P Require Import Prelude Fe25519 Prime25519 Edwards.
Local Open Scope Z_scope.
Local Open Scope fld_scope.

(** ** Associativity *)

Lemma assoc_identity_x (d x1 y1 x2 y2 x3 y3 : Z) :
  let D := d * x1 * x2 * y1 * y2 in let A := x1 * y2 + x2 * y1 in let B := y1 * y2 + x1 * x2 in
  let E := d * x2 * x3 * y2 * y3 in let A' := x2 * y3 + x3 * y2 in let B' := y2 * y3 + x2 * x3 in
  (A * (1 - D) * y3 + x3 * B * (1 + D)) * ((1 + E) * (1 - E) + d * A' * B' * x1 * y1) -
  (x1 * B' * (1 + E) + A' * (1 - E) * y1) * ((1 + D) * (1 - D) + d * A * B * x3 * y3) =
  (y1^2 - x1^2 - 1 - d * x1^2 * y1^2) * ((-1)*d^2*x1*x2^4*y2^3*x3^2*y3 + (-1)*d^2*x1*x2^3*y2^4*x3*y3^2 + (1)*d^2*y1*x2^4*y2^3*x3*y3^2 + (1)*d^2*y1*x2^3*y2^4*x3^2*y3 + (-1)*d*x1*x2^4*y2*x3^2*y3 + (-1)*d*x1*x2^3*y2^2*x3^3 + (-1)*d*x1*x2^3*y2^2*x3 + (1)*d*x1*x2^2*y2^3*y3^3 + (-1)*d*x1*x2^2*y2^3*y3 + (1)*d*x1*x2*y2^4*x3*y3^2 + (1)*d*y1*x2^4*y2*x3*y3^2 + (1)*d*y1*x2^3*y2^2*y3^3 + (-1)*d*y1*x2^3*y2^2*y3 + (-1)*d*y1*x2^2*y2^3*x3^3 + (-1)*d*y1*x2^2*y2^3*x3 + (-1)*d*y1*x2*y2^4*x3^2*y3) +
  (y2^2 - x2^2 - 1 - d * x2^2 * y2^2) * ((1)*d^2*x1^2*y1*x2^2*y2*x3^3*y3^2 + (-1)*d^2*x1^2*y1*x2*y2^2*x3^2*y3^3 + (-1)*d^2*x1*y1^2*x2^2*y2*x3^2*y3^3 + (1)*d^2*x1*y1^2*x2*y2^2*x3^3*y3^2 + (1)*d*x1^3*x2^2*y2*x3^2*y3 + (1)*d*x1^3*x2*y2^2*x3*y3^2 + (1)*d*x1^3*x2*x3^3*y3^2 + (1)*d*x1^3*y2*x3^2*y3^3 + (-1)*d*x1^2*y1*x2^2*y2*x3*y3^2 + (-1)*d*x1^2*y1*x2*y2^2*x3^2*y3 + (1)*d*x1^2*y1*x2*x3^2*y3^3 + (1)*d*x1^2*y1*y2*x3^3*y3^2 + (-1)*d*x1*y1^2*x2^2*y2*x3^2*y3 + (-1)*d*x1*y1^2*x2*y2^2*x3*y3^2 + (-1)*d*x1*y1^2*x2*x3^3*y3^2 + (-1)*d*x1*y1^2*y2*x3^2*y3^3 + (1)*d*x1*x2^2*y2*x3^2*y3 + (1)*d*x1*x2*y2^2*x3*y3^2 + (1)*d*x1*x2*x3^3*y3^2 + (1)*d*x1*y2*x3^2*y3^3 + (1)*d*y1^3*x2^2*y2*x3*y3^2 + (1)*d*y1^3*x2*y2^2*x3^2*y3 + (-1)*d*y1^3*x2*x3^2*y3^3 + (-1)*d*y1^3*y2*x3^3*y3^2 + (-1)*d*y1*x2^2*y2*x3*y3^2 + (-1)*d*y1*x2*y2^2*x3^2*y3 + (1)*d*y1*x2*x3^2*y3^3 + (1)*d*y1*y2*x3^3*y3^2 + (1)*x1^3*x2*x3^3 + (-1)*x1^3*x2*x3*y3^2 + (1)*x1^3*x2*x3 + (1)*x1^3*y2*x3^2*y3 + (-1)*x1^3*y2*y3^3 + (1)*x1^3*y2*y3 + (1)*x1^2*y1*x2*x3^2*y3 + (-1)*x1^2*y1*x2*y3^3 + (1)*x1^2*y1*x2*y3 + (1)*x1^2*y1*y2*x3^3 + (-1)*x1^2*y1*y2*x3*y3^2 + (1)*x1^2*y1*y2*x3 + (-1)*x1*y1^2*x2*x3^3 + (1)*x1*y1^2*x2*x3*y3^2 + (-1)*x1*y1^2*x2*x3 + (-1)*x1*y1^2*y2*x3^2*y3 + (1)*x1*y1^2*y2*y3^3 + (-1)*x1*y1^2*y2*y3 + (1)*x1*x2*x3^3 + (-1)*x1*x2*x3*y3^2 + (1)*x1*x2*x3 + (1)*x1*y2*x3^2*y3 + (-1)*x1*y2*y3^3 + (1)*x1*y2*y3 + (-1)*y1^3*x2*x3^2*y3 + (1)*y1^3*x2*y3^3 + (-1)*y1^3*x2*y3 + (-1)*y1^3*y2*x3^3 + (1)*y1^3*y2*x3*y3^2 + (-1)*y1^3*y2*x3 + (1)*y1*x2*x3^2*y3 + (-1)*y1*x2*y3^3 + (1)*y1*x2*y3 + (1)*y1*y2*x3^3 + (-1)*y1*y2*x3*y3^2 + (1)*y1*y2*x3) +
  (y3^2 - x3^2 - 1 - d * x3^2 * y3^2) * ((-1)*d*x1^2*y1*x2^2*y2*x3 + (1)*d*x1^2*y1*x2*y2^2*y3 + (1)*d*x1*y1^2*x2^2*y2*y3 + (-1)*d*x1*y1^2*x2*y2^2*x3 + (-1)*x1^3*x2^3*x3 + (-1)*x1^3*x2^2*y2*y3 + (1)*x1^3*x2*y2^2*x3 + (-1)*x1^3*x2*x3 + (1)*x1^3*y2^3*y3 + (-1)*x1^3*y2*y3 + (-1)*x1^2*y1*x2^3*y3 + (-1)*x1^2*y1*x2^2*y2*x3 + (1)*x1^2*y1*x2*y2^2*y3 + (-1)*x1^2*y1*x2*y3 + (1)*x1^2*y1*y2^3*x3 + (-1)*x1^2*y1*y2*x3 + (1)*x1*y1^2*x2^3*x3 + (1)*x1*y1^2*x2^2*y2*y3 + (-1)*x1*y1^2*x2*y2^2*x3 + (1)*x1*y1^2*x2*x3 + (-1)*x1*y1^2*y2^3*y3 + (1)*x1*y1^2*y2*y3 + (-1)*x1*x2^3*x3 + (-1)*x1*x2^2*y2*y3 + (1)*x1*x2*y2^2*x3 + (-1)*x1*x2*x3 + (1)*x1*y2^3*y3 + (-1)*x1*y2*y3 + (1)*y1^3*x2^3*y3 + (1)*y1^3*x2^2*y2*x3 + (-1)*y1^3*x2*y2^2*y3 + (1)*y1^3*x2*y3 + (-1)*y1^3*y2^3*x3 + (1)*y1^3*y2*x3 + (-1)*y1*x2^3*y3 + (-1)*y1*x2^2*y2*x3 + (1)*y1*x2*y2^2*y3 + (-1)*y1*x2*y3 + (1)*y1*y2^3*x3 + (-1)*y1*y2*x3).
Proof. cbv zeta. ring. Qed.

Lemma assoc_identity_y (d x1 y1 x2 y2 x3 y3 : Z) :
  let D := d * x1 * x2 * y1 * y2 in let A := x1 * y2 + x2 * y1 in let B := y1 * y2 + x1 * x2 in
  let E := d * x2 * x3 * y2 * y3 in let A' := x2 * y3 + x3 * y2 in let B' := y2 * y3 + x2 * x3 in
  (B * (1 + D) * y3 + A * (1 - D) * x3) * ((1 + E) * (1 - E) - d * A' * B' * x1 * y1) -
  (y1 * B' * (1 + E) + x1 * A' * (1 - E)) * ((1 + D) * (1 - D) - d * A * B * x3 * y3) =
  (y1^2 - x1^2 - 1 - d * x1^2 * y1^2) * ((1)*d^2*x1*x2^4*y2^3*x3*y3^2 + (1)*d^2*x1*x2^3*y2^4*x3^2*y3 + (-1)*d^2*y1*x2^4*y2^3*x3^2*y3 + (-1)*d^2*y1*x2^3*y2^4*x3*y3^2 + (1)*d*x1*x2^4*y2*x3*y3^2 + (1)*d*x1*x2^3*y2^2*y3^3 + (-1)*d*x1*x2^3*y2^2*y3 + (-1)*d*x1*x2^2*y2^3*x3^3 + (-1)*d*x1*x2^2*y2^3*x3 + (-1)*d*x1*x2*y2^4*x3^2*y3 + (-1)*d*y1*x2^4*y2*x3^2*y3 + (-1)*d*y1*x2^3*y2^2*x3^3 + (-1)*d*y1*x2^3*y2^2*x3 + (1)*d*y1*x2^2*y2^3*y3^3 + (-1)*d*y1*x2^2*y2^3*y3 + (1)*d*y1*x2*y2^4*x3*y3^2) +
  (y2^2 - x2^2 - 1 - d * x2^2 * y2^2) * ((1)*d^2*x1^2*y1*x2^2*y2*x3^2*y3^3 + (-1)*d^2*x1^2*y1*x2*y2^2*x3^3*y3^2 + (-1)*d^2*x1*y1^2*x2^2*y2*x3^3*y3^2 + (1)*d^2*x1*y1^2*x2*y2^2*x3^2*y3^3 + (-1)*d*x1^3*x2^2*y2*x3*y3^2 + (-1)*d*x1^3*x2*y2^2*x3^2*y3 + (1)*d*x1^3*x2*x3^2*y3^3 + (1)*d*x1^3*y2*x3^3*y3^2 + (1)*d*x1^2*y1*x2^2*y2*x3^2*y3 + (1)*d*x1^2*y1*x2*y2^2*x3*y3^2 + (1)*d*x1^2*y1*x2*x3^3*y3^2 + (1)*d*x1^2*y1*y2*x3^2*y3^3 + (1)*d*x1*y1^2*x2^2*y2*x3*y3^2 + (1)*d*x1*y1^2*x2*y2^2*x3^2*y3 + (-1)*d*x1*y1^2*x2*x3^2*y3^3 + (-1)*d*x1*y1^2*y2*x3^3*y3^2 + (-1)*d*x1*x2^2*y2*x3*y3^2 + (-1)*d*x1*x2*y2^2*x3^2*y3 + (1)*d*x1*x2*x3^2*y3^3 + (1)*d*x1*y2*x3^3*y3^2 + (-1)*d*y1^3*x2^2*y2*x3^2*y3 + (-1)*d*y1^3*x2*y2^2*x3*y3^2 + (-1)*d*y1^3*x2*x3^3*y3^2 + (-1)*d*y1^3*y2*x3^2*y3^3 + (1)*d*y1*x2^2*y2*x3^2*y3 + (1)*d*y1*x2*y2^2*x3*y3^2 + (1)*d*y1*x2*x3^3*y3^2 + (1)*d*y1*y2*x3^2*y3^3 + (1)*x1^3*x2*x3^2*y3 + (-1)*x1^3*x2*y3^3 + (1)*x1^3*x2*y3 + (1)*x1^3*y2*x3^3 + (-1)*x1^3*y2*x3*y3^2 + (1)*x1^3*y2*x3 + (1)*x1^2*y1*x2*x3^3 + (-1)*x1^2*y1*x2*x3*y3^2 + (1)*x1^2*y1*x2*x3 + (1)*x1^2*y1*y2*x3^2*y3 + (-1)*x1^2*y1*y2*y3^3 + (1)*x1^2*y1*y2*y3 + (-1)*x1*y1^2*x2*x3^2*y3 + (1)*x1*y1^2*x2*y3^3 + (-1)*x1*y1^2*x2*y3 + (-1)*x1*y1^2*y2*x3^3 + (1)*x1*y1^2*y2*x3*y3^2 + (-1)*x1*y1^2*y2*x3 + (1)*x1*x2*x3^2*y3 + (-1)*x1*x2*y3^3 + (1)*x1*x2*y3 + (1)*x1*y2*x3^3 + (-1)*x1*y2*x3*y3^2 + (1)*x1*y2*x3 + (-1)*y1^3*x2*x3^3 + (1)*y1^3*x2*x3*y3^2 + (-1)*y1^3*x2*x3 + (-1)*y1^3*y2*x3^2*y3 + (1)*y1^3*y2*y3^3 + (-1)*y1^3*y2*y3 + (1)*y1*x2*x3^3 + (-1)*y1*x2*x3*y3^2 + (1)*y1*x2*x3 + (1)*y1*y2*x3^2*y3 + (-1)*y1*y2*y3^3 + (1)*y1*y2*y3) +
  (y3^2 - x3^2 - 1 - d * x3^2 * y3^2) * ((-1)*d*x1^2*y1*x2^2*y2*y3 + (1)*d*x1^2*y1*x2*y2^2*x3 + (1)*d*x1*y1^2*x2^2*y2*x3 + (-1)*d*x1*y1^2*x2*y2^2*y3 + (-1)*x1^3*x2^3*y3 + (-1)*x1^3*x2^2*y2*x3 + (1)*x1^3*x2*y2^2*y3 + (-1)*x1^3*x2*y3 + (1)*x1^3*y2^3*x3 + (-1)*x1^3*y2*x3 + (-1)*x1^2*y1*x2^3*x3 + (-1)*x1^2*y1*x2^2*y2*y3 + (1)*x1^2*y1*x2*y2^2*x3 + (-1)*x1^2*y1*x2*x3 + (1)*x1^2*y1*y2^3*y3 + (-1)*x1^2*y1*y2*y3 + (1)*x1*y1^2*x2^3*y3 + (1)*x1*y1^2*x2^2*y2*x3 + (-1)*x1*y1^2*x2*y2^2*y3 + (1)*x1*y1^2*x2*y3 + (-1)*x1*y1^2*y2^3*x3 + (1)*x1*y1^2*y2*x3 + (-1)*x1*x2^3*y3 + (-1)*x1*x2^2*y2*x3 + (1)*x1*x2*y2^2*y3 + (-1)*x1*x2*y3 + (1)*x1*y2^3*x3 + (-1)*x1*y2*x3 + (1)*y1^3*x2^3*x3 + (1)*y1^3*x2^2*y2*y3 + (-1)*y1^3*x2*y2^2*x3 + (1)*y1^3*x2*x3 + (-1)*y1^3*y2^3*y3 + (1)*y1^3*y2*y3 + (-1)*y1*x2^3*x3 + (-1)*y1*x2^2*y2*y3 + (1)*y1*x2*y2^2*x3 + (-1)*y1*x2*x3 + (1)*y1*y2^3*y3 + (-1)*y1*y2*y3).
Proof. cbv zeta. ring. Qed.

Lemma curve_poly x y : on_curve (x, y) -> y ^ 2 - x ^ 2 - 1 - d25519 * x ^ 2 * y ^ 2 == 0.
Proof. unfold on_curve. intros C. apply cong_sub_0 in C. rewrite <- C. apply cong_ring. ring. Qed.

(** The sum of a sum, with cleared denominators. *)
Lemma add_add P Q S R T : on_curve P -> on_curve Q -> on_curve R -> ed_add P Q S -> ed_add S R T ->
  let '(x1, y1) := P in let '(x2, y2) := Q in let '(x3, y3) := R in
  let D := d25519 * x1 * x2 * y1 * y2 in let A := x1 * y2 + x2 * y1 in let B := y1 * y2 + x1 * x2 in
  let dx := (1 + D) * (1 - D) + d25519 * A * B * x3 * y3 in
  let dy := (1 + D) * (1 - D) - d25519 * A * B * x3 * y3 in
  ~ (dx == 0) /\ ~ (dy == 0) /\
  fst T * dx == A * (1 - D) * y3 + x3 * B * (1 + D) /\
  snd T * dy == B * (1 + D) * y3 + A * (1 - D) * x3.
Proof.
  intros CP CQ CR AS AT. pose proof (ed_closed _ _ _ CP CQ AS) as CS.
  destruct P as [x1 y1], Q as [x2 y2], R as [x3 y3], S as [xs ys], T as [xt yt].
  destruct (ed_complete _ _ _ _ CP CQ) as [N1 N2]. destruct (ed_complete _ _ _ _ CS CR) as [N3 N4].
  destruct AS as [S1 S2], AT as [T1 T2]. cbv zeta. cbn [fst snd].
  set (d := d25519) in *. set (D := d * x1 * x2 * y1 * y2) in *.
  set (F := d * xs * x3 * ys * y3) in *.
  assert (EX : (1 + D) * (1 - D) + d * (x1 * y2 + x2 * y1) * (y1 * y2 + x1 * x2) * x3 * y3 ==
               (1 + D) * (1 - D) * (1 + F)).
  { rewrite <- S1, <- S2. unfold F. apply cong_ring. ring. }
  assert (EY : (1 + D) * (1 - D) - d * (x1 * y2 + x2 * y1) * (y1 * y2 + x1 * x2) * x3 * y3 ==
               (1 + D) * (1 - D) * (1 - F)).
  { rewrite <- S1, <- S2. unfold F. apply cong_ring. ring. }
  rewrite EX, EY. conjs.
  - repeat apply mul_nonzero; assumption.
  - repeat apply mul_nonzero; assumption.
  - transitivity ((1 + D) * (1 - D) * (xt * (1 + F))); [apply cong_ring; ring|].
    rewrite T1, <- S1, <- S2. apply cong_ring. ring.
  - transitivity ((1 + D) * (1 - D) * (yt * (1 - F))); [apply cong_ring; ring|].
    rewrite T2, <- S1, <- S2. apply cong_ring. ring.
Qed.

Lemma ed_add_comm P Q R : ed_add P Q R -> ed_add Q P R.
Proof.
  destruct P as [x1 y1], Q as [x2 y2], R as [x3 y3]. intros [A B]. split.
  - transitivity (x3 * (1 + d25519 * x1 * x2 * y1 * y2)); [apply cong_ring; ring|].
    rewrite A. apply cong_ring. ring.
  - transitivity (y3 * (1 - d25519 * x1 * x2 * y1 * y2)); [apply cong_ring; ring|].
    rewrite B. apply cong_ring. ring.
Qed.

Lemma ed_add_assoc P Q R S T U V : on_curve P -> on_curve Q -> on_curve R ->
  ed_add P Q S -> ed_add S R T -> ed_add Q R U -> ed_add P U V -> pt_eq T V.
Proof.
  intros CP CQ CR AS AT AU AV.
  pose proof (add_add P Q S R T CP CQ CR AS AT) as H1.
  pose proof (add_add R Q U P V CR CQ CP (ed_add_comm _ _ _ AU) (ed_add_comm _ _ _ AV)) as H2.
  destruct P as [x1 y1], Q as [x2 y2], R as [x3 y3].
  destruct H1 as (N1 & N2 & X1 & Y1). destruct H2 as (N3 & N4 & X2 & Y2).
  pose proof (assoc_identity_x d25519 x1 y1 x2 y2 x3 y3) as IX. cbv zeta in IX.
  pose proof (assoc_identity_y d25519 x1 y1 x2 y2 x3 y3) as IY. cbv zeta in IY.
  apply cong_ring in IX, IY.
  rewrite (curve_poly _ _ CP), (curve_poly _ _ CQ), (curve_poly _ _ CR), !Z.mul_0_l, !Z.add_0_l in IX, IY.
  apply cong_sub_0 in IX, IY.
  set (d1 := (1 + d25519 * x1 * x2 * y1 * y2) * _ + _) in *.
  set (d2 := (1 + d25519 * x3 * x2 * y3 * y2) * _ + _) in *.
  set (e1 := (1 + d25519 * x1 * x2 * y1 * y2) * _ - _) in *.
  set (e2 := (1 + d25519 * x3 * x2 * y3 * y2) * _ - _) in *.
  split.
  - apply (mul_cong_cancel _ _ (d1 * d2) (mul_nonzero _ _ N1 N3)).
    transitivity ((fst T * d1) * d2); [apply cong_ring; ring|].
    transitivity ((fst V * d2) * d1); [|apply cong_ring; ring].
    rewrite X1, X2. match goal with |- ?a == ?b => match type of IX with ?a' == ?b' =>
      transitivity a'; [apply cong_ring; subst d1 d2; ring|]; rewrite IX; apply cong_ring; subst d1 d2; ring end end.
  - apply (mul_cong_cancel _ _ (e1 * e2) (mul_nonzero _ _ N2 N4)).
    transitivity ((snd T * e1) * e2); [apply cong_ring; ring|].
    transitivity ((snd V * e2) * e1); [|apply cong_ring; ring].
    rewrite Y1, Y2. match goal with |- ?a == ?b => match type of IY with ?a' == ?b' =>
      transitivity a'; [apply cong_ring; subst e1 e2; ring|]; rewrite IY; apply cong_ring; subst e1 e2; ring end end.
Qed.

(** ** The group of points with canonical coordinates *)

Definition curveb (P : pt) : bool :=
  let '(x, y) := P in
  (0 <=? x) && (x <? P25519) && (0 <=? y) && (y <? P25519) &&
  ((y * y - x * x - (1 + d25519 * (x * x) * (y * y))) mod P25519 =? 0).

Definition cpt : Set := { P : pt | curveb P = true }.

Definition fp_inv (a : Z) : Z := Zpow_mod a (P25519 - 2) P25519.

(** The addition law with divisions. *)
Definition ed_plus (P Q : pt) : pt :=
  let '(x1, y1) := P in let '(x2, y2) := Q in
  let D := d25519 * x1 * x2 * y1 * y2 in
  (((x1 * y2 + x2 * y1) * fp_inv (1 + D)) mod P25519,
   ((y1 * y2 + x1 * x2) * fp_inv (1 - D)) mod P25519).

Definition ed_opp (P : pt) : pt := ((- fst P) mod P25519, snd P mod P25519).

Lemma modp a : a mod P25519 == a.
Proof. apply cong_mod. discriminate. Qed.

Lemma modp_range a : 0 <= a mod P25519 < P25519.
Proof. apply Z.mod_pos_bound. reflexivity. Qed.

Lemma modp_0 a : a mod P25519 = 0 <-> a == 0.
Proof. rewrite cong_0. apply Z.mod_divide. discriminate. Qed.

Lemma curveb_iff x y : curveb (x, y) = true <->
  0 <= x < P25519 /\ 0 <= y < P25519 /\ on_curve (x, y).
Proof.
  unfold curveb, on_curve. repeat rewrite andb_true_iff. rewrite !Z.leb_le, !Z.ltb_lt, Z.eqb_eq.
  rewrite modp_0, <- cong_sub_0. tauto.
Qed.

Lemma fp_inv_ok a : ~ (a == 0) -> a * fp_inv a == 1.
Proof.
  intros N. unfold fp_inv. rewrite Zpow_mod_correct by discriminate.
  rewrite modp. apply inv_cong, N.
Qed.

Opaque fp_inv.

Lemma ed_add_inv x1 y1 x2 y2 j1 j2 :
  (1 + d25519 * x1 * x2 * y1 * y2) * j1 == 1 -> (1 - d25519 * x1 * x2 * y1 * y2) * j2 == 1 ->
  ed_add (x1, y1) (x2, y2)
    (((x1 * y2 + x2 * y1) * j1) mod P25519, ((y1 * y2 + x1 * x2) * j2) mod P25519).
Proof.
  unfold ed_add. set (D := d25519 * x1 * x2 * y1 * y2). intros I1 I2. split; rewrite modp.
  - transitivity ((x1 * y2 + x2 * y1) * ((1 + D) * j1)); [apply cong_ring; ring|].
    rewrite I1. apply cong_ring. ring.
  - transitivity ((y1 * y2 + x1 * x2) * ((1 - D) * j2)); [apply cong_ring; ring|].
    rewrite I2. apply cong_ring. ring.
Qed.

Lemma ed_plus_add P Q : on_curve P -> on_curve Q -> ed_add P Q (ed_plus P Q).
Proof.
  destruct P as [x1 y1], Q as [x2 y2]. intros C1 C2. destruct (ed_complete _ _ _ _ C1 C2) as [N1 N2].
  exact (ed_add_inv _ _ _ _ _ _ (fp_inv_ok _ N1) (fp_inv_ok _ N2)).
Qed.

Lemma cpt_curve (a : cpt) : on_curve (proj1_sig a).
Proof. destruct a as [[x y] C]. exact (proj2 (proj2 (proj1 (curveb_iff x y) C))). Qed.

(** Congruent canonical points are equal. *)
Lemma cpt_eq (a b : cpt) : pt_eq (proj1_sig a) (proj1_sig b) -> a = b.
Proof.
  destruct a as [[x y] C], b as [[x' y'] C']. cbn [proj1_sig]. intros [E F]. cbn [fst snd] in *.
  pose proof (proj1 (curveb_iff _ _) C) as (X & Y & _). pose proof (proj1 (curveb_iff _ _) C') as (X' & Y' & _).
  unfold cong in *. rewrite !Z.mod_small in E, F by assumption. subst x' y'.
  f_equal. apply UIP_dec, bool_dec.
Qed.

Lemma curveb_plus P Q : on_curve P -> on_curve Q -> curveb (ed_plus P Q) = true.
Proof.
  intros C1 C2. pose proof (ed_closed _ _ _ C1 C2 (ed_plus_add P Q C1 C2)) as C3.
  destruct P as [x1 y1], Q as [x2 y2]. unfold ed_plus in *. apply curveb_iff.
  split; [apply modp_range|]. split; [apply modp_range | exact C3].
Qed.

Lemma curveb_opp P : on_curve P -> curveb (ed_opp P) = true.
Proof.
  destruct P as [x y]. intros C. unfold ed_opp. cbn [fst snd]. apply curveb_iff.
  split; [apply modp_range|]. split; [apply modp_range|].
  unfold on_curve in *. rewrite !modp. transitivity (y * y - x * x); [apply cong_ring; ring|].
  rewrite C. apply cong_ring. ring.
Qed.

Definition cpt_add (a b : cpt) : cpt :=
  exist _ (ed_plus (proj1_sig a) (proj1_sig b)) (curveb_plus _ _ (cpt_curve a) (cpt_curve b)).
Definition cpt_opp (a : cpt) : cpt := exist _ (ed_opp (proj1_sig a)) (curveb_opp _ (cpt_curve a)).
Definition cpt_zero : cpt := exist _ pt_zero eq_refl.

Lemma cpt_add_add a b : ed_add (proj1_sig a) (proj1_sig b) (proj1_sig (cpt_add a b)).
Proof. apply ed_plus_add; apply cpt_curve. Qed.

Lemma cpt_opp_opp a : pt_eq (proj1_sig (cpt_opp a)) (pt_opp (proj1_sig a)).
Proof. split; apply modp. Qed.

(** A relation with the sum determines the sum. *)
Lemma cpt_sum a b c : ed_add (proj1_sig a) (proj1_sig b) (proj1_sig c) -> cpt_add a b = c.
Proof.
  intros A. apply cpt_eq. eapply ed_add_unique; [apply cpt_curve | apply cpt_curve | | exact A].
  apply cpt_add_add.
Qed.

#[export, refine] Instance curve_group : EdGroup cpt := {|
  g_add := cpt_add; g_zero := cpt_zero; g_opp := cpt_opp; g_xy := @proj1_sig _ _ |}.
Proof.
  - intros a b c. symmetry. apply cpt_eq.
    eapply (ed_add_assoc (proj1_sig a) (proj1_sig b) (proj1_sig c));
      [apply cpt_curve | apply cpt_curve | apply cpt_curve | apply cpt_add_add | apply cpt_add_add
       | apply cpt_add_add | apply cpt_add_add].
  - intros a b. apply cpt_sum, ed_add_comm, cpt_add_add.
  - intros a. apply cpt_sum. destruct a as [[x y] C]. cbn [proj1_sig cpt_zero]. unfold pt_zero, ed_add.
    split; apply cong_ring; ring.
  - intros a. apply cpt_sum. pose proof (cpt_opp_opp a) as [E F]. pose proof (cpt_curve a) as C.
    destruct (proj1_sig (cpt_opp a)) as [x' y'], (proj1_sig a) as [x y]. unfold pt_opp in *. cbn [fst snd] in *.
    cbn [proj1_sig cpt_zero]. unfold pt_zero, ed_add, on_curve in *. rewrite E, F.
    split; [apply cong_ring; ring|].
    transitivity (1 + d25519 * (x * x) * (y * y)); [apply cong_ring; ring|]. rewrite <- C. apply cong_ring. ring.
  - split; reflexivity.
  - apply cpt_opp_opp.
  - apply cpt_curve.
  - apply cpt_add_add.
Defined.
