(* ===== verification/Ge25519.v ===== *)
(** Group operations of libcryptonote/crypto/crypto-ops.c (the ge_ functions) on
    the curve -x^2 + y^2 = 1 + d x^2 y^2: the five point representations, one
    definition per operation, and the lemma that each operation is the curve
    operation on the represented affine points, with no overflow. *)
From Stdlib Require Import ZArith Lia List Bool Setoid Morphisms.
From S2P Require Import Prelude CInt Bytes Fe25519 FeBytes FePow Prime25519 Edwards.
Import ListNotations.
Local Open Scope Z_scope.
Local Open Scope fld_scope.

(** ** Representations (crypto-ops.h) *)

Record ge_p2 : Set := mkp2 { p2X : fe; p2Y : fe; p2Z : fe }.
Record ge_p3 : Set := mkp3 { p3X : fe; p3Y : fe; p3Z : fe; p3T : fe }.
Record ge_p1p1 : Set := mkp1p1 { p1X : fe; p1Y : fe; p1Z : fe; p1T : fe }.
Record ge_precomp : Set := mkprecomp { yplusx : fe; yminusx : fe; xy2d : fe }.
Record ge_cached : Set := mkcached { YplusX : fe; YminusX : fe; cZ : fe; T2d : fe }.

(** ** Operations *)

Definition ge_add (p : ge_p3) (q : ge_cached) : option ge_p1p1 :=
  let! rX := fe_add (p3Y p) (p3X p) in
  let! rY := fe_sub (p3Y p) (p3X p) in
  let! rZ := fe_mul rX (YplusX q) in
  let! rY := fe_mul rY (YminusX q) in
  let! rT := fe_mul (T2d q) (p3T p) in
  let! rX := fe_mul (p3Z p) (cZ q) in
  let! t0 := fe_add rX rX in
  let! rX := fe_sub rZ rY in
  let! rY := fe_add rZ rY in
  let! rZ := fe_add t0 rT in
  let! rT := fe_sub t0 rT in
  Some (mkp1p1 rX rY rZ rT).

Definition ge_sub (p : ge_p3) (q : ge_cached) : option ge_p1p1 :=
  let! rX := fe_add (p3Y p) (p3X p) in
  let! rY := fe_sub (p3Y p) (p3X p) in
  let! rZ := fe_mul rX (YminusX q) in
  let! rY := fe_mul rY (YplusX q) in
  let! rT := fe_mul (T2d q) (p3T p) in
  let! rX := fe_mul (p3Z p) (cZ q) in
  let! t0 := fe_add rX rX in
  let! rX := fe_sub rZ rY in
  let! rY := fe_add rZ rY in
  let! rZ := fe_sub t0 rT in
  let! rT := fe_add t0 rT in
  Some (mkp1p1 rX rY rZ rT).

Definition ge_madd (p : ge_p3) (q : ge_precomp) : option ge_p1p1 :=
  let! rX := fe_add (p3Y p) (p3X p) in
  let! rY := fe_sub (p3Y p) (p3X p) in
  let! rZ := fe_mul rX (yplusx q) in
  let! rY := fe_mul rY (yminusx q) in
  let! rT := fe_mul (xy2d q) (p3T p) in
  let! t0 := fe_add (p3Z p) (p3Z p) in
  let! rX := fe_sub rZ rY in
  let! rY := fe_add rZ rY in
  let! rZ := fe_add t0 rT in
  let! rT := fe_sub t0 rT in
  Some (mkp1p1 rX rY rZ rT).

Definition ge_msub (p : ge_p3) (q : ge_precomp) : option ge_p1p1 :=
  let! rX := fe_add (p3Y p) (p3X p) in
  let! rY := fe_sub (p3Y p) (p3X p) in
  let! rZ := fe_mul rX (yminusx q) in
  let! rY := fe_mul rY (yplusx q) in
  let! rT := fe_mul (xy2d q) (p3T p) in
  let! t0 := fe_add (p3Z p) (p3Z p) in
  let! rX := fe_sub rZ rY in
  let! rY := fe_add rZ rY in
  let! rZ := fe_sub t0 rT in
  let! rT := fe_add t0 rT in
  Some (mkp1p1 rX rY rZ rT).

Definition ge_p1p1_to_p2 (p : ge_p1p1) : option ge_p2 :=
  let! rX := fe_mul (p1X p) (p1T p) in
  let! rY := fe_mul (p1Y p) (p1Z p) in
  let! rZ := fe_mul (p1Z p) (p1T p) in
  Some (mkp2 rX rY rZ).

Definition ge_p1p1_to_p3 (p : ge_p1p1) : option ge_p3 :=
  let! rX := fe_mul (p1X p) (p1T p) in
  let! rY := fe_mul (p1Y p) (p1Z p) in
  let! rZ := fe_mul (p1Z p) (p1T p) in
  let! rT := fe_mul (p1X p) (p1Y p) in
  Some (mkp3 rX rY rZ rT).

Definition ge_p2_0 : ge_p2 := mkp2 fe_0 fe_1 fe_1.

Definition ge_p2_dbl (p : ge_p2) : option ge_p1p1 :=
  let! rX := fe_sq (p2X p) in
  let! rZ := fe_sq (p2Y p) in
  let! rT := fe_sq2 (p2Z p) in
  let! rY := fe_add (p2X p) (p2Y p) in
  let! t0 := fe_sq rY in
  let! rY := fe_add rZ rX in
  let! rZ := fe_sub rZ rX in
  let! rX := fe_sub t0 rY in
  let! rT := fe_sub rT rZ in
  Some (mkp1p1 rX rY rZ rT).

Definition ge_p3_0 : ge_p3 := mkp3 fe_0 fe_1 fe_1 fe_0.

Definition ge_p3_to_p2 (p : ge_p3) : ge_p2 :=
  mkp2 (fe_copy (p3X p)) (fe_copy (p3Y p)) (fe_copy (p3Z p)).

Definition ge_p3_dbl (p : ge_p3) : option ge_p1p1 :=
  let q := ge_p3_to_p2 p in
  ge_p2_dbl q.

Definition ge_p3_to_cached (p : ge_p3) : option ge_cached :=
  let! rYplusX := fe_add (p3Y p) (p3X p) in
  let! rYminusX := fe_sub (p3Y p) (p3X p) in
  let rZ := fe_copy (p3Z p) in
  let! rT2d := fe_mul (p3T p) fe_d2 in
  Some (mkcached rYplusX rYminusX rZ rT2d).

(** The common text of ge_tobytes and ge_p3_tobytes; [s[31] ^= sign << 7]. *)
Definition ge_encode (hX hY hZ : fe) : option (list Z) :=
  let! recip := fe_invert hZ in
  let! x := fe_mul hX recip in
  let! y := fe_mul hY recip in
  let! s := fe_tobytes y in
  let! neg := fe_isnegative x in
  let! s31 := nth_error s 31 in
  Some (firstn 31 s ++ [to_u8 (Z.lxor s31 (Z.shiftl neg 7))]).

Definition ge_p3_tobytes (h : ge_p3) : option (list Z) := ge_encode (p3X h) (p3Y h) (p3Z h).
Definition ge_tobytes (h : ge_p2) : option (list Z) := ge_encode (p2X h) (p2Y h) (p2Z h).

Definition ge_precomp_0 : ge_precomp := mkprecomp fe_1 fe_1 fe_0.
Definition ge_cached_0 : ge_cached := mkcached fe_1 fe_1 fe_1 fe_0.

(** r[0..7]: the odd multiples s, 3s, ..., 15s. *)
Definition ge_dsm_step (s2 : ge_p3) (c : ge_cached) : option ge_cached :=
  let! t := ge_add s2 c in
  let! u := ge_p1p1_to_p3 t in
  ge_p3_to_cached u.

Definition ge_dsm_precomp (s : ge_p3) : option (list ge_cached) :=
  let! r0 := ge_p3_to_cached s in
  let! t := ge_p3_dbl s in
  let! s2 := ge_p1p1_to_p3 t in
  let! r1 := ge_dsm_step s2 r0 in
  let! r2 := ge_dsm_step s2 r1 in
  let! r3 := ge_dsm_step s2 r2 in
  let! r4 := ge_dsm_step s2 r3 in
  let! r5 := ge_dsm_step s2 r4 in
  let! r6 := ge_dsm_step s2 r5 in
  let! r7 := ge_dsm_step s2 r6 in
  Some [r0; r1; r2; r3; r4; r5; r6; r7].

Definition ge_mul8 (t : ge_p2) : option ge_p1p1 :=
  let! r := ge_p2_dbl t in
  let! u := ge_p1p1_to_p2 r in
  let! r := ge_p2_dbl u in
  let! u := ge_p1p1_to_p2 r in
  ge_p2_dbl u.

(** ** What a representation stands for *)

Definition p2_rep (P : pt) (h : ge_p2) : Prop :=
  (fe_bd 101 (p2X h) /\ fe_bd 101 (p2Y h) /\ fe_bd 101 (p2Z h)) /\
  ~ (fe_val (p2Z h) == 0) /\
  fe_val (p2X h) == fst P * fe_val (p2Z h) /\ fe_val (p2Y h) == snd P * fe_val (p2Z h).

Definition p3_rep (P : pt) (h : ge_p3) : Prop :=
  (fe_bd 101 (p3X h) /\ fe_bd 101 (p3Y h) /\ fe_bd 101 (p3Z h) /\ fe_bd 101 (p3T h)) /\
  ~ (fe_val (p3Z h) == 0) /\
  fe_val (p3X h) == fst P * fe_val (p3Z h) /\ fe_val (p3Y h) == snd P * fe_val (p3Z h) /\
  fe_val (p3T h) == fst P * snd P * fe_val (p3Z h).

Definition p1p1_rep (P : pt) (h : ge_p1p1) : Prop :=
  (fe_bd 330 (p1X h) /\ fe_bd 330 (p1Y h) /\ fe_bd 330 (p1Z h) /\ fe_bd 330 (p1T h)) /\
  ~ (fe_val (p1Z h) == 0) /\ ~ (fe_val (p1T h) == 0) /\
  fe_val (p1X h) == fst P * fe_val (p1Z h) /\ fe_val (p1Y h) == snd P * fe_val (p1T h).

Definition cached_rep (P : pt) (h : ge_cached) : Prop :=
  (fe_bd 330 (YplusX h) /\ fe_bd 330 (YminusX h) /\ fe_bd 101 (cZ h) /\ fe_bd 101 (T2d h)) /\
  ~ (fe_val (cZ h) == 0) /\
  fe_val (YplusX h) == (snd P + fst P) * fe_val (cZ h) /\
  fe_val (YminusX h) == (snd P - fst P) * fe_val (cZ h) /\
  fe_val (T2d h) == 2 * d25519 * fst P * snd P * fe_val (cZ h).

Definition precomp_rep (P : pt) (h : ge_precomp) : Prop :=
  (fe_bd 101 (yplusx h) /\ fe_bd 101 (yminusx h) /\ fe_bd 101 (xy2d h)) /\
  fe_val (yplusx h) == snd P + fst P /\ fe_val (yminusx h) == snd P - fst P /\
  fe_val (xy2d h) == 2 * d25519 * fst P * snd P.

(** ** Symbolic execution of field operations *)

Lemma fe_mul_step a b f g : a <= 330 -> b <= 330 -> fe_bd a f -> fe_bd b g ->
  safe (fe_mul f g) (fun h => fe_bd 101 h /\ fe_val h == fe_val f * fe_val g).
Proof. intros A B F G. apply fe_mul_safe; [apply (fe_bd_mono a) | apply (fe_bd_mono b)]; assumption. Qed.

Lemma fe_sq_step a f : a <= 330 -> fe_bd a f ->
  safe (fe_sq f) (fun h => fe_bd 101 h /\ fe_val h == fe_val f * fe_val f).
Proof. intros A F. apply fe_sq_safe, (fe_bd_mono a); assumption. Qed.

Lemma fe_sq2_step a f : a <= 330 -> fe_bd a f ->
  safe (fe_sq2 f) (fun h => fe_bd 101 h /\ fe_val h == 2 * (fe_val f * fe_val f)).
Proof. intros A F. apply fe_sq2_safe, (fe_bd_mono a); assumption. Qed.

Lemma fe_copy_id f : fe_copy f = f.
Proof. destruct f. reflexivity. Qed.

Lemma fe_d2_bd : fe_bd 101 fe_d2. Proof. vm_compute. intuition discriminate. Qed.
Lemma fe_d2_val : fe_val fe_d2 == 2 * d25519. Proof. vm_compute. reflexivity. Qed.
Lemma fe_0_bd : fe_bd 101 fe_0. Proof. vm_compute. intuition discriminate. Qed.
Lemma fe_1_bd : fe_bd 101 fe_1. Proof. vm_compute. intuition discriminate. Qed.
Lemma fe_0_val : fe_val fe_0 = 0. Proof. reflexivity. Qed.
Lemma fe_1_val : fe_val fe_1 = 1. Proof. reflexivity. Qed.

Create HintDb febd.
#[export] Hint Resolve fe_d2_bd fe_0_bd fe_1_bd : febd.

Ltac fe_bound := first [eassumption | solve [eauto with febd]].

(** One field operation; the bounds add up, the value is recorded. *)
Ltac fe_step :=
  lazymatch goal with
  | |- safe (bind (fe_add _ _) _) _ =>
      eapply safe_bind; [eapply fe_add_safe; [|fe_bound|fe_bound]; lia | intros ? [?B ?V]]
  | |- safe (bind (fe_sub _ _) _) _ =>
      eapply safe_bind; [eapply fe_sub_safe; [|fe_bound|fe_bound]; lia | intros ? [?B ?V]]
  | |- safe (bind (fe_neg _) _) _ =>
      eapply safe_bind; [eapply fe_neg_safe; [|fe_bound]; lia | intros ? [?B ?V]]
  | |- safe (bind (fe_mul _ _) _) _ =>
      eapply safe_bind; [eapply fe_mul_step; [| |fe_bound|fe_bound]; lia | intros ? [?B ?V]]
  | |- safe (bind (fe_sq _) _) _ =>
      eapply safe_bind; [eapply fe_sq_step; [|fe_bound]; lia | intros ? [?B ?V]]
  | |- safe (bind (fe_sq2 _) _) _ =>
      eapply safe_bind; [eapply fe_sq2_step; [|fe_bound]; lia | intros ? [?B ?V]]
  end.

Ltac fe_steps := repeat fe_step; cbn [safe].

(** Closes a bound of the result. *)
Ltac fe_done := eapply fe_bd_mono; [|fe_bound]; lia.

(** Rewrites every recorded value, last first, then the given representations. *)
Ltac fe_vals := repeat match goal with V : fe_val ?x = _ |- context [fe_val ?x] => rewrite V
                                     | V : cong _ (fe_val ?x) _ |- context [fe_val ?x] => rewrite V end.

(** Closes a congruence whose sides are equal polynomials. *)
Ltac cong_by t := transitivity t; [apply cong_ring; ring|].

(** ** Additions *)

(** From the four values an addition computes to the representation of the sum. *)
Lemma add_core P Q R zz rX rY rZ rT :
  on_curve P -> on_curve Q -> ed_add P Q R -> ~ (zz == 0) ->
  rX == 2 * zz * (fst P * snd Q + fst Q * snd P) ->
  rY == 2 * zz * (snd P * snd Q + fst P * fst Q) ->
  rZ == 2 * zz * (1 + d25519 * fst P * fst Q * snd P * snd Q) ->
  rT == 2 * zz * (1 - d25519 * fst P * fst Q * snd P * snd Q) ->
  ~ (rZ == 0) /\ ~ (rT == 0) /\ rX == fst R * rZ /\ rY == snd R * rT.
Proof.
  destruct P as [x1 y1], Q as [x2 y2], R as [x3 y3]. cbn [fst snd].
  intros C1 C2 [A1 A2] N EX EY EZ ET. destruct (ed_complete _ _ _ _ C1 C2) as [N1 N2].
  conjs.
  - rewrite EZ. repeat apply mul_nonzero; auto using two_nonzero.
  - rewrite ET. repeat apply mul_nonzero; auto using two_nonzero.
  - rewrite EX, EZ, <- A1. apply cong_ring. ring.
  - rewrite EY, ET, <- A2. apply cong_ring. ring.
Qed.

Section Additions.
Context (P Q R : pt) (CP : on_curve P) (CQ : on_curve Q).

Lemma ge_add_rep p q : ed_add P Q R -> p3_rep P p -> cached_rep Q q -> safe (ge_add p q) (p1p1_rep R).
Proof.
  intros A ((? & ? & ? & ?) & N1 & X1 & Y1 & T1) ((? & ? & ? & ?) & N2 & U2 & V2 & T2).
  unfold ge_add. fe_steps.
  split; [conjs; cbn [p1X p1Y p1Z p1T]; fe_done|]. cbn [p1X p1Y p1Z p1T].
  apply (add_core P Q R (fe_val (p3Z p) * fe_val (cZ q)) _ _ _ _ CP CQ A); [now apply mul_nonzero| | | |];
    fe_vals; apply cong_ring; ring.
Qed.

Lemma ge_sub_rep p q : ed_add P (pt_opp Q) R -> p3_rep P p -> cached_rep Q q ->
  safe (ge_sub p q) (p1p1_rep R).
Proof.
  intros A ((? & ? & ? & ?) & N1 & X1 & Y1 & T1) ((? & ? & ? & ?) & N2 & U2 & V2 & T2).
  unfold ge_sub. fe_steps.
  split; [conjs; cbn [p1X p1Y p1Z p1T]; fe_done|]. cbn [p1X p1Y p1Z p1T].
  apply (add_core P (pt_opp Q) R (fe_val (p3Z p) * fe_val (cZ q)) _ _ _ _ CP (opp_on_curve _ CQ) A);
    [now apply mul_nonzero| | | |]; unfold pt_opp; cbn [fst snd]; fe_vals; apply cong_ring; ring.
Qed.

Lemma ge_madd_rep p q : ed_add P Q R -> p3_rep P p -> precomp_rep Q q -> safe (ge_madd p q) (p1p1_rep R).
Proof.
  intros A ((? & ? & ? & ?) & N1 & X1 & Y1 & T1) ((? & ? & ?) & U2 & V2 & T2).
  unfold ge_madd. fe_steps.
  split; [conjs; cbn [p1X p1Y p1Z p1T]; fe_done|]. cbn [p1X p1Y p1Z p1T].
  apply (add_core P Q R (fe_val (p3Z p)) _ _ _ _ CP CQ A N1); fe_vals; apply cong_ring; ring.
Qed.

Lemma ge_msub_rep p q : ed_add P (pt_opp Q) R -> p3_rep P p -> precomp_rep Q q ->
  safe (ge_msub p q) (p1p1_rep R).
Proof.
  intros A ((? & ? & ? & ?) & N1 & X1 & Y1 & T1) ((? & ? & ?) & U2 & V2 & T2).
  unfold ge_msub. fe_steps.
  split; [conjs; cbn [p1X p1Y p1Z p1T]; fe_done|]. cbn [p1X p1Y p1Z p1T].
  apply (add_core P (pt_opp Q) R (fe_val (p3Z p)) _ _ _ _ CP (opp_on_curve _ CQ) A N1);
    unfold pt_opp; cbn [fst snd]; fe_vals; apply cong_ring; ring.
Qed.
End Additions.

(** ** Doubling and conversions *)

(** On the curve the denominators of the doubling formula are those of the
    addition law: 1 + D = y^2 - x^2 and 1 - D = 2 - (y^2 - x^2). *)
Lemma dbl_core P R zz rX rY rZ rT :
  on_curve P -> ed_add P P R -> ~ (zz == 0) ->
  rX == zz * (fst P * snd P + fst P * snd P) ->
  rY == zz * (snd P * snd P + fst P * fst P) ->
  rZ == zz * (snd P * snd P - fst P * fst P) ->
  rT == zz * (2 - (snd P * snd P - fst P * fst P)) ->
  ~ (rZ == 0) /\ ~ (rT == 0) /\ rX == fst R * rZ /\ rY == snd R * rT.
Proof.
  destruct P as [x y], R as [x3 y3]. cbn [fst snd]. intros C [A1 A2] N EX EY EZ ET.
  destruct (ed_complete _ _ _ _ C C) as [N1 N2]. unfold on_curve in C.
  assert (D1 : 1 + d25519 * x * x * y * y == y * y - x * x).
  { rewrite C. apply cong_ring. ring. }
  assert (D2 : 1 - d25519 * x * x * y * y == 2 - (y * y - x * x)).
  { rewrite C. apply cong_ring. ring. }
  rewrite D1 in A1, N1. rewrite D2 in A2, N2. conjs.
  - rewrite EZ. now apply mul_nonzero.
  - rewrite ET. now apply mul_nonzero.
  - rewrite EX, EZ, <- A1. apply cong_ring. ring.
  - rewrite EY, ET, <- A2. apply cong_ring. ring.
Qed.

Lemma ge_p2_dbl_rep P R p : on_curve P -> ed_add P P R -> p2_rep P p -> safe (ge_p2_dbl p) (p1p1_rep R).
Proof.
  intros C A ((? & ? & ?) & N & X & Y). unfold ge_p2_dbl. fe_steps.
  split; [conjs; cbn [p1X p1Y p1Z p1T]; fe_done|]. cbn [p1X p1Y p1Z p1T].
  apply (dbl_core P R (fe_val (p2Z p) * fe_val (p2Z p)) _ _ _ _ C A); [now apply mul_nonzero| | | |];
    fe_vals; apply cong_ring; ring.
Qed.

Lemma ge_p1p1_to_p2_rep P h : p1p1_rep P h -> safe (ge_p1p1_to_p2 h) (p2_rep P).
Proof.
  intros ((? & ? & ? & ?) & N1 & N2 & X & Y). unfold ge_p1p1_to_p2. fe_steps.
  split; [conjs; cbn [p2X p2Y p2Z]; assumption|]. cbn [p2X p2Y p2Z].
  conjs; fe_vals; [now apply mul_nonzero | apply cong_ring; ring | apply cong_ring; ring].
Qed.

Lemma ge_p1p1_to_p3_rep P h : p1p1_rep P h -> safe (ge_p1p1_to_p3 h) (p3_rep P).
Proof.
  intros ((? & ? & ? & ?) & N1 & N2 & X & Y). unfold ge_p1p1_to_p3. fe_steps.
  split; [conjs; cbn [p3X p3Y p3Z p3T]; assumption|]. cbn [p3X p3Y p3Z p3T].
  conjs; fe_vals; [now apply mul_nonzero | | |]; apply cong_ring; ring.
Qed.

Lemma ge_p3_to_p2_rep P h : p3_rep P h -> p2_rep P (ge_p3_to_p2 h).
Proof.
  intros ((? & ? & ? & ?) & N & X & Y & _). unfold ge_p3_to_p2. rewrite !fe_copy_id.
  split; [auto|]. auto.
Qed.

Lemma ge_p3_to_cached_rep P h : p3_rep P h -> safe (ge_p3_to_cached h) (cached_rep P).
Proof.
  intros ((? & ? & ? & ?) & N & X & Y & T). unfold ge_p3_to_cached. fe_steps. rewrite fe_copy_id.
  pose proof fe_d2_val as D2.
  split; [conjs; cbn [YplusX YminusX cZ T2d]; fe_done|]. cbn [YplusX YminusX cZ T2d].
  conjs; [exact N | | |]; fe_vals; apply cong_ring; ring.
Qed.

Lemma ge_p3_dbl_rep P R h : on_curve P -> ed_add P P R -> p3_rep P h -> safe (ge_p3_dbl h) (p1p1_rep R).
Proof. intros C A H. apply (ge_p2_dbl_rep P); auto using ge_p3_to_p2_rep. Qed.

Lemma ge_p3_0_rep : p3_rep pt_zero ge_p3_0.
Proof.
  split; [conjs; vm_compute; intuition discriminate|].
  split; [exact one_neq_0|]. conjs; reflexivity.
Qed.

Lemma ge_p2_0_rep : p2_rep pt_zero ge_p2_0.
Proof.
  split; [conjs; vm_compute; intuition discriminate|].
  split; [exact one_neq_0|]. conjs; reflexivity.
Qed.

Lemma ge_cached_0_rep : cached_rep pt_zero ge_cached_0.
Proof.
  split; [conjs; vm_compute; intuition discriminate|].
  split; [exact one_neq_0|]. conjs; reflexivity.
Qed.

Lemma ge_precomp_0_rep : precomp_rep pt_zero ge_precomp_0.
Proof. split; [conjs; vm_compute; intuition discriminate|]. conjs; reflexivity. Qed.
