(* ===== verification/Recode.v ===== *)
(** Scalar recodings of libcryptonote/crypto/crypto-ops.c: the sliding window of
    [slide] and the signed radix-16 digits that ge_scalarmult_base and
    ge_scalarmult compute before their main loops. *)
From Stdlib Require Import ZArith Lia List Bool.
From stdpp Require Import base list.
From S2P Require Import Prelude CInt.
Import ListNotations.
Local Open Scope Z_scope.

(** Conversion to [signed char]. *)
Definition to_i8 (z : Z) : Z := (z + 128) mod 256 - 128.

(** ** slide *)

(** [for (i = 0; i < 256; ++i) r[i] = 1 & (a[i >> 3] >> (i & 7));] *)
Definition slide_bits (a : list Z) : list Z :=
  flat_map (fun x => map (fun j => Z.land 1 (Z.shiftr x j)) [0; 1; 2; 3; 4; 5; 6; 7]) a.

(** [for (k = ...; k < 256; ++k) { if (!r[k]) { r[k] = 1; break; } r[k] = 0; }];
    [n] positions remain from [k]. *)
Fixpoint slide_carry (n k : nat) (r : list Z) : option (list Z) :=
  match n with
  | O => Some r
  | S n =>
      let! x := r !! k in
      if x =? 0 then Some (<[k := 1]> r) else slide_carry n (S k) (<[k := 0]> r)
  end.

(** The loop over [b]; [n] iterations remain of [b <= 6 && i + b < len], where
    [len] is the length 256 of the array. *)
Fixpoint slide_window (len n b i : nat) (r : list Z) : option (list Z) :=
  match n with
  | O => Some r
  | S n =>
      if (i + b <? len)%nat then
        let! x := r !! i in
        let! y := r !! (i + b)%nat in
        let yb := Z.shiftl y (Z.of_nat b) in
        if y =? 0 then slide_window len n (S b) i r
        else if x + yb <=? 15 then
          slide_window len n (S b) i (<[(i + b)%nat := 0]> (<[i := to_i8 (x + yb)]> r))
        else if -15 <=? x - yb then
          let! r := slide_carry (len - (i + b)) (i + b) (<[i := to_i8 (x - yb)]> r) in
          slide_window len n (S b) i r
        else Some r
      else Some r
  end.

(** The loop over [i]; [n] positions remain. *)
Fixpoint slide_loop (len n i : nat) (r : list Z) : option (list Z) :=
  match n with
  | O => Some r
  | S n =>
      let! x := r !! i in
      let! r := if x =? 0 then Some r else slide_window len 6 1 i r in
      slide_loop len n (S i) r
  end.

Definition slide (a : list Z) : option (list Z) := slide_loop 256 256 0 (slide_bits a).

(** ** Radix 16 *)

(** ge_scalarmult_base: the nibbles, then the carries; [e[63] += carry] last. *)
Definition base_nibbles (a : list Z) : list Z :=
  flat_map (fun x => [Z.land (Z.shiftr x 0) 15; Z.land (Z.shiftr x 4) 15]) a.

Fixpoint base_carry (carry : Z) (e : list Z) : list Z :=
  match e with
  | [] => []
  | [x] => [to_i8 (x + carry)]
  | x :: e =>
      let x := to_i8 (x + carry) in
      let carry := Z.shiftr (to_i8 (x + 8)) 4 in
      to_i8 (x - Z.shiftl carry 4) :: base_carry carry e
  end.

Definition base_digits (a : list Z) : list Z := base_carry 0 (base_nibbles a).

(** ge_scalarmult: two digits per byte, the last byte apart. *)
Fixpoint sm_carry (carry : Z) (a : list Z) : list Z :=
  match a with
  | [] => []
  | [x] =>
      let carry := carry + x in
      let carry2 := Z.shiftr (carry + 8) 4 in
      [to_i8 (carry - Z.shiftl carry2 4); to_i8 carry2]
  | x :: a =>
      let carry := carry + x in
      let carry2 := Z.shiftr (carry + 8) 4 in
      let e0 := to_i8 (carry - Z.shiftl carry2 4) in
      let carry := Z.shiftr (carry2 + 8) 4 in
      let e1 := to_i8 (carry2 - Z.shiftl carry 4) in
      e0 :: e1 :: sm_carry carry a
  end.

Definition sm_digits (a : list Z) : list Z := sm_carry 0 a.

(** The value of a digit list in radix 2^w. *)
Definition digits_val (w : Z) (e : list Z) : Z := foldr (fun x acc => x + 2 ^ w * acc) 0 e.

(** ** Radix 16, proofs *)

Lemma to_i8_id z : -128 <= z < 128 -> to_i8 z = z.
Proof. unfold to_i8. intros H. rewrite Z.mod_small; lia. Qed.

Lemma digits_val_cons w x e : digits_val w (x :: e) = x + 2 ^ w * digits_val w e.
Proof. reflexivity. Qed.

Lemma shiftr4 x : Z.shiftr x 4 = x / 16.
Proof. apply Z.shiftr_div_pow2. lia. Qed.
Lemma shiftl4 x : Z.shiftl x 4 = x * 16.
Proof. apply Z.shiftl_mul_pow2. lia. Qed.

Lemma base_carry_cons c x y e : base_carry c (x :: y :: e) =
  let x := to_i8 (x + c) in
  let carry := Z.shiftr (to_i8 (x + 8)) 4 in
  to_i8 (x - Z.shiftl carry 4) :: base_carry carry (y :: e).
Proof. reflexivity. Qed.

Lemma sm_carry_cons c x y a : sm_carry c (x :: y :: a) =
  let carry := c + x in
  let carry2 := Z.shiftr (carry + 8) 4 in
  let e0 := to_i8 (carry - Z.shiftl carry2 4) in
  let carry := Z.shiftr (carry2 + 8) 4 in
  let e1 := to_i8 (carry2 - Z.shiftl carry 4) in
  e0 :: e1 :: sm_carry carry (y :: a).
Proof. reflexivity. Qed.

Lemma base_carry_ok e : Forall (fun x => 0 <= x < 16) e -> forall c x, 0 <= c <= 1 -> last e = Some x ->
  x <= 7 ->
  digits_val 4 (base_carry c e) = digits_val 4 e + c /\
  Forall (fun d => -8 <= d <= 8) (base_carry c e) /\ length (base_carry c e) = length e.
Proof.
  induction 1 as [|y e Y E IH]; intros c x C L X; [discriminate|].
  destruct e as [|z e].
  - cbn in L. injection L as ->. cbn [base_carry]. rewrite to_i8_id by lia.
    rewrite !digits_val_cons. change (digits_val 4 []) with 0.
    repeat split; [lia | constructor; [lia | constructor]].
  - rewrite base_carry_cons. cbv zeta. rewrite (to_i8_id (y + c)), (to_i8_id (y + c + 8)), shiftr4, shiftl4 by lia.
    set (c' := (y + c + 8) / 16). assert (C' : 0 <= c' <= 1 /\ -8 <= y + c - c' * 16 <= 7)
      by (unfold c'; Z.div_mod_to_equations; lia).
    rewrite to_i8_id by lia.
    destruct (IH c' x ltac:(lia) L X) as (V & D & N).
    split; [|split].
    + rewrite digits_val_cons, V, !digits_val_cons. lia.
    + constructor; [lia | exact D].
    + cbn [length] in *. now rewrite <- N.
Qed.

Lemma nibble_val x : 0 <= x < 256 ->
  let lo := Z.land (Z.shiftr x 0) 15 in let hi := Z.land (Z.shiftr x 4) 15 in
  x = lo + 16 * hi /\ 0 <= lo < 16 /\ 0 <= hi < 16 /\ hi = x / 16.
Proof.
  intros X. cbv zeta. rewrite Z.shiftr_0_r, shiftr4. change 15 with (Z.ones 4).
  rewrite !Z.land_ones by lia. change (2 ^ 4) with 16.
  rewrite (Z.mod_small (x / 16)) by (Z.div_mod_to_equations; lia).
  Z.div_mod_to_equations. lia.
Qed.

Lemma base_nibbles_ok a : Forall is_byte a ->
  Forall (fun x => 0 <= x < 16) (base_nibbles a) /\ digits_val 4 (base_nibbles a) = le_val a /\
  length (base_nibbles a) = (2 * length a)%nat /\
  forall x, last a = Some x -> last (base_nibbles a) = Some (x / 16).
Proof.
  induction 1 as [|x a X F (IF & IV & IL & IA)].
  - repeat split; [constructor | discriminate].
  - destruct (nibble_val x X) as (E & Lo & Hi & H). cbv zeta in *.
    change (base_nibbles (x :: a)) with
      (Z.land (Z.shiftr x 0) 15 :: Z.land (Z.shiftr x 4) 15 :: base_nibbles a).
    set (lo := Z.land _ 15) in *. set (hi := Z.land (Z.shiftr x 4) 15) in *.
    repeat split.
    + repeat constructor; (lia || assumption).
    + rewrite !digits_val_cons, IV. cbn [le_val]. lia.
    + cbn [length]. lia.
    + intros y L. destruct a as [|z a].
      * cbn in L. injection L as ->. cbn. now rewrite H.
      * specialize (IA y L). change (last (lo :: hi :: base_nibbles (z :: a)))
          with (last (hi :: base_nibbles (z :: a))).
        destruct (base_nibbles (z :: a)) as [|w l] eqn:EN; [discriminate EN || cbn in IL; discriminate IL|].
        exact IA.
Qed.

Lemma sm_carry_ok a : Forall is_byte a -> forall c x, 0 <= c <= 1 -> last a = Some x -> x <= 127 ->
  digits_val 4 (sm_carry c a) = le_val a + c /\
  Forall (fun d => -8 <= d <= 8) (sm_carry c a) /\ length (sm_carry c a) = (2 * length a)%nat.
Proof.
  induction 1 as [|y a Y F IH]; intros c x C L X; [discriminate|]. unfold is_byte in Y.
  destruct a as [|z a].
  - cbn in L. injection L as ->. cbn [sm_carry]. rewrite shiftr4, shiftl4.
    set (c2 := (c + x + 8) / 16). assert (C2 : 0 <= c2 <= 8 /\ -8 <= c + x - c2 * 16 <= 7)
      by (unfold c2; Z.div_mod_to_equations; lia).
    rewrite !to_i8_id by lia. rewrite !digits_val_cons. change (digits_val 4 []) with 0.
    cbn [le_val length]. repeat split; [lia | repeat constructor; lia].
  - rewrite sm_carry_cons. cbv zeta. rewrite !shiftr4, !shiftl4.
    set (c2 := (c + y + 8) / 16). assert (C2 : 0 <= c2 <= 16 /\ -8 <= c + y - c2 * 16 <= 7)
      by (unfold c2; Z.div_mod_to_equations; lia).
    set (c3 := (c2 + 8) / 16). assert (C3 : 0 <= c3 <= 1 /\ -8 <= c2 - c3 * 16 <= 7)
      by (unfold c3; Z.div_mod_to_equations; lia).
    rewrite !to_i8_id by lia. destruct (IH c3 x ltac:(lia) L X) as (V & D & N).
    split; [|split].
    + rewrite !digits_val_cons, V. cbn [le_val]. lia.
    + repeat constructor; try lia. exact D.
    + cbn [length] in *. lia.
Qed.

(** ** slide, proofs *)

Definition bit (x : Z) : Prop := x = 0 \/ x = 1.

Lemma insert_app_0 {A} (pre t : list A) v : <[length pre := v]> (pre ++ t) = pre ++ <[0%nat := v]> t.
Proof. rewrite <- (insert_app_r pre t 0 v). now rewrite Nat.add_0_r. Qed.

(** The loops work on the suffix from their position. *)
Lemma slide_carry_app pre n : forall k t,
  slide_carry n (length pre + k) (pre ++ t) = (let! t := slide_carry n k t in Some (pre ++ t)).
Proof.
  induction n as [|n IH]; intros k t; cbn [slide_carry]; [reflexivity|].
  rewrite lookup_app_r by lia. replace (length pre + k - length pre)%nat with k by lia.
  destruct (t !! k) as [x|]; [|reflexivity]. cbn [bind].
  rewrite !insert_app_r. rewrite <- Nat.add_succ_r, IH.
  destruct (x =? 0); reflexivity.
Qed.

Lemma slide_window_app pre len n : forall b t,
  slide_window (length pre + len) n b (length pre) (pre ++ t) =
  (let! t := slide_window len n b 0 t in Some (pre ++ t)).
Proof.
  induction n as [|n IH]; intros b t; cbn [slide_window]; [reflexivity|].
  replace (length pre + b <? length pre + len)%nat with (0 + b <? len)%nat
    by (apply Bool.eq_true_iff_eq; rewrite !Nat.ltb_lt; lia).
  destruct (0 + b <? len)%nat eqn:B; [|reflexivity]. apply Nat.ltb_lt in B.
  rewrite !lookup_app_r by lia. rewrite Nat.sub_diag.
  replace (length pre + b - length pre)%nat with b by lia.
  change (0 + b)%nat with b. destruct (t !! 0%nat) as [x|]; [|reflexivity]. cbn [bind].
  destruct (t !! b) as [y|]; [|reflexivity]. cbn [bind].
  rewrite !insert_app_0, insert_app_r, !IH.
  replace (length pre + len - (length pre + b))%nat with (len - b)%nat by lia.
  rewrite slide_carry_app.
  destruct (y =? 0); [reflexivity|]. destruct (x + _ <=? 15); [reflexivity|].
  destruct (-15 <=? x - _); [|reflexivity].
  destruct (slide_carry _ _ _) as [t'|]; [|reflexivity]. cbn [bind]. apply IH.
Qed.

(** Counting up the suffix after a carry. *)
Lemma slide_inc g : Forall bit g -> digits_val 1 g < 2 ^ Z.of_nat (length g) - 1 ->
  safe (slide_carry (length g) 0 g) (fun g' =>
    Forall bit g' /\ length g' = length g /\ digits_val 1 g' = digits_val 1 g + 1).
Proof.
  induction 1 as [|x g X F IH]; [cbn; lia|]. intros V. cbn [length slide_carry].
  change ((x :: g) !! 0%nat) with (Some x). cbn [bind].
  rewrite digits_val_cons in V. cbn [length] in V.
  rewrite Nat2Z.inj_succ, Z.pow_succ_r in V by lia. change (2 ^ 1) with 2 in V.
  destruct X as [-> | ->]; cbn [Z.eqb Pos.eqb].
  - cbn [safe]. change (<[0%nat:=1]> (0 :: g)) with (1 :: g). rewrite !digits_val_cons.
    split; [constructor; [now right | exact F]|]. split; [reflexivity | lia].
  - change (<[0%nat:=0]> (1 :: g)) with ([0] ++ g).
    rewrite (slide_carry_app [0] (length g) 0 g : slide_carry (length g) 1 ([0] ++ g) = _).
    eapply safe_bind; [apply IH; lia|]. intros g' (B & L & E). cbn [safe app].
    rewrite !digits_val_cons, E. split; [constructor; [now left | exact B]|].
    split; [cbn; lia | lia].
Qed.

(** Beyond the fourth position nothing is absorbed. *)
Lemma slide_window_far len n : forall b d r, (5 <= b)%nat -> -15 <= d <= 15 -> length r = (len - 1)%nat ->
  (forall k, (4 <= k)%nat -> forall y, r !! k = Some y -> bit y) ->
  slide_window len n b 0 (d :: r) = Some (d :: r).
Proof.
  induction n as [|n IH]; intros b d r B D L F; cbn [slide_window]; [reflexivity|].
  destruct (Nat.ltb_spec (0 + b) len) as [C|C]; [|reflexivity].
  change ((d :: r) !! 0%nat) with (Some d). cbn [bind].
  destruct b as [|b]; [lia|]. change (0 + S b)%nat with (S b). change ((d :: r) !! S b) with (r !! b).
  destruct (lookup_lt_is_Some_2 r b ltac:(lia)) as [y Ey]. rewrite Ey. cbn [bind].
  destruct (F b ltac:(lia) y Ey) as [-> | ->]; cbn [Z.eqb Pos.eqb]; [apply IH; auto; lia|].
  rewrite Z.shiftl_mul_pow2, Z.mul_1_l by lia.
  assert (32 <= 2 ^ Z.of_nat (S b)) by (change 32 with (2 ^ 5); apply Z.pow_le_mono_r; lia).
  destruct (Z.leb_spec (d + 2 ^ Z.of_nat (S b)) 15); [lia|].
  destruct (Z.leb_spec (-15) (d - 2 ^ Z.of_nat (S b))); [lia | reflexivity].
Qed.

Lemma slide_window_S len n b i r : slide_window len (S n) b i r =
  if (i + b <? len)%nat then
    let! x := r !! i in
    let! y := r !! (i + b)%nat in
    let yb := Z.shiftl y (Z.of_nat b) in
    if y =? 0 then slide_window len n (S b) i r
    else if x + yb <=? 15 then
      slide_window len n (S b) i (<[(i + b)%nat := 0]> (<[i := to_i8 (x + yb)]> r))
    else if -15 <=? x - yb then
      let! r := slide_carry (len - (i + b)) (i + b) (<[i := to_i8 (x - yb)]> r) in
      slide_window len n (S b) i r
    else Some r
  else Some r.
Proof. reflexivity. Qed.

(** A bit at distance at most 3 is absorbed. *)
Lemma slide_absorb len n x l1 y l2 b : b = S (length l1) -> (b <= 3)%nat -> (b < len)%nat ->
  1 <= x < 2 ^ Z.of_nat b -> bit y ->
  slide_window len (S n) b 0 (x :: l1 ++ y :: l2) =
  slide_window len n (S b) 0 ((x + y * 2 ^ Z.of_nat b) :: l1 ++ 0 :: l2).
Proof.
  intros B B3 L X Y. rewrite slide_window_S, (proj2 (Nat.ltb_lt _ _)) by exact L.
  change ((x :: l1 ++ y :: l2) !! 0%nat) with (Some x). cbn [bind].
  change (0 + b)%nat with b. rewrite B.
  change ((x :: l1 ++ y :: l2) !! S (length l1)) with ((l1 ++ y :: l2) !! length l1).
  rewrite list_lookup_middle by reflexivity. cbn [bind]. rewrite <- B.
  assert (P : 2 ^ Z.of_nat b <= 8) by (change 8 with (2 ^ 3); apply Z.pow_le_mono_r; lia).
  destruct Y as [-> | ->]; cbn [Z.eqb Pos.eqb].
  - now rewrite Z.mul_0_l, Z.add_0_r.
  - rewrite Z.shiftl_mul_pow2 by lia. rewrite (proj2 (Z.leb_le _ _)) by lia.
    rewrite to_i8_id by lia. rewrite B.
    set (v := x + _).
    change (<[0%nat:=v]> (x :: l1 ++ 1 :: l2)) with (v :: l1 ++ 1 :: l2).
    change (<[S (length l1):=0]> (v :: l1 ++ 1 :: l2)) with (v :: <[length l1:=0]> (l1 ++ 1 :: l2)).
    now rewrite insert_app_0.
Qed.

Ltac side := first [reflexivity | assumption | lia].

(** The window at a set bit with at least four bits above it. *)
Definition smod32 (b1 b2 b3 b4 : Z) : Z := 1 + 2 * b1 + 4 * b2 + 8 * b3 - 16 * b4.

Lemma slide_window_5 b1 b2 b3 b4 g : bit b1 -> bit b2 -> bit b3 -> bit b4 -> Forall bit g ->
  (b4 = 1 -> digits_val 1 g < 2 ^ Z.of_nat (length g) - 1) ->
  safe (slide_window (5 + length g) 6 1 0 (1 :: b1 :: b2 :: b3 :: b4 :: g)) (fun r =>
    exists g', r = smod32 b1 b2 b3 b4 :: 0 :: 0 :: 0 :: 0 :: g' /\ Forall bit g' /\
      length g' = length g /\ digits_val 1 g' = digits_val 1 g + b4).
Proof.
  intros B1 B2 B3 B4 G O.
  assert (FAR : forall d g', -15 <= d <= 15 -> Forall bit g' -> length g' = length g ->
    slide_window (5 + length g) 2 5 0 (d :: 0 :: 0 :: 0 :: 0 :: g') = Some (d :: 0 :: 0 :: 0 :: 0 :: g')).
  { intros d g' D F L. apply slide_window_far; [lia | exact D | cbn; lia|].
    intros k K y Ey. do 4 (destruct k as [|k]; [lia || (injection Ey as <-; now left)|]).
    exact (proj1 (Forall_lookup _ _) F k y Ey). }
  set (len := (5 + length g)%nat) in *. unfold bit in *.
  assert (P1 : 2 ^ Z.of_nat 1 = 2) by reflexivity. assert (P2 : 2 ^ Z.of_nat 2 = 4) by reflexivity.
  assert (P3 : 2 ^ Z.of_nat 3 = 8) by reflexivity.
  change (1 :: b1 :: b2 :: b3 :: b4 :: g) with (1 :: [] ++ b1 :: b2 :: b3 :: b4 :: g).
  rewrite (slide_absorb len 5 1 [] b1 (b2 :: b3 :: b4 :: g) 1) by side.
  change ([] ++ 0 :: b2 :: b3 :: b4 :: g) with ([0] ++ b2 :: b3 :: b4 :: g).
  rewrite (slide_absorb len 4 _ [0] b2 (b3 :: b4 :: g) 2) by side.
  change ([0] ++ 0 :: b3 :: b4 :: g) with ([0; 0] ++ b3 :: b4 :: g).
  rewrite (slide_absorb len 3 _ [0; 0] b3 (b4 :: g) 3) by side. cbn [app].
  set (x := 1 + _ + _ + _). assert (X : x = 1 + 2 * b1 + 4 * b2 + 8 * b3) by (unfold x; lia).
  clearbody x. rewrite slide_window_S, (proj2 (Nat.ltb_lt _ _)) by (unfold len; lia).
  change ((x :: 0 :: 0 :: 0 :: b4 :: g) !! 0%nat) with (Some x).
  change ((x :: 0 :: 0 :: 0 :: b4 :: g) !! (0 + 4)%nat) with (Some b4). cbn [bind].
  unfold smod32. destruct B4 as [-> | ->]; cbn [Z.eqb Pos.eqb].
  - rewrite FAR by (assumption || lia). cbn [safe]. exists g.
    replace (1 + 2 * b1 + 4 * b2 + 8 * b3 - 16 * 0) with x by lia. rewrite Z.add_0_r. auto.
  - change (Z.shiftl 1 (Z.of_nat 4)) with 16.
    destruct (Z.leb_spec (x + 16) 15); [lia|]. destruct (Z.leb_spec (-15) (x - 16)); [|lia].
    rewrite to_i8_id by lia. replace (len - (0 + 4))%nat with (S (length g)) by (unfold len; lia).
    change (<[0%nat:=x - 16]> (x :: 0 :: 0 :: 0 :: 1 :: g)) with ((x - 16) :: 0 :: 0 :: 0 :: 1 :: g).
    change (0 + 4)%nat with 4%nat. cbn [slide_carry].
    change ((x - 16 :: 0 :: 0 :: 0 :: 1 :: g) !! 4%nat) with (Some 1). cbn [bind Z.eqb Pos.eqb].
    change (<[4%nat:=0]> (x - 16 :: 0 :: 0 :: 0 :: 1 :: g)) with ([x - 16; 0; 0; 0; 0] ++ g).
    rewrite (slide_carry_app [x - 16; 0; 0; 0; 0] (length g) 0 g
      : slide_carry (length g) 5 ([x - 16; 0; 0; 0; 0] ++ g) = _).
    destruct (safe_some _ _ (slide_inc g G (O eq_refl))) as (g' & -> & G' & L' & V'). cbn [bind app].
    rewrite FAR by (assumption || lia). cbn [safe]. exists g'.
    replace (1 + 2 * b1 + 4 * b2 + 8 * b3 - 16 * 1) with (x - 16) by lia. auto.
Qed.

(** The window near the end of the array: everything is absorbed. *)
Lemma slide_window_short rest : (length rest <= 3)%nat -> Forall bit rest ->
  slide_window (S (length rest)) 6 1 0 (1 :: rest) =
    Some (digits_val 1 (1 :: rest) :: repeat 0 (length rest)).
Proof.
  intros L B. assert (P1 : 2 ^ Z.of_nat 1 = 2) by reflexivity. assert (P2 : 2 ^ Z.of_nat 2 = 4) by reflexivity.
  assert (P3 : 2 ^ Z.of_nat 3 = 8) by reflexivity.
  assert (BB : forall b l, Forall bit (b :: l) -> (b = 0 \/ b = 1) /\ Forall bit l)
    by (intros b l F; apply Forall_cons_1 in F; exact F).
  destruct rest as [|b1 rest]; [reflexivity|]. destruct (BB _ _ B) as [B1 B'].
  set (len := S (length (b1 :: rest))). cbn [length] in L, len.
  change (1 :: b1 :: rest) with (1 :: [] ++ b1 :: rest).
  rewrite (slide_absorb len 5 1 [] b1 rest 1) by (try reflexivity; try exact B1; unfold len; lia).
  destruct rest as [|b2 rest]; [cbn; rewrite ?P1; f_equal; f_equal; ring|]. destruct (BB _ _ B') as [B2 B''].
  cbn [length] in L, len. change ([] ++ 0 :: b2 :: rest) with ([0] ++ b2 :: rest).
  rewrite (slide_absorb len 4 _ [0] b2 rest 2) by (try reflexivity; try exact B2; unfold len; lia).
  destruct rest as [|b3 rest]; [cbn; rewrite ?P1, ?P2; f_equal; f_equal; ring|]. destruct (BB _ _ B'') as [B3 _].
  cbn [length] in L, len. change ([0] ++ 0 :: b3 :: rest) with ([0; 0] ++ b3 :: rest).
  rewrite (slide_absorb len 3 _ [0; 0] b3 rest 3) by (try reflexivity; try exact B3; unfold len; lia).
  destruct rest; [|cbn [length] in L; lia]. cbn. rewrite ?P1, ?P2, ?P3. f_equal. f_equal. ring.
Qed.

Definition slide_digit (d : Z) : Prop := d = 0 \/ (Z.odd d = true /\ -15 <= d <= 15).

(** The part of the array not yet touched: bits, with a value that leaves room
    for one carry. *)
Definition fresh (f : list Z) : Prop :=
  Forall bit f /\ digits_val 1 f <= 2 ^ Z.of_nat (length f) / 8 + 1.

Lemma bits_bound f : Forall bit f -> 0 <= digits_val 1 f < 2 ^ Z.of_nat (length f).
Proof.
  induction 1 as [|x f X F IH]; [cbn; lia|]. rewrite digits_val_cons. cbn [length].
  rewrite Nat2Z.inj_succ, Z.pow_succ_r by lia. change (2 ^ 1) with 2. destruct X; lia.
Qed.

Lemma fresh_0 f : fresh (0 :: f) -> fresh f.
Proof.
  intros [B V]. split; [now apply Forall_cons_1 in B|]. rewrite digits_val_cons in V. cbn [length] in V.
  rewrite Nat2Z.inj_succ, Z.pow_succ_r in V by lia. change (2 ^ 1) with 2 in V.
  set (p := 2 ^ Z.of_nat (length f)) in *. clearbody p. Z.div_mod_to_equations. lia.
Qed.

Lemma digits_val_repeat0 n f : digits_val 1 (repeat 0 n ++ f) = 2 ^ Z.of_nat n * digits_val 1 f.
Proof.
  induction n as [|n IH]; [cbn [repeat app]; change (2 ^ Z.of_nat 0) with 1; ring|].
  cbn [repeat app]. rewrite digits_val_cons, IH, Nat2Z.inj_succ, Z.pow_succ_r by lia.
  change (2 ^ 1) with 2. ring.
Qed.

Lemma pow2_8 k : 2 ^ Z.of_nat (5 + k) = 32 * 2 ^ Z.of_nat k.
Proof. rewrite Nat2Z.inj_add, Z.pow_add_r by lia. reflexivity. Qed.

(** What one window leaves. *)
Lemma slide_window_ok f : fresh (1 :: f) ->
  safe (slide_window (S (length f)) 6 1 0 (1 :: f)) (fun r =>
    exists d z g, r = d :: repeat 0 z ++ g /\ slide_digit d /\ (z <= 4)%nat /\ fresh g /\
      (z + length g)%nat = length f /\ digits_val 1 (d :: repeat 0 z ++ g) = digits_val 1 (1 :: f)).
Proof.
  intros [B V]. apply Forall_cons_1 in B. destruct B as [_ B].
  destruct (Nat.le_gt_cases (length f) 3) as [L|L].
  - rewrite slide_window_short by assumption. cbn [safe].
    exists (digits_val 1 (1 :: f)), (length f), []. rewrite app_nil_r.
    pose proof (bits_bound f B) as [V0 V1].
    assert (2 ^ Z.of_nat (length f) <= 8) by (change 8 with (2 ^ 3); apply Z.pow_le_mono_r; lia).
    conjs; [reflexivity | | lia | split; [apply Forall_nil_2 | vm_compute; discriminate] | cbn; lia |].
    + right. rewrite digits_val_cons. change (2 ^ 1) with 2. split; [|lia].
      rewrite Z.odd_add_mul_2. reflexivity.
    + rewrite digits_val_cons, <- (app_nil_r (repeat 0 _)), digits_val_repeat0.
      change (digits_val 1 []) with 0. ring.
  - destruct f as [|b1 [|b2 [|b3 [|b4 g]]]]; cbn [length] in L; try lia.
    rewrite !Forall_cons in B. destruct B as (B1 & B2 & B3 & B4 & G).
    change (S (length (b1 :: b2 :: b3 :: b4 :: g))) with (5 + length g)%nat.
    change (length (1 :: b1 :: b2 :: b3 :: b4 :: g)) with (5 + length g)%nat in V.
    rewrite !digits_val_cons, pow2_8 in V. change (2 ^ 1) with 2 in V.
    pose proof (bits_bound g G) as GB. set (p := 2 ^ Z.of_nat (length g)) in *.
    replace (32 * p / 8) with (4 * p) in V
      by (replace (32 * p) with (4 * p * 8) by ring; now rewrite Z.div_mul by lia).
    eapply safe_mono; [apply (slide_window_5 b1 b2 b3 b4 g); try assumption|].
    + intros E. fold p. unfold bit in *. lia.
    + intros r (g' & -> & G' & L' & V'). exists (smod32 b1 b2 b3 b4), 4%nat, g'.
      unfold bit in *. conjs; [reflexivity | | lia | | cbn [length]; lia |].
      * right. unfold smod32. split; [|lia].
        replace (1 + 2 * b1 + 4 * b2 + 8 * b3 - 16 * b4) with (1 + 2 * (b1 + 2 * b2 + 4 * b3 - 8 * b4)) by ring.
        rewrite Z.odd_add_mul_2. reflexivity.
      * split; [exact G'|]. rewrite V', L'. fold p.
        assert (0 < p) by (apply Z.pow_pos_nonneg; lia).
        Z.div_mod_to_equations. lia.
      * rewrite !digits_val_cons, digits_val_repeat0, V'. unfold smod32. change (2 ^ 1) with 2.
        change (2 ^ Z.of_nat 4) with 16. ring.
Qed.

Lemma slide_loop_ok n : forall z f pre, n = (z + length f)%nat -> (z <= 4)%nat -> fresh f ->
  safe (slide_loop (length pre + n) n (length pre) (pre ++ repeat 0 z ++ f)) (fun r =>
    exists t, r = pre ++ t /\ length t = n /\ digits_val 1 t = digits_val 1 (repeat 0 z ++ f) /\
              Forall slide_digit t).
Proof.
  induction n as [|n IH]; intros z f pre N Z4 F.
  - destruct z, f; try discriminate N. cbn. exists []. rewrite app_nil_r. repeat split; constructor.
  - cbn [slide_loop]. rewrite lookup_app_r, Nat.sub_diag by lia.
    assert (STEP : forall d z' f' t, t = d :: repeat 0 z' ++ f' -> slide_digit d -> n = (z' + length f')%nat ->
      (z' <= 4)%nat -> fresh f' -> digits_val 1 t = digits_val 1 (repeat 0 z ++ f) ->
      safe (slide_loop (length pre + S n) n (S (length pre)) (pre ++ t)) (fun r =>
        exists t, r = pre ++ t /\ length t = S n /\ digits_val 1 t = digits_val 1 (repeat 0 z ++ f) /\
              Forall slide_digit t)).
    { intros d z' f' t -> D N' Z' F' V. rewrite (cons_middle d pre).
      rewrite app_assoc.
      replace (length pre + S n)%nat with (length (pre ++ [d]) + n)%nat by (rewrite length_app; cbn; lia).
      replace (S (length pre)) with (length (pre ++ [d])) by (rewrite length_app; cbn; lia).
      eapply safe_mono; [exact (IH z' f' (pre ++ [d]) N' Z' F')|].
      intros r (t & -> & L & VT & GT). exists (d :: t). rewrite <- app_assoc. conjs.
      - reflexivity.
      - cbn. lia.
      - rewrite <- V, !digits_val_cons, VT. reflexivity.
      - constructor; assumption. }
    destruct z as [|z].
    + destruct f as [|x f]; [discriminate N|]. cbn [repeat app] in *. cbn [length] in N.
      change ((x :: f) !! 0%nat) with (Some x). cbn [bind].
      destruct (proj1 (Forall_cons_1 _ _ _ (proj1 F))) as [-> | ->]; cbn [Z.eqb Pos.eqb bind].
      * apply (STEP 0 0%nat f); [reflexivity | now left | lia | lia | now apply fresh_0 | reflexivity].
      * replace (length pre + S n)%nat with (length pre + S (length f))%nat at 1 by lia.
        rewrite slide_window_app.
        destruct (safe_some _ _ (slide_window_ok f F)) as (r & -> & d & z & g & -> & D & Z' & G & L & V).
        cbn [bind]. apply (STEP d z g); [reflexivity | exact D | lia | exact Z' | exact G | exact V].
    + cbn [repeat app]. change ((0 :: repeat 0 z ++ f) !! 0%nat) with (Some 0). cbn [bind Z.eqb].
      apply (STEP 0 z f); [reflexivity | now left | lia | lia | exact F | reflexivity].
Qed.

Lemma slide_bits_ok a : Forall is_byte a ->
  Forall bit (slide_bits a) /\ length (slide_bits a) = (8 * length a)%nat /\
  digits_val 1 (slide_bits a) = le_val a.
Proof.
  induction 1 as [|x a X F (IB & IL & IV)]; [repeat split; constructor|].
  change (slide_bits (x :: a)) with
    (map (fun j => Z.land 1 (Z.shiftr x j)) [0; 1; 2; 3; 4; 5; 6; 7] ++ slide_bits a).
  assert (E : forall j, 0 <= j -> Z.land 1 (Z.shiftr x j) = (x / 2 ^ j) mod 2).
  { intros j J. rewrite Z.land_comm. change 1 with (Z.ones 1). rewrite Z.land_ones by lia.
    now rewrite Z.shiftr_div_pow2 by lia. }
  cbn [map]. rewrite !E by lia. split; [|split].
  - apply Forall_app. split; [|exact IB].
    assert (forall y, bit (y mod 2)) by (intros y; unfold bit; pose proof (Z.mod_pos_bound y 2); lia).
    repeat (apply Forall_cons_2; [auto|]). apply Forall_nil_2.
  - rewrite length_app, IL. cbn. lia.
  - cbn [app]. rewrite !digits_val_cons, IV. cbn [le_val]. unfold is_byte in X.
    change (2 ^ 0) with 1. change (2 ^ 1) with 2. change (2 ^ 2) with 4. change (2 ^ 3) with 8.
    change (2 ^ 4) with 16. change (2 ^ 5) with 32. change (2 ^ 6) with 64. change (2 ^ 7) with 128.
    Z.div_mod_to_equations. lia.
Qed.

Lemma slide_safe a : length a = 32%nat -> Forall is_byte a -> le_val a < 2 ^ 253 + 2 ->
  safe (slide a) (fun r => length r = 256%nat /\ digits_val 1 r = le_val a /\ Forall slide_digit r).
Proof.
  intros L F V. destruct (slide_bits_ok a F) as (B & LB & VB). rewrite L in LB.
  unfold slide.
  assert (FR : fresh (slide_bits a)).
  { split; [exact B|]. rewrite VB, LB. change (2 ^ Z.of_nat (8 * 32) / 8) with (2 ^ 253). lia. }
  eapply safe_mono; [exact (slide_loop_ok 256 0 (slide_bits a) [] (eq_sym LB) ltac:(lia) FR)|].
  intros r (t & -> & LT & VT & GT). cbn [app repeat] in *. rewrite VT, VB. auto.
Qed.

(** ** The digits of a scalar with a[31] <= 127 *)

Lemma last_byte a x : Forall is_byte a -> last a = Some x -> 0 <= x < 256.
Proof. intros F L. apply last_Some_elem_of in L. rewrite Forall_forall in F. exact (F x L). Qed.

Lemma base_digits_ok a x : Forall is_byte a -> last a = Some x -> x <= 127 ->
  length (base_digits a) = (2 * length a)%nat /\ digits_val 4 (base_digits a) = le_val a /\
  Forall (fun d => -8 <= d <= 8) (base_digits a).
Proof.
  intros F L X. destruct (base_nibbles_ok a F) as (N & V & LN & LA).
  assert (0 <= x / 16 <= 7) by (pose proof (last_byte a x F L); Z.div_mod_to_equations; lia).
  destruct (base_carry_ok (base_nibbles a) N 0 (x / 16) ltac:(lia) (LA x L) ltac:(lia)) as (E & D & LB).
  unfold base_digits. rewrite LB, E, V, LN, Z.add_0_r. auto.
Qed.

Lemma sm_digits_ok a x : Forall is_byte a -> last a = Some x -> x <= 127 ->
  length (sm_digits a) = (2 * length a)%nat /\ digits_val 4 (sm_digits a) = le_val a /\
  Forall (fun d => -8 <= d <= 8) (sm_digits a).
Proof.
  intros F L X. destruct (sm_carry_ok a F 0 x ltac:(lia) L X) as (E & D & LN).
  unfold sm_digits. rewrite E, LN, Z.add_0_r. auto.
Qed.

(** A scalar with the top bits set loses a carry out of the array: the bound on
    the scalar is needed. *)
Lemma slide_top_carry_lost :
  exists r, slide (repeat 255 32) = Some r /\ digits_val 1 r = le_val (repeat 255 32) - 2 ^ 256.
Proof. eexists. split; vm_compute; reflexivity. Qed.

(** ** Properties *)

(** The sliding window.  For every 32-byte scalar up to 2^253 + 1 (so for
    every scalar below the group order) slide terminates without leaving the
    array, and its 256 digits are zero or odd and within [-15, 15] and add up
    to the scalar: sum r[i] * 2^i = a. *)
Theorem slide_correct a : length a = 32%nat -> Forall is_byte a -> le_val a < 2 ^ 253 + 2 ->
  exists r, slide a = Some r /\ length r = 256%nat /\ digits_val 1 r = le_val a /\ Forall slide_digit r.
Proof. intros L F V. apply safe_some, slide_safe; assumption. Qed.

Definition scalar_ex : list Z := repeat 239 31 ++ [31].

Lemma slide_correct_witness :
  exists r, slide scalar_ex = Some r /\ length r = 256%nat /\ digits_val 1 r = le_val scalar_ex /\
            Forall slide_digit r.
Proof. apply slide_correct; [reflexivity | repeat constructor; discriminate | vm_compute; reflexivity]. Defined.

(** The signed radix-16 digits of ge_scalarmult_base: 64 digits in [-8, 8]
    whose value is the scalar, for every scalar with a[31] <= 127. *)
Theorem base_digits_correct a x : Forall is_byte a -> last a = Some x -> x <= 127 ->
  length (base_digits a) = (2 * length a)%nat /\ digits_val 4 (base_digits a) = le_val a /\
  Forall (fun d => -8 <= d <= 8) (base_digits a).
Proof. apply base_digits_ok. Qed.

Lemma base_digits_correct_witness :
  length (base_digits scalar_ex) = (2 * length scalar_ex)%nat /\
  digits_val 4 (base_digits scalar_ex) = le_val scalar_ex /\
  Forall (fun d => -8 <= d <= 8) (base_digits scalar_ex).
Proof.
  apply (base_digits_correct scalar_ex 31); [repeat constructor; discriminate | reflexivity | lia].
Defined.

(** The two-digits-per-byte recoding of ge_scalarmult gives digits in
    [-8, 8] with the same value, again for a[31] <= 127. *)
Theorem sm_digits_correct a x : Forall is_byte a -> last a = Some x -> x <= 127 ->
  length (sm_digits a) = (2 * length a)%nat /\ digits_val 4 (sm_digits a) = le_val a /\
  Forall (fun d => -8 <= d <= 8) (sm_digits a).
Proof. apply sm_digits_ok. Qed.

Lemma sm_digits_correct_witness :
  length (sm_digits scalar_ex) = (2 * length scalar_ex)%nat /\
  digits_val 4 (sm_digits scalar_ex) = le_val scalar_ex /\
  Forall (fun d => -8 <= d <= 8) (sm_digits scalar_ex).
Proof.
  apply (sm_digits_correct scalar_ex 31); [repeat constructor; discriminate | reflexivity | lia].
Defined.
