(* ===== verification/ScalarMult.v ===== *)
(** Scalar multiplication (libcryptonote/crypto/crypto-ops.c): constant-time
    table selection, ge_scalarmult, ge_scalarmult_base, and the two
    double-scalar loops over sliding-window digits.  The theorems are stated
    against the [EdGroup] interface: in any commutative group of curve points
    the functions return the multiple, or the sum of multiples. *)
From Stdlib Require Import ZArith Lia List Bool Setoid Morphisms.
From stdpp Require Import base list.
From S2P Require Import Prelude CInt Bytes Fe25519 Prime25519 Edwards Ge25519 Recode.
Import ListNotations.
Local Open Scope Z_scope.
Local Open Scope fld_scope.

(** ** Constant-time selection *)

Definition equal (b c : Z) : Z :=
  let ub := to_u8 b in
  let uc := to_u8 c in
  let x := Z.lxor ub uc in
  let y := u32 (x - 1) in
  Z.shiftr y 31.

Definition negative (b : Z) : Z := Z.shiftr (u64 b) 63.

(** [b - (((-bnegative) & b) << 1)], as an unsigned char. *)
Definition babs (b : Z) : Z := to_u8 (b - Z.shiftl (Z.land (- negative b) b) 1).

Definition ge_precomp_cmov (t u : ge_precomp) (b : Z) : option ge_precomp :=
  let! ypx := fe_cmov (yplusx t) (yplusx u) b in
  let! ymx := fe_cmov (yminusx t) (yminusx u) b in
  let! xy := fe_cmov (xy2d t) (xy2d u) b in
  Some (mkprecomp ypx ymx xy).

Definition ge_cached_cmov (t u : ge_cached) (b : Z) : option ge_cached :=
  let! ypx := fe_cmov (YplusX t) (YplusX u) b in
  let! ymx := fe_cmov (YminusX t) (YminusX u) b in
  let! z := fe_cmov (cZ t) (cZ u) b in
  let! t2d := fe_cmov (T2d t) (T2d u) b in
  Some (mkcached ypx ymx z t2d).

(** The run of eight conditional moves, [equal(babs, 1)], [equal(babs, 2)], ... *)
Fixpoint cmov_run {T : Type} (cmov : T -> T -> Z -> option T) (b j : Z) (t : T) (row : list T) : option T :=
  match row with
  | [] => Some t
  | u :: row => let! t := cmov t u (equal b j) in cmov_run cmov b (j + 1) t row
  end.

(** [select]: the entry of the table's row for digit [b]. *)
Definition select (row : list ge_precomp) (b : Z) : option ge_precomp :=
  let bnegative := negative b in
  let! t := cmov_run ge_precomp_cmov (babs b) 1 ge_precomp_0 row in
  let! mxy := fe_neg (xy2d t) in
  let minust := mkprecomp (fe_copy (yminusx t)) (fe_copy (yplusx t)) mxy in
  ge_precomp_cmov t minust bnegative.

(** The same on the cached multiples of ge_scalarmult. *)
Definition select_cached (Ai : list ge_cached) (b : Z) : option ge_cached :=
  let bnegative := negative b in
  let! cur := cmov_run ge_cached_cmov (babs b) 1 ge_cached_0 Ai in
  let! mT2d := fe_neg (T2d cur) in
  let minuscur := mkcached (fe_copy (YminusX cur)) (fe_copy (YplusX cur)) (fe_copy (cZ cur)) mT2d in
  ge_cached_cmov cur minuscur bnegative.

(** ** ge_scalarmult *)

(** [n] further entries: Ai[i + 1] = A + Ai[i]. *)
Fixpoint sm_table (n : nat) (A : ge_p3) (c : ge_cached) : option (list ge_cached) :=
  match n with
  | O => Some [c]
  | S n =>
      let! t := ge_add A c in
      let! u := ge_p1p1_to_p3 t in
      let! c' := ge_p3_to_cached u in
      let! rest := sm_table n A c' in
      Some (c :: rest)
  end.

Definition sm_step (Ai : list ge_cached) (r : ge_p2) (b : Z) : option ge_p2 :=
  let! t := ge_p2_dbl r in
  let! r := ge_p1p1_to_p2 t in
  let! t := ge_p2_dbl r in
  let! r := ge_p1p1_to_p2 t in
  let! t := ge_p2_dbl r in
  let! r := ge_p1p1_to_p2 t in
  let! t := ge_p2_dbl r in
  let! u := ge_p1p1_to_p3 t in
  let! cur := select_cached Ai b in
  let! t := ge_add u cur in
  ge_p1p1_to_p2 t.

(** [for (i = 63; i >= 0; i--)]: the digits from the top. *)
Fixpoint sm_loop (Ai : list ge_cached) (r : ge_p2) (e : list Z) : option ge_p2 :=
  match e with
  | [] => Some r
  | b :: e =>
      let! r := sm_loop Ai r e in
      sm_step Ai r b
  end.

Definition ge_scalarmult (a : list Z) (A : ge_p3) : option ge_p2 :=
  let e := sm_digits a in
  let! c := ge_p3_to_cached A in
  let! Ai := sm_table 7 A c in
  sm_loop Ai ge_p2_0 e.

(** ** ge_scalarmult_base *)

(** [for (i = ...; i < 64; i += 2) { select(&t, i / 2, e[i]); ge_madd; ... }],
    over the digits and the rows of the table. *)
Fixpoint base_loop (h : ge_p3) (e : list Z) (rows : list (list ge_precomp)) : option ge_p3 :=
  match e, rows with
  | b :: e, row :: rows =>
      let! t := select row b in
      let! r := ge_madd h t in
      let! h := ge_p1p1_to_p3 r in
      base_loop h e rows
  | [], _ => Some h
  | _, [] => None
  end.

Fixpoint evens (e : list Z) : list Z :=
  match e with
  | x :: _ :: e => x :: evens e
  | [x] => [x]
  | [] => []
  end.
Fixpoint odds (e : list Z) : list Z :=
  match e with
  | _ :: y :: e => y :: odds e
  | _ => []
  end.

Definition ge_scalarmult_base (base : list (list ge_precomp)) (a : list Z) : option ge_p3 :=
  let e := base_digits a in
  let! h := base_loop ge_p3_0 (odds e) base in
  let! r := ge_p3_dbl h in
  let! s := ge_p1p1_to_p2 r in
  let! r := ge_p2_dbl s in
  let! s := ge_p1p1_to_p2 r in
  let! r := ge_p2_dbl s in
  let! s := ge_p1p1_to_p2 r in
  let! r := ge_p2_dbl s in
  let! h := ge_p1p1_to_p3 r in
  base_loop h (evens e) base.

(** ** Double scalar multiplication *)

(** The additions of one digit; [Ai[d / 2]] and [Ai[(-d) / 2]]. *)
Definition dsm_cached (Ai : list ge_cached) (d : Z) (t : ge_p1p1) : option ge_p1p1 :=
  if 0 <? d then
    let! u := ge_p1p1_to_p3 t in
    let! c := Ai !! Z.to_nat (Z.quot d 2) in
    ge_add u c
  else if d <? 0 then
    let! u := ge_p1p1_to_p3 t in
    let! c := Ai !! Z.to_nat (Z.quot (- d) 2) in
    ge_sub u c
  else Some t.

Definition dsm_precomp (Bi : list ge_precomp) (d : Z) (t : ge_p1p1) : option ge_p1p1 :=
  if 0 <? d then
    let! u := ge_p1p1_to_p3 t in
    let! c := Bi !! Z.to_nat (Z.quot d 2) in
    ge_madd u c
  else if d <? 0 then
    let! u := ge_p1p1_to_p3 t in
    let! c := Bi !! Z.to_nat (Z.quot (- d) 2) in
    ge_msub u c
  else Some t.

(** The loops, from the top digit; [on] becomes true at the first position with
    a nonzero digit ([if (aslide[i] || bslide[i]) break;]). *)
Fixpoint dsm_loop (fa fb : Z -> ge_p1p1 -> option ge_p1p1) (r : ge_p2) (ds : list (Z * Z)) :
    option (bool * ge_p2) :=
  match ds with
  | [] => Some (false, r)
  | (da, db) :: ds =>
      let! (on, r) := dsm_loop fa fb r ds in
      if on || negb (da =? 0) || negb (db =? 0) then
        let! t := ge_p2_dbl r in
        let! t := fa da t in
        let! t := fb db t in
        let! r := ge_p1p1_to_p2 t in
        Some (true, r)
      else Some (false, r)
  end.

Definition ge_double_scalarmult_precomp_vartime (a : list Z) (A : ge_p3) (b : list Z)
    (Bi : list ge_cached) : option ge_p2 :=
  let! aslide := slide a in
  let! bslide := slide b in
  let! Ai := ge_dsm_precomp A in
  let! (_, r) := dsm_loop (dsm_cached Ai) (dsm_cached Bi) ge_p2_0 (zip aslide bslide) in
  Some r.

Definition ge_double_scalarmult_base_vartime (Bi : list ge_precomp) (a : list Z) (A : ge_p3)
    (b : list Z) : option ge_p2 :=
  let! aslide := slide a in
  let! bslide := slide b in
  let! Ai := ge_dsm_precomp A in
  let! (_, r) := dsm_loop (dsm_cached Ai) (dsm_precomp Bi) ge_p2_0 (zip aslide bslide) in
  Some r.

(** ** Representations and point equality *)

#[export] Instance pt_eq_equiv : Equivalence pt_eq.
Proof.
  split.
  - intros P. split; reflexivity.
  - intros P Q [A B]. split; symmetry; assumption.
  - intros P Q R [A B] [C D]. split; etransitivity; eassumption.
Qed.

#[export] Instance p2_rep_proper : Proper (pt_eq ==> eq ==> iff) p2_rep.
Proof. intros P Q [E F] h _ <-. unfold p2_rep. now rewrite E, F. Qed.
#[export] Instance p3_rep_proper : Proper (pt_eq ==> eq ==> iff) p3_rep.
Proof. intros P Q [E F] h _ <-. unfold p3_rep. now rewrite E, F. Qed.
#[export] Instance cached_rep_proper : Proper (pt_eq ==> eq ==> iff) cached_rep.
Proof. intros P Q [E F] h _ <-. unfold cached_rep. now rewrite E, F. Qed.
#[export] Instance precomp_rep_proper : Proper (pt_eq ==> eq ==> iff) precomp_rep.
Proof. intros P Q [E F] h _ <-. unfold precomp_rep. now rewrite E, F. Qed.

(** ** Selection, proofs *)

Lemma equal_spec b c : 0 <= b < 256 -> 0 <= c < 256 -> equal b c = if b =? c then 1 else 0.
Proof.
  intros B C. unfold equal, to_u8. rewrite !Z.mod_small by lia.
  destruct (Z.eqb_spec b c) as [->|N]; [rewrite Z.lxor_nilpotent; reflexivity|].
  assert (X : 0 < Z.lxor b c < 256).
  { assert (0 <= Z.lxor b c) by (apply Z.lxor_nonneg; lia).
    assert (Z.lxor b c <> 0) by (intros E; apply N; now apply Z.lxor_eq).
    split; [lia|]. change 256 with (2 ^ 8). apply Z.log2_lt_pow2; [lia|].
    eapply Z.le_lt_trans; [apply Z.log2_lxor; lia|].
    assert (LB : forall x, 0 <= x < 256 -> Z.log2 x < 8).
    { intros x Hx. destruct (Z.eq_dec x 0) as [->|]; [reflexivity|]. apply Z.log2_lt_pow2; lia. }
    apply Z.max_lub_lt; auto. }
  unfold u32. rewrite Z.mod_small by lia. rewrite Z.shiftr_div_pow2 by lia. apply Z.div_small. lia.
Qed.

Lemma negative_spec b : -128 <= b < 128 -> negative b = if b <? 0 then 1 else 0.
Proof.
  intros B. unfold negative, u64. rewrite Z.shiftr_div_pow2 by lia.
  destruct (Z.ltb_spec b 0).
  - replace (b mod 18446744073709551616) with (b + 18446744073709551616)
      by (apply Z.mod_unique with (q := -1); lia).
    symmetry. apply Z.div_unique with (r := b + 2 ^ 63); lia.
  - rewrite Z.mod_small by lia. apply Z.div_small. lia.
Qed.

Lemma babs_spec b : -128 <= b < 128 -> babs b = Z.abs b.
Proof.
  intros B. unfold babs. rewrite negative_spec by exact B. unfold to_u8.
  destruct (Z.ltb_spec b 0).
  - change (- (1)) with (-1). rewrite Z.land_m1_l, Z.shiftl_mul_pow2 by lia.
    rewrite Z.mod_small by lia. lia.
  - change (- (0)) with 0. rewrite Z.land_0_l, Z.shiftl_0_l, Z.mod_small by lia. lia.
Qed.

Lemma bd_i32 n f : n <= 330 -> fe_bd n f -> fe_i32 f.
Proof.
  intros N B. apply (fe_bd_mono n 330 f N) in B. eapply fe_within_mono; [| |exact B]; vm_compute; discriminate.
Qed.

Definition precomp_ok (t : ge_precomp) : Prop := fe_i32 (yplusx t) /\ fe_i32 (yminusx t) /\ fe_i32 (xy2d t).
Definition cached_ok (t : ge_cached) : Prop :=
  fe_i32 (YplusX t) /\ fe_i32 (YminusX t) /\ fe_i32 (cZ t) /\ fe_i32 (T2d t).

Lemma ge_precomp_cmov_safe t u b : precomp_ok t -> precomp_ok u -> b = 0 \/ b = 1 ->
  ge_precomp_cmov t u b = Some (if b =? 1 then u else t).
Proof.
  intros (T1 & T2 & T3) (U1 & U2 & U3) B. unfold ge_precomp_cmov.
  rewrite !fe_cmov_safe by assumption. cbn [bind]. destruct t, u, (b =? 1); reflexivity.
Qed.

Lemma ge_cached_cmov_safe t u b : cached_ok t -> cached_ok u -> b = 0 \/ b = 1 ->
  ge_cached_cmov t u b = Some (if b =? 1 then u else t).
Proof.
  intros (T1 & T2 & T3 & T4) (U1 & U2 & U3 & U4) B. unfold ge_cached_cmov.
  rewrite !fe_cmov_safe by assumption. cbn [bind]. destruct t, u, (b =? 1); reflexivity.
Qed.

(** The run of conditional moves is a table lookup. *)
Lemma cmov_run_lookup {E} (cmov : E -> E -> Z -> option E) (ok : E -> Prop) b :
  (forall t u c, ok t -> ok u -> c = 0 \/ c = 1 -> cmov t u c = Some (if c =? 1 then u else t)) ->
  0 <= b < 256 -> forall row j t, 1 <= j -> j + Z.of_nat (length row) <= 256 -> ok t -> Forall ok row ->
  cmov_run cmov b j t row =
    Some (if b <? j then t else default t (row !! Z.to_nat (b - j))).
Proof.
  intros CM B. induction row as [|u row IH]; intros j t J L T R; cbn [cmov_run].
  - now destruct (b <? j).
  - apply Forall_cons_1 in R. destruct R as [U R]. cbn [length] in L.
    rewrite equal_spec by lia. rewrite CM by (try assumption; destruct (b =? j); auto). cbn [bind].
    destruct (Z.eqb_spec b j) as [->|N]; cbn [Z.eqb Pos.eqb].
    + rewrite IH by (assumption || lia). rewrite (proj2 (Z.ltb_lt j (j + 1))) by lia.
      rewrite Z.ltb_irrefl, Z.sub_diag. reflexivity.
    + rewrite IH by (assumption || lia).
      destruct (Z.ltb_spec b (j + 1)), (Z.ltb_spec b j); try lia; [reflexivity|].
      replace (Z.to_nat (b - j)) with (S (Z.to_nat (b - (j + 1)))) by lia. reflexivity.
Qed.

(** ** Multiples in a group *)

Section Group.
Context {G : Type} `{EdGroup G}.

Lemma g_opp_r a : g_add a (g_opp a) = g_zero.
Proof. now rewrite g_comm, g_opp_l. Qed.

Lemma g_cancel a b c : g_add a b = g_add a c -> b = c.
Proof.
  intros E. rewrite <- (g_zero_l b), <- (g_zero_l c), <- (g_opp_l a), <- !g_assoc. now rewrite E.
Qed.

Lemma g_opp_add a b : g_opp (g_add a b) = g_add (g_opp a) (g_opp b).
Proof.
  apply (g_cancel (g_add a b)). rewrite g_opp_r.
  rewrite (g_comm (g_opp a)), g_assoc, <- (g_assoc a b), g_opp_r, (g_comm a g_zero), g_zero_l, g_opp_r.
  reflexivity.
Qed.

Lemma g_opp_zero : g_opp g_zero = g_zero.
Proof. rewrite <- (g_zero_l (g_opp g_zero)). apply g_opp_r. Qed.

Lemma g_mul_succ n a : g_mul (n + 1) a = g_add a (g_mul n a).
Proof.
  destruct n as [|p|p].
  - reflexivity.
  - change (Z.pos p + 1) with (Z.pos (p + 1)). rewrite Pos.add_1_r. cbn [g_mul]. unfold g_pos.
    apply Pos.iter_succ.
  - destruct (Pos.eq_dec p 1%positive) as [->|N].
    + cbn. now rewrite (g_comm a g_zero), g_zero_l, g_opp_r.
    + replace (Z.neg p + 1) with (Z.neg (Pos.pred p)) by lia.
      cbn [g_mul]. unfold g_pos. rewrite <- (Pos.succ_pred p N) at 2. rewrite Pos.iter_succ, g_opp_add.
      now rewrite g_assoc, g_opp_r, g_zero_l.
Qed.

Lemma g_mul_add n m a : g_mul (n + m) a = g_add (g_mul n a) (g_mul m a).
Proof.
  assert (P : forall n, 0 <= n -> forall m, g_mul (n + m) a = g_add (g_mul n a) (g_mul m a)).
  { refine (natlike_ind _ _ _).
    - intros k. cbn. now rewrite g_zero_l.
    - intros k K IH j. replace (Z.succ k + j) with (k + j + 1) by lia.
      replace (Z.succ k) with (k + 1) by lia.
      now rewrite !g_mul_succ, IH, g_assoc. }
  destruct (Z.le_ge_cases 0 n) as [N|N]; [now apply P|].
  apply (g_cancel (g_mul (- n) a)). rewrite g_assoc, <- !P by lia.
  f_equal. lia.
Qed.

Lemma g_mul_opp n a : g_mul (- n) a = g_opp (g_mul n a).
Proof.
  apply (g_cancel (g_mul n a)). rewrite g_opp_r, <- g_mul_add.
  replace (n + - n) with 0 by lia. reflexivity.
Qed.

Lemma g_mul_1 a : g_mul 1 a = a.
Proof. cbn. now rewrite g_comm, g_zero_l. Qed.

(** ** Operations on group elements *)

Lemma g_ge_add a b p q : p3_rep (g_xy a) p -> cached_rep (g_xy b) q ->
  safe (ge_add p q) (p1p1_rep (g_xy (g_add a b))).
Proof. apply ge_add_rep; auto using g_xy_curve, g_xy_add. Qed.

Lemma ed_add_opp P Q Q' R : pt_eq Q Q' -> ed_add P Q R -> ed_add P Q' R.
Proof.
  destruct P, Q, Q', R. intros [E F] [A B]. cbn [fst snd] in E, F. split; now rewrite <- E, <- F.
Qed.

Lemma g_ge_sub a b p q : p3_rep (g_xy a) p -> cached_rep (g_xy b) q ->
  safe (ge_sub p q) (p1p1_rep (g_xy (g_add a (g_opp b)))).
Proof.
  apply ge_sub_rep; auto using g_xy_curve.
  eapply ed_add_opp; [apply g_xy_opp | apply g_xy_add].
Qed.

Lemma g_ge_madd a b p q : p3_rep (g_xy a) p -> precomp_rep (g_xy b) q ->
  safe (ge_madd p q) (p1p1_rep (g_xy (g_add a b))).
Proof. apply ge_madd_rep; auto using g_xy_curve, g_xy_add. Qed.

Lemma g_ge_msub a b p q : p3_rep (g_xy a) p -> precomp_rep (g_xy b) q ->
  safe (ge_msub p q) (p1p1_rep (g_xy (g_add a (g_opp b)))).
Proof.
  apply ge_msub_rep; auto using g_xy_curve.
  eapply ed_add_opp; [apply g_xy_opp | apply g_xy_add].
Qed.

Lemma g_ge_p2_dbl a p : p2_rep (g_xy a) p -> safe (ge_p2_dbl p) (p1p1_rep (g_xy (g_add a a))).
Proof. apply ge_p2_dbl_rep; auto using g_xy_curve, g_xy_add. Qed.

Lemma g_ge_p3_dbl a p : p3_rep (g_xy a) p -> safe (ge_p3_dbl p) (p1p1_rep (g_xy (g_add a a))).
Proof. apply ge_p3_dbl_rep; auto using g_xy_curve, g_xy_add. Qed.

Lemma p2_0_rep : p2_rep (g_xy g_zero) ge_p2_0.
Proof. rewrite g_xy_zero. apply ge_p2_0_rep. Qed.
Lemma p3_0_rep : p3_rep (g_xy g_zero) ge_p3_0.
Proof. rewrite g_xy_zero. apply ge_p3_0_rep. Qed.

(** ** Selection of a multiple *)

Lemma precomp_rep_ok P h : precomp_rep P h -> precomp_ok h.
Proof. intros ((B1 & B2 & B3) & _). unfold precomp_ok. conjs; eapply (bd_i32 101); (lia || eassumption). Qed.

Lemma cached_rep_ok P h : cached_rep P h -> cached_ok h.
Proof.
  intros ((B1 & B2 & B3 & B4) & _). unfold cached_ok.
  conjs; first [eapply (bd_i32 330); [lia | eassumption] | eapply (bd_i32 101); [lia | eassumption]].
Qed.

(** The entries of a table: the multiples a, 2a, 3a, ... *)
Definition multiples {E} (rep : pt -> E -> Prop) (a : G) (row : list E) : Prop :=
  forall j t, row !! j = Some t -> rep (g_xy (g_mul (Z.of_nat j + 1) a)) t.

Lemma multiples_lookup {E} (rep : pt -> E -> Prop) (z : E) a row b :
  rep (g_xy g_zero) z -> multiples rep a row -> length row = 8%nat -> 0 <= b <= 8 ->
  rep (g_xy (g_mul b a)) (if b <? 1 then z else default z (row !! Z.to_nat (b - 1))).
Proof.
  intros Z0 M L B. destruct (Z.ltb_spec b 1).
  - replace b with 0 by lia. exact Z0.
  - destruct (lookup_lt_is_Some_2 row (Z.to_nat (b - 1)) ltac:(lia)) as [t Et]. rewrite Et. cbn [default].
    pose proof (M _ _ Et) as R. replace (Z.of_nat (Z.to_nat (b - 1)) + 1) with b in R by lia. exact R.
Qed.

Lemma select_rep a row b : multiples precomp_rep a row -> length row = 8%nat -> -8 <= b <= 8 ->
  safe (select row b) (precomp_rep (g_xy (g_mul b a))).
Proof.
  intros M L B. unfold select.
  assert (Z0 : precomp_rep (g_xy g_zero) ge_precomp_0) by (rewrite g_xy_zero; apply ge_precomp_0_rep).
  assert (OK : Forall precomp_ok row).
  { apply Forall_lookup. intros i t E. eapply precomp_rep_ok, M, E. }
  rewrite negative_spec, babs_spec by lia.
  rewrite (cmov_run_lookup _ precomp_ok)
    by (first [exact ge_precomp_cmov_safe | exact OK | eapply precomp_rep_ok, Z0 | rewrite ?L; lia]).
  cbn [bind].
  pose proof (multiples_lookup _ _ a row (Z.abs b) Z0 M L ltac:(lia)) as R.
  set (t := if Z.abs b <? 1 then _ else _) in *. clearbody t.
  pose proof (precomp_rep_ok _ _ R) as OKt. destruct R as ((B1 & B2 & B3) & V1 & V2 & V3).
  eapply safe_bind; [apply (fe_neg_safe 101); [lia | exact B3]|]. intros m [BM VM]. rewrite !fe_copy_id.
  assert (RN : precomp_rep (g_xy (g_opp (g_mul (Z.abs b) a))) (mkprecomp (yminusx t) (yplusx t) m)).
  { rewrite g_xy_opp. unfold pt_opp. split; [conjs; assumption|]. cbn [yplusx yminusx xy2d fst snd].
    conjs; fe_vals; apply cong_ring; ring. }
  rewrite ge_precomp_cmov_safe
    by (first [exact OKt | eapply precomp_rep_ok, RN | destruct (b <? 0); auto]). cbn [safe].
  destruct (Z.ltb_spec b 0); cbn [Z.eqb Pos.eqb].
  - rewrite <- g_mul_opp in RN. replace (- Z.abs b) with b in RN by lia. exact RN.
  - replace (Z.abs b) with b in * by lia. split; auto.
Qed.

Lemma select_cached_rep a row b : multiples cached_rep a row -> length row = 8%nat -> -8 <= b <= 8 ->
  safe (select_cached row b) (cached_rep (g_xy (g_mul b a))).
Proof.
  intros M L B. unfold select_cached.
  assert (Z0 : cached_rep (g_xy g_zero) ge_cached_0) by (rewrite g_xy_zero; apply ge_cached_0_rep).
  assert (OK : Forall cached_ok row).
  { apply Forall_lookup. intros i t E. eapply cached_rep_ok, M, E. }
  rewrite negative_spec, babs_spec by lia.
  rewrite (cmov_run_lookup _ cached_ok)
    by (first [exact ge_cached_cmov_safe | exact OK | eapply cached_rep_ok, Z0 | rewrite ?L; lia]).
  cbn [bind].
  pose proof (multiples_lookup _ _ a row (Z.abs b) Z0 M L ltac:(lia)) as R.
  set (t := if Z.abs b <? 1 then _ else _) in *. clearbody t.
  pose proof (cached_rep_ok _ _ R) as OKt. destruct R as ((B1 & B2 & B3 & B4) & N & V1 & V2 & V3).
  eapply safe_bind; [apply (fe_neg_safe 101); [lia | exact B4]|]. intros m [BM VM]. rewrite !fe_copy_id.
  assert (RN : cached_rep (g_xy (g_opp (g_mul (Z.abs b) a))) (mkcached (YminusX t) (YplusX t) (cZ t) m)).
  { rewrite g_xy_opp. unfold pt_opp. split; [conjs; assumption|]. cbn [YplusX YminusX cZ T2d fst snd].
    conjs; [exact N | | |]; fe_vals; apply cong_ring; ring. }
  rewrite ge_cached_cmov_safe
    by (first [exact OKt | eapply cached_rep_ok, RN | destruct (b <? 0); auto]). cbn [safe].
  destruct (Z.ltb_spec b 0); cbn [Z.eqb Pos.eqb].
  - rewrite <- g_mul_opp in RN. replace (- Z.abs b) with b in RN by lia. exact RN.
  - replace (Z.abs b) with b in * by lia. split; auto.
Qed.

(** ** The loops *)

(** One group operation of a straight-line part. *)
Ltac g_step :=
  lazymatch goal with
  | |- safe (bind (ge_p2_dbl _) _) _ => eapply safe_bind; [eapply g_ge_p2_dbl; eassumption | intros ? ?]
  | |- safe (bind (ge_p3_dbl _) _) _ => eapply safe_bind; [eapply g_ge_p3_dbl; eassumption | intros ? ?]
  | |- safe (bind (ge_p1p1_to_p2 _) _) _ =>
      eapply safe_bind; [eapply ge_p1p1_to_p2_rep; eassumption | intros ? ?]
  | |- safe (bind (ge_p1p1_to_p3 _) _) _ =>
      eapply safe_bind; [eapply ge_p1p1_to_p3_rep; eassumption | intros ? ?]
  | |- safe (bind (ge_p3_to_cached _) _) _ =>
      eapply safe_bind; [eapply ge_p3_to_cached_rep; eassumption | intros ? ?]
  | |- safe (bind (ge_add _ _) _) _ => eapply safe_bind; [eapply g_ge_add; eassumption | intros ? ?]
  | |- safe (bind (ge_sub _ _) _) _ => eapply safe_bind; [eapply g_ge_sub; eassumption | intros ? ?]
  | |- safe (bind (ge_madd _ _) _) _ => eapply safe_bind; [eapply g_ge_madd; eassumption | intros ? ?]
  end.

(** Equality of sums of multiples. *)
Lemma g_mul_double n a : g_add (g_mul n a) (g_mul n a) = g_mul (2 * n) a.
Proof. rewrite <- g_mul_add. f_equal. lia. Qed.

Lemma sm_table_rep a A n : p3_rep (g_xy a) A -> forall k c, cached_rep (g_xy (g_mul (k + 1) a)) c ->
  safe (sm_table n A c) (fun row => length row = S n /\
    forall j t, row !! j = Some t -> cached_rep (g_xy (g_mul (k + Z.of_nat j + 1) a)) t).
Proof.
  intros RA. induction n as [|n IH]; intros k c C; cbn [sm_table].
  - cbn [safe]. split; [reflexivity|]. intros [|j] t E; [|destruct j; discriminate E].
    injection E as <-. now rewrite Z.add_0_r.
  - repeat g_step.
    match goal with Hc : cached_rep (g_xy (g_add a _)) _ |- _ => rename Hc into C' end.
    rewrite <- g_mul_succ in C'.
    eapply safe_bind; [exact (IH (k + 1) _ C')|]. intros row [L R]. cbn [safe].
    split; [cbn; now rewrite L|]. intros [|j] t E.
    + injection E as <-. now rewrite Z.add_0_r.
    + specialize (R j t E). replace (k + Z.of_nat (S j) + 1) with (k + 1 + Z.of_nat j + 1) by lia. exact R.
Qed.

Lemma sm_step_rep a Ai n r b : multiples cached_rep a Ai -> length Ai = 8%nat -> -8 <= b <= 8 ->
  p2_rep (g_xy (g_mul n a)) r -> safe (sm_step Ai r b) (p2_rep (g_xy (g_mul (b + 16 * n) a))).
Proof.
  intros M L B R. unfold sm_step. repeat g_step.
  eapply safe_bind; [exact (select_cached_rep a Ai b M L B)|]. intros cur C. g_step.
  match goal with Hp : p1p1_rep (g_xy (g_add ?x (g_mul b a))) ?t |- _ =>
    assert (E : g_add x (g_mul b a) = g_mul (b + 16 * n) a); [|rewrite E in Hp] end.
  - rewrite !g_mul_double, <- g_mul_add. f_equal. lia.
  - now apply ge_p1p1_to_p2_rep.
Qed.

Lemma sm_loop_rep a Ai e : multiples cached_rep a Ai -> length Ai = 8%nat ->
  Forall (fun d => -8 <= d <= 8) e ->
  safe (sm_loop Ai ge_p2_0 e) (p2_rep (g_xy (g_mul (digits_val 4 e) a))).
Proof.
  intros M L. induction 1 as [|b e B F IH]; cbn [sm_loop].
  - exact p2_0_rep.
  - eapply safe_bind; [exact IH|]. intros r R. rewrite digits_val_cons. now apply sm_step_rep.
Qed.

Lemma ge_scalarmult_rep a A s x : p3_rep (g_xy a) A -> Forall is_byte s -> last s = Some x -> x <= 127 ->
  safe (ge_scalarmult s A) (p2_rep (g_xy (g_mul (le_val s) a))).
Proof.
  intros RA F L X. destruct (sm_digits_ok s x F L X) as (_ & <- & D).
  unfold ge_scalarmult. g_step.
  match goal with Hc : cached_rep _ _ |- _ => rename Hc into C end.
  rewrite <- (g_mul_1 a) in C. eapply safe_bind; [exact (sm_table_rep a A 7 RA 0 _ C)|].
  intros Ai [LA M]. apply sm_loop_rep; [exact M | exact LA | exact D].
Qed.

(** *** ge_scalarmult_base *)

(** Row i of the table holds the multiples 1..8 of 256^i times the base point. *)
Definition base_table (B : G) (base : list (list ge_precomp)) : Prop :=
  forall i row, base !! i = Some row -> length row = 8%nat /\
    multiples precomp_rep (g_mul (256 ^ Z.of_nat i) B) row.

Lemma g_mul_mul m n a : g_mul m (g_mul n a) = g_mul (m * n) a.
Proof.
  revert m. assert (P : forall m, 0 <= m -> g_mul m (g_mul n a) = g_mul (m * n) a).
  { refine (natlike_ind _ eq_refl _). intros k K IH. replace (Z.succ k) with (k + 1) by lia.
    rewrite g_mul_succ, IH, <- g_mul_add. f_equal. ring. }
  intros m. destruct (Z.le_ge_cases 0 m) as [K|K]; [now apply P|].
  replace m with (- - m) by lia. rewrite g_mul_opp, P by lia. rewrite <- g_mul_opp. f_equal. ring.
Qed.

Lemma base_loop_rep B e : Forall (fun d => -8 <= d <= 8) e -> forall i rows h n,
  (forall j row, rows !! j = Some row -> length row = 8%nat /\
     multiples precomp_rep (g_mul (256 ^ Z.of_nat (i + j)) B) row) ->
  (length e <= length rows)%nat -> p3_rep (g_xy (g_mul n B)) h ->
  safe (base_loop h e rows) (p3_rep (g_xy (g_mul (n + 256 ^ Z.of_nat i * digits_val 8 e) B))).
Proof.
  induction 1 as [|b e D F IH]; intros i rows h n T L R; cbn [base_loop].
  - change (digits_val 8 []) with 0. rewrite Z.mul_0_r, Z.add_0_r. exact R.
  - destruct rows as [|row rows]; [cbn in L; lia|].
    destruct (T 0%nat row eq_refl) as [L8 M]. rewrite Nat.add_0_r in M.
    eapply safe_bind; [exact (select_rep _ row b M L8 D)|]. intros t P. rewrite g_mul_mul in P.
    g_step. match goal with Hp : p1p1_rep _ _ |- _ => rewrite <- g_mul_add in Hp end. g_step.
    eapply safe_mono; [eapply (IH (S i) rows); [| cbn in L; lia | eassumption]|].
    + intros j row' E. rewrite Nat.add_succ_comm. exact (T (S j) row' E).
    + intros h' R'. replace (n + 256 ^ Z.of_nat i * digits_val 8 (b :: e))
        with (n + b * 256 ^ Z.of_nat i + 256 ^ Z.of_nat (S i) * digits_val 8 e); [exact R'|].
      rewrite digits_val_cons, Nat2Z.inj_succ, Z.pow_succ_r by lia. change (2 ^ 8) with 256. ring.
Qed.

Lemma evens_odds_val k : forall e, (length e <= 2 * k)%nat -> Nat.even (length e) = true ->
  digits_val 4 e = digits_val 8 (evens e) + 16 * digits_val 8 (odds e) /\
  length (odds e) = Nat.div2 (length e) /\ length (evens e) = Nat.div2 (length e) /\
  (forall P : Z -> Prop, Forall P e -> Forall P (evens e) /\ Forall P (odds e)).
Proof.
  induction k as [|k IH]; intros e L E.
  - destruct e; [|cbn in L; lia]. repeat split; constructor.
  - destruct e as [|x [|y e]]; [repeat split; constructor | discriminate E|].
    cbn [length] in L. destruct (IH e ltac:(lia) E) as (V & LO & LE & F).
    cbn [evens odds]. rewrite !digits_val_cons, V. cbn [length Nat.div2].
    change (2 ^ 8) with 256. change (2 ^ 4) with 16. conjs; [ring | congruence | congruence|].
    intros P FP. rewrite !Forall_cons in FP. destruct FP as (Px & Py & Fe).
    destruct (F P Fe). split; constructor; assumption.
Qed.

Lemma ge_scalarmult_base_rep B base s x : base_table B base -> length base = 32%nat ->
  length s = 32%nat -> Forall is_byte s -> last s = Some x -> x <= 127 ->
  safe (ge_scalarmult_base base s) (p3_rep (g_xy (g_mul (le_val s) B))).
Proof.
  intros T LB LS F L X. destruct (base_digits_ok s x F L X) as (LD & <- & D).
  unfold ge_scalarmult_base. set (e := base_digits s) in *. clearbody e. rewrite LS in LD.
  destruct (evens_odds_val 32 e ltac:(lia) ltac:(now rewrite LD)) as (-> & LO & LE & FP).
  rewrite LD in LO, LE. destruct (FP _ D) as [FE FO].
  assert (T0 : forall j row, base !! j = Some row -> length row = 8%nat /\
    multiples precomp_rep (g_mul (256 ^ Z.of_nat (0 + j)) B) row) by exact T.
  eapply safe_bind.
  { apply (base_loop_rep B (odds e) FO 0 base ge_p3_0 0 T0); [rewrite LO, LB; cbn; lia | exact p3_0_rep]. }
  intros h R. repeat g_step.
  match goal with Hp : p3_rep (g_xy ?x) ?t |- safe (base_loop ?t _ _) _ =>
    replace x with (g_mul (16 * digits_val 8 (odds e)) B) in Hp;
    [pose proof (base_loop_rep B (evens e) FE 0 base _ _ T0 ltac:(rewrite LE, LB; cbn; lia) Hp) as Q|] end.
  - eapply safe_mono; [exact Q|]. intros h' R'.
    replace (digits_val 8 (evens e) + 16 * digits_val 8 (odds e))
      with (16 * digits_val 8 (odds e) + 256 ^ Z.of_nat 0 * digits_val 8 (evens e));
      [exact R' | change (256 ^ Z.of_nat 0) with 1; ring].
  - rewrite !g_mul_double. f_equal. change (256 ^ Z.of_nat 0) with 1. ring.
Qed.

(** *** Double scalar multiplication *)

(** A table of odd multiples a, 3a, 5a, ... *)
Definition odd_multiples {E} (rep : pt -> E -> Prop) (a : G) (row : list E) : Prop :=
  forall j t, row !! j = Some t -> rep (g_xy (g_mul (2 * Z.of_nat j + 1) a)) t.

Lemma ge_dsm_step_rep a s2 c k : p3_rep (g_xy (g_mul 2 a)) s2 -> cached_rep (g_xy (g_mul k a)) c ->
  safe (ge_dsm_step s2 c) (cached_rep (g_xy (g_mul (k + 2) a))).
Proof.
  intros S C. unfold ge_dsm_step. g_step.
  match goal with Hp : p1p1_rep _ _ |- _ => rewrite <- g_mul_add, (Z.add_comm 2) in Hp end.
  g_step. now apply ge_p3_to_cached_rep.
Qed.

Lemma ge_dsm_precomp_rep a A : p3_rep (g_xy a) A ->
  safe (ge_dsm_precomp A) (fun row => length row = 8%nat /\ odd_multiples cached_rep a row).
Proof.
  intros RA. unfold ge_dsm_precomp. g_step. g_step.
  match goal with Hp : p1p1_rep _ _ |- _ => rewrite <- (g_mul_1 a), g_mul_double in Hp end. g_step.
  match goal with Hc : cached_rep (g_xy a) _ |- _ => rewrite <- (g_mul_1 a) in Hc end.
  do 7 (eapply safe_bind; [eapply ge_dsm_step_rep; eassumption | intros ? ?]).
  cbn [safe]. split; [reflexivity|]. intros j t E.
  do 8 (destruct j as [|j]; [injection E as <-; assumption|]). discriminate E.
Qed.

Lemma odd_index d : slide_digit d -> 0 < d ->
  (Z.to_nat (Z.quot d 2) < 8)%nat /\ 2 * Z.of_nat (Z.to_nat (Z.quot d 2)) + 1 = d.
Proof.
  intros [->|[O B]] P; [lia|]. apply Z.odd_spec in O. destruct O as [m ->].
  rewrite Z.quot_div_nonneg by lia. replace ((2 * m + 1) / 2) with m by (Z.div_mod_to_equations; lia). lia.
Qed.

Lemma slide_digit_opp d : slide_digit d -> slide_digit (- d).
Proof. intros [->|[O B]]; [now left | right]. rewrite Z.odd_opp. split; [exact O | lia]. Qed.

Definition adds_multiple (a : G) (f : Z -> ge_p1p1 -> option ge_p1p1) : Prop :=
  forall d x t, slide_digit d -> p1p1_rep (g_xy x) t ->
    safe (f d t) (p1p1_rep (g_xy (g_add x (g_mul d a)))).

(** The shape shared by the cached and the precomputed table. *)
Lemma adds_multiple_table {E} (rep : pt -> E -> Prop) (add sub : ge_p3 -> E -> option ge_p1p1) a row :
  (forall x y p q, p3_rep (g_xy x) p -> rep (g_xy y) q -> safe (add p q) (p1p1_rep (g_xy (g_add x y)))) ->
  (forall x y p q, p3_rep (g_xy x) p -> rep (g_xy y) q ->
     safe (sub p q) (p1p1_rep (g_xy (g_add x (g_opp y))))) ->
  length row = 8%nat -> odd_multiples rep a row ->
  adds_multiple a (fun d t =>
    if 0 <? d then
      let! u := ge_p1p1_to_p3 t in let! c := row !! Z.to_nat (Z.quot d 2) in add u c
    else if d <? 0 then
      let! u := ge_p1p1_to_p3 t in let! c := row !! Z.to_nat (Z.quot (- d) 2) in sub u c
    else Some t).
Proof.
  intros HA HS L M d x t D R. destruct (Z.ltb_spec 0 d) as [P|P].
  - destruct (odd_index d D P) as [I V]. g_step.
    destruct (lookup_lt_is_Some_2 row _ ltac:(rewrite L; exact I)) as [c Ec]. rewrite Ec. cbn [bind].
    pose proof (M _ _ Ec) as RC. rewrite V in RC. eapply HA; eassumption.
  - destruct (Z.ltb_spec d 0) as [N|N].
    + destruct (odd_index (- d) (slide_digit_opp d D) ltac:(lia)) as [I V]. g_step.
      destruct (lookup_lt_is_Some_2 row _ ltac:(rewrite L; exact I)) as [c Ec]. rewrite Ec. cbn [bind].
      pose proof (M _ _ Ec) as RC. rewrite V in RC.
      replace (g_mul d a) with (g_opp (g_mul (- d) a)) by (rewrite <- g_mul_opp; f_equal; lia).
      eapply HS; eassumption.
    + replace d with 0 by lia. cbn [safe]. change (g_mul 0 a) with g_zero. now rewrite g_comm, g_zero_l.
Qed.

Lemma dsm_cached_ok a row : length row = 8%nat -> odd_multiples cached_rep a row ->
  adds_multiple a (dsm_cached row).
Proof. apply (adds_multiple_table cached_rep ge_add ge_sub); [exact g_ge_add | exact g_ge_sub]. Qed.

Lemma dsm_precomp_ok a row : length row = 8%nat -> odd_multiples precomp_rep a row ->
  adds_multiple a (dsm_precomp row).
Proof. apply (adds_multiple_table precomp_rep ge_madd ge_msub); [exact g_ge_madd | exact g_ge_msub]. Qed.

Lemma g_interchange a b c d : g_add (g_add a b) (g_add c d) = g_add (g_add a c) (g_add b d).
Proof. now rewrite <- !g_assoc, (g_assoc b c), (g_comm b c), <- (g_assoc c b). Qed.

Lemma dsm_loop_rep a b fa fb ds : adds_multiple a fa -> adds_multiple b fb ->
  Forall (fun d => slide_digit (fst d) /\ slide_digit (snd d)) ds ->
  let va := digits_val 1 (map fst ds) in let vb := digits_val 1 (map snd ds) in
  safe (dsm_loop fa fb ge_p2_0 ds) (fun '(on, r) =>
    p2_rep (g_xy (g_add (g_mul va a) (g_mul vb b))) r /\ (on = false -> va = 0 /\ vb = 0)).
Proof.
  intros HA HB. cbv zeta. induction 1 as [|[da db] ds [DA DB] F IH]; cbn [dsm_loop map fst snd] in *.
  - cbn [safe]. split; [|auto]. change (digits_val 1 []) with 0.
    change (g_mul 0 a) with g_zero. change (g_mul 0 b) with g_zero. rewrite g_zero_l. exact p2_0_rep.
  - eapply safe_bind; [exact IH|]. intros [on r] [R Z0]. rewrite !digits_val_cons. change (2 ^ 1) with 2.
    set (va := digits_val 1 (map fst ds)) in *. set (vb := digits_val 1 (map snd ds)) in *.
    destruct (on || negb (da =? 0) || negb (db =? 0)) eqn:C.
    + g_step. eapply safe_bind; [apply HA; [exact DA | eassumption]|]. intros t1 R1.
      eapply safe_bind; [apply HB; [exact DB | eassumption]|]. intros t2 R2.
      eapply safe_bind; [eapply ge_p1p1_to_p2_rep, R2|]. intros r' R'. cbn [safe]. split; [|discriminate].
      rewrite g_interchange, !g_mul_double, <- g_assoc, g_interchange, <- !g_mul_add in R'.
      rewrite (Z.add_comm da), (Z.add_comm db). exact R'.
    + cbn [safe]. repeat rewrite orb_false_iff in C. destruct C as [[-> C1] C2].
      apply negb_false_iff, Z.eqb_eq in C1, C2. subst da db. destruct (Z0 eq_refl) as [-> ->].
      split; [exact R | auto].
Qed.

Lemma zip_fst_snd (l k : list Z) : length l = length k -> map fst (zip l k) = l /\ map snd (zip l k) = k.
Proof.
  revert k. induction l as [|x l IH]; intros [|y k] L; try discriminate L; [auto|].
  destruct (IH k ltac:(cbn in L; lia)) as [E F]. cbn [zip_with map fst snd].
  split; [now rewrite E | now rewrite F].
Qed.

Lemma Forall_zip (P Q : Z -> Prop) l k : Forall P l -> Forall Q k ->
  Forall (fun d => P (fst d) /\ Q (snd d)) (zip l k).
Proof.
  intros F. revert k. induction F as [|x l Px F IH]; intros k K; [constructor|].
  destruct K as [|y k Qy K]; [constructor|]. cbn [zip_with]. constructor; [auto | now apply IH].
Qed.

(** The scalars accepted by both double-scalar functions. *)
Definition slide_scalar (s : list Z) : Prop :=
  length s = 32%nat /\ Forall is_byte s /\ le_val s < 2 ^ 253 + 2.

Lemma dsm_rep a b fa fb s t : adds_multiple a fa -> adds_multiple b fb -> slide_scalar s -> slide_scalar t ->
  safe (let! x := slide s in let! y := slide t in
        let! (_, r) := dsm_loop fa fb ge_p2_0 (zip x y) in Some r)
    (p2_rep (g_xy (g_add (g_mul (le_val s) a) (g_mul (le_val t) b)))).
Proof.
  intros HA HB (L1 & F1 & V1) (L2 & F2 & V2).
  destruct (safe_some _ _ (slide_safe s L1 F1 V1)) as (x & -> & LX & <- & DX).
  destruct (safe_some _ _ (slide_safe t L2 F2 V2)) as (y & -> & LY & <- & DY). cbn [bind].
  pose proof (dsm_loop_rep a b fa fb (zip x y) HA HB (Forall_zip _ _ _ _ DX DY)) as R. cbv zeta in R.
  destruct (zip_fst_snd x y ltac:(congruence)) as [E1 E2]. rewrite E1, E2 in R.
  eapply safe_bind; [exact R|]. intros [on r] [R' _]. exact R'.
Qed.

Lemma ge_double_scalarmult_precomp_rep a b A Bi s t : p3_rep (g_xy a) A ->
  length Bi = 8%nat -> odd_multiples cached_rep b Bi -> slide_scalar s -> slide_scalar t ->
  safe (ge_double_scalarmult_precomp_vartime s A t Bi)
    (p2_rep (g_xy (g_add (g_mul (le_val s) a) (g_mul (le_val t) b)))).
Proof.
  intros RA LB MB S T. unfold ge_double_scalarmult_precomp_vartime.
  destruct (safe_some _ _ (ge_dsm_precomp_rep a A RA)) as (Ai & EA & LA & MA). rewrite EA.
  pose proof (dsm_rep a b _ _ s t (dsm_cached_ok a Ai LA MA) (dsm_cached_ok b Bi LB MB) S T) as R.
  destruct (slide s); [|exact R]. cbn [bind] in *. destruct (slide t); [|exact R]. exact R.
Qed.

Lemma ge_double_scalarmult_base_rep a b A Bi s t : p3_rep (g_xy a) A ->
  length Bi = 8%nat -> odd_multiples precomp_rep b Bi -> slide_scalar s -> slide_scalar t ->
  safe (ge_double_scalarmult_base_vartime Bi s A t)
    (p2_rep (g_xy (g_add (g_mul (le_val s) a) (g_mul (le_val t) b)))).
Proof.
  intros RA LB MB S T. unfold ge_double_scalarmult_base_vartime.
  destruct (safe_some _ _ (ge_dsm_precomp_rep a A RA)) as (Ai & EA & LA & MA). rewrite EA.
  pose proof (dsm_rep a b _ _ s t (dsm_cached_ok a Ai LA MA) (dsm_precomp_ok b Bi LB MB) S T) as R.
  destruct (slide s); [|exact R]. cbn [bind] in *. destruct (slide t); [|exact R]. exact R.
Qed.

(** *** ge_mul8 *)

Lemma ge_mul8_rep a t : p2_rep (g_xy a) t -> safe (ge_mul8 t) (p1p1_rep (g_xy (g_mul 8 a))).
Proof.
  intros R. rewrite <- (g_mul_1 a) in R. unfold ge_mul8. repeat g_step.
  eapply safe_mono; [eapply g_ge_p2_dbl; eassumption|]. intros r R'.
  now rewrite !g_mul_double in R'.
Qed.
End Group.
