(* ===== verification/GeBase.v ===== *)
(** The base-point tables ge_base and ge_Bi hold the multiples they are documented
    to hold ("base[i][j] = (j+1)*256^i*B"): a check of all 264 entries, evaluated
    by the kernel, and its soundness for the group of the curve. *)
From Stdlib Require Import ZArith Lia List Bool Zpow_facts.
From stdpp Require Import base list.
From S2P Require Import Prelude Fe25519 Prime25519 Edwards Ge25519 GeBaseData CurveGroup ScalarMult.
Import ListNotations.
Local Open Scope Z_scope.
Local Open Scope fld_scope.

(** ** The check *)

Definition d_lit : Z := 37095705934669439343138083508754565189542113879843219016388785533085940283555.

Lemma d_lit_ok : d_lit == d25519.
Proof. vm_compute. reflexivity. Qed.

Definition ed_addb (P Q R : pt) : bool :=
  let '(x1, y1) := P in let '(x2, y2) := Q in let '(x3, y3) := R in
  let xx := mulp x1 x2 in let yy := mulp y1 y2 in
  let D := mulp (mulp d_lit xx) yy in
  eqp (x3 * (1 + D)) ((x1 + y1) * (x2 + y2) - xx - yy) && eqp (y3 * (1 - D)) (yy + xx).

Definition within_b (e o : Z) (f : fe) : bool :=
  (- e <=? fe0 f) && (fe0 f <=? e) && (- o <=? fe1 f) && (fe1 f <=? o) && (- e <=? fe2 f) && (fe2 f <=? e) &&
  (- o <=? fe3 f) && (fe3 f <=? o) && (- e <=? fe4 f) && (fe4 f <=? e) && (- o <=? fe5 f) && (fe5 f <=? o) &&
  (- e <=? fe6 f) && (fe6 f <=? e) && (- o <=? fe7 f) && (fe7 f <=? o) && (- e <=? fe8 f) && (fe8 f <=? e) &&
  (- o <=? fe9 f) && (fe9 f <=? o).

(** The affine point of an entry: x = (yplusx - yminusx)/2, y = (yplusx + yminusx)/2. *)
Definition halfp (z : Z) : Z :=
  let r := red z in if Z.even r then Z.div2 r else Z.div2 (r + P25519).
Definition entry_pt (e : ge_precomp) : pt :=
  let a := fe_val (yplusx e) in
  let b := fe_val (yminusx e) in
  (halfp (a - b), halfp (a + b)).

Definition entry_ok (e : ge_precomp) (P : pt) : bool :=
  within_b 33889976 16944988 (yplusx e) && within_b 33889976 16944988 (yminusx e) &&
  within_b 33889976 16944988 (xy2d e) &&
  eqp (fe_val (xy2d e)) (2 * d_lit * mulp (fst P) (snd P)).

(** Each entry is the previous one plus [step]. *)
Fixpoint run_ok (step prev : pt) (row : list ge_precomp) : bool :=
  match row with
  | [] => true
  | e :: row =>
      let P := entry_pt e in
      entry_ok e P && ed_addb step prev P && run_ok step P row
  end.

(** Each point is the double of the previous one. *)
Fixpoint dbl_ok (prev : pt) (l : list pt) : bool :=
  match l with
  | [] => true
  | P :: l => ed_addb prev prev P && dbl_ok P l
  end.

Definition row_ok (row : list ge_precomp) : bool :=
  match row with
  | e :: rest =>
      let P := entry_pt e in
      (length rest =? 7)%nat && entry_ok e P && run_ok P P rest
  | [] => false
  end.

Definition row_first (row : list ge_precomp) : pt := default pt_zero (entry_pt <$> head row).
Definition row_last (row : list ge_precomp) : pt := default pt_zero (entry_pt <$> last row).

Fixpoint rows_ok (rows : list (list ge_precomp)) (between : list (list pt)) : bool :=
  match rows, between with
  | [row], [] => row_ok row
  | row :: (row' :: _) as rows, b :: between =>
      row_ok row && (length b =? 4)%nat && dbl_ok (row_last row) (b ++ [row_first row']) &&
      rows_ok rows between
  | _, _ => false
  end.

(** ** Soundness *)

Lemma ed_addb_sound P Q R : ed_addb P Q R = true -> ed_add P Q R.
Proof.
  destruct P as [x1 y1], Q as [x2 y2], R as [x3 y3]. unfold ed_addb, ed_add. cbv zeta.
  rewrite andb_true_iff. intros [H1 H2]. apply eqp_sound in H1, H2. rewrite !mulp_cong, d_lit_ok in H1, H2.
  split.
  - transitivity (x3 * (1 + d25519 * (x1 * x2) * (y1 * y2))); [apply cong_ring; ring|].
    rewrite H1. apply cong_ring. ring.
  - transitivity (y3 * (1 - d25519 * (x1 * x2) * (y1 * y2))); [apply cong_ring; ring|].
    rewrite H2. apply cong_ring. ring.
Qed.

Lemma within_b_sound e o f : within_b e o f = true -> fe_within e o f.
Proof.
  unfold within_b, fe_within. repeat rewrite andb_true_iff. rewrite !Z.leb_le. tauto.
Qed.

Lemma div2_even r : Z.even r = true -> 2 * Z.div2 r = r.
Proof.
  intros E. apply Z.even_spec in E as [m ->]. rewrite Z.div2_div, (Z.mul_comm 2 m), Z.div_mul; lia.
Qed.

Lemma halfp_ok z : 2 * halfp z == z.
Proof.
  unfold halfp. cbv zeta. transitivity (red z); [|apply red_cong]. generalize (red z). intros r.
  destruct (Z.even r) eqn:E.
  - now rewrite div2_even.
  - rewrite div2_even by (now rewrite Z.even_add, E). apply (cong_quot _ _ _ 1). lia.
Qed.

Lemma entry_ok_rep e : entry_ok e (entry_pt e) = true -> precomp_rep (entry_pt e) e.
Proof.
  unfold entry_ok, precomp_rep. repeat rewrite andb_true_iff.
  intros (((A & B) & C) & D). apply eqp_sound in D. rewrite mulp_cong, d_lit_ok in D.
  conjs; try (apply within_b_sound; assumption).
  - unfold entry_pt. cbn [fst snd]. apply (mul_cong_cancel _ _ 2 two_nonzero).
    rewrite Z.mul_add_distr_r, !(Z.mul_comm _ 2), !halfp_ok. apply cong_ring. ring.
  - unfold entry_pt. cbn [fst snd]. apply (mul_cong_cancel _ _ 2 two_nonzero).
    rewrite Z.mul_sub_distr_r, !(Z.mul_comm _ 2), !halfp_ok. apply cong_ring. ring.
  - rewrite D. generalize d25519 (fst (entry_pt e)) (snd (entry_pt e)). intros d x y. apply cong_ring. ring.
Qed.

Section Sound.
Context {G : Type} `{EdGroup G}.

Lemma ed_add_sum P Q R a b : pt_eq P (g_xy a) -> pt_eq Q (g_xy b) -> ed_add P Q R -> pt_eq R (g_xy (g_add a b)).
Proof.
  intros EP EQ A. eapply ed_add_unique; [apply g_xy_curve | apply g_xy_curve | | apply g_xy_add].
  eapply ed_add_opp; [exact EQ|]. apply ed_add_comm. eapply ed_add_opp; [exact EP|]. now apply ed_add_comm.
Qed.

(** Entries [k], [k + s], [k + 2 s], ... of the multiples of [a]. *)
Lemma row_run_sound s step row a : pt_eq step (g_xy (g_mul s a)) -> forall k prev,
  pt_eq prev (g_xy (g_mul k a)) -> run_ok step prev row = true ->
  forall j t, row !! j = Some t ->
    precomp_rep (g_xy (g_mul (k + s * (Z.of_nat j + 1)) a)) t /\
    pt_eq (entry_pt t) (g_xy (g_mul (k + s * (Z.of_nat j + 1)) a)).
Proof.
  intros ES. induction row as [|e row IH]; intros k prev EP R j t T; [discriminate T|].
  cbn [run_ok] in R. cbv zeta in R. repeat rewrite andb_true_iff in R. destruct R as [[R1 R2] R3].
  pose proof (ed_add_sum _ _ _ _ _ ES EP (ed_addb_sound _ _ _ R2)) as E. rewrite <- g_mul_add in E.
  destruct j as [|j].
  - injection T as <-. replace (k + s * (Z.of_nat 0 + 1)) with (s + k) by lia.
    split; [|exact E]. rewrite <- E. now apply entry_ok_rep.
  - specialize (IH (s + k) _ E R3 j t T).
    replace (k + s * (Z.of_nat (S j) + 1)) with (s + k + s * (Z.of_nat j + 1)) by lia. exact IH.
Qed.

Lemma dbl_sound a l : forall k prev last, pt_eq prev (g_xy (g_mul k a)) -> dbl_ok prev (l ++ [last]) = true ->
  pt_eq last (g_xy (g_mul (2 ^ (Z.of_nat (length l) + 1) * k) a)).
Proof.
  induction l as [|P l IH]; intros k prev last EP D; cbn [app dbl_ok] in D;
    apply andb_true_iff in D; destruct D as [D1 D2];
    pose proof (ed_add_sum _ _ _ _ _ EP EP (ed_addb_sound _ _ _ D1)) as E; rewrite g_mul_double in E.
  - exact E.
  - specialize (IH _ _ _ E D2).
    replace (2 ^ (Z.of_nat (length (P :: l)) + 1) * k) with (2 ^ (Z.of_nat (length l) + 1) * (2 * k)); [exact IH|].
    change (length (P :: l)) with (S (length l)). rewrite !Z.pow_add_r, Nat2Z.inj_succ, Z.pow_succ_r by lia. ring.
Qed.

Lemma row_sound a row : row_ok row = true -> pt_eq (row_first row) (g_xy a) ->
  length row = 8%nat /\ multiples precomp_rep a row /\ pt_eq (row_last row) (g_xy (g_mul 8 a)).
Proof.
  destruct row as [|e rest]; [discriminate|]. unfold row_ok, row_first, row_last. cbv zeta. cbn [head fmap option_fmap option_map default].
  repeat rewrite andb_true_iff. intros ((L & O) & R) E. apply Nat.eqb_eq in L.
  rewrite <- (g_mul_1 a) in E. pose proof (row_run_sound 1 _ rest a E 1 _ E R) as RS.
  split; [cbn; lia|]. split.
  - intros [|j] t T.
    + injection T as <-. change (Z.of_nat 0 + 1) with 1. rewrite <- E. now apply entry_ok_rep.
    + destruct (RS j t T) as [P _]. replace (Z.of_nat (S j) + 1) with (1 + 1 * (Z.of_nat j + 1)) by lia. exact P.
  - destruct (lookup_lt_is_Some_2 rest 6 ltac:(lia)) as [t T].
    assert (LT : last (e :: rest) = Some t).
    { rewrite last_lookup. cbn [length]. rewrite L. exact T. }
    rewrite LT. cbn. exact (proj2 (RS 6%nat t T)).
Qed.

Lemma rows_sound rows : forall between a, rows_ok rows between = true ->
  pt_eq (row_first (default [] (head rows))) (g_xy a) ->
  forall i row, rows !! i = Some row ->
    length row = 8%nat /\ multiples precomp_rep (g_mul (256 ^ Z.of_nat i) a) row.
Proof.
  induction rows as [|row rows IH]; intros between a R E i r T; [discriminate T|].
  cbn [head default] in E.
  assert (F : row_ok row = true).
  { destruct rows; cbn [rows_ok] in R; destruct between; try discriminate R; [exact R|].
    repeat rewrite andb_true_iff in R. tauto. }
  destruct (row_sound a row F E) as (L & M & E8).
  destruct i as [|i].
  - injection T as <-. change (256 ^ Z.of_nat 0) with 1. rewrite g_mul_1. auto.
  - destruct rows as [|row' rows]; [discriminate T|].
    destruct between as [|b between]; [discriminate R|]. cbn [rows_ok] in R.
    repeat rewrite andb_true_iff in R. destruct R as [[[_ LB] D] R]. apply Nat.eqb_eq in LB.
    pose proof (dbl_sound a b 8 _ _ E8 D) as E'. rewrite LB in E'.
    change (2 ^ (Z.of_nat 4 + 1) * 8) with 256 in E'.
    destruct (IH between (g_mul 256 a) R E' i r T) as [L' M']. split; [exact L'|].
    rewrite g_mul_mul in M'. replace (256 ^ Z.of_nat (S i)) with (256 ^ Z.of_nat i * 256); [exact M'|].
    rewrite Nat2Z.inj_succ, Z.pow_succ_r by lia. ring.
Qed.
End Sound.

(** ** The tables *)

Lemma ge_base_rows_ok : rows_ok ge_base ge_base_between = true.
Proof. vm_cast_no_check (eq_refl true). Qed.

(** The base point, (x, 4/5) with x even. *)
Definition base_pt : pt :=
  (fst (row_first ge_base_0) mod P25519, snd (row_first ge_base_0) mod P25519).

Lemma base_pt_curve : curveb base_pt = true.
Proof. vm_compute. reflexivity. Qed.

Definition base_point : cpt := exist _ base_pt base_pt_curve.

Lemma base_pt_first : pt_eq (row_first (default [] (head ge_base))) base_pt.
Proof. split; vm_compute; reflexivity. Qed.

Lemma ge_base_multiples : base_table base_point ge_base.
Proof.
  intros i row T. apply (rows_sound ge_base ge_base_between base_point ge_base_rows_ok); [exact base_pt_first | exact T].
Qed.

(** ge_Bi: B, 3B, ..., 15B. *)
Definition bi_ok (row : list ge_precomp) (B B2 : pt) : bool :=
  match row with
  | e :: rest =>
      let P := entry_pt e in
      (length rest =? 7)%nat && entry_ok e P && ed_addb P P B2 && run_ok B2 P rest &&
      eqp (fst P) (fst B) && eqp (snd P) (snd B)
  | [] => false
  end.

Lemma bi_sound {G} `{EdGroup G} (a : G) row B B2 : bi_ok row B B2 = true -> pt_eq B (g_xy a) ->
  length row = 8%nat /\ odd_multiples precomp_rep a row.
Proof.
  destruct row as [|e rest]; [discriminate|]. unfold bi_ok. cbv zeta.
  repeat rewrite andb_true_iff.
  intros (((((L & O) & D) & R) & E1) & E2) EB. apply Nat.eqb_eq in L. apply eqp_sound in E1, E2.
  assert (E : pt_eq (entry_pt e) (g_xy a)) by (transitivity B; [split; assumption | exact EB]).
  pose proof (ed_add_sum _ _ _ _ _ E E (ed_addb_sound _ _ _ D)) as S2.
  rewrite <- (g_mul_1 a), g_mul_double in S2. rewrite <- (g_mul_1 a) in E.
  pose proof (row_run_sound (2 * 1) _ rest a S2 1 _ E R) as RS. split; [cbn; lia|].
  intros [|j] t T.
  - injection T as <-. change (2 * Z.of_nat 0 + 1) with 1. rewrite <- E. now apply entry_ok_rep.
  - destruct (RS j t T) as [P _]. replace (2 * Z.of_nat (S j) + 1) with (1 + 2 * 1 * (Z.of_nat j + 1)) by lia. exact P.
Qed.

Lemma ge_Bi_ok : bi_ok ge_Bi base_pt (entry_pt (nth 1 ge_base_0 ge_precomp_0)) = true.
Proof. vm_compute. reflexivity. Qed.

Lemma ge_Bi_multiples : length ge_Bi = 8%nat /\ odd_multiples precomp_rep base_point ge_Bi.
Proof. apply (bi_sound base_point ge_Bi _ _ ge_Bi_ok). reflexivity. Qed.
