(* ===== verification/GeCodec.v ===== *)
(** Point encoding and decoding (libcryptonote/crypto/crypto-ops.c): ge_tobytes,
    ge_p3_tobytes and ge_frombytes_vartime.  A point is encoded as the 255 bits of
    y and one sign bit, the parity of x; decoding accepts exactly the encodings of
    curve points. *)
From Stdlib Require Import ZArith Lia List Bool Zpow_facts ZmodInv.
From S2P Require Import Prelude CInt Bytes Fe25519 FeBytes FePow Prime25519 Edwards CurveGroup Ge25519.
Import ListNotations.
Local Open Scope Z_scope.
Local Open Scope fld_scope.

(** ** Definitions *)

(** The square-root step: u/v to x, or the [return -1] after both checks fail. *)
Definition ge_frombytes_x (u v : fe) : option (option fe) :=
  let! hX := fe_divpowm1 u v in
  let! vxx := fe_sq hX in
  let! vxx := fe_mul vxx v in
  let! check := fe_sub vxx u in
  let! nz := fe_isnonzero check in
  if negb (nz =? 0) then
    let! check := fe_add vxx u in
    let! nz := fe_isnonzero check in
    if negb (nz =? 0) then Some None
    else
      let! hX := fe_mul hX fe_sqrtm1 in
      Some (Some hX)
  else Some (Some hX).

(** The sign adjustment. *)
Definition ge_frombytes_sign (hX : fe) (sign : Z) : option (option fe) :=
  let! neg := fe_isnegative hX in
  if negb (neg =? sign) then
    let! nz := fe_isnonzero hX in
    if nz =? 0 then Some None
    else
      let! hX := fe_neg hX in
      Some (Some hX)
  else Some (Some hX).

(** [Some None] is [return -1], [Some (Some h)] is [return 0] with the point. *)
Definition ge_frombytes_vartime (s : list Z) : option (option ge_p3) :=
  let! c := fe_frombytes_check s in
  match c with
  | None => Some None
  | Some hY =>
      let hZ := fe_1 in
      let! u := fe_sq hY in
      let! v := fe_mul u fe_d in
      let! u := fe_sub u hZ in
      let! v := fe_add v hZ in
      let! r := ge_frombytes_x u v in
      match r with
      | None => Some None
      | Some hX =>
          let! s31 := nth_error s 31 in
          let! r := ge_frombytes_sign hX (Z.shiftr s31 7) in
          match r with
          | None => Some None
          | Some hX =>
              let! hT := fe_mul hX hY in
              Some (Some (mkp3 hX hY hZ hT))
          end
      end
  end.

(** ** The encoding *)

(** The 32 bytes of a point. *)
Definition pt_encode (P : pt) : list Z :=
  le_bytes 32 (snd P mod P25519 + 2 ^ 255 * ((fst P mod P25519) mod 2)).

Lemma cong_mod_eq a b : a == b -> a mod P25519 = b mod P25519.
Proof. auto. Qed.

Lemma le_bytes_snoc n v : le_bytes (S n) v = le_bytes n v ++ [(v / 2 ^ (8 * Z.of_nat n)) mod 256].
Proof. unfold le_bytes. rewrite seq_S, map_app. reflexivity. Qed.

Lemma le_bytes_mod n v : 0 <= v -> le_bytes n (v mod 2 ^ (8 * Z.of_nat n)) = le_bytes n v.
Proof.
  intros V. rewrite <- le_val_le_bytes. rewrite <- (length_le_bytes n v) at 1.
  apply le_bytes_le_val, le_bytes_byte.
Qed.

Lemma set_sign_bit y b : 0 <= y < 2 ^ 255 -> b = 0 \/ b = 1 ->
  (let! s31 := nth_error (le_bytes 32 y) 31 in
   Some (firstn 31 (le_bytes 32 y) ++ [to_u8 (Z.lxor s31 (Z.shiftl b 7))])) =
  Some (le_bytes 32 (y + 2 ^ 255 * b)).
Proof.
  intros Y B. rewrite !(le_bytes_snoc 31). change (8 * Z.of_nat 31) with 248.
  rewrite nth_error_app2, firstn_app, firstn_all2 by (rewrite length_le_bytes; lia).
  rewrite length_le_bytes. cbn [Nat.sub firstn nth_error bind]. rewrite app_nil_r. f_equal. f_equal.
  - rewrite <- (le_bytes_mod 31 y), <- (le_bytes_mod 31 (y + 2 ^ 255 * b)) by lia.
    change (8 * Z.of_nat 31) with 248. f_equal.
    replace (2 ^ 255 * b) with (128 * b * 2 ^ 248) by ring. now rewrite Z_mod_plus_full.
  - f_equal. replace (2 ^ 255 * b) with (128 * b * 2 ^ 248) by ring. rewrite Z.div_add by lia.
    assert (H : 0 <= y / 2 ^ 248 < 128)
      by (split; [apply Z.div_pos; lia | apply Z.div_lt_upper_bound; lia]).
    set (t := y / 2 ^ 248) in *. clearbody t. unfold to_u8. rewrite (Z.mod_small t) by lia. f_equal.
    destruct B as [-> | ->].
    + now rewrite Z.shiftl_0_l, Z.lxor_0_r, Z.mul_0_r, Z.add_0_r.
    + change (Z.shiftl 1 7) with 128.
      change (128 * 1) with 128. rewrite Z.add_nocarry_lxor; [reflexivity|].
      apply Z.bits_inj'. intros n Hn. rewrite Z.land_spec, Z.bits_0. change 128 with (2 ^ 7).
      rewrite Z.pow2_bits_eqb by lia. destruct (Z.eqb_spec 7 n) as [<-|]; [|apply andb_false_r].
      rewrite andb_true_r. rewrite <- (Z.mod_small t (2 ^ 7)) by lia. apply Z.mod_pow2_bits_high. lia.
Qed.

Lemma encode_finish P x y : fe_bd 101 x -> fe_bd 101 y -> fe_val x == fst P -> fe_val y == snd P ->
  (let! s := fe_tobytes y in
   let! neg := fe_isnegative x in
   let! s31 := nth_error s 31 in
   Some (firstn 31 s ++ [to_u8 (Z.lxor s31 (Z.shiftl neg 7))])) = Some (pt_encode P).
Proof.
  intros BX BY EX EY. unfold cong in EX, EY.
  assert (Y : 0 <= snd P mod P25519 < 2 ^ 255)
    by (pose proof (modp_range (snd P)); assert (P25519 < 2 ^ 255) by reflexivity; lia).
  assert (X : (fst P mod P25519) mod 2 = 0 \/ (fst P mod P25519) mod 2 = 1)
    by (pose proof (Z.mod_pos_bound (fst P mod P25519) 2); lia).
  rewrite fe_tobytes_safe, fe_isnegative_safe, EX, EY by (eapply fe_bd_mono; [|eassumption]; lia).
  exact (set_sign_bit _ _ Y X).
Qed.

Lemma ge_encode_safe P hX hY hZ : fe_bd 101 hX -> fe_bd 101 hY -> fe_bd 101 hZ ->
  ~ (fe_val hZ == 0) -> fe_val hX == fst P * fe_val hZ -> fe_val hY == snd P * fe_val hZ ->
  ge_encode hX hY hZ = Some (pt_encode P).
Proof.
  intros BX BY BZ N EX EY. unfold ge_encode.
  destruct (safe_some _ _ (fe_invert_safe hZ (fe_bd_mono 101 330 _ ltac:(lia) BZ))) as (r & -> & BR & VR).
  pose proof (inv_cong _ N) as I. rewrite <- VR in I. cbn [bind].
  destruct (safe_some _ _ (fe_mul_step 101 101 hX r ltac:(lia) ltac:(lia) BX BR)) as (x & -> & Bx & Vx).
  destruct (safe_some _ _ (fe_mul_step 101 101 hY r ltac:(lia) ltac:(lia) BY BR)) as (y & -> & By & Vy).
  cbn [bind]. apply encode_finish; try assumption.
  - rewrite Vx, EX. transitivity (fst P * (fe_val hZ * fe_val r)); [apply cong_ring; ring|].
    rewrite I. apply cong_ring. ring.
  - rewrite Vy, EY. transitivity (snd P * (fe_val hZ * fe_val r)); [apply cong_ring; ring|].
    rewrite I. apply cong_ring. ring.
Qed.

Lemma ge_tobytes_safe P h : p2_rep P h -> ge_tobytes h = Some (pt_encode P).
Proof. intros ((? & ? & ?) & N & X & Y). now apply ge_encode_safe. Qed.

Lemma ge_p3_tobytes_safe P h : p3_rep P h -> ge_p3_tobytes h = Some (pt_encode P).
Proof. intros ((? & ? & ? & ?) & N & X & Y & _). now apply ge_encode_safe. Qed.

(** ** Square roots *)

Lemma fe_1_bd1 : fe_bd 1 fe_1. Proof. vm_compute. intuition discriminate. Qed.
Lemma fe_d_bd : fe_bd 101 fe_d. Proof. vm_compute. intuition discriminate. Qed.
Lemma fe_sqrtm1_bd : fe_bd 101 fe_sqrtm1. Proof. vm_compute. intuition discriminate. Qed.

Lemma isnonzero_test f : fe_bd 330 f ->
  exists z, fe_isnonzero f = Some z /\ ((z =? 0) = true <-> fe_val f == 0).
Proof.
  intros B. rewrite fe_isnonzero_safe by exact B. eexists. split; [reflexivity|].
  rewrite <- modp_0. destruct (Z.eqb_spec (fe_val f mod P25519) 0) as [E|E]; split; intros H.
  - exact E.
  - reflexivity.
  - discriminate H.
  - contradiction.
Qed.

(** v * x0^2 = u * w^((p-1)/4) for the candidate x0 = u v^3 w^((p-5)/8), w = u v^7. *)
Lemma candidate_square u v x0 e : 0 <= e -> x0 == u * v ^ 3 * (u * v ^ 7) ^ e ->
  v * (x0 * x0) == u * (u * v ^ 7) ^ (2 * e + 1).
Proof.
  intros E ->. rewrite (Z.pow_add_r _ (2 * e) 1), Z.pow_1_r by lia.
  replace (2 * e) with (e + e) by lia. rewrite Z.pow_add_r by lia.
  generalize ((u * v ^ 7) ^ e). intros t. apply cong_ring. ring.
Qed.

Lemma square_of_one c : c * c == 1 -> c == 1 \/ c == -1.
Proof.
  intros C. assert (Z0 : (c - 1) * (c + 1) == 0).
  { transitivity (c * c - 1); [apply cong_ring; ring|]. rewrite C. reflexivity. }
  destruct (mul_cong_0 _ _ Z0) as [E|E]; [left | right].
  - now apply cong_sub_0.
  - apply cong_sub_0. rewrite <- E. apply cong_ring. ring.
Qed.

(** When u/v is a square the candidate is a root of u/v or of -u/v. *)
Lemma candidate_root u v x0 x : v * (x * x) == u ->
  x0 == u * v ^ 3 * (u * v ^ 7) ^ ((P25519 - 5) / 8) -> v * (x0 * x0) == u \/ v * (x0 * x0) == - u.
Proof.
  intros X E. assert (E0 : 0 <= (P25519 - 5) / 8) by (apply Z.leb_le; reflexivity).
  pose proof (candidate_square u v x0 _ E0 E) as S. clear E0.
  set (k := 2 * ((P25519 - 5) / 8) + 1) in *.
  assert (K : 0 < k) by reflexivity. assert (K4 : 4 * k = P25519 - 1) by reflexivity. clearbody k.
  destruct (Z.eq_dec (u mod P25519) 0) as [Z0|N].
  - left. apply (proj1 (modp_0 u)) in Z0. transitivity (0 * (u * v ^ 7) ^ k); [rewrite S; now apply cong_mul|].
    rewrite Z0. reflexivity.
  - assert (N0 : ~ (u == 0)) by (intros H; apply N; now apply (proj2 (modp_0 _))).
    set (w := u * v ^ 7) in *. set (t := x * v ^ 4).
    assert (W : w == t * t).
    { unfold w, t. rewrite <- X. apply cong_ring. ring. }
    assert (T0 : ~ (t == 0)).
    { intros T. apply N0. rewrite <- X. unfold t in T. destruct (mul_cong_0 _ _ T) as [H|H].
      - rewrite H. apply cong_ring. ring.
      - replace (v ^ 4) with (v * v ^ 3) in H by ring.
        assert (V : v == 0).
        { destruct (mul_cong_0 _ _ H) as [|H3]; [assumption|]. replace (v ^ 3) with (v * (v * v)) in H3 by ring.
          destruct (mul_cong_0 _ _ H3) as [|H2]; [assumption|]. now destruct (mul_cong_0 _ _ H2). }
        rewrite V. apply cong_ring. ring. }
    assert (C : w ^ k * w ^ k == 1).
    { rewrite W, <- Z.pow_add_r by lia. replace (t * t) with (t ^ 2) by ring.
      rewrite <- Z.pow_mul_r by lia. replace (2 * (k + k)) with (P25519 - 1) by lia.
      unfold cong. rewrite (ZmodInv.Z.fermat_nz _ _ p25519_prime) by (intros H; apply T0; now apply (proj2 (modp_0 _))).
      symmetry. now apply Z.mod_1_l. }
    destruct (square_of_one _ C) as [H|H]; rewrite S, H; [left | right]; apply cong_ring; ring.
Qed.

(** ** Decoding *)

Lemma mul_sq_root v x i : i * i == -1 -> v * ((x * i) * (x * i)) == - (v * (x * x)).
Proof.
  intros I. transitivity (v * (x * x) * (i * i)); [apply cong_ring; ring|]. rewrite I.
  apply cong_ring. ring.
Qed.

Lemma ge_frombytes_x_safe u v : fe_bd 102 u -> fe_bd 102 v ->
  safe (ge_frombytes_x u v) (fun r =>
    match r with
    | None => forall x, ~ (fe_val v * (x * x) == fe_val u)
    | Some h => fe_bd 101 h /\ fe_val v * (fe_val h * fe_val h) == fe_val u
    end).
Proof.
  intros BU BV. unfold ge_frombytes_x.
  eapply safe_bind; [apply fe_divpowm1_safe; (eapply fe_bd_mono; [|eassumption]; lia)|].
  intros x0 [B0 V0].
  assert (R : forall x, fe_val v * (x * x) == fe_val u ->
              fe_val v * (fe_val x0 * fe_val x0) == fe_val u \/
              fe_val v * (fe_val x0 * fe_val x0) == - fe_val u)
    by (intros x Hx; now apply (candidate_root _ _ _ x)). clear V0.
  do 3 fe_step. destruct (isnonzero_test a1) as (z & -> & Hz); [fe_done|]. cbn [bind].
  assert (E : fe_val a0 == fe_val v * (fe_val x0 * fe_val x0)) by (rewrite V0, V; apply cong_ring; ring).
  rewrite V1 in Hz. destruct (z =? 0); cbn [negb].
  { cbn [safe]. split; [exact B0|]. rewrite <- E. apply cong_sub_0. now apply Hz. }
  fe_step. destruct (isnonzero_test a2) as (z' & -> & Hz'); [fe_done|]. cbn [bind].
  rewrite V2 in Hz'. destruct (z' =? 0); cbn [negb].
  - pose proof fe_sqrtm1_bd. fe_step. cbn [safe]. split; [assumption|]. rewrite V3, mul_sq_root by exact sqrtm1_sq.
    rewrite <- E. transitivity (- (fe_val a0 + fe_val u) + fe_val u); [apply cong_ring; ring|].
    rewrite (proj1 Hz' eq_refl). reflexivity.
  - cbn [safe]. intros x Hx. destruct (R x Hx) as [H|H]; rewrite <- E in H.
    + assert (F : false = true) by (exact (proj2 Hz (proj1 (cong_sub_0 _ _) H))). discriminate F.
    + assert (F : false = true) by (apply Hz'; rewrite H; apply cong_ring; ring). discriminate F.
Qed.

Lemma opp_mod a : ~ (a == 0) -> (- a) mod P25519 = P25519 - a mod P25519.
Proof. intros N. apply Z.mod_opp_l_nz; [discriminate|]. intros H. apply N. now apply modp_0. Qed.

Lemma opp_parity a : ~ (a == 0) -> (- a) mod P25519 mod 2 = 1 - (a mod P25519) mod 2.
Proof.
  intros N. rewrite (opp_mod a N). assert (O : P25519 mod 2 = 1) by reflexivity.
  generalize dependent P25519. intros p N O. Z.div_mod_to_equations. lia.
Qed.

Lemma ge_frombytes_sign_safe h b : fe_bd 101 h -> b = 0 \/ b = 1 ->
  safe (ge_frombytes_sign h b) (fun r =>
    match r with
    | None => fe_val h == 0 /\ b = 1
    | Some k => fe_bd 101 k /\ fe_val k * fe_val k == fe_val h * fe_val h /\
                (fe_val k mod P25519) mod 2 = b
    end).
Proof.
  intros B Hb. unfold ge_frombytes_sign. rewrite fe_isnegative_safe by (eapply fe_bd_mono; [|exact B]; lia).
  cbn [bind]. destruct (Z.eqb_spec ((fe_val h mod P25519) mod 2) b) as [E|N]; cbn [negb].
  { cbn [safe]. conjs; [exact B | reflexivity | exact E]. }
  destruct (isnonzero_test h) as (z & -> & Hz); [fe_done|]. cbn [bind].
  destruct (z =? 0); cbn [negb].
  - cbn [safe]. assert (H : fe_val h == 0) by (now apply Hz). split; [exact H|].
    rewrite (cong_mod_eq _ _ H) in N. change (0 mod P25519 mod 2) with 0 in N. lia.
  - fe_step. cbn [safe]. rewrite V. conjs.
    + assumption.
    + apply cong_ring. ring.
    + rewrite opp_parity by (intros H; discriminate (proj2 Hz H)).
      pose proof (Z.mod_pos_bound (fe_val h mod P25519) 2). lia.
Qed.

(** v = d y^2 + 1 is not zero, as d is not a square and -1 is. *)
Lemma denominator_v y : ~ (d25519 * (y * y) + 1 == 0).
Proof.
  intros H. destruct (Z.eq_dec (y mod P25519) 0) as [Ey|Ey].
  - apply (proj1 (modp_0 y)) in Ey. apply one_neq_0. rewrite <- H, Ey. apply cong_ring. ring.
  - apply (d_no_ratio (fe_val fe_sqrtm1) y); [intros E; apply Ey; now apply (proj2 (modp_0 _))|].
    rewrite sqrtm1_sq. transitivity (d25519 * (y * y) + 1 - 1); [apply cong_ring; ring|].
    rewrite H. reflexivity.
Qed.

Lemma curve_x x y : on_curve (x, y) <-> (d25519 * (y * y) + 1) * (x * x) == y * y - 1.
Proof.
  unfold on_curve. rewrite (cong_sub_0 (y * y - x * x)), (cong_sub_0 (_ * (x * x))). split; intros H.
  - transitivity (- (y * y - x * x - (1 + d25519 * (x * x) * (y * y)))); [apply cong_ring; ring|].
    rewrite H. reflexivity.
  - transitivity (- ((d25519 * (y * y) + 1) * (x * x) - (y * y - 1))); [apply cong_ring; ring|].
    rewrite H. reflexivity.
Qed.


Lemma sign_byte s : is_bytes 32 s ->
  exists s31, nth_error s 31 = Some s31 /\ Z.shiftr s31 7 = le_val s / 2 ^ 255.
Proof.
  intros [L F]. destruct (nth_error s 31) as [s31|] eqn:E; [|apply nth_error_None in E; lia].
  exists s31. split; [reflexivity|]. destruct (nth_error_split _ _ E) as (l1 & l2 & -> & L1).
  rewrite length_app in L. cbn [length] in L. destruct l2 as [|]; [|cbn [length] in L; lia].
  apply Forall_app in F as [F1 F2]. apply le_val_bound in F1. rewrite L1 in F1.
  change (8 * Z.of_nat 31) with 248 in F1.
  rewrite le_val_app, L1. cbn [le_val]. change (256 ^ Z.of_nat 31) with (2 ^ 248).
  change (8 * Z.of_nat 31) with 248.
  rewrite Z.shiftr_div_pow2 by lia. change (2 ^ 255) with (2 ^ 248 * 2 ^ 7).
  rewrite <- Z.div_div by lia. f_equal. rewrite Z.mul_0_r, Z.add_0_r.
  rewrite Z.mul_comm, Z.div_add by lia. rewrite Z.div_small by lia. lia.
Qed.

Lemma cpt_curveb (P : cpt) : curveb (proj1_sig P) = true.
Proof. exact (proj2_sig P). Qed.

Lemma cpt_mod (P : cpt) : fst (proj1_sig P) mod P25519 = fst (proj1_sig P) /\
  snd (proj1_sig P) mod P25519 = snd (proj1_sig P).
Proof.
  pose proof (cpt_curveb P) as C. destruct (proj1_sig P) as [x y].
  apply curveb_iff in C as (X & Y & _). cbn [fst snd]. split; now apply Z.mod_small.
Qed.

(** The strings that encode P are those with its y and its sign bit. *)
Lemma pt_encode_iff s P : is_bytes 32 s ->
  s = pt_encode P <->
  le_val s mod 2 ^ 255 = snd P mod P25519 /\ le_val s / 2 ^ 255 = (fst P mod P25519) mod 2.
Proof.
  intros [L F]. unfold pt_encode.
  pose proof (modp_range (snd P)) as Y. assert (P25519 < 2 ^ 255) by reflexivity.
  pose proof (Z.mod_pos_bound (fst P mod P25519) 2 ltac:(lia)) as B.
  set (y := snd P mod P25519) in *. set (b := (fst P mod P25519) mod 2) in *. clearbody y b.
  split.
  - intros ->. rewrite le_val_le_bytes. change (8 * Z.of_nat 32) with 256.
    rewrite (Z.mod_small (y + _)) by lia. split.
    + rewrite Z.mul_comm, Z_mod_plus_full. apply Z.mod_small. lia.
    + rewrite Z.mul_comm, Z.div_add, Z.div_small by lia. lia.
  - intros [E1 E2]. rewrite <- (le_bytes_le_val s F), L. f_equal.
    rewrite (Z.div_mod (le_val s) (2 ^ 255)) by lia. lia.
Qed.

Lemma sign_range s : is_bytes 32 s -> le_val s / 2 ^ 255 = 0 \/ le_val s / 2 ^ 255 = 1.
Proof.
  intros [L F]. apply le_val_bound in F. rewrite L in F. change (8 * Z.of_nat 32) with 256 in F.
  pose proof (Z.div_pos (le_val s) (2 ^ 255)).
  pose proof (Z.div_lt_upper_bound (le_val s) (2 ^ 255) 2). lia.
Qed.

(** x is determined by y up to its sign; 0 is its own opposite. *)
Lemma zero_root x y h : 0 <= x < P25519 -> on_curve (x, y) ->
  (d25519 * (y * y) + 1) * (h * h) == y * y - 1 -> h == 0 -> x = 0.
Proof.
  intros XR C V H. apply curve_x in C. rewrite <- V, H in C.
  assert (XX : x * x == 0).
  { apply (mul_cong_cancel _ _ _ (denominator_v y)). rewrite (Z.mul_comm (x * x)), C.
    apply cong_ring. ring. }
  assert (XZ : x == 0) by (now destruct (mul_cong_0 _ _ XX)). unfold cong in XZ.
  now rewrite Z.mod_small in XZ by exact XR.
Qed.

(** Both outcomes of ge_frombytes_vartime, on every 32-byte string. *)
Lemma ge_frombytes_vartime_safe s : is_bytes 32 s ->
  safe (ge_frombytes_vartime s) (fun r =>
    match r with
    | None => forall P : cpt, s <> pt_encode (proj1_sig P)
    | Some h => exists P : cpt, s = pt_encode (proj1_sig P) /\ p3_rep (proj1_sig P) h
    end).
Proof.
  intros S. unfold ge_frombytes_vartime.
  assert (K : forall P : cpt, s = pt_encode (proj1_sig P) ->
    le_val s mod 2 ^ 255 = snd (proj1_sig P) /\
    le_val s / 2 ^ 255 = fst (proj1_sig P) mod 2 /\ curveb (proj1_sig P) = true).
  { intros P E. apply pt_encode_iff in E; [|exact S]. destruct (cpt_mod P) as [-> ->] in E.
    conjs; [apply E | apply E | apply cpt_curveb]. }
  eapply safe_bind; [apply fe_frombytes_check_safe, S|]. intros [hY|] HY; cbn [safe].
  2:{ intros P E. destruct (K P E) as (Y & _ & C). destruct (proj1_sig P) as [x y].
      apply curveb_iff in C. cbn [snd] in Y. lia. }
  destruct HY as (YR & BY & VY). pose proof (Z.mod_pos_bound (le_val s) (2 ^ 255) ltac:(lia)) as Y0.
  remember (le_val s mod 2 ^ 255) as y eqn:Ey.
  pose proof fe_1_bd1. pose proof fe_d_bd. do 4 fe_step.
  assert (EU : fe_val a1 == y * y - 1) by (rewrite V1, V, VY; reflexivity).
  assert (EV : fe_val a2 == d25519 * (y * y) + 1).
  { rewrite V2, V0, V, VY. fold d25519. rewrite fe_1_val. apply cong_ring. ring. }
  eapply safe_bind; [apply ge_frombytes_x_safe; assumption|]. intros [hX|] HX; cbn [safe].
  2:{ intros P E. destruct (K P E) as (Y & _ & C). destruct (proj1_sig P) as [x y'].
      apply curveb_iff in C as (_ & _ & C). cbn [snd] in Y. subst y'. apply (HX x).
      rewrite EU, EV. now apply curve_x. }
  destruct HX as [BX VX]. rewrite EU, EV in VX.
  destruct (sign_byte s S) as (s31 & -> & Eb). cbn [bind]. rewrite Eb.
  pose proof (sign_range s S) as Hb.
  eapply safe_bind; [apply (ge_frombytes_sign_safe hX _ BX Hb)|]. intros [hX'|] HX; cbn [safe].
  2:{ destruct HX as [X0 Bone]. intros P E. destruct (K P E) as (Y & EB & C). destruct (proj1_sig P) as [x y'].
      apply curveb_iff in C as (XR & _ & C). cbn [fst snd] in *. subst y'.
      rewrite EB, (zero_root x y (fe_val hX) XR C VX X0) in Bone. discriminate Bone. }
  destruct HX as (BX' & SX & PX).
  assert (C : curveb (fe_val hX' mod P25519, y) = true).
  { apply curveb_iff. conjs; [apply modp_range | apply modp_range | lia | lia|].
    apply curve_x. now rewrite !modp, SX. }
  fe_step. cbn [safe]. exists (exist (fun P => curveb P = true) _ C). cbn [proj1_sig]. split.
  - apply pt_encode_iff; [exact S|]. cbn [fst snd]. rewrite Z.mod_mod, PX by discriminate.
    rewrite (Z.mod_small y P25519) by lia. split; [now rewrite <- Ey | reflexivity].
  - split; [conjs; cbn [p3X p3Y p3Z p3T]; first [assumption | apply fe_1_bd]|]. cbn [p3X p3Y p3Z p3T fst snd].
    rewrite fe_1_val. split; [exact one_neq_0|].
    conjs; fe_vals; rewrite ?modp; rewrite ?VY; apply cong_ring; ring.
Qed.
