(* ===== verification/GeFromFe.v ===== *)
(** The map from field elements to the curve (libcryptonote/crypto/crypto-ops.c,
    ge_fromfe_frombytes_vartime), an Elligator map: every 32-byte string is mapped
    to a point of the curve, and no assertion of the code can fail. *)
From Stdlib Require Import ZArith Lia List Bool Zpow_facts ZmodInv.
From S2P Require Import Prelude CInt Bytes Fe25519 FeBytes FePow Prime25519 Edwards CurveGroup Ge25519 GeCodec.
Import ListNotations.
Local Open Scope Z_scope.
Local Open Scope fld_scope.

(** ** Definitions

    [None] is a failed assertion as well as an overflow. *)

(** The label "negative". *)
Definition fromfe_negative (rX w x : fe) : option fe :=
  let! x := fe_mul x fe_sqrtm1 in
  let! y := fe_sub w x in
  let! nz := fe_isnonzero y in
  if negb (nz =? 0) then
    let! y := fe_add w x in
    let! nz := fe_isnonzero y in
    let! _ := c_assert (nz =? 0) in
    fe_mul rX fe_fffb3
  else fe_mul rX fe_fffb4.

(** From the divpowm1 to the label "setsign": r->X, z and the sign wanted. *)
Definition fromfe_root (u v w x : fe) : option (fe * fe * Z) :=
  let! rX := fe_divpowm1 w x in
  let! y := fe_sq rX in
  let! x := fe_mul y x in
  let! y := fe_sub w x in
  let z := fe_copy fe_ma in
  let! nz := fe_isnonzero y in
  let positive rX :=
    let! rX := fe_mul rX u in
    let! z := fe_mul z v in
    Some (rX, z, 0) in
  if negb (nz =? 0) then
    let! y := fe_add w x in
    let! nz := fe_isnonzero y in
    if negb (nz =? 0) then
      let! rX := fromfe_negative rX w x in
      Some (rX, z, 1)
    else
      let! rX := fe_mul rX fe_fffb1 in
      positive rX
  else
    let! rX := fe_mul rX fe_fffb2 in
    positive rX.

(** The label "setsign", up to the coordinates. *)
Definition fromfe_setsign (rX : fe) (sign : Z) : option fe :=
  let! neg := fe_isnegative rX in
  if negb (neg =? sign) then
    let! nz := fe_isnonzero rX in
    let! _ := c_assert (negb (nz =? 0)) in
    fe_neg rX
  else Some rX.

(** The block under !defined(NDEBUG). *)
Definition fromfe_check (rX rY rZ : fe) : option unit :=
  let! check_iz := fe_invert rZ in
  let! check_x := fe_mul rX check_iz in
  let! check_y := fe_mul rY check_iz in
  let! check_x := fe_sq check_x in
  let! check_y := fe_sq check_y in
  let! check_v := fe_mul check_x check_y in
  let! check_v := fe_mul fe_d check_v in
  let! check_v := fe_add check_v check_x in
  let! check_v := fe_sub check_v check_y in
  let! check_v := fe_add check_v fe_1 in
  let! nz := fe_isnonzero check_v in
  c_assert (nz =? 0).

Definition ge_fromfe_frombytes_vartime (s : list Z) : option ge_p2 :=
  let! l := fe_load (fun l => l) s in
  let! u := fe_load_carry l in
  let! v := fe_sq2 u in
  let w := fe_1 in
  let! w := fe_add v w in
  let! x := fe_sq w in
  let! y := fe_mul fe_ma2 v in
  let! x := fe_add x y in
  let! (rX, z, sign) := fromfe_root u v w x in
  let! rX := fromfe_setsign rX sign in
  let! rZ := fe_add z w in
  let! rY := fe_sub z w in
  let! rX := fe_mul rX rZ in
  let! _ := fromfe_check rX rY rZ in
  Some (mkp2 rX rY rZ).

(** ** The constants *)

Definition mont_A : Z := 486662.

Lemma fe_ma_val : fe_val fe_ma = - mont_A.
Proof. reflexivity. Qed.

Lemma fe_ma2_val : fe_val fe_ma2 == - (mont_A * mont_A).
Proof. vm_compute. reflexivity. Qed.

Lemma fffb1_sq : fe_val fe_fffb1 * fe_val fe_fffb1 == -2 * mont_A * (mont_A + 2).
Proof. vm_compute. reflexivity. Qed.
Lemma fffb2_sq : fe_val fe_fffb2 * fe_val fe_fffb2 == 2 * mont_A * (mont_A + 2).
Proof. vm_compute. reflexivity. Qed.
Lemma fffb3_sq : fe_val fe_fffb3 * fe_val fe_fffb3 == - fe_val fe_sqrtm1 * mont_A * (mont_A + 2).
Proof. vm_compute. reflexivity. Qed.
Lemma fffb4_sq : fe_val fe_fffb4 * fe_val fe_fffb4 == fe_val fe_sqrtm1 * mont_A * (mont_A + 2).
Proof. vm_compute. reflexivity. Qed.
Lemma d_mont : (mont_A + 2) * d25519 == - (mont_A - 2).
Proof. vm_compute. reflexivity. Qed.

Lemma fffb_bd : fe_bd 101 fe_fffb1 /\ fe_bd 101 fe_fffb2 /\ fe_bd 101 fe_fffb3 /\ fe_bd 101 fe_fffb4 /\
  fe_bd 101 fe_ma /\ fe_bd 101 fe_ma2.
Proof. conjs; vm_compute; intuition discriminate. Qed.

Lemma i_nonsquare x : ~ (x * x == fe_val fe_sqrtm1).
Proof. apply root_nonsquare, sqrtm1_sq. Qed.
Lemma opp_i_nonsquare x : ~ (x * x == - fe_val fe_sqrtm1).
Proof.
  apply root_nonsquare. transitivity (fe_val fe_sqrtm1 * fe_val fe_sqrtm1); [apply cong_ring; ring|].
  exact sqrtm1_sq.
Qed.

(** (1 + i)^2 = 2i. *)
Lemma two_nonsquare x : ~ (x * x == 2).
Proof.
  intros E. set (i := fe_val fe_sqrtm1). pose proof sqrtm1_sq as I. fold i in I.
  assert (N : ~ (x == 0)) by (intros X0; rewrite X0 in E; discriminate E).
  pose proof (inv_cong x N) as J. set (j := x ^ (P25519 - 2)) in *. clearbody j.
  apply (i_nonsquare ((1 + i) * j)). fold i. clearbody i.
  assert (H : 2 * (j * j) == 1).
  { rewrite <- E. transitivity ((x * j) * (x * j)); [apply cong_ring; ring|]. now rewrite J. }
  transitivity ((1 + 2 * i + i * i) * (j * j)); [apply cong_ring; ring|]. rewrite I.
  transitivity (i * (2 * (j * j))); [apply cong_ring; ring|]. rewrite H. apply cong_ring. ring.
Qed.
Lemma denom_nonsquare x : ~ (x * x == 2 * (mont_A - 1)).
Proof. apply nonsquare. vm_compute. reflexivity. Qed.

(** ** What cannot vanish *)

Lemma w_nonzero u : ~ (2 * (u * u) + 1 == 0).
Proof.
  intros H. apply (two_nonsquare (2 * fe_val fe_sqrtm1 * u)).
  transitivity (4 * (u * u) * (fe_val fe_sqrtm1 * fe_val fe_sqrtm1)); [apply cong_ring; ring|].
  rewrite sqrtm1_sq. transitivity (2 - 2 * (2 * (u * u) + 1)); [apply cong_ring; ring|].
  rewrite H. reflexivity.
Qed.

Lemma x_nonzero u w : w == 2 * (u * u) + 1 -> ~ (w * w - mont_A * mont_A * (2 * (u * u)) == 0).
Proof.
  intros W H. destruct (Z.eq_dec (u mod P25519) 0) as [U|U].
  - apply (proj1 (modp_0 u)) in U. rewrite U, W, U in H. discriminate H.
  - assert (N : ~ (mont_A * u == 0)).
    { apply mul_nonzero; [discriminate|]. intros E. apply U. now apply (proj2 (modp_0 _)). }
    pose proof (inv_cong _ N) as I. set (j := (mont_A * u) ^ (P25519 - 2)) in *. clearbody j.
    apply (two_nonsquare (w * j)).
    transitivity ((w * w - mont_A * mont_A * (2 * (u * u))) * (j * j) + 2 * ((mont_A * u * j) * (mont_A * u * j)));
      [apply cong_ring; ring|].
    rewrite H, I. reflexivity.
Qed.

Lemma z_nonzero_pos u : ~ (- mont_A * (2 * (u * u)) + (2 * (u * u) + 1) == 0).
Proof.
  intros H. apply (denom_nonsquare (2 * (mont_A - 1) * u)).
  transitivity (2 * (mont_A - 1) - 2 * (mont_A - 1) * (- mont_A * (2 * (u * u)) + (2 * (u * u) + 1)));
    [apply cong_ring; ring|].
  rewrite H. reflexivity.
Qed.

Lemma z_nonzero_neg u : ~ (- mont_A + (2 * (u * u) + 1) == 0).
Proof.
  intros H. apply (denom_nonsquare (2 * u)).
  transitivity (2 * (mont_A - 1) + 2 * (- mont_A + (2 * (u * u) + 1))); [apply cong_ring; ring|].
  rewrite H. reflexivity.
Qed.

(** ** The four cases of the root *)

Lemma fourth_root c : c * c * (c * c) == 1 ->
  c == 1 \/ c == -1 \/ c == fe_val fe_sqrtm1 \/ c == - fe_val fe_sqrtm1.
Proof.
  intros C. destruct (square_of_one (c * c) C) as [H|H].
  - destruct (square_of_one c H); auto.
  - set (i := fe_val fe_sqrtm1). pose proof sqrtm1_sq as I. fold i in I. clearbody i.
    assert (E : (c - i) * (c + i) == 0).
    { transitivity (c * c - i * i); [apply cong_ring; ring|]. rewrite H, I. reflexivity. }
    destruct (mul_cong_0 _ _ E) as [F|F]; [|right; right; right].
    + right; right; left. now apply cong_sub_0.
    + apply cong_sub_0. rewrite <- F. apply cong_ring. ring.
Qed.

(** The candidate for w/x: x X^2 = w c with c a fourth root of one. *)
Lemma candidate_fourth w x X : ~ (w == 0) -> ~ (x == 0) ->
  X == w * x ^ 3 * (w * x ^ 7) ^ ((P25519 - 5) / 8) ->
  exists c, x * (X * X) == w * c /\
    (c == 1 \/ c == -1 \/ c == fe_val fe_sqrtm1 \/ c == - fe_val fe_sqrtm1).
Proof.
  intros NW NX E. assert (E0 : 0 <= (P25519 - 5) / 8) by (apply Z.leb_le; reflexivity).
  pose proof (candidate_square w x X _ E0 E) as S. clear E0 E.
  set (k := 2 * ((P25519 - 5) / 8) + 1) in *.
  assert (K : 0 < k) by reflexivity. assert (K4 : 4 * k = P25519 - 1) by reflexivity. clearbody k.
  exists ((w * x ^ 7) ^ k). split; [exact S|]. apply fourth_root.
  rewrite <- !Z.pow_add_r by lia. replace (k + k + (k + k)) with (P25519 - 1) by lia.
  assert (N : ~ (w * x ^ 7 == 0)).
  { replace (x ^ 7) with (x * (x * (x * (x * (x * (x * x)))))) by ring. repeat apply mul_nonzero; assumption. }
  unfold cong. rewrite (ZmodInv.Z.fermat_nz _ _ p25519_prime) by (intros H; apply N; now apply modp_0).
  symmetry. now apply Z.mod_1_l.
Qed.

(** x X^2 = w c and F^2 c = K give x (X F u)^2 = K u^2 w. *)
Lemma root_times x X w c F K u : x * (X * X) == w * c -> F * F * c == K ->
  x * ((X * F * u) * (X * F * u)) == K * (u * u) * w.
Proof.
  intros E H. transitivity (x * (X * X) * (F * F) * (u * u)); [apply cong_ring; ring|].
  rewrite E, <- H. apply cong_ring. ring.
Qed.

Lemma test_minus w c : ~ (w == 0) -> w - w * c == 0 -> c == 1.
Proof.
  intros N H. apply cong_sub_0 in H. apply (mul_cong_cancel _ _ w N). rewrite Z.mul_1_l, (Z.mul_comm c).
  symmetry. exact H.
Qed.

Lemma test_plus w c : ~ (w == 0) -> w + w * c == 0 -> c == -1.
Proof.
  intros N H. assert (E : - c == 1).
  { apply (test_minus w); [exact N|]. rewrite <- H. apply cong_ring. ring. }
  transitivity (- - c); [apply cong_ring; ring|]. rewrite E. reflexivity.
Qed.

(** ** The root *)

Section Root.
Context (u v w x : fe) (BU : fe_bd 101 u) (BV : fe_bd 101 v) (BW : fe_bd 102 w) (BX : fe_bd 202 x).
Context (EV : fe_val v == 2 * (fe_val u * fe_val u)).
Context (EW : fe_val w == 2 * (fe_val u * fe_val u) + 1).
Context (EX : fe_val x == fe_val w * fe_val w - mont_A * mont_A * (2 * (fe_val u * fe_val u))).

Definition root_ok (r : fe * fe * Z) : Prop :=
  let '(rX, z, sign) := r in
  (fe_bd 101 rX /\ fe_bd 101 z) /\
  fe_val x * (fe_val rX * fe_val rX) == - (mont_A + 2) * fe_val z * fe_val w /\
  fe_val z * fe_val z + mont_A * fe_val z * fe_val w + fe_val w * fe_val w == fe_val x /\
  ~ (fe_val z + fe_val w == 0) /\
  (sign = 0 /\ fe_val z == - mont_A * (2 * (fe_val u * fe_val u)) \/
   (sign = 1 /\ fe_val z == - mont_A) /\ ~ (fe_val rX == 0) /\
   forall t, ~ (fe_val x * (t * t) == 2 * mont_A * (mont_A + 2) * (fe_val u * fe_val u) * fe_val w)).

Lemma root_w : ~ (fe_val w == 0).
Proof. rewrite EW. apply w_nonzero. Qed.

Lemma root_x : ~ (fe_val x == 0).
Proof. rewrite EX. now apply x_nonzero. Qed.

Lemma fromfe_negative_safe X x' c : fe_bd 101 X -> fe_bd 101 x' ->
  fe_val x * (fe_val X * fe_val X) == fe_val w * c -> fe_val x' == fe_val w * c ->
  c == fe_val fe_sqrtm1 \/ c == - fe_val fe_sqrtm1 ->
  safe (fromfe_negative X w x') (fun r => fe_bd 101 r /\
    fe_val x * (fe_val r * fe_val r) == mont_A * (mont_A + 2) * fe_val w).
Proof.
  intros BX0 BX' E E' C. unfold fromfe_negative.
  pose proof fe_sqrtm1_bd. destruct fffb_bd as (_ & _ & ? & ? & _).
  pose proof sqrtm1_sq as I. pose proof root_w as N.
  fe_step. fe_step. destruct (isnonzero_test a0) as (n & -> & Hn); [fe_done|]. cbn [bind].
  assert (Ea : fe_val a == fe_val w * (c * fe_val fe_sqrtm1)) by (rewrite V, E'; apply cong_ring; ring).
  rewrite V0, Ea in Hn.
  assert (R : forall F r, fe_bd 101 r -> fe_val r == fe_val X * fe_val F ->
            fe_val F * fe_val F * c == mont_A * (mont_A + 2) ->
            fe_bd 101 r /\ fe_val x * (fe_val r * fe_val r) == mont_A * (mont_A + 2) * fe_val w).
  { intros F r Br Vr HF. split; [exact Br|]. rewrite Vr.
    pose proof (root_times _ _ _ _ _ _ 1 E HF) as T. rewrite !Z.mul_1_r in T. exact T. }
  destruct (n =? 0); cbn [negb].
  - pose proof (test_minus _ _ N (proj1 Hn eq_refl)) as Ci.
    eapply safe_mono; [eapply fe_mul_step; [| |exact BX0|eassumption]; lia|].
    intros r [Br Vr]. apply (R fe_fffb4 r Br Vr). rewrite fffb4_sq.
    transitivity (c * fe_val fe_sqrtm1 * (mont_A * (mont_A + 2))); [apply cong_ring; ring|].
    rewrite Ci. apply cong_ring. ring.
  - destruct C as [C|C]; [|exfalso].
    + assert (Ci : c * fe_val fe_sqrtm1 == -1) by (now rewrite C).
      fe_step. destruct (isnonzero_test a1) as (m & -> & Hm); [fe_done|]. cbn [bind].
      rewrite V1, Ea in Hm. rewrite (proj2 Hm) by (rewrite Ci; apply cong_ring; ring). cbn [c_assert bind].
      eapply safe_mono; [eapply fe_mul_step; [| |exact BX0|eassumption]; lia|].
      intros r [Br Vr]. apply (R fe_fffb3 r Br Vr). rewrite fffb3_sq.
      transitivity (- (c * fe_val fe_sqrtm1) * (mont_A * (mont_A + 2))); [apply cong_ring; ring|].
      rewrite Ci. apply cong_ring. ring.
    + assert (F : false = true); [|discriminate F]. apply (proj2 Hn).
      assert (Ci : c * fe_val fe_sqrtm1 == 1).
      { rewrite C. transitivity (- (fe_val fe_sqrtm1 * fe_val fe_sqrtm1)); [apply cong_ring; ring|].
        rewrite I. reflexivity. }
      rewrite Ci. apply cong_ring. ring.
Qed.

(** The tail shared by the two square cases. *)
Lemma fromfe_positive_ok X F r z c : fe_bd 101 r -> fe_bd 101 z ->
  fe_val x * (fe_val X * fe_val X) == fe_val w * c ->
  fe_val F * fe_val F * c == 2 * mont_A * (mont_A + 2) ->
  fe_val r == fe_val X * fe_val F * fe_val u -> fe_val z == fe_val fe_ma * fe_val v ->
  root_ok (r, z, 0).
Proof.
  intros Br Bz E H Vr Vz. rewrite fe_ma_val, EV in Vz. unfold root_ok. conjs.
  - exact Br.
  - exact Bz.
  - rewrite Vr, (root_times _ _ _ _ _ _ (fe_val u) E H), Vz. apply cong_ring. ring.
  - rewrite Vz, EX, EW. apply cong_ring. ring.
  - rewrite Vz, EW. apply z_nonzero_pos.
  - left. split; [reflexivity|]. rewrite Vz. apply cong_ring. ring.
Qed.

(** When c is a square root of -1, the first form has no root. *)
Lemma no_positive_root X c t : fe_val x * (fe_val X * fe_val X) == fe_val w * c ->
  c == fe_val fe_sqrtm1 \/ c == - fe_val fe_sqrtm1 ->
  ~ (fe_val x * (t * t) == 2 * mont_A * (mont_A + 2) * (fe_val u * fe_val u) * fe_val w).
Proof.
  intros E C H. assert (NC : forall r, ~ (r * r == c)).
  { intros r R. destruct C as [C|C]; rewrite <- R in C.
    - exact (i_nonsquare r C).
    - exact (opp_i_nonsquare r C). }
  destruct fffb_bd as (_ & B2 & _). clear B2. pose proof fffb2_sq as F. set (f := fe_val fe_fffb2) in *.
  assert (T : c * (t * t) == (f * fe_val u * fe_val X) * (f * fe_val u * fe_val X)).
  { apply (mul_cong_cancel _ _ _ root_x).
    transitivity (c * (fe_val x * (t * t))); [apply cong_ring; ring|]. rewrite H, <- F.
    transitivity (f * f * (fe_val u * fe_val u) * (fe_val w * c)); [apply cong_ring; ring|].
    rewrite <- E. apply cong_ring. ring. }
  destruct (Z.eq_dec (t mod P25519) 0) as [T0|T0].
  - apply (proj1 (modp_0 t)) in T0. rewrite T0, !Z.mul_0_r in T. symmetry in T.
    assert (U : fe_val u == 0).
    { destruct (mul_cong_0 _ _ T) as [G|G]; destruct (mul_cong_0 _ _ G) as [K|K].
      all: try (destruct (mul_cong_0 _ _ K) as [L|L]; [now vm_compute in L | exact L]).
      all: exfalso; rewrite K, !Z.mul_0_r in E; symmetry in E; destruct (mul_cong_0 _ _ E) as [L|L];
        [now apply root_w | apply (NC 0); now rewrite L]. }
    apply (NC (fe_val X)). rewrite EX, EW, U in E.
    transitivity (((2 * (0 * 0) + 1) * (2 * (0 * 0) + 1) - mont_A * mont_A * (2 * (0 * 0))) * (fe_val X * fe_val X));
      [apply cong_ring; ring|]. rewrite E. apply cong_ring. ring.
  - assert (N : ~ (t == 0)) by (intros G; apply T0; now apply modp_0).
    pose proof (inv_cong t N) as I. set (j := t ^ (P25519 - 2)) in *. clearbody j.
    apply (NC (f * fe_val u * fe_val X * j)).
    transitivity ((f * fe_val u * fe_val X) * (f * fe_val u * fe_val X) * (j * j)); [apply cong_ring; ring|].
    rewrite <- T. transitivity (c * ((t * j) * (t * j))); [apply cong_ring; ring|]. rewrite I. apply cong_ring. ring.
Qed.

Lemma fromfe_negative_ok r : fe_bd 101 r ->
  (forall t, ~ (fe_val x * (t * t) == 2 * mont_A * (mont_A + 2) * (fe_val u * fe_val u) * fe_val w)) ->
  fe_val x * (fe_val r * fe_val r) == mont_A * (mont_A + 2) * fe_val w -> root_ok (r, fe_ma, 1).
Proof.
  intros Br NR E. unfold root_ok. rewrite fe_ma_val. conjs.
  - exact Br.
  - apply fffb_bd.
  - rewrite E. apply cong_ring. ring.
  - rewrite EX, EW. apply cong_ring. ring.
  - rewrite EW. apply z_nonzero_neg.
  - right. conjs; [reflexivity | reflexivity | | exact NR]. intros R. rewrite R, Z.mul_0_l, Z.mul_0_r in E. symmetry in E.
    revert E. apply mul_nonzero; [discriminate | exact root_w].
Qed.

Lemma fromfe_root_safe : safe (fromfe_root u v w x) root_ok.
Proof.
  unfold fromfe_root. pose proof root_w as N. destruct fffb_bd as (B1 & B2 & _ & _ & Bma & _).
  rewrite fe_copy_id.
  eapply safe_bind; [apply fe_divpowm1_safe; (eapply fe_bd_mono; [|eassumption]; lia)|].
  intros X [BX0 VX]. destruct (candidate_fourth _ _ _ N root_x VX) as (c & E & C). clear VX.
  do 3 fe_step. assert (Ea : fe_val a0 == fe_val w * c) by (rewrite V0, V, <- E; apply cong_ring; ring).
  destruct (isnonzero_test a1) as (n & -> & Hn); [fe_done|]. cbn [bind]. rewrite V1, Ea in Hn.
  destruct (n =? 0); cbn [negb].
  { pose proof (test_minus _ _ N (proj1 Hn eq_refl)) as C1. do 3 fe_step. cbn [safe].
    eapply (fromfe_positive_ok X fe_fffb2 _ _ c); try eassumption.
    - rewrite fffb2_sq, C1. apply cong_ring. ring.
    - now rewrite V3, V2. }
  fe_step. destruct (isnonzero_test a2) as (m & -> & Hm); [fe_done|]. cbn [bind]. rewrite V2, Ea in Hm.
  destruct (m =? 0); cbn [negb].
  { pose proof (test_plus _ _ N (proj1 Hm eq_refl)) as C1. do 3 fe_step. cbn [safe].
    eapply (fromfe_positive_ok X fe_fffb1 _ _ c); try eassumption.
    - rewrite fffb1_sq, C1. apply cong_ring. ring.
    - now rewrite V4, V3. }
  assert (Ci : c == fe_val fe_sqrtm1 \/ c == - fe_val fe_sqrtm1).
  { destruct C as [C|[C|C]]; [exfalso|exfalso|exact C].
    + discriminate (proj2 Hn). rewrite C. apply cong_ring. ring.
    + discriminate (proj2 Hm). rewrite C. apply cong_ring. ring. }
  eapply safe_bind; [apply (fromfe_negative_safe X a0 c); assumption|].
  intros r [Br Er]. apply fromfe_negative_ok; [exact Br | | exact Er].
  intros t. now apply (no_positive_root X c).
Qed.
End Root.

(** ** The sign, the check and the whole function *)

Lemma fromfe_setsign_safe X sign : fe_bd 101 X -> sign = 0 \/ sign = 1 /\ ~ (fe_val X == 0) ->
  safe (fromfe_setsign X sign) (fun r => fe_bd 101 r /\ fe_val r * fe_val r == fe_val X * fe_val X /\
    (fe_val r mod P25519) mod 2 = sign).
Proof.
  intros B S. unfold fromfe_setsign. rewrite fe_isnegative_safe by (eapply fe_bd_mono; [|exact B]; lia).
  cbn [bind]. destruct (Z.eqb_spec ((fe_val X mod P25519) mod 2) sign) as [E|N]; cbn [negb].
  { cbn [safe]. conjs; [exact B | reflexivity | exact E]. }
  assert (NX : ~ (fe_val X == 0)).
  { intros H. destruct S as [->|[_ S]]; [|contradiction]. apply N. rewrite (cong_mod_eq _ _ H). reflexivity. }
  destruct (isnonzero_test X) as (n & -> & Hn); [fe_done|]. cbn [bind].
  destruct (n =? 0); [contradiction NX; now apply Hn|]. cbn [negb c_assert bind].
  eapply safe_mono; [eapply fe_neg_safe; [|exact B]; lia|]. intros r [Br Vr]. conjs.
  - exact Br.
  - rewrite Vr. apply cong_ring. ring.
  - rewrite Vr, opp_parity by exact NX.
    pose proof (Z.mod_pos_bound (fe_val X mod P25519) 2). lia.
Qed.

Lemma fromfe_check_safe P X Y Zc : fe_bd 101 X -> fe_bd 203 Y -> fe_bd 203 Zc ->
  ~ (fe_val Zc == 0) -> fe_val X == fst P * fe_val Zc -> fe_val Y == snd P * fe_val Zc -> on_curve P ->
  fromfe_check X Y Zc = Some tt.
Proof.
  intros BX BY BZ N EX EY C. unfold fromfe_check. apply safe_eq.
  eapply safe_bind; [apply fe_invert_safe; (eapply fe_bd_mono; [|exact BZ]; lia)|].
  intros iz [Biz Viz]. pose proof (inv_cong _ N) as I. rewrite <- Viz in I. clear Viz.
  pose proof fe_d_bd. pose proof fe_1_bd1. fe_steps.
  destruct (isnonzero_test a7) as (n & -> & Hn); [fe_done|]. cbn [bind].
  rewrite (proj2 Hn); [reflexivity|]. destruct P as [x y]. cbn [fst snd] in *.
  assert (Ex : fe_val a == x).
  { rewrite V, EX. transitivity (x * (fe_val Zc * fe_val iz)); [apply cong_ring; ring|].
    rewrite I. apply cong_ring. ring. }
  assert (Ey : fe_val a0 == y).
  { rewrite V0, EY. transitivity (y * (fe_val Zc * fe_val iz)); [apply cong_ring; ring|].
    rewrite I. apply cong_ring. ring. }
  unfold on_curve in C. apply cong_sub_0 in C.
  rewrite V7, V6, V5, V4, V3, V2, V1, Ex, Ey, fe_1_val. fold d25519.
  transitivity (- (y * y - x * x - (1 + d25519 * (x * x) * (y * y)))); [apply cong_ring; ring|].
  rewrite C. reflexivity.
Qed.

(** The point with the x of the root and y = (z - w) / (z + w) is on the curve. *)
Lemma mont_point (x z w s j : Z) : ~ (z + w == 0) -> (z + w) * j == 1 ->
  s * (x * x) == - (mont_A + 2) * z * w -> z * z + mont_A * z * w + w * w == s ->
  on_curve (x, (z - w) * j).
Proof.
  intros N J R S. unfold on_curve. apply cong_sub_0. set (y := (z - w) * j).
  assert (Y : y * (z + w) == z - w).
  { unfold y. transitivity ((z - w) * ((z + w) * j)); [apply cong_ring; ring|].
    rewrite J. apply cong_ring. ring. }
  clearbody y.
  assert (NA : ~ ((mont_A + 2) * ((z + w) * (z + w)) == 0)).
  { apply mul_nonzero; [discriminate | now apply mul_nonzero]. }
  apply (mul_cong_cancel _ _ _ NA). rewrite Z.mul_0_l.
  transitivity ((mont_A + 2) * ((y * (z + w)) * (y * (z + w)) - x * x * ((z + w) * (z + w)) - (z + w) * (z + w))
     - (mont_A + 2) * d25519 * (x * x) * ((y * (z + w)) * (y * (z + w)))); [apply cong_ring; ring|].
  rewrite Y, d_mont.
  transitivity (-4 * (mont_A + 2) * z * w - 4 * ((z * z + mont_A * z * w + w * w) * (x * x)));
    [apply cong_ring; ring|].
  rewrite S, R. apply cong_ring. ring.
Qed.

(** The representation of the result, with the wider bounds of its Y and Z. *)
Definition p2_rep_wide (P : pt) (h : ge_p2) : Prop :=
  (fe_bd 101 (p2X h) /\ fe_bd 203 (p2Y h) /\ fe_bd 203 (p2Z h)) /\
  ~ (fe_val (p2Z h) == 0) /\
  fe_val (p2X h) == fst P * fe_val (p2Z h) /\ fe_val (p2Y h) == snd P * fe_val (p2Z h).

(** The curve points with y = (z-w)/(z+w), in terms of x alone. *)
Lemma mont_point_inv (x y z w s : Z) : on_curve (x, y) -> y * (z + w) == z - w ->
  z * z + mont_A * z * w + w * w == s -> s * (x * x) == - (mont_A + 2) * z * w.
Proof.
  unfold on_curve. intros C Y S. apply cong_sub_0 in C.
  assert (N4 : ~ (-4 == 0)) by discriminate. apply (mul_cong_cancel _ _ _ N4). rewrite <- S.
  apply cong_sub_0.
  transitivity ((mont_A + 2) * ((z - w) * (z - w) - x * x * ((z + w) * (z + w)) - (z + w) * (z + w))
     - (- (mont_A - 2)) * (x * x) * ((z - w) * (z - w))); [apply cong_ring; ring|].
  rewrite <- Y, <- d_mont.
  transitivity ((mont_A + 2) * ((z + w) * (z + w)) * (y * y - x * x - (1 + d25519 * (x * x) * (y * y))));
    [apply cong_ring; ring|].
  rewrite C, Z.mul_0_r. reflexivity.
Qed.

(** What the map returns on the integer u.  With w = 2u^2 + 1 it is the curve point
    of even x and y = (z-w)/(z+w) for z = -2Au^2 when the curve has a point of that
    y, and otherwise the one of odd x for z = -A. *)
Definition fromfe_point (u : Z) (P : pt) : Prop :=
  let w := 2 * (u * u) + 1 in
  let y_of z y := y * (z + w) == z - w /\ ~ (z + w == 0) in
  y_of (- mont_A * (2 * (u * u))) (snd P) /\ fst P mod 2 = 0 \/
  y_of (- mont_A) (snd P) /\ fst P mod 2 = 1 /\
    forall x y, on_curve (x, y) -> ~ y_of (- mont_A * (2 * (u * u))) y.

Lemma fe_ma2_step v : fe_bd 101 v ->
  safe (fe_mul fe_ma2 v) (fun y => fe_bd 101 y /\ fe_val y == - (mont_A * mont_A) * fe_val v).
Proof.
  intros B. eapply safe_mono; [eapply (fe_mul_step 101 101); [lia | lia | apply fffb_bd | exact B]|].
  intros y [By Vy]. split; [exact By|]. now rewrite Vy, fe_ma2_val.
Qed.

Lemma root_fromfe_point n u w x rX z sign X y j :
  fe_val u == n -> fe_val w == 2 * (fe_val u * fe_val u) + 1 ->
  fe_val x == fe_val w * fe_val w - mont_A * mont_A * (2 * (fe_val u * fe_val u)) ->
  root_ok u w x (rX, z, sign) -> (fe_val z + fe_val w) * j == 1 ->
  (X mod P25519) mod 2 = sign -> y == (fe_val z - fe_val w) * j ->
  fromfe_point n (X mod P25519, y).
Proof.
  intros EU EW EX (_ & _ & _ & NZ & R) J P Y. unfold fromfe_point. cbn [fst snd].
  assert (Ew : fe_val w == 2 * (n * n) + 1) by (now rewrite EW, EU).
  assert (K : forall z0, fe_val z == z0 -> y * (z0 + (2 * (n * n) + 1)) == z0 - (2 * (n * n) + 1) /\
              ~ (z0 + (2 * (n * n) + 1) == 0)).
  { intros z0 E. rewrite <- Ew, <- E. split; [|exact NZ]. rewrite Y.
    transitivity ((fe_val z - fe_val w) * ((fe_val z + fe_val w) * j)); [apply cong_ring; ring|].
    rewrite J. apply cong_ring. ring. }
  destruct R as [[-> Ez]|[[-> Ez] [_ NR]]]; [left | right].
  - split; [apply K; now rewrite Ez, EU | exact P].
  - conjs; [now apply K | now apply K | exact P|]. intros x0 y0 C [Y0 _].
    apply (NR x0). assert (EX' : fe_val x == (2 * (n * n) + 1) * (2 * (n * n) + 1) - mont_A * mont_A * (2 * (n * n)))
      by (now rewrite EX, EW, EU).
    rewrite (mont_point_inv x0 y0 _ _ (fe_val x) C Y0) by (rewrite EX'; apply cong_ring; ring).
    rewrite EU, Ew. apply cong_ring. ring.
Qed.

Lemma ge_fromfe_frombytes_vartime_safe s : is_bytes 32 s ->
  safe (ge_fromfe_frombytes_vartime s) (fun h =>
    exists P : cpt, p2_rep_wide (proj1_sig P) h /\ fromfe_point (le_val s) (proj1_sig P)).
Proof.
  intros S. unfold ge_fromfe_frombytes_vartime.
  eapply safe_bind; [apply fe_load_fromfe, S|]. intros l [L VL].
  eapply safe_bind; [apply fe_load_carry_safe, L|]. intros u [BU VU]. rewrite VL in VU.
  pose proof fe_1_bd1. do 3 fe_step.
  eapply safe_bind; [apply fe_ma2_step; assumption|]. intros y [By Vy]. fe_step.
  assert (EW : fe_val a0 == 2 * (fe_val u * fe_val u) + 1) by (rewrite V0, V; reflexivity).
  assert (EX : fe_val a2 == fe_val a0 * fe_val a0 - mont_A * mont_A * (2 * (fe_val u * fe_val u)))
    by (rewrite V2, V1, Vy, V; apply cong_ring; ring).
  eapply safe_bind; [apply (fromfe_root_safe u a a0 a2); assumption|].
  intros [[rX z] sign] R. pose proof R as ((BrX & Bz) & ER & ES & NZ & SG).
  eapply safe_bind; [apply (fromfe_setsign_safe rX sign BrX); intuition|]. intros X (BX & EX2 & PX).
  fe_steps. pose proof (inv_cong _ NZ) as J. set (j := (fe_val z + fe_val a0) ^ (P25519 - 2)) in *. clearbody j.
  set (Py := ((fe_val z - fe_val a0) * j) mod P25519).
  assert (C : on_curve (fe_val X, (fe_val z - fe_val a0) * j)).
  { apply (mont_point _ _ _ (fe_val a2) j NZ J); [now rewrite EX2 | exact ES]. }
  assert (C' : curveb (fe_val X mod P25519, Py) = true).
  { apply curveb_iff. conjs; try apply modp_range. unfold on_curve, Py. rewrite !modp. exact C. }
  assert (W : p2_rep_wide (fe_val X mod P25519, Py) (mkp2 a5 a4 a3)).
  { unfold p2_rep_wide. cbn [p2X p2Y p2Z fst snd]. conjs; try fe_done.
    - now rewrite V3.
    - rewrite V5, modp. reflexivity.
    - unfold Py. rewrite modp, V4, V3.
      transitivity ((fe_val z - fe_val a0) * ((fe_val z + fe_val a0) * j)); [|apply cong_ring; ring].
      rewrite J. apply cong_ring. ring. }
  pose proof W as ((W1 & W2 & W3) & W4 & W5 & W6). cbn [p2X p2Y p2Z] in *.
  rewrite (fromfe_check_safe (fe_val X mod P25519, Py)) by (try assumption; apply curveb_iff in C'; apply C').
  cbn [bind safe]. exists (exist (fun P => curveb P = true) _ C'). split; [exact W|]. cbn [proj1_sig].
  eapply (root_fromfe_point _ u a0 a2); eauto. apply modp.
Qed.
