(* ===== verification/Ed25519.v ===== *)
(** The contract of the ge_ functions of libcryptonote/crypto/crypto-ops.c over the
    group of curve points [cpt]: the group operations, scalar multiplications with
    the tables of crypto-ops-data.c, encoding and decoding, stated on the points
    that the limb representations stand for. *)
From Stdlib Require Import ZArith Lia List Bool.
From stdpp Require Import base list.
From S2P Require Import Prelude CInt Bytes Fe25519 FeBytes FePow Prime25519 Edwards CurveGroup Ge25519 Recode ScalarMult GeBaseData GeBase GeCodec GeFromFe.
Import ListNotations.
Local Open Scope Z_scope.
Local Open Scope fld_scope.

(** ** Lemmas *)

(** An encoding has one decoding. *)
Lemma pt_encode_bytes P : is_bytes 32 (pt_encode P).
Proof. split; [apply length_le_bytes | apply le_bytes_byte]. Qed.

Lemma square_roots a b : a * a == b * b -> a == b \/ a == - b.
Proof.
  intros E. assert (Z0 : (a - b) * (a + b) == 0).
  { transitivity (a * a - b * b); [apply cong_ring; ring|]. apply cong_sub_0 in E. exact E. }
  destruct (mul_cong_0 _ _ Z0) as [H|H]; [left; now apply cong_sub_0 | right].
  apply cong_sub_0. rewrite <- H. apply cong_ring. ring.
Qed.

Lemma pt_encode_inj (P Q : cpt) : pt_encode (proj1_sig P) = pt_encode (proj1_sig Q) -> P = Q.
Proof.
  intros E. symmetry in E. apply pt_encode_iff in E; [|apply pt_encode_bytes].
  pose proof (proj1 (pt_encode_iff _ (proj1_sig Q) (pt_encode_bytes _)) eq_refl) as [E1 E2].
  rewrite E1, E2 in E. destruct (cpt_mod P) as [PX PY], (cpt_mod Q) as [QX QY].
  pose proof (cpt_curve P) as CP. pose proof (cpt_curve Q) as CQ. apply cpt_eq.
  destruct (proj1_sig P) as [x1 y1], (proj1_sig Q) as [x2 y2]. cbn [fst snd] in *.
  destruct E as [EY EX]. rewrite PY, QY in EY. subst y2.
  apply curve_x in CP, CQ. rewrite <- CQ in CP. split; cbn [fst snd]; [|reflexivity].
  rewrite !(Z.mul_comm (_ + 1)) in CP. apply (mul_cong_cancel _ _ _ (denominator_v y1)) in CP.
  destruct (square_roots _ _ CP) as [H|H]; [exact H|].
  destruct (Z.eq_dec (x2 mod P25519) 0) as [X0|X0].
  - apply (proj1 (modp_0 _)) in X0. rewrite H, X0. reflexivity.
  - exfalso. rewrite (cong_mod_eq _ _ H) in EX. rewrite opp_parity in EX by (now rewrite <- modp_0). lia.
Qed.

Lemma ge_p2_dbl_wide P R p : on_curve P -> ed_add P P R -> p2_rep_wide P p ->
  safe (ge_p2_dbl p) (p1p1_rep R).
Proof.
  intros C A ((? & ? & ?) & N & X & Y). unfold ge_p2_dbl. fe_steps.
  split; [conjs; cbn [p1X p1Y p1Z p1T]; fe_done|]. cbn [p1X p1Y p1Z p1T].
  apply (dbl_core P R (fe_val (p2Z p) * fe_val (p2Z p)) _ _ _ _ C A); [now apply mul_nonzero| | | |];
    fe_vals; apply cong_ring; ring.
Qed.

(** The bounds a ge_p2 leaves ge_fromfe_frombytes_vartime with are good for ge_mul8. *)
Lemma ge_mul8_wide (a : cpt) t : p2_rep_wide (g_xy a) t -> safe (ge_mul8 t) (p1p1_rep (g_xy (g_mul 8 a))).
Proof.
  intros R. unfold ge_mul8.
  eapply safe_bind; [apply (ge_p2_dbl_wide _ (g_xy (g_add a a)) _ (g_xy_curve a) (g_xy_add a a) R)|]. intros r0 R0.
  eapply safe_bind; [apply ge_p1p1_to_p2_rep, R0|]. intros t1 R1.
  rewrite <- (g_mul_1 a), g_mul_double in R1.
  eapply safe_bind; [eapply g_ge_p2_dbl, R1|]. intros r2 R2.
  eapply safe_bind; [apply ge_p1p1_to_p2_rep, R2|]. intros t3 R3.
  eapply safe_mono; [eapply g_ge_p2_dbl; eassumption|]. intros r R'.
  now rewrite !g_mul_double in R'.
Qed.

Lemma wide_of_p2 P h : p2_rep P h -> p2_rep_wide P h.
Proof.
  intros ((X & Y & Zb) & R). split; [|exact R]. conjs; (eapply fe_bd_mono; [|eassumption]; lia).
Qed.

(** A concrete point for the witnesses: the base point as ge_p3. *)
Definition base_p3 : ge_p3 :=
  mkp3 (mkfe (-14297830) (-7645148) 16144683 (-16471763) 27570974 (-2696100) (-26142465) 8378389 20764389 8758491)
       (mkfe (-26843541) (-6710886) 13421773 (-13421773) 26843546 6710886 (-13421773) 13421773 (-26843546) (-6710886))
       fe_1
       (mkfe 28827062 (-6116119) (-27349572) 244363 8635006 11264893 19351346 13413597 16611511 (-6414980)).

Lemma base_p3_rep : p3_rep (g_xy base_point) base_p3.
Proof.
  split; [conjs; vm_compute; intuition discriminate|]. split; [exact one_neq_0|].
  conjs; vm_compute; reflexivity.
Qed.

Definition base_precomp : ge_precomp := nth 0 ge_Bi ge_precomp_0.

Lemma base_precomp_rep : precomp_rep (g_xy base_point) base_precomp.
Proof. rewrite <- (g_mul_1 base_point). exact (proj2 ge_Bi_multiples 0%nat base_precomp eq_refl). Qed.

Definition scalar_ex2 : list Z := [2] ++ repeat 0 31.

Lemma scalar_ex2_slide : slide_scalar scalar_ex2.
Proof. split; [reflexivity|]. split; [repeat constructor; discriminate | vm_compute; reflexivity]. Qed.

(** ** Properties *)

(** C1.  Scalar multiplication by the base point.  With the table ge_base of
    crypto-ops-data.c, for every 32-byte scalar a with a[31] <= 127,
    ge_scalarmult_base terminates without overflow and its result represents
    a * B in the group of the curve. *)
Theorem ge_scalarmult_base_correct a x : is_bytes 32 a -> last a = Some x -> x <= 127 ->
  exists h, ge_scalarmult_base ge_base a = Some h /\ p3_rep (g_xy (g_mul (le_val a) base_point)) h.
Proof.
  intros [L F] La X. apply safe_some.
  apply (ge_scalarmult_base_rep base_point ge_base a x ge_base_multiples); auto.
Qed.

Lemma ge_scalarmult_base_correct_witness :
  exists h, ge_scalarmult_base ge_base scalar_ex2 = Some h /\
            p3_rep (g_xy (g_mul (le_val scalar_ex2) base_point)) h.
Proof.
  apply (ge_scalarmult_base_correct scalar_ex2 0);
    [split; [reflexivity | repeat constructor; discriminate] | reflexivity | discriminate].
Defined.

(** C30.  Scalar multiplication of an arbitrary curve point: ge_scalarmult
    represents a * A, for every scalar with a[31] <= 127. *)
Theorem ge_scalarmult_correct (P : cpt) A a x : p3_rep (g_xy P) A ->
  Forall is_byte a -> last a = Some x -> x <= 127 ->
  exists r, ge_scalarmult a A = Some r /\ p2_rep (g_xy (g_mul (le_val a) P)) r.
Proof. intros R F La X. apply safe_some. exact (ge_scalarmult_rep P A a x R F La X). Qed.

Lemma ge_scalarmult_correct_witness :
  exists r, ge_scalarmult scalar_ex2 base_p3 = Some r /\ p2_rep (g_xy (g_mul (le_val scalar_ex2) base_point)) r.
Proof.
  apply (ge_scalarmult_correct base_point base_p3 scalar_ex2 0 base_p3_rep);
    [repeat constructor; discriminate | reflexivity | discriminate].
Defined.



(** Ring signatures' a * A + b * B with B given by ge_dsm_precomp: the table
    built from B and the table lookup compose to the sum of the two multiples. *)
Theorem ge_double_scalarmult_precomp_vartime_correct (P Q : cpt) A B a b :
  p3_rep (g_xy P) A -> p3_rep (g_xy Q) B -> slide_scalar a -> slide_scalar b ->
  exists Bi r, ge_dsm_precomp B = Some Bi /\
    ge_double_scalarmult_precomp_vartime a A b Bi = Some r /\
    p2_rep (g_xy (g_add (g_mul (le_val a) P) (g_mul (le_val b) Q))) r.
Proof.
  intros RA RB SA SB. destruct (safe_some _ _ (ge_dsm_precomp_rep Q B RB)) as (Bi & E & LB & MB).
  destruct (safe_some _ _ (ge_double_scalarmult_precomp_rep P Q A Bi a b RA LB MB SA SB)) as (r & Er & R).
  exists Bi, r. auto.
Qed.

Lemma ge_double_scalarmult_precomp_vartime_correct_witness :
  exists Bi r, ge_dsm_precomp base_p3 = Some Bi /\
    ge_double_scalarmult_precomp_vartime scalar_ex2 base_p3 scalar_ex2 Bi = Some r /\
    p2_rep (g_xy (g_add (g_mul (le_val scalar_ex2) base_point) (g_mul (le_val scalar_ex2) base_point))) r.
Proof.
  exact (ge_double_scalarmult_precomp_vartime_correct base_point base_point base_p3 base_p3 scalar_ex2 scalar_ex2
    base_p3_rep base_p3_rep scalar_ex2_slide scalar_ex2_slide).
Defined.

(** C3.  Decoding.  On every 32-byte string ge_frombytes_vartime returns: 0 with a
    representation of the point the string encodes, or -1, and then the string is
    the encoding of no curve point. *)
Theorem ge_frombytes_vartime_correct s : is_bytes 32 s ->
  exists r, ge_frombytes_vartime s = Some r /\
    match r with
    | Some h => exists P : cpt, s = pt_encode (g_xy P) /\ p3_rep (g_xy P) h
    | None => forall P : cpt, s <> pt_encode (g_xy P)
    end.
Proof. intros S. apply safe_some, (ge_frombytes_vartime_safe s S). Qed.

Lemma ge_frombytes_vartime_correct_witness :
  exists r, ge_frombytes_vartime scalar_ex2 = Some r /\
    match r with
    | Some h => exists P : cpt, scalar_ex2 = pt_encode (g_xy P) /\ p3_rep (g_xy P) h
    | None => forall P : cpt, scalar_ex2 <> pt_encode (g_xy P)
    end.
Proof. apply ge_frombytes_vartime_correct. split; [reflexivity | repeat constructor; discriminate]. Defined.

(** C2.  Round trip.  Whatever coordinates represent P, ge_p3_tobytes writes the one
    32-byte encoding of P, and ge_frombytes_vartime reads a representation of the
    same P back. *)
Theorem ge_tobytes_frombytes_roundtrip (P : cpt) h : p3_rep (g_xy P) h ->
  exists s h', ge_p3_tobytes h = Some s /\ is_bytes 32 s /\
    ge_tobytes (ge_p3_to_p2 h) = Some s /\
    ge_frombytes_vartime s = Some (Some h') /\ p3_rep (g_xy P) h'.
Proof.
  intros R. pose proof (ge_p3_tobytes_safe _ _ R) as E.
  pose proof (ge_tobytes_safe _ _ (ge_p3_to_p2_rep _ _ R)) as E2.
  destruct (safe_some _ _ (ge_frombytes_vartime_safe _ (pt_encode_bytes (g_xy P)))) as (r & Er & Hr).
  destruct r as [h'|]; [|now destruct (Hr P)]. destruct Hr as (Q & EQ & RQ).
  apply pt_encode_inj in EQ. subst Q.
  exists (pt_encode (g_xy P)), h'. auto using pt_encode_bytes.
Qed.

Lemma ge_tobytes_frombytes_roundtrip_witness :
  exists s h', ge_p3_tobytes base_p3 = Some s /\ is_bytes 32 s /\
    ge_tobytes (ge_p3_to_p2 base_p3) = Some s /\
    ge_frombytes_vartime s = Some (Some h') /\ p3_rep (g_xy base_point) h'.
Proof. exact (ge_tobytes_frombytes_roundtrip base_point base_p3 base_p3_rep). Defined.

(** C4.  Hashing to the curve.  Every 32-byte string is mapped to a curve point: no
    assertion of ge_fromfe_frombytes_vartime fails, its debug check included, and
    the point is the one the Elligator map gives for the integer of the string;
    ge_mul8 of it represents eight times that point, in the wide bounds the map
    leaves its coordinates in. *)
Theorem hash_to_point_correct s : is_bytes 32 s ->
  exists h (P : cpt) r t, ge_fromfe_frombytes_vartime s = Some h /\
    p2_rep_wide (g_xy P) h /\ fromfe_point (le_val s) (g_xy P) /\
    ge_mul8 h = Some r /\ ge_p1p1_to_p3 r = Some t /\ p3_rep (g_xy (g_mul 8 P)) t.
Proof.
  intros S. destruct (safe_some _ _ (ge_fromfe_frombytes_vartime_safe s S)) as (h & E & P & R & F).
  destruct (safe_some _ _ (ge_mul8_wide P h R)) as (r & Er & R8).
  destruct (safe_some _ _ (ge_p1p1_to_p3_rep _ _ R8)) as (t & Et & Rt).
  exists h, P, r, t. auto 6.
Qed.

Lemma hash_to_point_correct_witness :
  exists h (P : cpt) r t, ge_fromfe_frombytes_vartime scalar_ex2 = Some h /\
    p2_rep_wide (g_xy P) h /\ fromfe_point (le_val scalar_ex2) (g_xy P) /\
    ge_mul8 h = Some r /\ ge_p1p1_to_p3 r = Some t /\ p3_rep (g_xy (g_mul 8 P)) t.
Proof. apply hash_to_point_correct. split; [reflexivity | repeat constructor; discriminate]. Defined.

(** C32.  Addition and subtraction.  For operands that represent P and Q, the four
    additions of ge_add, ge_sub, ge_madd and ge_msub, converted back by
    ge_p1p1_to_p3, represent P + Q and P - Q, with no exceptional case (P = Q,
    P = -Q and the neutral element included) and no overflow. *)
Theorem ge_add_sub_correct (P Q : cpt) p q m : p3_rep (g_xy P) p -> cached_rep (g_xy Q) q ->
  precomp_rep (g_xy Q) m ->
  exists a b c d, (let! t := ge_add p q in ge_p1p1_to_p3 t) = Some a /\
    (let! t := ge_madd p m in ge_p1p1_to_p3 t) = Some b /\
    (let! t := ge_sub p q in ge_p1p1_to_p3 t) = Some c /\
    (let! t := ge_msub p m in ge_p1p1_to_p3 t) = Some d /\
    p3_rep (g_xy (g_add P Q)) a /\ p3_rep (g_xy (g_add P Q)) b /\
    p3_rep (g_xy (g_add P (g_opp Q))) c /\ p3_rep (g_xy (g_add P (g_opp Q))) d.
Proof.
  intros RP RQ RM.
  assert (T : forall R (o : option ge_p1p1), safe o (p1p1_rep R) ->
            exists a, (let! t := o in ge_p1p1_to_p3 t) = Some a /\ p3_rep R a).
  { intros R o S. apply safe_some. eapply safe_bind; [exact S|]. apply ge_p1p1_to_p3_rep. }
  destruct (T _ _ (g_ge_add P Q p q RP RQ)) as (a & Ea & Ra).
  destruct (T _ _ (g_ge_madd P Q p m RP RM)) as (b & Eb & Rb).
  destruct (T _ _ (g_ge_sub P Q p q RP RQ)) as (c & Ec & Rc).
  destruct (T _ _ (g_ge_msub P Q p m RP RM)) as (d & Ed & Rd).
  exists a, b, c, d. conjs; assumption.
Qed.

Lemma ge_add_sub_correct_witness :
  exists a b c d, (let! t := ge_add base_p3 ge_cached_0 in ge_p1p1_to_p3 t) = Some a /\
    (let! t := ge_madd base_p3 ge_precomp_0 in ge_p1p1_to_p3 t) = Some b /\
    (let! t := ge_sub base_p3 ge_cached_0 in ge_p1p1_to_p3 t) = Some c /\
    (let! t := ge_msub base_p3 ge_precomp_0 in ge_p1p1_to_p3 t) = Some d /\
    p3_rep (g_xy (g_add base_point g_zero)) a /\ p3_rep (g_xy (g_add base_point g_zero)) b /\
    p3_rep (g_xy (g_add base_point (g_opp g_zero))) c /\ p3_rep (g_xy (g_add base_point (g_opp g_zero))) d.
Proof.
  exact (ge_add_sub_correct base_point g_zero base_p3 ge_cached_0 ge_precomp_0
    base_p3_rep ge_cached_0_rep ge_precomp_0_rep).
Defined.

(** Doubling and the conversions between representations: ge_p2_dbl and
    ge_p3_dbl give 2P, and ge_p1p1_to_p2, ge_p1p1_to_p3, ge_p3_to_p2 and
    ge_p3_to_cached keep the point. *)
Theorem ge_dbl_convert_correct (P : cpt) h : p3_rep (g_xy P) h ->
  exists r a b c, ge_p3_dbl h = Some r /\ ge_p2_dbl (ge_p3_to_p2 h) = Some r /\
    ge_p1p1_to_p2 r = Some a /\ ge_p1p1_to_p3 r = Some b /\ ge_p3_to_cached h = Some c /\
    p2_rep (g_xy (g_add P P)) a /\ p3_rep (g_xy (g_add P P)) b /\ cached_rep (g_xy P) c /\
    p2_rep (g_xy P) (ge_p3_to_p2 h).
Proof.
  intros R. destruct (safe_some _ _ (g_ge_p3_dbl P h R)) as (r & Er & Rr).
  destruct (safe_some _ _ (ge_p1p1_to_p2_rep _ _ Rr)) as (a & Ea & Ra).
  destruct (safe_some _ _ (ge_p1p1_to_p3_rep _ _ Rr)) as (b & Eb & Rb).
  destruct (safe_some _ _ (ge_p3_to_cached_rep _ _ R)) as (c & Ec & Rc).
  exists r, a, b, c. conjs; try assumption. now apply ge_p3_to_p2_rep.
Qed.

Lemma ge_dbl_convert_correct_witness :
  exists r a b c, ge_p3_dbl base_p3 = Some r /\ ge_p2_dbl (ge_p3_to_p2 base_p3) = Some r /\
    ge_p1p1_to_p2 r = Some a /\ ge_p1p1_to_p3 r = Some b /\ ge_p3_to_cached base_p3 = Some c /\
    p2_rep (g_xy (g_add base_point base_point)) a /\ p3_rep (g_xy (g_add base_point base_point)) b /\
    cached_rep (g_xy base_point) c /\ p2_rep (g_xy base_point) (ge_p3_to_p2 base_p3).
Proof. exact (ge_dbl_convert_correct base_point base_p3 base_p3_rep). Defined.

(** The tables of crypto-ops-data.c: entry j of row i of ge_base represents
    (j+1) * 256^i * B, entry j of ge_Bi represents (2j+1) * B, and both have all
    their rows. *)
Theorem ge_tables_correct : length ge_base = 32%nat /\ base_table base_point ge_base /\
  length ge_Bi = 8%nat /\ odd_multiples precomp_rep base_point ge_Bi.
Proof.
  split; [reflexivity|]. split; [exact ge_base_multiples | exact ge_Bi_multiples].
Qed.

(** The constants of crypto-ops-data.c: -121666 d = 121665, fe_d2 = 2d,
    fe_sqrtm1^2 = -1, fe_ma = -A, fe_ma2 = -A^2, and the four square roots that
    ge_fromfe_frombytes_vartime multiplies by. *)
Theorem fe_constants_correct :
  -121666 * fe_val fe_d == 121665 /\ fe_val fe_d2 == 2 * fe_val fe_d /\
  fe_val fe_sqrtm1 * fe_val fe_sqrtm1 == -1 /\
  fe_val fe_ma = -486662 /\ fe_val fe_ma2 == - (486662 * 486662) /\
  fe_val fe_fffb1 * fe_val fe_fffb1 == -2 * mont_A * (mont_A + 2) /\
  fe_val fe_fffb2 * fe_val fe_fffb2 == 2 * mont_A * (mont_A + 2) /\
  fe_val fe_fffb3 * fe_val fe_fffb3 == - fe_val fe_sqrtm1 * mont_A * (mont_A + 2) /\
  fe_val fe_fffb4 * fe_val fe_fffb4 == fe_val fe_sqrtm1 * mont_A * (mont_A + 2).
Proof. conjs; vm_compute; reflexivity. Qed.
