(* ===== verification/Keccak.v ===== *)
(** The Keccak-f[1600] permutation in the forms the native libraries carry:
    keccakf of libcryptonote/crypto/keccak.c (the same code as sha3_keccakf of
    libmultihash/verthash/tiny_sha3), ethash_keccakf1600 of
    libkawpow/keccak/keccakf1600.c (two unrolled rounds per iteration) and keccakf
    of libethhash/sha3.c, against the permutation of FIPS 202 stated on the
    coordinates of the lanes. *)
From Stdlib Require Import ZArith Lia List Bool.
From stdpp Require Import base list.
From S2P Require Import Prelude CInt.
Import ListNotations.
Local Open Scope Z_scope.

(** ** 64-bit words *)

Definition rotl64 (x : Z) (y : Z) : Z := Z.lor (u64 (Z.shiftl x y)) (Z.shiftr x (64 - y)).

(** [~x] on uint64_t. *)
Definition not64 (x : Z) : Z := Z.lxor x 18446744073709551615.

Definition is_u64 (x : Z) : Prop := 0 <= x < 2 ^ 64.

Definition lane (st : list Z) (i : nat) : Z := nth i st 0.

(** ** keccakf (libcryptonote/crypto/keccak.c) *)

Definition keccakf_rndc : list Z :=
  [0x0000000000000001; 0x0000000000008082; 0x800000000000808a;
   0x8000000080008000; 0x000000000000808b; 0x0000000080000001;
   0x8000000080008081; 0x8000000000008009; 0x000000000000008a;
   0x0000000000000088; 0x0000000080008009; 0x000000008000000a;
   0x000000008000808b; 0x800000000000008b; 0x8000000000008089;
   0x8000000000008003; 0x8000000000008002; 0x8000000000000080;
   0x000000000000800a; 0x800000008000000a; 0x8000000080008081;
   0x8000000000008080; 0x0000000080000001; 0x8000000080008008].

Definition keccakf_rotc : list Z :=
  [1; 3; 6; 10; 15; 21; 28; 36; 45; 55; 2; 14; 27; 41; 56; 8; 25; 43; 62; 18; 39; 61; 20; 44].

Definition keccakf_piln : list nat :=
  [10; 7; 11; 17; 18; 3; 5; 16; 8; 21; 24; 4; 15; 23; 19; 13; 12; 2; 20; 14; 22; 9; 6; 1]%nat.

(** The loops [for (i = 0; i < 5; i++)] and [for (j = 0; j < 25; j += 5)]. *)
Definition five : list nat := [0; 1; 2; 3; 4]%nat.
Definition by5 : list nat := [0; 5; 10; 15; 20]%nat.

Definition theta (st : list Z) : list Z :=
  let bc := map (fun i => Z.lxor (Z.lxor (Z.lxor (Z.lxor (lane st i) (lane st (i + 5)))
                                  (lane st (i + 10))) (lane st (i + 15))) (lane st (i + 20))) five in
  fold_left (fun st i =>
    let t := Z.lxor (lane bc ((i + 4) mod 5)) (rotl64 (lane bc ((i + 1) mod 5)) 1) in
    fold_left (fun st j => <[(j + i)%nat := Z.lxor (lane st (j + i)) t]> st) by5 st) five st.

Definition rho_pi (st : list Z) : list Z :=
  fst (fold_left (fun '(st, t) '(j, r) =>
         let bc0 := lane st j in
         (<[j := rotl64 t r]> st, bc0)) (zip keccakf_piln keccakf_rotc) (st, lane st 1)).

Definition chi (st : list Z) : list Z :=
  fold_left (fun st j =>
    let bc := map (fun i => lane st (j + i)) five in
    fold_left (fun st i =>
      <[(j + i)%nat := Z.lxor (lane st (j + i))
          (Z.land (not64 (lane bc ((i + 1) mod 5))) (lane bc ((i + 2) mod 5)))]> st) five st) by5 st.

Definition keccakf_round (st : list Z) (rc : Z) : list Z :=
  let st := chi (rho_pi (theta st)) in
  <[0%nat := Z.lxor (lane st 0) rc]> st.

(** [keccakf(st, rounds)], for rounds <= 24. *)
Definition keccakf (st : list Z) (rounds : nat) : list Z :=
  fold_left keccakf_round (take rounds keccakf_rndc) st.

(** ** ethash_keccakf1600 (libkawpow/keccak/keccakf1600.c) *)

(** Round (round + 0): Axx -> Exx, with the constant of the round. *)
Definition f1600_even (rc : Z) (st : list Z) : list Z :=
  match st with
  | [Aba; Abe; Abi; Abo; Abu; Aga; Age; Agi; Ago; Agu; Aka; Ake; Aki; Ako; Aku;
     Ama; Ame; Ami; Amo; Amu; Asa; Ase; Asi; Aso; Asu] =>
      let Ba := Z.lxor (Z.lxor (Z.lxor (Z.lxor Aba Aga) Aka) Ama) Asa in
      let Be := Z.lxor (Z.lxor (Z.lxor (Z.lxor Abe Age) Ake) Ame) Ase in
      let Bi := Z.lxor (Z.lxor (Z.lxor (Z.lxor Abi Agi) Aki) Ami) Asi in
      let Bo := Z.lxor (Z.lxor (Z.lxor (Z.lxor Abo Ago) Ako) Amo) Aso in
      let Bu := Z.lxor (Z.lxor (Z.lxor (Z.lxor Abu Agu) Aku) Amu) Asu in
      let Da := Z.lxor Bu (rotl64 Be 1) in
      let De := Z.lxor Ba (rotl64 Bi 1) in
      let Di := Z.lxor Be (rotl64 Bo 1) in
      let Do := Z.lxor Bi (rotl64 Bu 1) in
      let Du := Z.lxor Bo (rotl64 Ba 1) in
      let Ba := Z.lxor Aba Da in
      let Be := rotl64 (Z.lxor Age De) 44 in
      let Bi := rotl64 (Z.lxor Aki Di) 43 in
      let Bo := rotl64 (Z.lxor Amo Do) 21 in
      let Bu := rotl64 (Z.lxor Asu Du) 14 in
      let Eba := Z.lxor (Z.lxor Ba (Z.land (not64 Be) Bi)) rc in
      let Ebe := Z.lxor Be (Z.land (not64 Bi) Bo) in
      let Ebi := Z.lxor Bi (Z.land (not64 Bo) Bu) in
      let Ebo := Z.lxor Bo (Z.land (not64 Bu) Ba) in
      let Ebu := Z.lxor Bu (Z.land (not64 Ba) Be) in
      let Ba := rotl64 (Z.lxor Abo Do) 28 in
      let Be := rotl64 (Z.lxor Agu Du) 20 in
      let Bi := rotl64 (Z.lxor Aka Da) 3 in
      let Bo := rotl64 (Z.lxor Ame De) 45 in
      let Bu := rotl64 (Z.lxor Asi Di) 61 in
      let Ega := Z.lxor Ba (Z.land (not64 Be) Bi) in
      let Ege := Z.lxor Be (Z.land (not64 Bi) Bo) in
      let Egi := Z.lxor Bi (Z.land (not64 Bo) Bu) in
      let Ego := Z.lxor Bo (Z.land (not64 Bu) Ba) in
      let Egu := Z.lxor Bu (Z.land (not64 Ba) Be) in
      let Ba := rotl64 (Z.lxor Abe De) 1 in
      let Be := rotl64 (Z.lxor Agi Di) 6 in
      let Bi := rotl64 (Z.lxor Ako Do) 25 in
      let Bo := rotl64 (Z.lxor Amu Du) 8 in
      let Bu := rotl64 (Z.lxor Asa Da) 18 in
      let Eka := Z.lxor Ba (Z.land (not64 Be) Bi) in
      let Eke := Z.lxor Be (Z.land (not64 Bi) Bo) in
      let Eki := Z.lxor Bi (Z.land (not64 Bo) Bu) in
      let Eko := Z.lxor Bo (Z.land (not64 Bu) Ba) in
      let Eku := Z.lxor Bu (Z.land (not64 Ba) Be) in
      let Ba := rotl64 (Z.lxor Abu Du) 27 in
      let Be := rotl64 (Z.lxor Aga Da) 36 in
      let Bi := rotl64 (Z.lxor Ake De) 10 in
      let Bo := rotl64 (Z.lxor Ami Di) 15 in
      let Bu := rotl64 (Z.lxor Aso Do) 56 in
      let Ema := Z.lxor Ba (Z.land (not64 Be) Bi) in
      let Eme := Z.lxor Be (Z.land (not64 Bi) Bo) in
      let Emi := Z.lxor Bi (Z.land (not64 Bo) Bu) in
      let Emo := Z.lxor Bo (Z.land (not64 Bu) Ba) in
      let Emu := Z.lxor Bu (Z.land (not64 Ba) Be) in
      let Ba := rotl64 (Z.lxor Abi Di) 62 in
      let Be := rotl64 (Z.lxor Ago Do) 55 in
      let Bi := rotl64 (Z.lxor Aku Du) 39 in
      let Bo := rotl64 (Z.lxor Ama Da) 41 in
      let Bu := rotl64 (Z.lxor Ase De) 2 in
      let Esa := Z.lxor Ba (Z.land (not64 Be) Bi) in
      let Ese := Z.lxor Be (Z.land (not64 Bi) Bo) in
      let Esi := Z.lxor Bi (Z.land (not64 Bo) Bu) in
      let Eso := Z.lxor Bo (Z.land (not64 Bu) Ba) in
      let Esu := Z.lxor Bu (Z.land (not64 Ba) Be) in
      [Eba; Ebe; Ebi; Ebo; Ebu; Ega; Ege; Egi; Ego; Egu; Eka; Eke; Eki; Eko; Eku;
       Ema; Eme; Emi; Emo; Emu; Esa; Ese; Esi; Eso; Esu]
  | _ => st
  end.

(** Round (round + 1): Exx -> Axx. *)
Definition f1600_odd (rc : Z) (st : list Z) : list Z :=
  match st with
  | [Eba; Ebe; Ebi; Ebo; Ebu; Ega; Ege; Egi; Ego; Egu; Eka; Eke; Eki; Eko; Eku;
     Ema; Eme; Emi; Emo; Emu; Esa; Ese; Esi; Eso; Esu] =>
      let Ba := Z.lxor (Z.lxor (Z.lxor (Z.lxor Eba Ega) Eka) Ema) Esa in
      let Be := Z.lxor (Z.lxor (Z.lxor (Z.lxor Ebe Ege) Eke) Eme) Ese in
      let Bi := Z.lxor (Z.lxor (Z.lxor (Z.lxor Ebi Egi) Eki) Emi) Esi in
      let Bo := Z.lxor (Z.lxor (Z.lxor (Z.lxor Ebo Ego) Eko) Emo) Eso in
      let Bu := Z.lxor (Z.lxor (Z.lxor (Z.lxor Ebu Egu) Eku) Emu) Esu in
      let Da := Z.lxor Bu (rotl64 Be 1) in
      let De := Z.lxor Ba (rotl64 Bi 1) in
      let Di := Z.lxor Be (rotl64 Bo 1) in
      let Do := Z.lxor Bi (rotl64 Bu 1) in
      let Du := Z.lxor Bo (rotl64 Ba 1) in
      let Ba := Z.lxor Eba Da in
      let Be := rotl64 (Z.lxor Ege De) 44 in
      let Bi := rotl64 (Z.lxor Eki Di) 43 in
      let Bo := rotl64 (Z.lxor Emo Do) 21 in
      let Bu := rotl64 (Z.lxor Esu Du) 14 in
      let Aba := Z.lxor (Z.lxor Ba (Z.land (not64 Be) Bi)) rc in
      let Abe := Z.lxor Be (Z.land (not64 Bi) Bo) in
      let Abi := Z.lxor Bi (Z.land (not64 Bo) Bu) in
      let Abo := Z.lxor Bo (Z.land (not64 Bu) Ba) in
      let Abu := Z.lxor Bu (Z.land (not64 Ba) Be) in
      let Ba := rotl64 (Z.lxor Ebo Do) 28 in
      let Be := rotl64 (Z.lxor Egu Du) 20 in
      let Bi := rotl64 (Z.lxor Eka Da) 3 in
      let Bo := rotl64 (Z.lxor Eme De) 45 in
      let Bu := rotl64 (Z.lxor Esi Di) 61 in
      let Aga := Z.lxor Ba (Z.land (not64 Be) Bi) in
      let Age := Z.lxor Be (Z.land (not64 Bi) Bo) in
      let Agi := Z.lxor Bi (Z.land (not64 Bo) Bu) in
      let Ago := Z.lxor Bo (Z.land (not64 Bu) Ba) in
      let Agu := Z.lxor Bu (Z.land (not64 Ba) Be) in
      let Ba := rotl64 (Z.lxor Ebe De) 1 in
      let Be := rotl64 (Z.lxor Egi Di) 6 in
      let Bi := rotl64 (Z.lxor Eko Do) 25 in
      let Bo := rotl64 (Z.lxor Emu Du) 8 in
      let Bu := rotl64 (Z.lxor Esa Da) 18 in
      let Aka := Z.lxor Ba (Z.land (not64 Be) Bi) in
      let Ake := Z.lxor Be (Z.land (not64 Bi) Bo) in
      let Aki := Z.lxor Bi (Z.land (not64 Bo) Bu) in
      let Ako := Z.lxor Bo (Z.land (not64 Bu) Ba) in
      let Aku := Z.lxor Bu (Z.land (not64 Ba) Be) in
      let Ba := rotl64 (Z.lxor Ebu Du) 27 in
      let Be := rotl64 (Z.lxor Ega Da) 36 in
      let Bi := rotl64 (Z.lxor Eke De) 10 in
      let Bo := rotl64 (Z.lxor Emi Di) 15 in
      let Bu := rotl64 (Z.lxor Eso Do) 56 in
      let Ama := Z.lxor Ba (Z.land (not64 Be) Bi) in
      let Ame := Z.lxor Be (Z.land (not64 Bi) Bo) in
      let Ami := Z.lxor Bi (Z.land (not64 Bo) Bu) in
      let Amo := Z.lxor Bo (Z.land (not64 Bu) Ba) in
      let Amu := Z.lxor Bu (Z.land (not64 Ba) Be) in
      let Ba := rotl64 (Z.lxor Ebi Di) 62 in
      let Be := rotl64 (Z.lxor Ego Do) 55 in
      let Bi := rotl64 (Z.lxor Eku Du) 39 in
      let Bo := rotl64 (Z.lxor Ema Da) 41 in
      let Bu := rotl64 (Z.lxor Ese De) 2 in
      let Asa := Z.lxor Ba (Z.land (not64 Be) Bi) in
      let Ase := Z.lxor Be (Z.land (not64 Bi) Bo) in
      let Asi := Z.lxor Bi (Z.land (not64 Bo) Bu) in
      let Aso := Z.lxor Bo (Z.land (not64 Bu) Ba) in
      let Asu := Z.lxor Bu (Z.land (not64 Ba) Be) in
      [Aba; Abe; Abi; Abo; Abu; Aga; Age; Agi; Ago; Agu; Aka; Ake; Aki; Ako; Aku;
       Ama; Ame; Ami; Amo; Amu; Asa; Ase; Asi; Aso; Asu]
  | _ => st
  end.

(** [for (round = 0; round < 24; round += 2)]. *)
Fixpoint f1600_loop (rcs : list Z) (st : list Z) : list Z :=
  match rcs with
  | rc0 :: rc1 :: rcs => f1600_loop rcs (f1600_odd rc1 (f1600_even rc0 st))
  | _ => st
  end.

(** round_constants is the table keccakf_rndc again. *)
Definition ethash_keccakf1600 (st : list Z) : list Z := f1600_loop keccakf_rndc st.

(** ** keccakf (libethhash/sha3.c) *)

(** The column sums accumulate from 0, and theta recomputes its word for every
    lane; chi reads the row it saved. *)
Definition eth_theta (a : list Z) : list Z :=
  let b := fold_left (fun b x =>
    fold_left (fun b y => <[x := Z.lxor (lane b x) (lane a (x + y))]> b) by5 (<[x := 0]> b))
    five [0; 0; 0; 0; 0] in
  fold_left (fun a x =>
    fold_left (fun a y =>
      <[(y + x)%nat := Z.lxor (lane a (y + x))
          (Z.lxor (lane b ((x + 4) mod 5)) (rotl64 (lane b ((x + 1) mod 5)) 1))]> a) by5 a) five a.

Definition eth_chi (a : list Z) : list Z :=
  fold_left (fun a y =>
    let b := map (fun x => lane a (y + x)) five in
    fold_left (fun a x =>
      <[(y + x)%nat := Z.lxor (lane b x)
          (Z.land (not64 (lane b ((x + 1) mod 5))) (lane b ((x + 2) mod 5)))]> a) five a) by5 a.

Definition eth_round (a : list Z) (rc : Z) : list Z :=
  let a := eth_chi (rho_pi (eth_theta a)) in
  <[0%nat := Z.lxor (lane a 0) rc]> a.

Definition eth_keccakf (a : list Z) : list Z := fold_left eth_round keccakf_rndc a.

(** ** The permutation of FIPS 202, section 3.2, on lanes A[x, y] *)

Definition at_xy (st : list Z) (x y : nat) : Z := lane st (x mod 5 + 5 * (y mod 5)).
Definition by_xy (f : nat -> nat -> Z) : list Z := map (fun k => f (k mod 5) (k / 5))%nat (seq 0 25).

Definition fips_theta (st : list Z) : list Z :=
  let C x := Z.lxor (Z.lxor (Z.lxor (Z.lxor (at_xy st x 0) (at_xy st x 1)) (at_xy st x 2)) (at_xy st x 3))
                    (at_xy st x 4) in
  let D x := Z.lxor (C (x + 4)%nat) (rotl64 (C (x + 1)%nat) 1) in
  by_xy (fun x y => Z.lxor (at_xy st x y) (D x)).

(** The walk (x, y) := (y, 2x + 3y) from (1, 0), with offset (t+1)(t+2)/2 mod 64
    at step t. *)
Fixpoint rho_walk (n t x y : nat) : list (nat * nat * Z) :=
  match n with
  | O => []
  | S n => (x, y, (Z.of_nat t + 1) * (Z.of_nat t + 2) / 2 mod 64) :: rho_walk n (S t) y ((2 * x + 3 * y) mod 5)
  end.

Definition rho_offset (x y : nat) : option Z :=
  snd <$> List.find (fun '(a, b, _) => (a =? x)%nat && (b =? y)%nat) (rho_walk 24 0 1 0).

Definition fips_rho (st : list Z) : list Z :=
  by_xy (fun x y => match rho_offset x y with
                    | Some r => rotl64 (at_xy st x y) r
                    | None => at_xy st x y
                    end).

Definition fips_pi (st : list Z) : list Z := by_xy (fun x y => at_xy st (x + 3 * y) x).

Definition fips_chi (st : list Z) : list Z :=
  by_xy (fun x y => Z.lxor (at_xy st x y) (Z.land (not64 (at_xy st (x + 1) y)) (at_xy st (x + 2) y))).

(** The bit rc(t) of the linear feedback shift register. *)
Definition lfsr_step (r : list bool) : list bool :=
  match r with
  | [r0; r1; r2; r3; r4; r5; r6; r7] =>
      [r7; r0; r1; r2; xorb r3 r7; xorb r4 r7; xorb r5 r7; r6]
  | _ => r
  end.
Definition rc_bit (t : nat) : bool :=
  hd false (Nat.iter (t mod 255) lfsr_step [true; false; false; false; false; false; false; false]).
Definition fips_rc (ir : nat) : Z :=
  fold_left (fun rc j => if rc_bit (j + 7 * ir) then rc + 2 ^ (2 ^ Z.of_nat j - 1) else rc) (seq 0 7) 0.

Definition fips_round (ir : nat) (st : list Z) : list Z :=
  by_xy (fun x y => if (x =? 0)%nat && (y =? 0)%nat
                    then Z.lxor (at_xy (fips_chi (fips_pi (fips_rho (fips_theta st)))) x y) (fips_rc ir)
                    else at_xy (fips_chi (fips_pi (fips_rho (fips_theta st)))) x y).

Definition fips_keccak_f (st : list Z) : list Z := fold_left (fun st ir => fips_round ir st) (seq 0 24) st.

(** ** Words *)

Lemma u64_mod z : u64 z = z mod 2 ^ 64.
Proof. reflexivity. Qed.

Lemma u64_high x i : is_u64 x -> 64 <= i -> Z.testbit x i = false.
Proof.
  intros X I. rewrite <- (Z.mod_small x (2 ^ 64)) by exact X. now apply Z.mod_pow2_bits_high.
Qed.

Lemma u64_bits x : 0 <= x -> (forall i, 64 <= i -> Z.testbit x i = false) -> is_u64 x.
Proof.
  intros P H. assert (E : x = x mod 2 ^ 64).
  { apply Z.bits_inj'. intros i I. destruct (Z.lt_ge_cases i 64).
    - now rewrite Z.mod_pow2_bits_low by lia.
    - rewrite Z.mod_pow2_bits_high by lia. now apply H. }
  rewrite E. apply Z.mod_pos_bound. reflexivity.
Qed.

(** ROTL64 is a rotation of the 64 bits. *)
Lemma rotl64_bits x r i : is_u64 x -> 0 <= r < 64 -> 0 <= i < 64 ->
  Z.testbit (rotl64 x r) i = Z.testbit x ((i - r) mod 64).
Proof.
  intros X R I. unfold rotl64. rewrite u64_mod, Z.lor_spec, Z.mod_pow2_bits_low, Z.shiftl_spec, Z.shiftr_spec by lia.
  destruct (Z.lt_ge_cases i r).
  - rewrite Z.testbit_neg_r by lia. cbn [orb]. f_equal.
    apply Z.mod_unique_pos with (q := -1); lia.
  - rewrite (u64_high x (i + (64 - r))) by (try exact X; lia). rewrite orb_false_r. f_equal. symmetry. apply Z.mod_small. lia.
Qed.

Lemma rotl64_u64 x r : is_u64 x -> 0 <= r < 64 -> is_u64 (rotl64 x r).
Proof.
  intros X R. apply u64_bits.
  - apply Z.lor_nonneg. split; [apply Z.mod_pos_bound; reflexivity | apply Z.shiftr_nonneg, X].
  - intros i I. unfold rotl64. rewrite u64_mod, Z.lor_spec, Z.mod_pow2_bits_high, Z.shiftr_spec by lia.
    apply u64_high; [exact X | lia].
Qed.

Lemma lxor_u64 x y : is_u64 x -> is_u64 y -> is_u64 (Z.lxor x y).
Proof.
  intros X Y. apply u64_bits.
  - apply Z.lxor_nonneg. unfold is_u64 in *. lia.
  - intros i I. now rewrite Z.lxor_spec, !u64_high.
Qed.

Lemma land_u64 x y : 0 <= x -> is_u64 y -> is_u64 (Z.land x y).
Proof.
  intros X Y. apply u64_bits.
  - apply Z.land_nonneg. now left.
  - intros i I. rewrite Z.land_spec, (u64_high y) by assumption. apply andb_false_r.
Qed.

Lemma not64_u64 x : is_u64 x -> is_u64 (not64 x).
Proof. intros X. apply lxor_u64; [exact X|]. unfold is_u64. lia. Qed.

(** [not64] complements the 64 bits. *)
Lemma not64_bits x i : is_u64 x -> 0 <= i < 64 -> Z.testbit (not64 x) i = negb (Z.testbit x i).
Proof.
  intros X I. unfold not64. change 18446744073709551615 with (Z.ones 64).
  rewrite Z.lxor_spec, Z.ones_spec_low by lia. apply xorb_true_r.
Qed.

(** ** Equivalence of the four forms *)

(** The 25 lanes of a state become variables. *)
Ltac lanes25 st L :=
  do 25 (destruct st as [|? st]; [discriminate L|]); destruct st; [clear L | discriminate L].

Ltac by_lanes :=
  intros;
  lazymatch goal with L : length ?st = 25%nat |- _ => lanes25 st L end;
  cbv -[Z.lxor Z.land rotl64 not64]; rewrite ?Z.lxor_0_l; reflexivity.

Lemma fips_rc_table : map fips_rc (seq 0 24) = keccakf_rndc.
Proof. vm_compute. reflexivity. Qed.

Lemma f1600_even_round rc st : length st = 25%nat -> f1600_even rc st = keccakf_round st rc.
Proof. by_lanes. Qed.

Lemma f1600_odd_round rc st : length st = 25%nat -> f1600_odd rc st = keccakf_round st rc.
Proof. by_lanes. Qed.

Lemma eth_round_round rc st : length st = 25%nat -> eth_round st rc = keccakf_round st rc.
Proof. by_lanes. Qed.

Lemma fips_steps st : length st = 25%nat ->
  fips_chi (fips_pi (fips_rho (fips_theta st))) = chi (rho_pi (theta st)).
Proof. by_lanes. Qed.

Lemma fips_round_round ir st : length st = 25%nat -> fips_round ir st = keccakf_round st (fips_rc ir).
Proof.
  intros L. unfold fips_round, keccakf_round. rewrite fips_steps by exact L.
  assert (L' : length (chi (rho_pi (theta st))) = 25%nat) by (lanes25 st L; reflexivity).
  set (s := chi (rho_pi (theta st))) in *. set (rc := fips_rc ir). clearbody s rc. clear st L.
  rename L' into L. lanes25 s L. reflexivity.
Qed.

Lemma keccakf_round_length st rc : length st = 25%nat -> length (keccakf_round st rc) = 25%nat.
Proof. intros L. lanes25 st L. reflexivity. Qed.

Lemma fold_left_inv {A B} (P : A -> Prop) (f : A -> B -> A) l : (forall a b, In b l -> P a -> P (f a b)) ->
  forall a, P a -> P (fold_left f l a).
Proof.
  induction l as [|b l IH]; intros F a Pa; [exact Pa|]. cbn [fold_left]. apply IH.
  - intros a' b' I. apply F. now right.
  - apply F; [now left | exact Pa].
Qed.

Lemma fold_left_map {A B C} (f : A -> C -> A) (h : B -> C) l : forall a,
  fold_left f (map h l) a = fold_left (fun a b => f a (h b)) l a.
Proof. induction l as [|b l IH]; intros a; [reflexivity|]. cbn [map fold_left]. apply IH. Qed.

Lemma keccakf_length st r : length st = 25%nat -> length (keccakf st r) = 25%nat.
Proof.
  intros L. unfold keccakf. apply (fold_left_inv (fun s => length s = 25%nat)); [|exact L].
  intros s rc _. apply keccakf_round_length.
Qed.

Definition u64s (st : list Z) : Prop := Forall is_u64 st.

(** Every lane stays a 64-bit word. *)
Lemma lane_u64 st i : u64s st -> is_u64 (lane st i).
Proof.
  intros U. unfold lane. destruct (nth_in_or_default i st 0) as [H | ->]; [|unfold is_u64; lia].
  exact (proj1 (List.Forall_forall _ _) U _ H).
Qed.

Lemma u64s_insert st j v : u64s st -> is_u64 v -> u64s (<[j := v]> st).
Proof. apply Forall_insert. Qed.

Lemma u64s_map {A} (f : A -> Z) l : (forall a, In a l -> is_u64 (f a)) -> u64s (map f l).
Proof. intros H. unfold u64s. apply List.Forall_map, List.Forall_forall. exact H. Qed.

Create HintDb u64.
#[export] Hint Resolve lane_u64 u64s_insert lxor_u64 not64_u64 : u64.

Lemma theta_u64 st : u64s st -> u64s (theta st).
Proof.
  intros U. unfold theta. cbv zeta.
  match goal with |- context [lane (map ?f five)] =>
    assert (B : u64s (map f five)) by (apply u64s_map; intros; auto 8 with u64); set (bc := map f five) in * end.
  clearbody bc. apply fold_left_inv; [|exact U]. intros s i _ S. apply fold_left_inv; [|exact S].
  intros s' j _ S'. apply u64s_insert; [exact S'|]. apply lxor_u64; [auto with u64|].
  apply lxor_u64; [auto with u64|]. apply rotl64_u64; [auto with u64 | lia].
Qed.

Lemma rho_pi_u64 st : u64s st -> u64s (rho_pi st).
Proof.
  intros U. unfold rho_pi.
  refine (proj1 (fold_left_inv (fun p => u64s p.1 /\ is_u64 p.2) _ _ _ _ _)).
  - intros [s t] [j r] I [S T]. cbn [fst snd] in *. split; [|auto with u64].
    apply u64s_insert; [exact S|]. apply rotl64_u64; [exact T|].
    apply in_combine_r in I. revert r I. apply List.Forall_forall.
    repeat constructor; discriminate.
  - split; cbn [fst snd]; auto with u64.
Qed.

Lemma chi_u64 st : u64s st -> u64s (chi st).
Proof.
  intros U. unfold chi. apply fold_left_inv; [|exact U]. intros s j _ S.
  match goal with |- context [lane (map ?f five)] =>
    assert (B : u64s (map f five)) by (apply u64s_map; intros; auto with u64); set (bc := map f five) in * end.
  clearbody bc. apply fold_left_inv; [|exact S]. intros s' i _ S'. apply u64s_insert; [exact S'|].
  apply lxor_u64; [auto with u64|]. apply land_u64; [|auto with u64].
  apply (not64_u64 (lane bc ((i + 1) mod 5))). auto with u64.
Qed.

Lemma keccakf_round_u64 st rc : is_u64 rc -> u64s st -> u64s (keccakf_round st rc).
Proof.
  intros R U. unfold keccakf_round. pose proof (chi_u64 _ (rho_pi_u64 _ (theta_u64 _ U))).
  auto with u64.
Qed.

Lemma rndc_u64 : u64s keccakf_rndc.
Proof. repeat constructor; discriminate. Qed.

Lemma keccakf_u64 st r : u64s st -> u64s (keccakf st r).
Proof.
  intros U. unfold keccakf. apply fold_left_inv; [|exact U]. intros s rc I S. apply keccakf_round_u64; [|exact S].
  pose proof rndc_u64 as R. unfold u64s in R. rewrite <- (take_drop r) in R.
  apply Forall_app in R as [R _]. exact (proj1 (List.Forall_forall _ _) R _ I).
Qed.

(** The unrolled permutations run the 24 rounds of keccakf. *)
Section Unrolled.
Context {A B : Type} (P : A -> Prop) (f : A -> B -> A) (ev od : B -> A -> A) (loop : list B -> A -> A).
Context (loop_nil : forall a, loop [] a = a).
Context (loop_cons : forall b c l a, loop (b :: c :: l) a = loop l (od c (ev b a))).
Context (ev_ok : forall a b, P a -> ev b a = f a b) (od_ok : forall a b, P a -> od b a = f a b).
Context (f_ok : forall a b, P a -> P (f a b)).

Lemma unrolled_fold n : forall l a, length l = (2 * n)%nat -> P a -> loop l a = fold_left f l a.
Proof.
  induction n as [|n IH]; intros l a L Pa.
  - destruct l; [apply loop_nil | discriminate L].
  - destruct l as [|b [|c l]]; try (cbn in L; lia). cbn in L. rewrite loop_cons, ev_ok, od_ok by auto.
    cbn [fold_left]. apply IH; [lia | auto].
Qed.
End Unrolled.

Definition lanes_ok (st : list Z) : Prop := length st = 25%nat.

Lemma ethash_keccakf1600_eq st : length st = 25%nat -> ethash_keccakf1600 st = keccakf st 24.
Proof.
  intros L. unfold ethash_keccakf1600, keccakf. change (take 24 keccakf_rndc) with keccakf_rndc.
  apply (unrolled_fold lanes_ok keccakf_round f1600_even f1600_odd f1600_loop) with (n := 12%nat);
    try reflexivity; try exact L; intros; [now apply f1600_even_round | now apply f1600_odd_round
                                         | now apply keccakf_round_length].
Qed.

Lemma eth_keccakf_eq st : length st = 25%nat -> eth_keccakf st = keccakf st 24.
Proof.
  intros L. unfold eth_keccakf, keccakf. change (take 24 keccakf_rndc) with keccakf_rndc.
  refine (proj1 (fold_left_ext_inv lanes_ok _ _ _ _ _ L)). intros a b _ La.
  split; [now apply eth_round_round | now apply keccakf_round_length].
Qed.

Lemma fips_keccak_f_eq st : length st = 25%nat -> fips_keccak_f st = keccakf st 24.
Proof.
  intros L. unfold fips_keccak_f, keccakf. change (take 24 keccakf_rndc) with keccakf_rndc.
  rewrite <- fips_rc_table, fold_left_map. refine (proj1 (fold_left_ext_inv lanes_ok _ _ _ _ _ L)). intros a b _ La.
  split; [now apply fips_round_round | now apply keccakf_round_length].
Qed.

(** ** Properties *)

(** C29.  The permutations. On every state of 25 lanes, 24 rounds of keccakf,
    the unrolled ethash_keccakf1600 and the keccakf of libethhash all equal the
    Keccak-f[1600] of FIPS 202, its round constants taken from the LFSR and its
    rotations from the walk over the lanes. *)
Theorem keccakf_is_fips202 st : length st = 25%nat ->
  keccakf st 24 = fips_keccak_f st /\ ethash_keccakf1600 st = fips_keccak_f st /\
  eth_keccakf st = fips_keccak_f st.
Proof.
  intros L. now rewrite fips_keccak_f_eq, ethash_keccakf1600_eq, eth_keccakf_eq.
Qed.

Lemma keccakf_is_fips202_witness :
  keccakf (seqZ 0 25) 24 = fips_keccak_f (seqZ 0 25) /\
  ethash_keccakf1600 (seqZ 0 25) = fips_keccak_f (seqZ 0 25) /\
  eth_keccakf (seqZ 0 25) = fips_keccak_f (seqZ 0 25).
Proof. exact (keccakf_is_fips202 (seqZ 0 25) eq_refl). Defined.

(** keccakf keeps the shape of the state: 25 lanes, each a 64-bit word. *)
Theorem keccakf_state_ok st r : length st = 25%nat -> u64s st ->
  length (keccakf st r) = 25%nat /\ u64s (keccakf st r).
Proof. intros L U. split; [now apply keccakf_length | now apply keccakf_u64]. Qed.

Lemma keccakf_state_ok_witness :
  length (keccakf (repeat 0 25) 24) = 25%nat /\ u64s (keccakf (repeat 0 25) 24).
Proof. apply keccakf_state_ok; [reflexivity | repeat constructor; discriminate]. Defined.
