(* ===== verification/Keccak800.v ===== *)
(** The Keccak-f[800] permutation of libkawpow/keccak/keccakf800.c (22 rounds on
    32-bit lanes, two unrolled rounds per iteration), which ProgPoW hashes with,
    against the permutation of FIPS 202 for that width. *)
From Stdlib Require Import ZArith Lia List Bool.
From stdpp Require Import base list.
From S2P Require Import Prelude CInt Keccak.
Import ListNotations.
Local Open Scope Z_scope.

(** rol, and [~x] on uint32_t. *)
Definition rotl32 (x s : Z) : Z := Z.lor (u32 (Z.shiftl x s)) (Z.shiftr x (32 - s)).
Definition not32 (x : Z) : Z := Z.lxor x 4294967295.

Definition f800_constants : list Z :=
  [0x00000001; 0x00008082; 0x0000808A; 0x80008000; 0x0000808B; 0x80000001;
   0x80008081; 0x00008009; 0x0000008A; 0x00000088; 0x80008009; 0x8000000A;
   0x8000808B; 0x0000008B; 0x00008089; 0x00008003; 0x00008002; 0x00000080;
   0x0000800A; 0x8000000A; 0x80008081; 0x00008080].

(** Round (round + 0): Axx -> Exx, with the constant of the round. *)
Definition f800_even (rc : Z) (st : list Z) : list Z :=
  match st with
  | [Aba; Abe; Abi; Abo; Abu; Aga; Age; Agi; Ago; Agu; Aka; Ake; Aki;
     Ako; Aku; Ama; Ame; Ami; Amo; Amu; Asa; Ase; Asi; Aso; Asu] =>
      let Ba := Z.lxor (Z.lxor (Z.lxor (Z.lxor Aba Aga) Aka) Ama) Asa in
      let Be := Z.lxor (Z.lxor (Z.lxor (Z.lxor Abe Age) Ake) Ame) Ase in
      let Bi := Z.lxor (Z.lxor (Z.lxor (Z.lxor Abi Agi) Aki) Ami) Asi in
      let Bo := Z.lxor (Z.lxor (Z.lxor (Z.lxor Abo Ago) Ako) Amo) Aso in
      let Bu := Z.lxor (Z.lxor (Z.lxor (Z.lxor Abu Agu) Aku) Amu) Asu in
      let Da := Z.lxor Bu (rotl32 Be 1) in
      let De := Z.lxor Ba (rotl32 Bi 1) in
      let Di := Z.lxor Be (rotl32 Bo 1) in
      let Do := Z.lxor Bi (rotl32 Bu 1) in
      let Du := Z.lxor Bo (rotl32 Ba 1) in
      let Ba := Z.lxor Aba Da in
      let Be := rotl32 (Z.lxor Age De) 12 in
      let Bi := rotl32 (Z.lxor Aki Di) 11 in
      let Bo := rotl32 (Z.lxor Amo Do) 21 in
      let Bu := rotl32 (Z.lxor Asu Du) 14 in
      let Eba := Z.lxor (Z.lxor Ba (Z.land (not32 Be) Bi)) rc in
      let Ebe := Z.lxor Be (Z.land (not32 Bi) Bo) in
      let Ebi := Z.lxor Bi (Z.land (not32 Bo) Bu) in
      let Ebo := Z.lxor Bo (Z.land (not32 Bu) Ba) in
      let Ebu := Z.lxor Bu (Z.land (not32 Ba) Be) in
      let Ba := rotl32 (Z.lxor Abo Do) 28 in
      let Be := rotl32 (Z.lxor Agu Du) 20 in
      let Bi := rotl32 (Z.lxor Aka Da) 3 in
      let Bo := rotl32 (Z.lxor Ame De) 13 in
      let Bu := rotl32 (Z.lxor Asi Di) 29 in
      let Ega := Z.lxor Ba (Z.land (not32 Be) Bi) in
      let Ege := Z.lxor Be (Z.land (not32 Bi) Bo) in
      let Egi := Z.lxor Bi (Z.land (not32 Bo) Bu) in
      let Ego := Z.lxor Bo (Z.land (not32 Bu) Ba) in
      let Egu := Z.lxor Bu (Z.land (not32 Ba) Be) in
      let Ba := rotl32 (Z.lxor Abe De) 1 in
      let Be := rotl32 (Z.lxor Agi Di) 6 in
      let Bi := rotl32 (Z.lxor Ako Do) 25 in
      let Bo := rotl32 (Z.lxor Amu Du) 8 in
      let Bu := rotl32 (Z.lxor Asa Da) 18 in
      let Eka := Z.lxor Ba (Z.land (not32 Be) Bi) in
      let Eke := Z.lxor Be (Z.land (not32 Bi) Bo) in
      let Eki := Z.lxor Bi (Z.land (not32 Bo) Bu) in
      let Eko := Z.lxor Bo (Z.land (not32 Bu) Ba) in
      let Eku := Z.lxor Bu (Z.land (not32 Ba) Be) in
      let Ba := rotl32 (Z.lxor Abu Du) 27 in
      let Be := rotl32 (Z.lxor Aga Da) 4 in
      let Bi := rotl32 (Z.lxor Ake De) 10 in
      let Bo := rotl32 (Z.lxor Ami Di) 15 in
      let Bu := rotl32 (Z.lxor Aso Do) 24 in
      let Ema := Z.lxor Ba (Z.land (not32 Be) Bi) in
      let Eme := Z.lxor Be (Z.land (not32 Bi) Bo) in
      let Emi := Z.lxor Bi (Z.land (not32 Bo) Bu) in
      let Emo := Z.lxor Bo (Z.land (not32 Bu) Ba) in
      let Emu := Z.lxor Bu (Z.land (not32 Ba) Be) in
      let Ba := rotl32 (Z.lxor Abi Di) 30 in
      let Be := rotl32 (Z.lxor Ago Do) 23 in
      let Bi := rotl32 (Z.lxor Aku Du) 7 in
      let Bo := rotl32 (Z.lxor Ama Da) 9 in
      let Bu := rotl32 (Z.lxor Ase De) 2 in
      let Esa := Z.lxor Ba (Z.land (not32 Be) Bi) in
      let Ese := Z.lxor Be (Z.land (not32 Bi) Bo) in
      let Esi := Z.lxor Bi (Z.land (not32 Bo) Bu) in
      let Eso := Z.lxor Bo (Z.land (not32 Bu) Ba) in
      let Esu := Z.lxor Bu (Z.land (not32 Ba) Be) in
      [Eba; Ebe; Ebi; Ebo; Ebu; Ega; Ege; Egi; Ego; Egu; Eka; Eke; Eki;
     Eko; Eku; Ema; Eme; Emi; Emo; Emu; Esa; Ese; Esi; Eso; Esu]
  | _ => st
  end.

(** Round (round + 1): Exx -> Axx. *)
Definition f800_odd (rc : Z) (st : list Z) : list Z :=
  match st with
  | [Eba; Ebe; Ebi; Ebo; Ebu; Ega; Ege; Egi; Ego; Egu; Eka; Eke; Eki;
     Eko; Eku; Ema; Eme; Emi; Emo; Emu; Esa; Ese; Esi; Eso; Esu] =>
      let Ba := Z.lxor (Z.lxor (Z.lxor (Z.lxor Eba Ega) Eka) Ema) Esa in
      let Be := Z.lxor (Z.lxor (Z.lxor (Z.lxor Ebe Ege) Eke) Eme) Ese in
      let Bi := Z.lxor (Z.lxor (Z.lxor (Z.lxor Ebi Egi) Eki) Emi) Esi in
      let Bo := Z.lxor (Z.lxor (Z.lxor (Z.lxor Ebo Ego) Eko) Emo) Eso in
      let Bu := Z.lxor (Z.lxor (Z.lxor (Z.lxor Ebu Egu) Eku) Emu) Esu in
      let Da := Z.lxor Bu (rotl32 Be 1) in
      let De := Z.lxor Ba (rotl32 Bi 1) in
      let Di := Z.lxor Be (rotl32 Bo 1) in
      let Do := Z.lxor Bi (rotl32 Bu 1) in
      let Du := Z.lxor Bo (rotl32 Ba 1) in
      let Ba := Z.lxor Eba Da in
      let Be := rotl32 (Z.lxor Ege De) 12 in
      let Bi := rotl32 (Z.lxor Eki Di) 11 in
      let Bo := rotl32 (Z.lxor Emo Do) 21 in
      let Bu := rotl32 (Z.lxor Esu Du) 14 in
      let Aba := Z.lxor (Z.lxor Ba (Z.land (not32 Be) Bi)) rc in
      let Abe := Z.lxor Be (Z.land (not32 Bi) Bo) in
      let Abi := Z.lxor Bi (Z.land (not32 Bo) Bu) in
      let Abo := Z.lxor Bo (Z.land (not32 Bu) Ba) in
      let Abu := Z.lxor Bu (Z.land (not32 Ba) Be) in
      let Ba := rotl32 (Z.lxor Ebo Do) 28 in
      let Be := rotl32 (Z.lxor Egu Du) 20 in
      let Bi := rotl32 (Z.lxor Eka Da) 3 in
      let Bo := rotl32 (Z.lxor Eme De) 13 in
      let Bu := rotl32 (Z.lxor Esi Di) 29 in
      let Aga := Z.lxor Ba (Z.land (not32 Be) Bi) in
      let Age := Z.lxor Be (Z.land (not32 Bi) Bo) in
      let Agi := Z.lxor Bi (Z.land (not32 Bo) Bu) in
      let Ago := Z.lxor Bo (Z.land (not32 Bu) Ba) in
      let Agu := Z.lxor Bu (Z.land (not32 Ba) Be) in
      let Ba := rotl32 (Z.lxor Ebe De) 1 in
      let Be := rotl32 (Z.lxor Egi Di) 6 in
      let Bi := rotl32 (Z.lxor Eko Do) 25 in
      let Bo := rotl32 (Z.lxor Emu Du) 8 in
      let Bu := rotl32 (Z.lxor Esa Da) 18 in
      let Aka := Z.lxor Ba (Z.land (not32 Be) Bi) in
      let Ake := Z.lxor Be (Z.land (not32 Bi) Bo) in
      let Aki := Z.lxor Bi (Z.land (not32 Bo) Bu) in
      let Ako := Z.lxor Bo (Z.land (not32 Bu) Ba) in
      let Aku := Z.lxor Bu (Z.land (not32 Ba) Be) in
      let Ba := rotl32 (Z.lxor Ebu Du) 27 in
      let Be := rotl32 (Z.lxor Ega Da) 4 in
      let Bi := rotl32 (Z.lxor Eke De) 10 in
      let Bo := rotl32 (Z.lxor Emi Di) 15 in
      let Bu := rotl32 (Z.lxor Eso Do) 24 in
      let Ama := Z.lxor Ba (Z.land (not32 Be) Bi) in
      let Ame := Z.lxor Be (Z.land (not32 Bi) Bo) in
      let Ami := Z.lxor Bi (Z.land (not32 Bo) Bu) in
      let Amo := Z.lxor Bo (Z.land (not32 Bu) Ba) in
      let Amu := Z.lxor Bu (Z.land (not32 Ba) Be) in
      let Ba := rotl32 (Z.lxor Ebi Di) 30 in
      let Be := rotl32 (Z.lxor Ego Do) 23 in
      let Bi := rotl32 (Z.lxor Eku Du) 7 in
      let Bo := rotl32 (Z.lxor Ema Da) 9 in
      let Bu := rotl32 (Z.lxor Ese De) 2 in
      let Asa := Z.lxor Ba (Z.land (not32 Be) Bi) in
      let Ase := Z.lxor Be (Z.land (not32 Bi) Bo) in
      let Asi := Z.lxor Bi (Z.land (not32 Bo) Bu) in
      let Aso := Z.lxor Bo (Z.land (not32 Bu) Ba) in
      let Asu := Z.lxor Bu (Z.land (not32 Ba) Be) in
      [Aba; Abe; Abi; Abo; Abu; Aga; Age; Agi; Ago; Agu; Aka; Ake; Aki;
     Ako; Aku; Ama; Ame; Ami; Amo; Amu; Asa; Ase; Asi; Aso; Asu]
  | _ => st
  end.

Fixpoint f800_loop (rcs : list Z) (st : list Z) : list Z :=
  match rcs with
  | rc0 :: rc1 :: rcs => f800_loop rcs (f800_odd rc1 (f800_even rc0 st))
  | _ => st
  end.

Definition ethash_keccakf800 (st : list Z) : list Z := f800_loop f800_constants st.

(** ** FIPS 202 for lanes of 32 bits

    The steps are those of Keccak.v with rotations modulo 32 and the round constant
    cut to the lane; there are 12 + 2 * 5 = 22 rounds. *)

Definition fips32_theta (st : list Z) : list Z :=
  let C x := Z.lxor (Z.lxor (Z.lxor (Z.lxor (at_xy st x 0) (at_xy st x 1)) (at_xy st x 2)) (at_xy st x 3))
                    (at_xy st x 4) in
  let D x := Z.lxor (C (x + 4)%nat) (rotl32 (C (x + 1)%nat) 1) in
  by_xy (fun x y => Z.lxor (at_xy st x y) (D x)).

Definition fips32_rho (st : list Z) : list Z :=
  by_xy (fun x y => match rho_offset x y with
                    | Some r => rotl32 (at_xy st x y) (r mod 32)
                    | None => at_xy st x y
                    end).

Definition fips32_chi (st : list Z) : list Z :=
  by_xy (fun x y => Z.lxor (at_xy st x y) (Z.land (not32 (at_xy st (x + 1) y)) (at_xy st (x + 2) y))).

Definition fips32_round (ir : nat) (st : list Z) : list Z :=
  let st := fips32_chi (fips_pi (fips32_rho (fips32_theta st))) in
  <[0%nat := Z.lxor (at_xy st 0 0) (fips_rc ir mod 2 ^ 32)]> st.

Definition fips_keccak_f800 (st : list Z) : list Z := fold_left (fun st ir => fips32_round ir st) (seq 0 22) st.

(** ** Equivalence *)

(** One round with its constant given. *)
Definition round32 (st : list Z) (rc : Z) : list Z :=
  let st := fips32_chi (fips_pi (fips32_rho (fips32_theta st))) in
  <[0%nat := Z.lxor (at_xy st 0 0) rc]> st.

Ltac by_lanes32 :=
  intros;
  lazymatch goal with L : length ?st = 25%nat |- _ => lanes25 st L end;
  cbv -[Z.lxor Z.land rotl32 not32]; reflexivity.

Lemma f800_even_round rc st : length st = 25%nat -> f800_even rc st = round32 st rc.
Proof. by_lanes32. Qed.

Lemma f800_odd_round rc st : length st = 25%nat -> f800_odd rc st = round32 st rc.
Proof. by_lanes32. Qed.

Lemma f800_constants_fips : map (fun ir => fips_rc ir mod 2 ^ 32) (seq 0 22) = f800_constants.
Proof. vm_compute. reflexivity. Qed.

Lemma ethash_keccakf800_fold st : length st = 25%nat ->
  ethash_keccakf800 st = fold_left round32 f800_constants st.
Proof.
  intros L. unfold ethash_keccakf800.
  apply (unrolled_fold lanes_ok round32 f800_even f800_odd f800_loop) with (n := 11%nat);
    try reflexivity; try exact L; intros; [now apply f800_even_round | now apply f800_odd_round].
Qed.

(** ** Properties *)

(** C36.  The unrolled ethash_keccakf800 is the Keccak-f[800] of FIPS 202 on every
    state of 25 lanes: its 22 constants are the LFSR's cut to 32 bits and its
    rotation counts the walk's modulo 32. *)
Theorem keccakf800_is_fips202 st : length st = 25%nat -> ethash_keccakf800 st = fips_keccak_f800 st.
Proof.
  intros L. rewrite ethash_keccakf800_fold by exact L. unfold fips_keccak_f800.
  now rewrite <- f800_constants_fips, fold_left_map.
Qed.

Lemma keccakf800_is_fips202_witness :
  ethash_keccakf800 (repeat 0 25) = fips_keccak_f800 (repeat 0 25) /\
  lane (ethash_keccakf800 (repeat 0 25)) 0 = 0xE531D45D.
Proof. split; [exact (keccakf800_is_fips202 (repeat 0 25) eq_refl) | vm_compute; reflexivity]. Defined.
