(* ===== verification/SpongeSpec.v ===== *)
(** The Keccak sponge on byte strings: the specification the hash functions built
    on Keccak-f[1600] are compared with, and the correspondence between the 200
    bytes of a state and its 25 little-endian lanes. *)
From Stdlib Require Import ZArith Lia List Bool.
From stdpp Require Import base list.
From S2P Require Import Prelude CInt Keccak.
Import ListNotations.
Local Open Scope Z_scope.

(** ** Lists *)

Lemma lane_ext (a b : list Z) : length a = length b ->
  (forall i, (i < length a)%nat -> lane a i = lane b i) -> a = b.
Proof. intros L H. now apply (nth_ext _ _ 0 0). Qed.

Lemma lane_over l i : (length l <= i)%nat -> lane l i = 0.
Proof. intros L. now apply nth_overflow. Qed.

Lemma lane_insert l i j x : lane (<[i := x]> l) j =
  if (i =? j)%nat && (j <? length l)%nat then x else lane l j.
Proof.
  unfold lane. revert i j. induction l as [|y l IH]; intros i j.
  - change (length (@nil Z)) with 0%nat. rewrite (proj2 (Nat.ltb_ge j 0)), andb_false_r by lia. now destruct i, j.
  - destruct i as [|i], j as [|j]; try reflexivity. cbn [insert list_insert nth]. rewrite IH. reflexivity.
Qed.

Lemma lane_app a b i : lane (a ++ b) i = if (i <? length a)%nat then lane a i else lane b (i - length a).
Proof.
  unfold lane. destruct (Nat.ltb_spec i (length a)); [now apply app_nth1 | now apply app_nth2].
Qed.

Lemma lane_repeat x n i : lane (repeat x n) i = if (i <? n)%nat then x else 0.
Proof.
  unfold lane. revert i. induction n as [|n IH]; intros [|i]; try reflexivity. exact (IH i).
Qed.

Lemma lane_take n l i : lane (take n l) i = if (i <? n)%nat then lane l i else 0.
Proof.
  unfold lane. revert n i. induction l as [|x l IH]; intros [|n] [|i]; try reflexivity.
  - cbn [firstn nth]. now destruct (S i <? S n)%nat.
  - exact (IH n i).
Qed.

Lemma lane_drop n l i : lane (drop n l) i = lane l (n + i).
Proof.
  unfold lane. revert n. induction l as [|x l IH]; intros [|n]; try reflexivity.
  - now destruct i.
  - exact (IH n).
Qed.

(** ** Xor of byte strings *)

(** [b] is xored into the front of [a]. *)
Fixpoint xor_bytes (a b : list Z) : list Z :=
  match a, b with
  | x :: a, y :: b => Z.lxor x y :: xor_bytes a b
  | _, _ => a
  end.

Lemma length_xor_bytes a b : length (xor_bytes a b) = length a.
Proof. revert b. induction a as [|x a IH]; intros [|y b]; cbn; auto. Qed.

Lemma xor_bytes_nil_r a : xor_bytes a [] = a.
Proof. now destruct a. Qed.

Lemma lane_xor_bytes a b i : (length b <= length a)%nat -> lane (xor_bytes a b) i = Z.lxor (lane a i) (lane b i).
Proof.
  unfold lane. revert b i. induction a as [|x a IH]; intros [|y b] i L; cbn in L.
  - cbn. now destruct i.
  - lia.
  - cbn. destruct i; now rewrite Z.lxor_0_r.
  - destruct i as [|i]; [reflexivity|]. cbn [xor_bytes nth]. apply IH. lia.
Qed.

Lemma take_xor_bytes n a b : take n (xor_bytes a b) = xor_bytes (take n a) (take n b).
Proof.
  revert n b. induction a as [|x a IH]; intros [|n] [|y b]; try reflexivity. cbn. f_equal. apply IH.
Qed.

Lemma drop_xor_bytes n a b : drop n (xor_bytes a b) = xor_bytes (drop n a) (drop n b).
Proof.
  revert n b. induction a as [|x a IH]; intros [|n] [|y b]; try reflexivity.
  - cbn. now rewrite xor_bytes_nil_r.
  - cbn [xor_bytes drop]. apply IH.
Qed.

Lemma lxor_byte x y : is_byte x -> is_byte y -> is_byte (Z.lxor x y).
Proof.
  intros X Y. pose proof (lxor_u64 x y) as U. unfold is_u64, is_byte in *.
  assert (E : Z.lxor x y = Z.lxor x y mod 2 ^ 8).
  { apply Z.bits_inj'. intros i I. destruct (Z.lt_ge_cases i 8).
    - now rewrite Z.mod_pow2_bits_low by lia.
    - rewrite Z.mod_pow2_bits_high, Z.lxor_spec by lia.
      rewrite <- (Z.mod_small x (2 ^ 8)), <- (Z.mod_small y (2 ^ 8)) by exact X || exact Y.
      now rewrite !Z.mod_pow2_bits_high by lia. }
  rewrite E. apply Z.mod_pos_bound. reflexivity.
Qed.

Lemma xor_bytes_byte a b : Forall is_byte a -> Forall is_byte b -> Forall is_byte (xor_bytes a b).
Proof.
  intros A. revert b. induction A as [|x a X A IH]; intros b B; [now destruct b|].
  destruct B as [|y b Y B]; cbn; constructor; auto using lxor_byte.
Qed.

(** The low byte and the rest of a xor. *)
Lemma lxor_cons x y v w : is_byte x -> is_byte y ->
  Z.lxor (x + 256 * v) (y + 256 * w) = Z.lxor x y + 256 * Z.lxor v w.
Proof.
  intros X Y. pose proof (lxor_byte x y X Y) as XY.
  assert (S : forall b u i, is_byte b -> 0 <= i -> Z.testbit (b + 256 * u) i =
                if i <? 8 then Z.testbit b i else Z.testbit u (i - 8)).
  { intros b u i B I. replace (b + 256 * u) with (b + u * 2 ^ 8) by ring. destruct (Z.ltb_spec i 8).
    - rewrite <- (Z.mod_pow2_bits_low (b + u * 2 ^ 8) 8) by lia.
      rewrite Z_mod_plus_full, Z.mod_small by exact B. reflexivity.
    - replace i with (i - 8 + 8) at 1 by lia. rewrite <- Z.div_pow2_bits by lia.
      rewrite Z.div_add, (Z.div_small b) by (exact B || lia). reflexivity. }
  apply Z.bits_inj'. intros i I. rewrite Z.lxor_spec, !S by assumption.
  destruct (i <? 8); now rewrite Z.lxor_spec.
Qed.

Lemma le_val_xor_bytes a b : Forall is_byte a -> Forall is_byte b -> (length b <= length a)%nat ->
  le_val (xor_bytes a b) = Z.lxor (le_val a) (le_val b).
Proof.
  intros A. revert b. induction A as [|x a X A IH]; intros b B L.
  - destruct b; [reflexivity | cbn in L; lia].
  - destruct B as [|y b Y B]; [now rewrite xor_bytes_nil_r, Z.lxor_0_r|].
    cbn [xor_bytes le_val length] in *. rewrite IH, lxor_cons by (assumption || lia). reflexivity.
Qed.

(** ** Lanes and bytes of a state *)

Definition word (b : list Z) (i : nat) : Z := le_val (take 8 (drop (8 * i) b)).
Definition lanes_of (b : list Z) : list Z := map (word b) (seq 0 25).
Definition bytes_of (st : list Z) : list Z := concat (map (le_bytes 8) st).

Definition is_state (b : list Z) : Prop := length b = 200%nat /\ Forall is_byte b.
Definition lane_state (st : list Z) : Prop := length st = 25%nat /\ u64s st.

Lemma lanes_of_length b : length (lanes_of b) = 25%nat.
Proof. reflexivity. Qed.

Lemma lane_map_seq (f : nat -> Z) n i : (i < n)%nat -> lane (map f (seq 0 n)) i = f i.
Proof.
  intros I. unfold lane. rewrite (nth_indep _ 0 (f 0%nat)) by (now rewrite length_map, length_seq).
  now rewrite map_nth, seq_nth.
Qed.

Lemma lane_lanes_of b i : (i < 25)%nat -> lane (lanes_of b) i = word b i.
Proof. apply lane_map_seq. Qed.

Lemma word_u64 b i : Forall is_byte b -> is_u64 (word b i).
Proof.
  intros B. unfold word. set (t := take 8 (drop (8 * i) b)).
  assert (T : Forall is_byte t) by (now apply Forall_take, Forall_drop).
  apply le_val_bound in T. assert (L : (length t <= 8)%nat) by apply firstn_le_length.
  unfold is_u64. pose proof (Z.pow_le_mono_r 2 (8 * Z.of_nat (length t)) 64). lia.
Qed.

Lemma lanes_of_state b : Forall is_byte b -> lane_state (lanes_of b).
Proof. intros B. split; [apply lanes_of_length|]. apply u64s_map. intros i _. now apply word_u64. Qed.

Lemma length_bytes_of st : length (bytes_of st) = (8 * length st)%nat.
Proof.
  unfold bytes_of. induction st as [|x st IH]; [reflexivity|]. cbn [map concat length].
  rewrite length_app, length_le_bytes, IH. lia.
Qed.

Lemma bytes_of_byte st : Forall is_byte (bytes_of st).
Proof.
  unfold bytes_of. induction st as [|x st IH]; [constructor|]. cbn [map concat].
  apply Forall_app. auto using le_bytes_byte.
Qed.

Lemma bytes_of_state st : length st = 25%nat -> is_state (bytes_of st).
Proof. intros L. split; [rewrite length_bytes_of; lia | apply bytes_of_byte]. Qed.

Lemma word_bytes_of st i : u64s st -> word (bytes_of st) i = lane st i.
Proof.
  unfold word. intros U. revert i. induction U as [|x st X U IH]; intros i.
  - change (bytes_of []) with (@nil Z). rewrite drop_nil. now destruct i.
  - unfold bytes_of. cbn [map concat]. destruct i as [|i].
    + change (8 * 0)%nat with 0%nat. rewrite drop_0, take_app_length' by (now rewrite length_le_bytes).
      rewrite le_val_le_bytes. apply Z.mod_small. exact X.
    + rewrite drop_app_ge by (rewrite length_le_bytes; lia). rewrite length_le_bytes.
      replace (8 * S i - 8)%nat with (8 * i)%nat by lia. apply IH.
Qed.

Lemma lanes_bytes st : lane_state st -> lanes_of (bytes_of st) = st.
Proof.
  intros [L U]. apply lane_ext; [now rewrite L|]. intros i I. rewrite lanes_of_length in I.
  rewrite lane_lanes_of by exact I. now apply word_bytes_of.
Qed.

Lemma bytes_words n : forall b, length b = (8 * n)%nat -> Forall is_byte b ->
  bytes_of (map (word b) (seq 0 n)) = b.
Proof.
  induction n as [|n IH]; intros b L B; [now destruct b|].
  unfold bytes_of in *. cbn [seq map concat]. rewrite <- seq_shift, (map_map S (word b)).
  replace (map (fun i => word b (S i)) (seq 0 n)) with (map (word (drop 8 b)) (seq 0 n)).
  - transitivity (take 8 b ++ drop 8 b); [|apply take_drop]. f_equal.
    + unfold word. change (8 * 0)%nat with 0%nat. rewrite drop_0. assert (L8 : length (take 8 b) = 8%nat) by (rewrite length_take; lia).
      rewrite <- L8 at 1. apply le_bytes_le_val. now apply Forall_take.
    + apply IH; [rewrite length_drop; lia | now apply Forall_drop].
  - apply map_ext. intros i. unfold word. rewrite drop_drop. replace (8 * S i)%nat with (8 + 8 * i)%nat by lia. reflexivity.
Qed.

Lemma bytes_lanes b : is_state b -> bytes_of (lanes_of b) = b.
Proof. intros [L B]. now apply (bytes_words 25). Qed.

(** Xoring bytes is xoring lanes. *)
Lemma word_xor_bytes b blk i : Forall is_byte b -> Forall is_byte blk -> (length blk <= length b)%nat ->
  word (xor_bytes b blk) i = Z.lxor (word b i) (word blk i).
Proof.
  intros B K L. unfold word. rewrite drop_xor_bytes, take_xor_bytes. apply le_val_xor_bytes.
  - now apply Forall_take, Forall_drop.
  - now apply Forall_take, Forall_drop.
  - rewrite !length_take, !length_drop. lia.
Qed.

(** ** The sponge *)

(** The permutation on bytes. *)
Definition perm (b : list Z) : list Z := bytes_of (fips_keccak_f (lanes_of b)).

Definition absorb_block (b blk : list Z) : list Z := perm (xor_bytes b blk).

(** The full blocks of a message and what is left. *)
Fixpoint absorb_blocks (fuel rate : nat) (b m : list Z) : list Z * list Z :=
  match fuel with
  | O => (b, m)
  | S fuel => if (length m <? rate)%nat then (b, m)
              else absorb_blocks fuel rate (absorb_block b (take rate m)) (drop rate m)
  end.

(** The last block: the message's rest, the suffix byte, zeros, and the last bit. *)
Definition pad_block (rate : nat) (suffix : Z) (m : list Z) : list Z :=
  xor_bytes (m ++ suffix :: repeat 0 (rate - 1 - length m)) (repeat 0 (rate - 1) ++ [128]).

Definition sponge (rate : nat) (suffix : Z) (outlen : nat) (m : list Z) : list Z :=
  let '(b, r) := absorb_blocks (length m) rate (repeat 0 200%nat) m in
  take outlen (absorb_block b (pad_block rate suffix r)).

(** The hash functions of FIPS 202 and the ones of the first Keccak submission. *)
Definition keccak256 : list Z -> list Z := sponge 136 1 32.
Definition keccak512 : list Z -> list Z := sponge 72 1 64.
Definition sha3_spec (mdlen : nat) : list Z -> list Z := sponge (200 - 2 * mdlen) 6 mdlen.

(** ** Lemmas of the sponge *)

Lemma keccakf_perm b : is_state b -> keccakf (lanes_of b) 24 = lanes_of (perm b).
Proof.
  intros [L B]. pose proof (lanes_of_state b B) as [L' U]. unfold perm. rewrite fips_keccak_f_eq by exact L'.
  rewrite lanes_bytes; [reflexivity|]. split; [now apply keccakf_length | now apply keccakf_u64].
Qed.

Lemma perm_state b : is_state (perm b).
Proof.
  unfold perm. rewrite fips_keccak_f_eq by apply lanes_of_length. apply bytes_of_state, keccakf_length, lanes_of_length.
Qed.

Lemma perm_keccakf b : bytes_of (keccakf (lanes_of b) 24) = perm b.
Proof. unfold perm. now rewrite fips_keccak_f_eq by apply lanes_of_length. Qed.

Lemma xor_bytes_state b blk : is_state b -> Forall is_byte blk -> is_state (xor_bytes b blk).
Proof. intros [L B] K. split; [now rewrite length_xor_bytes | now apply xor_bytes_byte]. Qed.

Lemma absorb_block_state b blk : is_state (absorb_block b blk).
Proof. apply perm_state. Qed.

Lemma zeros_byte n : Forall is_byte (repeat 0 n).
Proof. induction n as [|n IH]; constructor; [unfold is_byte; lia | exact IH]. Qed.

Lemma zero_state : is_state (repeat 0 200%nat).
Proof. split; [reflexivity | apply zeros_byte]. Qed.

(** The fuel of [absorb_blocks] can be any bound of the length. *)
Lemma absorb_blocks_fuel rate : (0 < rate)%nat -> forall f g b m, (length m <= f)%nat -> (length m <= g)%nat ->
  absorb_blocks f rate b m = absorb_blocks g rate b m.
Proof.
  intros R. induction f as [|f IH]; intros g b m F G.
  - destruct m; [|cbn in F; lia]. destruct g; [reflexivity|]. cbn [absorb_blocks length].
    now rewrite (proj2 (Nat.ltb_lt 0 rate) R).
  - destruct g as [|g].
    + destruct m; [|cbn in G; lia]. cbn [absorb_blocks length]. now rewrite (proj2 (Nat.ltb_lt 0 rate) R).
    + cbn [absorb_blocks]. destruct (Nat.ltb_spec (length m) rate); [reflexivity|].
      apply IH; rewrite length_drop; lia.
Qed.

(** [absorbed rate m b r]: after the full blocks of m the state is b, and r is left. *)
Definition absorbed (rate : nat) (b m : list Z) : list Z * list Z := absorb_blocks (length m) rate b m.

Lemma absorbed_short rate b m : (length m < rate)%nat -> absorbed rate b m = (b, m).
Proof.
  intros L. unfold absorbed. destruct m as [|x m]; [reflexivity|]. cbn [length absorb_blocks] in *.
  now rewrite (proj2 (Nat.ltb_lt _ rate) L).
Qed.

Lemma absorbed_step rate b m : (0 < rate <= length m)%nat ->
  absorbed rate b m = absorbed rate (absorb_block b (take rate m)) (drop rate m).
Proof.
  intros L. unfold absorbed. destruct (length m) as [|n] eqn:E; [lia|]. cbn [absorb_blocks].
  rewrite E, (proj2 (Nat.ltb_ge _ rate)) by lia. apply absorb_blocks_fuel; rewrite ?length_drop; lia.
Qed.

(** Induction over the blocks of a message. *)
Lemma blocks_ind rate (P : list Z -> Prop) : (0 < rate)%nat ->
  (forall m, (length m < rate)%nat -> P m) ->
  (forall m, (rate <= length m)%nat -> P (drop rate m) -> P m) -> forall m, P m.
Proof.
  intros R B S m. induction m as [m IH] using (induction_ltof1 _ (@length Z)).
  destruct (Nat.lt_ge_cases (length m) rate) as [L|L]; [now apply B|].
  apply S; [exact L|]. apply IH. unfold ltof. rewrite length_drop. lia.
Qed.

Lemma absorbed_ok rate m : (0 < rate)%nat -> Forall is_byte m -> forall b, is_state b ->
  let '(b', r) := absorbed rate b m in is_state b' /\ Forall is_byte r /\ (length r < rate)%nat.
Proof.
  intros R. revert m. refine (blocks_ind rate _ R _ _); [intros m L F b S | intros m L IH F b S].
  - rewrite absorbed_short by exact L. auto.
  - rewrite absorbed_step by lia. apply IH; [now apply Forall_drop | apply absorb_block_state].
Qed.

Lemma sponge_absorbed rate suffix outlen m :
  sponge rate suffix outlen m =
  let '(b, r) := absorbed rate (repeat 0 200%nat) m in take outlen (absorb_block b (pad_block rate suffix r)).
Proof. reflexivity. Qed.

Lemma length_pad_block rate suffix m : (length m < rate)%nat -> length (pad_block rate suffix m) = rate.
Proof.
  intros L. unfold pad_block. rewrite length_xor_bytes, length_app. cbn [length]. rewrite repeat_length. lia.
Qed.

(** The bytes of the last block. *)
Lemma lane_pad_block rate suffix m i : (length m < rate)%nat -> (i < rate)%nat ->
  lane (pad_block rate suffix m) i =
  Z.lxor (if (i <? length m)%nat then lane m i else if (i =? length m)%nat then suffix else 0)
         (if (i =? rate - 1)%nat then 128 else 0).
Proof.
  intros L I. unfold pad_block.
  rewrite lane_xor_bytes by (rewrite !length_app; cbn [length]; rewrite !repeat_length; lia).
  rewrite !lane_app, lane_repeat, repeat_length. f_equal.
  - destruct (Nat.ltb_spec i (length m)); [reflexivity|].
    destruct (Nat.eqb_spec i (length m)) as [->|N]; [now rewrite Nat.sub_diag|].
    replace (i - length m)%nat with (S (i - length m - 1)) by lia. unfold lane. cbn [nth].
    change (nth (i - length m - 1) (repeat 0 (rate - 1 - length m)) 0)
      with (lane (repeat 0 (rate - 1 - length m)) (i - length m - 1)).
    rewrite lane_repeat. now destruct (_ <? _)%nat.
  - destruct (Nat.eqb_spec i (rate - 1)) as [E|N].
    + rewrite (proj2 (Nat.ltb_ge i (rate - 1))) by lia. replace (i - (rate - 1))%nat with 0%nat by lia. reflexivity.
    + now rewrite (proj2 (Nat.ltb_lt i (rate - 1))) by lia.
Qed.

Lemma pad_block_byte rate suffix m : is_byte suffix -> Forall is_byte m -> Forall is_byte (pad_block rate suffix m).
Proof.
  intros S F. unfold pad_block. apply xor_bytes_byte.
  - apply Forall_app. split; [exact F|]. constructor; [exact S | apply zeros_byte].
  - apply Forall_app. split; [apply zeros_byte|]. constructor; [unfold is_byte; lia | constructor].
Qed.
