(* ===== verification/Blocks.v ===== *)
(** Byte strings cut into blocks by a hash context that keeps the last block,
    even a full one, until more input comes: the BLAKE functions.  Also the copies
    into a fixed array (memcpy) that fill such a context. *)
From Stdlib Require Import ZArith Lia List Bool.
From stdpp Require Import base list.
From S2P Require Import Prelude CInt.
Import ListNotations.
Local Open Scope Z_scope.

(** memcpy(dst + off, src, length src); [None] writes past the array. *)
Definition memcpy {A} (dst : list A) (off : nat) (src : list A) : option (list A) :=
  if (off + length src <=? length dst)%nat then Some (take off dst ++ src ++ drop (off + length src) dst) else None.

(** What a function with a size_t length reads when it is called with the int [n]; [None]
    is a read past the end. *)
Definition read_bytes {A} (buf : list A) (n : Z) : option (list A) :=
  if u64 n <=? Z.of_nat (length buf) then Some (take (Z.to_nat (u64 n)) buf) else None.

Lemma read_bytes_take {A} (buf : list A) n : 0 <= n < 2 ^ 64 -> n <= Z.of_nat (length buf) ->
  read_bytes buf n = Some (take (Z.to_nat n) buf).
Proof.
  intros N L. unfold read_bytes, u64. rewrite Z.mod_small by exact N. now rewrite (proj2 (Z.leb_le _ _)) by exact L.
Qed.

Lemma read_bytes_all {A} (buf : list A) : Z.of_nat (length buf) < 2 ^ 64 -> read_bytes buf (Z.of_nat (length buf)) = Some buf.
Proof. intros L. rewrite read_bytes_take by lia. now rewrite Nat2Z.id, take_ge by lia. Qed.

(** A negative int is a length above every object. *)
Lemma read_bytes_negative {A} (buf : list A) n : - 2 ^ 31 <= n < 0 -> Z.of_nat (length buf) < 2 ^ 63 -> read_bytes buf n = None.
Proof.
  intros N L. unfold read_bytes, u64. rewrite (Z.mod_eq n) by lia.
  assert (D : n / 18446744073709551616 = -1) by (symmetry; apply (Z.div_unique _ _ _ (n + 18446744073709551616)); lia).
  rewrite D. now rewrite (proj2 (Z.leb_gt _ _)) by lia.
Qed.

Section Memcpy.
Context {A : Type}.
Implicit Types (dst src : list A).

(** What was written so far, and the new entries after it. *)
Lemma memcpy_spec dst off src : (off + length src <= length dst)%nat ->
  exists dst', memcpy dst off src = Some dst' /\ length dst' = length dst /\
    take (off + length src) dst' = take off dst ++ src /\
    forall P, Forall P dst -> Forall P src -> Forall P dst'.
Proof.
  intros H. unfold memcpy. rewrite (proj2 (Nat.leb_le _ _) H). eexists. split; [reflexivity|]. split; [|split].
  - rewrite !length_app, length_take, length_drop. lia.
  - rewrite app_assoc. apply take_app_length'. rewrite length_app, length_take. lia.
  - intros P D S. rewrite !Forall_app. auto using Forall_take, Forall_drop.
Qed.

Lemma memcpy_0 dst src : (length src <= length dst)%nat -> memcpy dst 0 src = Some (src ++ drop (length src) dst).
Proof. intros H. unfold memcpy. now rewrite (proj2 (Nat.leb_le _ _)) by exact H. Qed.
End Memcpy.

(** ** Lazy blocks *)

Section Lazy.
Context {A : Type} (n : nat).
Implicit Types (d x r : list A).

(** A block is released only when a further byte is there. *)
Fixpoint lazy_split (fuel : nat) d : list (list A) * list A :=
  match fuel with
  | O => ([], d)
  | S fuel =>
      if (length d <=? n)%nat then ([], d)
      else let (bs, r) := lazy_split fuel (drop n d) in (take n d :: bs, r)
  end.

(** The released blocks and the block kept. *)
Definition lblocks d : list (list A) := fst (lazy_split (length d) d).
Definition lrest d : list A := snd (lazy_split (length d) d).

Context (Hn : (0 < n)%nat).

Lemma lazy_split_fuel f : forall g d, (length d <= f)%nat -> (length d <= g)%nat -> lazy_split f d = lazy_split g d.
Proof.
  induction f as [|f IH]; intros g d F G.
  - destruct g as [|g]; [reflexivity|]. cbn [lazy_split]. now rewrite (proj2 (Nat.leb_le _ _)) by lia.
  - destruct g as [|g]; cbn [lazy_split].
    + now rewrite (proj2 (Nat.leb_le _ _)) by lia.
    + destruct (Nat.leb_spec (length d) n); [reflexivity|].
      rewrite (IH g) by (rewrite length_drop; lia). reflexivity.
Qed.

Lemma lazy_short d : (length d <= n)%nat -> lblocks d = [] /\ lrest d = d.
Proof.
  intros L. unfold lblocks, lrest. destruct d as [|a d]; [split; reflexivity|].
  cbn [lazy_split length]. rewrite (proj2 (Nat.leb_le _ _)) by (cbn in L; lia). split; reflexivity.
Qed.

Lemma lazy_step d : (n < length d)%nat ->
  lblocks d = take n d :: lblocks (drop n d) /\ lrest d = lrest (drop n d).
Proof.
  intros L. unfold lblocks, lrest. destruct (length d) as [|k] eqn:E; [lia|]. cbn [lazy_split].
  rewrite E, (proj2 (Nat.leb_gt _ _)) by exact L.
  rewrite (lazy_split_fuel k (length (drop n d))) by (rewrite ?length_drop; lia).
  destruct (lazy_split _ _). split; reflexivity.
Qed.

(** Induction on the blocks. *)
Lemma lazy_ind (P : list A -> Prop) :
  (forall d, (length d <= n)%nat -> P d) -> (forall d, (n < length d)%nat -> P (drop n d) -> P d) -> forall d, P d.
Proof.
  intros Short Long d. remember (length d) as k eqn:E. revert d E.
  induction k as [k IH] using lt_wf_ind. intros d E.
  destruct (Nat.le_gt_cases (length d) n); [now apply Short|]. apply Long; [assumption|].
  apply (IH (length (drop n d))); [rewrite length_drop; lia | reflexivity].
Qed.

Lemma lazy_rest_bound d : (length (lrest d) <= n)%nat /\ (d <> [] -> lrest d <> []).
Proof.
  induction d as [d L | d L IH] using lazy_ind.
  - rewrite (proj2 (lazy_short d L)). auto.
  - rewrite (proj2 (lazy_step d L)). destruct IH as [B N]. split; [exact B|]. intros _. apply N.
    intros E. apply (f_equal (@length A)) in E. rewrite length_drop in E. cbn in E. lia.
Qed.

Lemma lazy_blocks_length d : Forall (fun b => length b = n) (lblocks d).
Proof.
  induction d as [d L | d L IH] using lazy_ind.
  - rewrite (proj1 (lazy_short d L)). constructor.
  - rewrite (proj1 (lazy_step d L)). constructor; [rewrite length_take; lia | exact IH].
Qed.

Lemma lazy_concat d : concat (lblocks d) ++ lrest d = d.
Proof.
  induction d as [d L | d L IH] using lazy_ind.
  - destruct (lazy_short d L) as [-> ->]. reflexivity.
  - destruct (lazy_step d L) as [-> ->]. cbn [concat]. rewrite <- app_assoc, IH. apply take_drop.
Qed.

Lemma lazy_count d : (length d = n * length (lblocks d) + length (lrest d))%nat.
Proof.
  induction d as [d L | d L IH] using lazy_ind.
  - destruct (lazy_short d L) as [-> ->]. cbn [length]. lia.
  - destruct (lazy_step d L) as [-> ->]. cbn [length]. rewrite length_drop in IH. lia.
Qed.

(** More input continues from the block kept. *)
Lemma lazy_app d x : lblocks (d ++ x) = lblocks d ++ lblocks (lrest d ++ x) /\ lrest (d ++ x) = lrest (lrest d ++ x).
Proof.
  induction d as [d L | d L IH] using lazy_ind.
  - destruct (lazy_short d L) as [-> ->]. split; reflexivity.
  - destruct (lazy_step d L) as [-> ->]. destruct IH as [IB IR].
    destruct (lazy_step (d ++ x)) as [-> ->]; [rewrite length_app; lia|].
    rewrite take_app_le, drop_app_le by lia. rewrite IB, IR. split; reflexivity.
Qed.

(** A full block kept is released by the next byte. *)
Lemma lazy_full d x : length d = n -> x <> [] -> lblocks (d ++ x) = d :: lblocks x /\ lrest (d ++ x) = lrest x.
Proof.
  intros L X. destruct (lazy_step (d ++ x)) as [-> ->].
  - rewrite length_app. destruct x; [easy|]. cbn [length]. lia.
  - rewrite <- L, take_app_length, drop_app_length. split; reflexivity.
Qed.

Lemma lazy_Forall (P : A -> Prop) d : Forall P d -> Forall (Forall P) (lblocks d) /\ Forall P (lrest d).
Proof.
  intros F. rewrite <- (lazy_concat d) in F. apply Forall_app in F. destruct F as [F R]. split; [|exact R].
  now apply Forall_concat.
Qed.
End Lazy.
