(* ===== verification/Arx.v ===== *)
(** The round of the BLAKE functions on its 4 x 4 matrix of words, in rows: a column
    step, the rows rotated so that the diagonals become columns, a column step, and
    the rows rotated back.  The programs unroll it on 16 words. *)
From Stdlib Require Import ZArith Lia List Bool.
From stdpp Require Import base list.
From S2P Require Import Prelude Keccak SpongeSpec.
Import ListNotations.
Local Open Scope Z_scope.

(** The mixing function on a column and two words of the message. *)
Definition mixer : Type := Z -> Z -> Z -> Z -> Z -> Z -> Z * Z * Z * Z.

Definition row (v : list Z) (i : nat) : list Z := take 4 (drop (4 * i) v).
Definition rot_left (k : nat) (l : list Z) : list Z := drop k l ++ take k l.

Definition diagonalize (v : list Z) : list Z :=
  row v 0 ++ rot_left 1 (row v 1) ++ rot_left 2 (row v 2) ++ rot_left 3 (row v 3).
Definition undiagonalize (v : list Z) : list Z :=
  row v 0 ++ rot_left 3 (row v 1) ++ rot_left 2 (row v 2) ++ rot_left 1 (row v 3).

Definition column_step (mix : mixer) (v w : list Z) : list Z :=
  let q := map (fun j => mix (lane v j) (lane v (4 + j)) (lane v (8 + j)) (lane v (12 + j))
                             (lane w (2 * j)) (lane w (2 * j + 1))) (seq 0 4) in
  map (fun '(a, _, _, _) => a) q ++ map (fun '(_, b, _, _) => b) q ++
  map (fun '(_, _, c, _) => c) q ++ map (fun '(_, _, _, d) => d) q.

Definition arx_round (mix : mixer) (v w : list Z) : list Z :=
  let v := column_step mix v (take 8 w) in
  undiagonalize (column_step mix (diagonalize v) (drop 8 w)).

Lemma lanes_id n : forall x, length x = n -> map (lane x) (seq 0 n) = x.
Proof.
  intros x L. apply lane_ext; rewrite length_map, length_seq; [now symmetry|]. intros i I. now apply lane_map_seq.
Qed.

Lemma take_lanes n p i : (i + n <= length p)%nat -> take n (drop i p) = map (fun k => lane p (i + k)) (seq 0 n).
Proof.
  intros L. apply lane_ext.
  - rewrite length_take, length_drop, length_map, length_seq. lia.
  - intros k K. rewrite length_take in K. rewrite lane_take, lane_drop, lane_map_seq, (proj2 (Nat.ltb_lt k n)) by lia.
    reflexivity.
Qed.

Lemma lane_byte p i : Forall is_byte p -> is_byte (lane p i).
Proof.
  intros F. unfold lane. destruct (nth_in_or_default i p 0) as [H | ->]; [|unfold is_byte; lia].
  exact (proj1 (List.Forall_forall _ _) F _ H).
Qed.

Lemma arx_round_length mix v w : length (arx_round mix v w) = 16%nat.
Proof. reflexivity. Qed.

(** Four words of a matrix, stored back. *)
Definition put4 (a b c d : nat) (v : list Z) '((xa, xb, xc, xd) : Z * Z * Z * Z) : list Z :=
  <[b := xb]> (<[c := xc]> (<[d := xd]> (<[a := xa]> v))).

Section Put4.
Context (v : list Z) (a b c d : nat).
Context (D : NoDup [a; b; c; d]) (R : Forall (gt (length v)) [a; b; c; d]).

Lemma four_ne : a <> b /\ a <> c /\ a <> d /\ b <> c /\ b <> d /\ c <> d.
Proof. rewrite !NoDup_cons, !not_elem_of_cons in D. tauto. Qed.

Lemma four_lt : (a < length v /\ b < length v /\ c < length v /\ d < length v)%nat.
Proof. rewrite !Forall_cons in R. tauto. Qed.

Ltac lanes4 :=
  pose proof four_ne; pose proof four_lt; cbn [put4]; rewrite !lane_insert, !length_insert;
  repeat match goal with
  | |- context [(?i =? ?j)%nat] => first [rewrite (proj2 (Nat.eqb_neq i j)) by lia | rewrite Nat.eqb_refl]
  | |- context [(?i <? ?j)%nat] => rewrite (proj2 (Nat.ltb_lt i j)) by lia
  end; reflexivity.

Lemma lane_a xa xb xc xd : lane (put4 a b c d v (xa, xb, xc, xd)) a = xa. Proof. lanes4. Qed.
Lemma lane_b xa xb xc xd : lane (put4 a b c d v (xa, xb, xc, xd)) b = xb. Proof. lanes4. Qed.
Lemma lane_c xa xb xc xd : lane (put4 a b c d v (xa, xb, xc, xd)) c = xc. Proof. lanes4. Qed.
Lemma lane_d xa xb xc xd : lane (put4 a b c d v (xa, xb, xc, xd)) d = xd. Proof. lanes4. Qed.

Lemma insert_a xa xb xc xd y : <[a := y]> (put4 a b c d v (xa, xb, xc, xd)) = put4 a b c d v (y, xb, xc, xd).
Proof.
  pose proof four_ne. cbn [put4].
  rewrite (list_insert_insert_ne _ a b), (list_insert_insert_ne _ a c), (list_insert_insert_ne _ a d) by lia.
  now rewrite list_insert_insert_eq.
Qed.

Lemma insert_b xa xb xc xd y : <[b := y]> (put4 a b c d v (xa, xb, xc, xd)) = put4 a b c d v (xa, y, xc, xd).
Proof. cbn [put4]. now rewrite list_insert_insert_eq. Qed.

Lemma insert_c xa xb xc xd y : <[c := y]> (put4 a b c d v (xa, xb, xc, xd)) = put4 a b c d v (xa, xb, y, xd).
Proof. pose proof four_ne. cbn [put4]. rewrite (list_insert_insert_ne _ c b) by lia. now rewrite list_insert_insert_eq. Qed.

Lemma insert_d xa xb xc xd y : <[d := y]> (put4 a b c d v (xa, xb, xc, xd)) = put4 a b c d v (xa, xb, xc, y).
Proof.
  pose proof four_ne. cbn [put4]. rewrite (list_insert_insert_ne _ d b), (list_insert_insert_ne _ d c) by lia.
  now rewrite list_insert_insert_eq.
Qed.

Lemma put4_lanes : put4 a b c d v (lane v a, lane v b, lane v c, lane v d) = v.
Proof.
  pose proof four_lt. cbn [put4]. unfold lane. rewrite !list_insert_id; [reflexivity|..].
  all: pose proof four_ne; rewrite ?list_lookup_insert_ne by lia;
    match goal with |- ?l !! ?k = Some (nth ?k ?l 0) => destruct (nth_lookup_or_length l k 0); [assumption | lia] end.
Qed.
End Put4.
(** Runs assignments to the four words. *)
Ltac put4_steps :=
  cbv zeta; repeat (rewrite ?lane_a, ?lane_b, ?lane_c, ?lane_d, ?insert_a, ?insert_b, ?insert_c, ?insert_d by assumption);
  reflexivity.

(** The side conditions of the above for four numbers. *)
Ltac quad_ok :=
  lazymatch goal with
  | |- NoDup _ => rewrite !NoDup_cons, !not_elem_of_cons; repeat split; first [discriminate | apply not_elem_of_nil | apply NoDup_nil_2]
  | |- Forall _ _ => repeat (apply Forall_cons; split; [lia|]); apply Forall_nil_2
  end.

(** An unrolled round on a matrix in a list. *)
Definition mix_at (mix : mixer) (x y : Z) (a b c d : nat) (v : list Z) : list Z :=
  put4 a b c d v (mix (lane v a) (lane v b) (lane v c) (lane v d) x y).

Lemma mix_at_length mix x y a b c d v : length (mix_at mix x y a b c d v) = length v.
Proof. unfold mix_at, put4. destruct (mix _ _ _ _ x y) as [[[? ?] ?] ?]. now rewrite !length_insert. Qed.

Definition unrolled_columns (mix : mixer) (v w : list Z) : list Z :=
  let v := mix_at mix (lane w 0) (lane w 1) 0 4 8 12 v in
  let v := mix_at mix (lane w 2) (lane w 3) 1 5 9 13 v in
  let v := mix_at mix (lane w 4) (lane w 5) 2 6 10 14 v in
  mix_at mix (lane w 6) (lane w 7) 3 7 11 15 v.

Definition unrolled_diagonals (mix : mixer) (v w : list Z) : list Z :=
  let v := mix_at mix (lane w 8) (lane w 9) 0 5 10 15 v in
  let v := mix_at mix (lane w 10) (lane w 11) 1 6 11 12 v in
  let v := mix_at mix (lane w 12) (lane w 13) 2 7 8 13 v in
  mix_at mix (lane w 14) (lane w 15) 3 4 9 14 v.

(** A list of 16 words as its words. *)
Ltac words16 l H := do 16 (destruct l as [|? l]; [discriminate H|]); (destruct l; [|discriminate H]); clear H.

(** Normalises and names the results of the mixes, which are independent. *)
Ltac mixes mix :=
  repeat (cbv; match goal with |- context [mix ?a ?b ?c ?d ?x ?y] =>
    is_var a; is_var b; is_var c; is_var d; destruct (mix a b c d x y) as [[[? ?] ?] ?] end);
  reflexivity.

Lemma unrolled_columns_ok mix v w : length v = 16%nat -> length w = 16%nat ->
  unrolled_columns mix v w = column_step mix v (take 8 w).
Proof. intros V W. words16 v V. words16 w W. mixes mix. Qed.

Lemma unrolled_diagonals_ok mix v w : length v = 16%nat -> length w = 16%nat ->
  unrolled_diagonals mix v w = undiagonalize (column_step mix (diagonalize v) (drop 8 w)).
Proof. intros V W. words16 v V. words16 w W. mixes mix. Qed.

Lemma unrolled_round_ok mix v w : length v = 16%nat -> length w = 16%nat ->
  unrolled_diagonals mix (unrolled_columns mix v w) w = arx_round mix v w.
Proof.
  intros V W. rewrite unrolled_columns_ok by assumption. now rewrite unrolled_diagonals_ok.
Qed.
