(* ===== verification/Sha2.v ===== *)
(** SHA-2 as FIPS 180-4 defines it, for both word sizes: the constants from the roots of
    the first primes, the padding, the schedule and the rounds; and the lemmas on
    arrays that the C files which compute it share. *)
From Stdlib Require Import ZArith Lia List Bool.
From stdpp Require Import base list.
From S2P Require Import Prelude CInt Keccak.
Import ListNotations.
Local Open Scope Z_scope.


(** ** The constants *)

Definition is_prime (p : nat) : bool := (2 <=? p)%nat && forallb (fun d => negb (p mod d =? 0)%nat) (seq 2 (p - 2)).
Definition primes (n : nat) : list Z := map Z.of_nat (take n (List.filter is_prime (seq 0 410))).

(** The largest [r] below 2^80 whose cube is at most [n]. *)
Definition cube_root (n : Z) : Z :=
  fold_left (fun r k => if (r + 2 ^ k) ^ 3 <=? n then r + 2 ^ k else r) (rev (seqZ 0 80)) 0.

(** The first [w] bits of the fractional parts of roots. *)
Definition cube_root_bits (w p : Z) : Z := cube_root (p * 2 ^ (3 * w)) mod 2 ^ w.
Definition square_root_bits (w p : Z) : Z := Z.sqrt (p * 2 ^ (2 * w)) mod 2 ^ w.

Record sha2 : Type := mksha2 {
  word_bits : Z;
  rounds : nat;
  Sigma0_rots : Z * Z * Z;
  Sigma1_rots : Z * Z * Z;
  sigma0_rots : Z * Z * Z;
  sigma1_rots : Z * Z * Z
}.

Definition sha2_32 : sha2 := mksha2 32 64 (2, 13, 22) (6, 11, 25) (7, 18, 3) (17, 19, 10).
Definition sha2_64 : sha2 := mksha2 64 80 (28, 34, 39) (14, 18, 41) (1, 8, 7) (19, 61, 6).

Section Sha2.
Variable F : sha2.

Definition wmod (x : Z) : Z := x mod 2 ^ word_bits F.
Definition word_bytes : nat := Z.to_nat (word_bits F / 8).
Definition block_bytes : nat := (16 * word_bytes)%nat.
Definition fips_K : list Z := map (cube_root_bits (word_bits F)) (primes (rounds F)).
Definition root_H : list Z := map (square_root_bits (word_bits F)) (primes 8).

Definition rotr (n x : Z) : Z := x / 2 ^ n + (x mod 2 ^ n) * 2 ^ (word_bits F - n).
Definition big_sigma '((a, b, c) : Z * Z * Z) (x : Z) : Z := Z.lxor (Z.lxor (rotr a x) (rotr b x)) (rotr c x).
Definition small_sigma '((a, b, c) : Z * Z * Z) (x : Z) : Z := Z.lxor (Z.lxor (rotr a x) (rotr b x)) (x / 2 ^ c).
Definition Ch (x y z : Z) : Z := Z.lxor (Z.land x y) (Z.land (2 ^ word_bits F - 1 - x) z).
Definition Maj (x y z : Z) : Z := Z.lxor (Z.lxor (Z.land x y) (Z.land x z)) (Z.land y z).

(** The schedule: the next word from the ones before it. *)
Definition next_word (W : list Z) : Z :=
  let t := length W in
  wmod (small_sigma (sigma1_rots F) (lane W (t - 2)) + lane W (t - 7) +
        small_sigma (sigma0_rots F) (lane W (t - 15)) + lane W (t - 16)).

Fixpoint extend (n : nat) (W : list Z) : list Z :=
  match n with O => W | S n => extend n (W ++ [next_word W]) end.

(** One round, with the sum of the round's constant and word. *)
Definition fips_round (v : list Z) (kw : Z) : list Z :=
  match v with
  | [a; b; c; d; e; f; g; h] =>
      let T1 := h + big_sigma (Sigma1_rots F) e + Ch e f g + kw in
      let T2 := big_sigma (Sigma0_rots F) a + Maj a b c in
      [wmod (T1 + T2); a; b; c; wmod (d + T1); e; f; g]
  | _ => v
  end.

Definition be_words (b : list Z) : list Z :=
  map (fun i => be_val (take word_bytes (drop (word_bytes * i) b))) (seq 0 (length b / word_bytes)).

Definition compress_words (H ws : list Z) : list Z :=
  let W := extend (rounds F - 16) ws in
  zip_with (fun x y => wmod (x + y)) H (fold_left fips_round (zip_with Z.add fips_K W) H).

Definition fips_compress (H block : list Z) : list Z := compress_words H (be_words block).

(** The message, a one bit, zeros, and its length in bits as two words. *)
Definition padding (n : nat) : list Z :=
  0x80 :: repeat 0 (Z.to_nat ((- Z.of_nat (n + 1 + 2 * word_bytes)) mod Z.of_nat block_bytes)) ++
  be_bytes (2 * word_bytes) (8 * Z.of_nat n).

Fixpoint split_blocks (n size : nat) (m : list Z) : list (list Z) :=
  match n with O => [] | S n => take size m :: split_blocks n size (drop size m) end.

Definition fips_hash (H m : list Z) : list Z :=
  let m := m ++ padding (length m) in
  fold_left fips_compress (split_blocks (length m / block_bytes) block_bytes m) H.

Definition digest_bytes (H : list Z) : list Z := concat (map (be_bytes word_bytes) H).
End Sha2.

Definition sha256_spec (m : list Z) : list Z := digest_bytes sha2_32 (fips_hash sha2_32 (root_H sha2_32) m).

(** The SHA-512/t IV generation function of FIPS 180-4, for t = 256. *)
Definition sha512_256_name : list Z := [83; 72; 65; 45; 53; 49; 50; 47; 50; 53; 54].
Definition sha512_256_IV : list Z :=
  fips_hash sha2_64 (map (fun h => Z.lxor h 0xa5a5a5a5a5a5a5a5) (root_H sha2_64)) sha512_256_name.
Definition sha512_256_spec (m : list Z) : list Z := take 32 (digest_bytes sha2_64 (fips_hash sha2_64 sha512_256_IV m)).


(** ** Words *)

(** A rotation as the C macros write it. *)
Lemma rotr_shifts w n x : 0 <= n <= w -> 0 <= x < 2 ^ w ->
  Z.lor (Z.shiftr x n) (Z.shiftl x (w - n) mod 2 ^ w) = x / 2 ^ n + (x mod 2 ^ n) * 2 ^ (w - n).
Proof.
  intros N X.
  assert (E : Z.shiftl x (w - n) mod 2 ^ w = Z.shiftl (x mod 2 ^ n) (w - n)).
  { rewrite !Z.shiftl_mul_pow2 by lia. replace (2 ^ w) with (2 ^ n * 2 ^ (w - n)) by (rewrite <- Z.pow_add_r by lia; f_equal; lia).
    rewrite Zmult_mod_distr_r. reflexivity. }
  rewrite E. now apply lor_shift_add.
Qed.

Lemma land_complement w x z : 0 <= w -> 0 <= x < 2 ^ w -> 0 <= z < 2 ^ w -> Z.land (2 ^ w - 1 - x) z = Z.ldiff z x.
Proof.
  intros W X Zz. replace (2 ^ w - 1 - x) with (Z.ldiff (Z.ones w) x).
  - apply Z.bits_inj'. intros i I. rewrite Z.land_spec, !Z.ldiff_spec.
    destruct (Z.ltb_spec i w) as [L|L]; [rewrite Z.ones_spec_low by lia; apply andb_comm|].
    rewrite Z.ones_spec_high by lia. rewrite <- (Z.mod_small z (2 ^ w)) by lia. now rewrite Z.mod_pow2_bits_high by lia.
  - assert (A : Z.ldiff x (Z.ones w) = 0).
    { rewrite Z.ldiff_ones_r by lia. rewrite Z.shiftr_div_pow2, Z.div_small by lia. apply Z.shiftl_0_l. }
    rewrite <- Z.sub_nocarry_ldiff by exact A. rewrite Z.ones_equiv. lia.
Qed.

(** The two forms of the choice and of the majority. *)
Lemma Ch_select x y z : Z.lxor (Z.land x (Z.lxor y z)) z = Z.lxor (Z.land x y) (Z.ldiff z x).
Proof.
  apply Z.bits_inj'. intros i _. rewrite !Z.lxor_spec, !Z.land_spec, !Z.ldiff_spec, !Z.lxor_spec.
  now destruct (Z.testbit x i), (Z.testbit y i), (Z.testbit z i).
Qed.

Lemma Maj_select x y z : Z.lor (Z.land x (Z.lor y z)) (Z.land y z) = Maj x y z.
Proof.
  apply Z.bits_inj'. intros i _. unfold Maj. rewrite !Z.lxor_spec, !Z.lor_spec, !Z.land_spec, !Z.lor_spec.
  now destruct (Z.testbit x i), (Z.testbit y i), (Z.testbit z i).
Qed.

(** ** Arrays *)

(** A loop that writes the first [n] entries. *)
Lemma fill_ok {A} (f : nat -> A) n : forall w, (n <= length w)%nat ->
  fold_left (fun w j => <[j := f j]> w) (seq 0 n) w = map f (seq 0 n) ++ drop n w.
Proof.
  induction n as [|n IH]; intros w L; [now rewrite drop_0|].
  rewrite seq_S, fold_left_app, IH by lia. cbn [fold_left Nat.add]. rewrite map_app, <- app_assoc. cbn [map app].
  rewrite insert_app_r_alt by (rewrite length_map, length_seq; lia).
  rewrite length_map, length_seq, Nat.sub_diag. f_equal.
  destruct (drop n w) as [|y t] eqn:E.
  - assert (length (drop n w) = 0%nat) by (now rewrite E). rewrite length_drop in H. lia.
  - cbn. f_equal. replace (S n) with (n + 1)%nat by lia. rewrite <- drop_drop, E. reflexivity.
Qed.

Lemma lane_firstn w t i : (i < t)%nat -> lane (take t w) i = lane w i.
Proof. intros I. unfold lane. now rewrite nth_firstn, (proj2 (Nat.ltb_lt i t)). Qed.

Section Schedules.
Variable F : sha2.
Hypothesis bits_pos : 0 < word_bits F.

Definition is_word (x : Z) : Prop := 0 <= x < 2 ^ word_bits F.

Lemma wmod_word x : is_word (wmod F x).
Proof. apply Z.mod_pos_bound, Z.pow_pos_nonneg; lia. Qed.

Lemma word_lane W i : Forall is_word W -> is_word (lane W i).
Proof.
  intros H. unfold lane. destruct (nth_in_or_default i W 0) as [I | ->].
  - exact (proj1 (List.Forall_forall _ _) H _ I).
  - unfold is_word. pose proof (Z.pow_pos_nonneg 2 (word_bits F)). lia.
Qed.

Lemma extend_ok n : forall W, Forall is_word W ->
  length (extend F n W) = (length W + n)%nat /\ Forall is_word (extend F n W).
Proof.
  induction n as [|n IH]; intros W H; [cbn [extend]; split; [lia | exact H]|]. cbn [extend].
  destruct (IH (W ++ [next_word F W])) as [L O].
  - apply Forall_app. split; [exact H|]. constructor; [apply wmod_word | constructor].
  - split; [|exact O]. rewrite L, length_app. cbn [length]. lia.
Qed.

(** The array of a C schedule, filled from its first [t] words on. *)
Lemma schedule_array (step : list Z -> nat -> list Z) n : (forall w t, (16 <= t)%nat -> (t < length w)%nat -> Forall is_word (take t w) ->
    step w t = <[t := next_word F (take t w)]> w) ->
  forall t w, (16 <= t)%nat -> length w = (t + n)%nat -> Forall is_word (take t w) ->
  fold_left step (seq t n) w = extend F n (take t w).
Proof.
  intros St. induction n as [|n IH]; intros t w T L O; [rewrite take_ge by lia; reflexivity|].
  cbn [seq fold_left extend]. rewrite St by (exact O || lia).
  assert (E : take (S t) (<[t := next_word F (take t w)]> w) = take t w ++ [next_word F (take t w)]).
  { erewrite take_S_r by (apply list_lookup_insert_eq; lia). now rewrite take_insert_ge by lia. }
  rewrite IH.
  - now rewrite E.
  - lia.
  - rewrite length_insert. lia.
  - rewrite E. apply Forall_app. split; [exact O|]. constructor; [apply wmod_word | constructor].
Qed.

(** Eight words. *)
Definition state_ok (v : list Z) : Prop := length v = 8%nat /\ Forall is_word v.

Lemma fips_round_ok v kw : state_ok v -> state_ok (fips_round F v kw).
Proof.
  intros [L O]. do 8 (destruct v as [|? v]; [discriminate L|]). destruct v; [|discriminate L].
  repeat match goal with H : Forall _ (_ :: _) |- _ => inversion H; subst; clear H end.
  split; [reflexivity|]. cbn [fips_round].
  repeat (apply List.Forall_cons; [assumption || apply wmod_word|]). apply List.Forall_nil.
Qed.

Lemma rounds_array (step : list Z -> nat -> list Z) (K W : list Z) n : length K = n -> length W = n ->
  (forall v j, (j < n)%nat -> state_ok v -> step v j = fips_round F v (lane K j + lane W j)) ->
  forall v, state_ok v -> fold_left step (seq 0 n) v = fold_left (fips_round F) (zip_with Z.add K W) v /\
    state_ok (fold_left step (seq 0 n) v).
Proof.
  intros Lk Lw St v O.
  assert (E : zip_with Z.add K W = map (fun j => lane K j + lane W j) (seq 0 n)).
  { subst n. clear St. revert W Lw. induction K as [|k K IH]; intros [|w W] Lw; try discriminate Lw; [reflexivity|].
    injection Lw as Lw. cbn [zip_with length seq map]. f_equal. rewrite <- seq_shift, map_map. now apply IH. }
  rewrite E, fold_left_map. apply (fold_left_ext_inv state_ok); [|exact O].
  intros a j I A. apply in_seq in I. split; [apply St; [lia | exact A] | now apply fips_round_ok].
Qed.

Lemma add_words_ok H v : state_ok H -> state_ok v -> state_ok (zip_with (fun x y => wmod F (x + y)) H v).
Proof.
  intros [L _] [L' _]. split; [rewrite length_zip_with; lia|]. clear -bits_pos.
  revert v. induction H as [|x H IH]; intros [|y v]; cbn [zip_with]; try apply List.Forall_nil.
  apply List.Forall_cons; [apply wmod_word | apply IH].
Qed.
End Schedules.

Lemma fips_round_length F v kw : length (fips_round F v kw) = length v.
Proof. do 9 (destruct v as [|? v]; [reflexivity|]). reflexivity. Qed.

Lemma fips_hash_length F H m : length (fips_hash F H m) = length H.
Proof.
  assert (R : forall l v, length (fold_left (fips_round F) l v) = length v).
  { induction l as [|kw l IH]; intros v; [reflexivity|]. cbn [fold_left]. now rewrite IH, fips_round_length. }
  unfold fips_hash. generalize (split_blocks (length (m ++ padding F (length m)) / block_bytes F) (block_bytes F) (m ++ padding F (length m))).
  intros bs. revert H. induction bs as [|b bs IH]; intros H; [reflexivity|]. cbn [fold_left]. rewrite IH.
  unfold fips_compress, compress_words. rewrite length_zip_with, R. apply Nat.min_id.
Qed.

(** The words of whole bytes. *)
Lemma be_words_word F b : 8 * Z.of_nat (word_bytes F) = word_bits F -> Forall is_byte b ->
  Forall (is_word F) (be_words F b).
Proof.
  intros W B. unfold be_words. apply List.Forall_map, List.Forall_forall. intros j _.
  pose proof (be_val_bound (take (word_bytes F) (drop (word_bytes F * j) b)) (Forall_take _ _ _ (Forall_drop _ _ _ B))) as V.
  split; [apply V|]. eapply Z.lt_le_trans; [apply V|]. apply Z.pow_le_mono_r; [lia|]. rewrite length_take. lia.
Qed.

(** ** Blocks *)

Lemma split_blocks_map size n : forall m, split_blocks n size m = map (fun i => take size (drop (size * i) m)) (seq 0 n).
Proof.
  induction n as [|n IH]; intros m; [reflexivity|]. cbn [split_blocks seq map]. rewrite Nat.mul_0_r, drop_0. f_equal.
  rewrite IH, <- seq_shift, map_map. apply map_ext. intros i. rewrite drop_drop. do 2 f_equal. lia.
Qed.

Lemma split_blocks_app size n k : forall m x, length m = (n * size)%nat ->
  split_blocks (n + k) size (m ++ x) = split_blocks n size m ++ split_blocks k size x.
Proof.
  induction n as [|n IH]; intros m x L; [destruct m; [reflexivity | discriminate L]|].
  cbn [Nat.add split_blocks app]. rewrite take_app_le, drop_app_le by lia. f_equal. apply IH. rewrite length_drop. lia.
Qed.

Lemma split_blocks_take size n m x : (n * size <= length m)%nat -> split_blocks n size (m ++ x) = split_blocks n size m.
Proof.
  revert m. induction n as [|n IH]; intros m L; [reflexivity|]. cbn [split_blocks].
  rewrite take_app_le, drop_app_le by lia. f_equal. apply IH. rewrite length_drop. lia.
Qed.

Lemma split_blocks_ok size n : forall m, (n * size <= length m)%nat -> Forall is_byte m ->
  Forall (fun b => Forall is_byte b /\ length b = size) (split_blocks n size m).
Proof.
  induction n as [|n IH]; intros m L B; [apply List.Forall_nil|]. cbn [split_blocks]. apply List.Forall_cons.
  - split; [now apply Forall_take | rewrite length_take; lia].
  - apply IH; [rewrite length_drop; lia | now apply Forall_drop].
Qed.

(** A big-endian number in a wider field. *)
Lemma be_bytes_wide k n v : 0 <= v < 2 ^ (8 * Z.of_nat n) -> be_bytes (k + n) v = repeat 0 k ++ be_bytes n v.
Proof.
  intros V. unfold be_bytes, le_bytes. rewrite Nat.add_comm, seq_app, map_app, rev_app_distr. f_equal.
  rewrite Nat.add_0_l. assert (E : map (fun j => (v / 2 ^ (8 * Z.of_nat j)) mod 256) (seq n k) = repeat 0 k).
  { rewrite (map_ext_in _ (fun _ => 0)); [now rewrite map_const, length_seq|]. intros j J. apply in_seq in J.
    rewrite Z.div_small; [reflexivity|]. split; [lia|].
    eapply Z.lt_le_trans; [apply V | apply Z.pow_le_mono_r; lia]. }
  rewrite E. apply rev_repeat.
Qed.
