(* ===== verification/Sha512.v ===== *)
(** SHA-512/256 as libmultihash/sha512_256.c and sha512_256.h compute it: the transform
    over whole blocks, the streaming context and its padding, against FIPS 180-4.  The
    local array of the schedule and the context's buffer start uninitialised. *)
From Stdlib Require Import ZArith Lia List Bool.
From stdpp Require Import base list.
From S2P Require Import Prelude CInt Bytes Keccak SpongeSpec Blocks Arx Sha2.
Import ListNotations.
Local Open Scope Z_scope.

Definition SHA512_BLOCK_SIZE : Z := 1024 / 8.

(** ** The macros, on uint64_t *)

Definition SHFR (x n : Z) : Z := Z.shiftr x n.
Definition ROTR (x n : Z) : Z := Z.lor (Z.shiftr x n) (u64 (Z.shiftl x (64 - n))).
Definition CH (x y z : Z) : Z := Z.lxor (Z.land x y) (Z.land (u64 (Z.lnot x)) z).
Definition MAJ (x y z : Z) : Z := Z.lxor (Z.lxor (Z.land x y) (Z.land x z)) (Z.land y z).

Definition SHA512_F1 (x : Z) : Z := Z.lxor (Z.lxor (ROTR x 28) (ROTR x 34)) (ROTR x 39).
Definition SHA512_F2 (x : Z) : Z := Z.lxor (Z.lxor (ROTR x 14) (ROTR x 18)) (ROTR x 41).
Definition SHA512_F3 (x : Z) : Z := Z.lxor (Z.lxor (ROTR x 1) (ROTR x 8)) (SHFR x 7).
Definition SHA512_F4 (x : Z) : Z := Z.lxor (Z.lxor (ROTR x 19) (ROTR x 61)) (SHFR x 6).

Definition UNPACK32 (x : Z) : list Z :=
  [Z.shiftr x 24 mod 256; Z.shiftr x 16 mod 256; Z.shiftr x 8 mod 256; x mod 256].

Definition UNPACK64 (x : Z) : list Z :=
  [Z.shiftr x 56 mod 256; Z.shiftr x 48 mod 256; Z.shiftr x 40 mod 256; Z.shiftr x 32 mod 256;
   Z.shiftr x 24 mod 256; Z.shiftr x 16 mod 256; Z.shiftr x 8 mod 256; x mod 256].

Definition PACK64 (str : list Z) : Z :=
  Z.lor (Z.lor (Z.lor (Z.lor (Z.lor (Z.lor (Z.lor (lane str 7)
    (Z.shiftl (lane str 6) 8)) (Z.shiftl (lane str 5) 16)) (Z.shiftl (lane str 4) 24)) (Z.shiftl (lane str 3) 32))
    (Z.shiftl (lane str 2) 40)) (Z.shiftl (lane str 1) 48)) (Z.shiftl (lane str 0) 56).

Definition SHA512_SCR (w : list Z) (i : nat) : list Z :=
  <[i := u64 (SHA512_F4 (lane w (i - 2)) + lane w (i - 7) + SHA512_F3 (lane w (i - 15)) + lane w (i - 16))]> w.

Definition sha512_256_h0 : list Z := concat
  [[0x22312194FC2BF72C; 0x9F555FA3C84C64C2]; [0x2393B86B6F53B151; 0x963877195940EABD];
   [0x96283EE2A88EFFE3; 0xBE5E1E2553863992]; [0x2B0199FC2C85B8AA; 0x0EB72DDC81C52CA2]].

Definition sha512_k : list Z := concat
  [[0x428a2f98d728ae22; 0x7137449123ef65cd]; [0xb5c0fbcfec4d3b2f; 0xe9b5dba58189dbbc]; [0x3956c25bf348b538; 0x59f111f1b605d019];
   [0x923f82a4af194f9b; 0xab1c5ed5da6d8118]; [0xd807aa98a3030242; 0x12835b0145706fbe]; [0x243185be4ee4b28c; 0x550c7dc3d5ffb4e2];
   [0x72be5d74f27b896f; 0x80deb1fe3b1696b1]; [0x9bdc06a725c71235; 0xc19bf174cf692694]; [0xe49b69c19ef14ad2; 0xefbe4786384f25e3];
   [0x0fc19dc68b8cd5b5; 0x240ca1cc77ac9c65]; [0x2de92c6f592b0275; 0x4a7484aa6ea6e483]; [0x5cb0a9dcbd41fbd4; 0x76f988da831153b5];
   [0x983e5152ee66dfab; 0xa831c66d2db43210]; [0xb00327c898fb213f; 0xbf597fc7beef0ee4]; [0xc6e00bf33da88fc2; 0xd5a79147930aa725];
   [0x06ca6351e003826f; 0x142929670a0e6e70]; [0x27b70a8546d22ffc; 0x2e1b21385c26c926]; [0x4d2c6dfc5ac42aed; 0x53380d139d95b3df];
   [0x650a73548baf63de; 0x766a0abb3c77b2a8]; [0x81c2c92e47edaee6; 0x92722c851482353b]; [0xa2bfe8a14cf10364; 0xa81a664bbc423001];
   [0xc24b8b70d0f89791; 0xc76c51a30654be30]; [0xd192e819d6ef5218; 0xd69906245565a910]; [0xf40e35855771202a; 0x106aa07032bbd1b8];
   [0x19a4c116b8d2d0c8; 0x1e376c085141ab53]; [0x2748774cdf8eeb99; 0x34b0bcb5e19b48a8]; [0x391c0cb3c5c95a63; 0x4ed8aa4ae3418acb];
   [0x5b9cca4f7763e373; 0x682e6ff3d6b2b8a3]; [0x748f82ee5defb2fc; 0x78a5636f43172f60]; [0x84c87814a1f0ab72; 0x8cc702081a6439ec];
   [0x90befffa23631e28; 0xa4506cebde82bde9]; [0xbef9a3f7b2c67915; 0xc67178f2e372532b]; [0xca273eceea26619c; 0xd186b8c721c0c207];
   [0xeada7dd6cde0eb1e; 0xf57d4f7fee6ed178]; [0x06f067aa72176fba; 0x0a637dc5a2c898a6]; [0x113f9804bef90dae; 0x1b710b35131c471b];
   [0x28db77f523047d84; 0x32caab7b40c72493]; [0x3c9ebe0a15c9bebc; 0x431d67c49c100d4c]; [0x4cc5d4becb3e42b6; 0x597f299cfc657e2a];
   [0x5fcb6fab3ad6faec; 0x6c44198c4a475817]].

(** ** The transform *)

Section Transform.
(** [w0]: what the local w holds before. *)
Variable w0 : list Z.

(** The body of the loop on j: wv is rotated entry by entry. *)
Definition sha512_round (w wv : list Z) (j : nat) : list Z :=
  let t1 := u64 (lane wv 7 + SHA512_F2 (lane wv 4) + CH (lane wv 4) (lane wv 5) (lane wv 6) + lane sha512_k j + lane w j) in
  let t2 := u64 (SHA512_F1 (lane wv 0) + MAJ (lane wv 0) (lane wv 1) (lane wv 2)) in
  let wv := <[7%nat := lane wv 6]> wv in
  let wv := <[6%nat := lane wv 5]> wv in
  let wv := <[5%nat := lane wv 4]> wv in
  let wv := <[4%nat := u64 (lane wv 3 + t1)]> wv in
  let wv := <[3%nat := lane wv 2]> wv in
  let wv := <[2%nat := lane wv 1]> wv in
  let wv := <[1%nat := lane wv 0]> wv in
  <[0%nat := u64 (t1 + t2)]> wv.

(** The body of the loop on i. *)
Definition sha512_block (h sub_block : list Z) : list Z :=
  let w := fold_left (fun w j => <[j := PACK64 (drop (8 * j) sub_block)]> w) (seq 0 16) w0 in
  let w := fold_left SHA512_SCR (seq 16 64) w in
  let wv := map (lane h) (seq 0 8) in
  let wv := fold_left (sha512_round w) (seq 0 80) wv in
  map (fun j => u64 (lane h j + lane wv j)) (seq 0 8).

(** [None]: the message has fewer than [block_nb] blocks. *)
Definition sha512_transf (h message : list Z) (block_nb : Z) : option (list Z) :=
  let! _ := c_assert (128 * block_nb <=? Z.of_nat (length message)) in
  Some (fold_left (fun h i => sha512_block h (take 128 (drop (128 * i) message))) (seq 0 (Z.to_nat block_nb)) h).

(** ** The context *)

Record sha512_ctx : Type := mkctx { tot_len : Z; ctx_len : Z; block : list Z; ctx_h : list Z }.

(** The block is left as it was. *)
Definition sha512_256_init (block : list Z) : sha512_ctx := mkctx 0 0 block sha512_256_h0.

Definition sha512_256_update (ctx : sha512_ctx) (message : list Z) : option sha512_ctx :=
  let len := Z.of_nat (length message) in
  let tmp_len := u32 (SHA512_BLOCK_SIZE - ctx_len ctx) in
  let rem_len := if len <? tmp_len then len else tmp_len in
  let! blk := memcpy (block ctx) (Z.to_nat (ctx_len ctx)) (take (Z.to_nat rem_len) message) in
  if u32 (ctx_len ctx + len) <? SHA512_BLOCK_SIZE then Some (mkctx (tot_len ctx) (u32 (ctx_len ctx + len)) blk (ctx_h ctx))
  else
    let new_len := u32 (len - rem_len) in
    let block_nb := new_len / SHA512_BLOCK_SIZE in
    let shifted_message := drop (Z.to_nat rem_len) message in
    let! h := sha512_transf (ctx_h ctx) blk 1 in
    let! h := sha512_transf h shifted_message block_nb in
    let rem_len := new_len mod SHA512_BLOCK_SIZE in
    let! blk := memcpy blk 0 (take (Z.to_nat rem_len) (drop (Z.to_nat (Z.shiftl block_nb 7)) shifted_message)) in
    Some (mkctx (u32 (tot_len ctx + u32 (Z.shiftl (block_nb + 1) 7))) rem_len blk h).

Definition sha512_256_final (ctx : sha512_ctx) : option (list Z) :=
  let block_nb := 1 + (if SHA512_BLOCK_SIZE - 17 <? ctx_len ctx mod SHA512_BLOCK_SIZE then 1 else 0) in
  let len_b := u32 (Z.shiftl (u32 (tot_len ctx + ctx_len ctx)) 3) in
  let pm_len := u32 (Z.shiftl block_nb 7) in
  let! blk := memcpy (block ctx) (Z.to_nat (ctx_len ctx)) (repeat 0 (Z.to_nat (pm_len - ctx_len ctx))) in
  let blk := <[Z.to_nat (ctx_len ctx) := 0x80]> blk in
  let! blk := memcpy blk (Z.to_nat (pm_len - 4)) (UNPACK32 len_b) in
  let! h := sha512_transf (ctx_h ctx) blk block_nb in
  Some (concat (map (fun i => UNPACK64 (lane h i)) (seq 0 4))).

(** [block0]: what the local context's buffer holds before. *)
Definition sha512_256 (block0 message : list Z) : option (list Z) :=
  let ctx := sha512_256_init block0 in
  let! ctx := sha512_256_update ctx message in
  sha512_256_final ctx.
End Transform.

(** ** The macros and FIPS 180-4 *)

#[local] Abbreviation word64 := (is_word sha2_64).

Lemma ROTR_rotr n x : 0 <= n <= 64 -> word64 x -> ROTR x n = rotr sha2_64 n x.
Proof. intros N X. exact (rotr_shifts 64 n x N X). Qed.

Lemma F_sigmas x : word64 x ->
  SHA512_F1 x = big_sigma sha2_64 (Sigma0_rots sha2_64) x /\ SHA512_F2 x = big_sigma sha2_64 (Sigma1_rots sha2_64) x /\
  SHA512_F3 x = small_sigma sha2_64 (sigma0_rots sha2_64) x /\ SHA512_F4 x = small_sigma sha2_64 (sigma1_rots sha2_64) x.
Proof.
  intros X. unfold SHA512_F1, SHA512_F2, SHA512_F3, SHA512_F4, SHFR. rewrite !ROTR_rotr by (exact X || lia).
  rewrite !Z.shiftr_div_pow2 by lia. auto.
Qed.

Lemma CH_Ch x y z : word64 x -> CH x y z = Ch sha2_64 x y z.
Proof.
  intros X. unfold CH, Ch. do 2 f_equal. unfold is_word in X. cbn [word_bits sha2_64] in *. unfold u64, Z.lnot.
  symmetry. apply Z.mod_unique with (-1); lia.
Qed.

Lemma bytes8 b : Forall is_byte b -> length b = 8%nat -> exists b0 b1 b2 b3 b4 b5 b6 b7,
  b = [b0; b1; b2; b3; b4; b5; b6; b7] /\ Forall is_byte [b0; b1; b2; b3; b4; b5; b6; b7].
Proof. intros F L. do 8 (destruct b as [|? b]; [discriminate L|]). destruct b; [|discriminate L]. eauto 10. Qed.

Lemma PACK64_ok b : Forall is_byte b -> (8 <= length b)%nat -> PACK64 b = be_val (take 8 b).
Proof.
  intros F L. assert (E : forall i, (i < 8)%nat -> lane b i = lane (take 8 b) i).
  { intros i I. unfold lane. now rewrite nth_firstn, (proj2 (Nat.ltb_lt i 8)). }
  unfold PACK64. rewrite !E by lia. clear E.
  destruct (bytes8 (take 8 b)) as (b0 & b1 & b2 & b3 & b4 & b5 & b6 & b7 & -> & B);
    [now apply Forall_take | rewrite length_take; lia|].
  unfold is_byte in B. rewrite !List.Forall_cons_iff in B. destruct B as (B0 & B1 & B2 & B3 & B4 & B5 & B6 & B7 & _).
  unfold lane, be_val. cbn [nth rev app le_val].
  rewrite (lor_byte b7), (lor_byte (b7 + _)), (lor_byte (_ + b5 * _)), (lor_byte (_ + b4 * _)), (lor_byte (_ + b3 * _)),
    (lor_byte (_ + b2 * _)), (lor_byte (_ + b1 * _)) by lia.
  lia.
Qed.

Lemma UNPACK64_ok x : UNPACK64 x = be_bytes 8 x.
Proof. unfold UNPACK64. rewrite !Z.shiftr_div_pow2 by lia. unfold be_bytes, le_bytes. cbn [seq map rev app]. 
  change (2 ^ (8 * Z.of_nat 0)) with 1. now rewrite Z.div_1_r. Qed.

Lemma UNPACK32_ok x : UNPACK32 x = be_bytes 4 x.
Proof. unfold UNPACK32. rewrite !Z.shiftr_div_pow2 by lia. unfold be_bytes, le_bytes. cbn [seq map rev app].
  change (2 ^ (8 * Z.of_nat 0)) with 1. now rewrite Z.div_1_r. Qed.

Lemma sha512_k_fips : sha512_k = fips_K sha2_64.
Proof. vm_compute. reflexivity. Qed.

Lemma sha512_256_h0_fips : sha512_256_h0 = sha512_256_IV.
Proof. vm_compute. reflexivity. Qed.

(** ** The transform *)

Section TransformLemmas.
Variable w0 : list Z.
Hypothesis w0_length : length w0 = 80%nat.

Lemma SHA512_SCR_ok w t : (16 <= t)%nat -> (t < length w)%nat -> Forall word64 (take t w) ->
  SHA512_SCR w t = <[t := next_word sha2_64 (take t w)]> w.
Proof.
  intros T L H. unfold SHA512_SCR, next_word. rewrite length_take, Nat.min_l by lia.
  rewrite !lane_firstn by lia. rewrite <- (lane_firstn w t (t - 2)), <- (lane_firstn w t (t - 15)) by lia.
  destruct (F_sigmas (lane (take t w) (t - 2)) (word_lane sha2_64 eq_refl _ _ H)) as (_ & _ & _ & ->).
  destruct (F_sigmas (lane (take t w) (t - 15)) (word_lane sha2_64 eq_refl _ _ H)) as (_ & _ & -> & _).
  reflexivity.
Qed.

Lemma sha512_round_ok w wv j : state_ok sha2_64 wv ->
  sha512_round w wv j = fips_round sha2_64 wv (lane sha512_k j + lane w j).
Proof.
  intros [L H]. do 8 (destruct wv as [|? wv]; [discriminate L|]). destruct wv; [|discriminate L].
  rewrite !List.Forall_cons_iff in H. destruct H as (A & _ & _ & _ & E & _).
  unfold sha512_round. cbv zeta. generalize (lane sha512_k j) as k, (lane w j) as x. intros k x.
  unfold lane. cbn [nth insert list_insert fips_round].
  destruct (F_sigmas z A) as (-> & _). destruct (F_sigmas z3 E) as (_ & -> & _). rewrite CH_Ch by exact E.
  unfold wmod. cbn [word_bits sha2_64]. unfold u64, MAJ, Maj. change (2 ^ 64) with 18446744073709551616.
  rewrite <- Zplus_mod, Zplus_mod_idemp_r, (Z.add_assoc _ k x). reflexivity.
Qed.

(** The words of a block. *)
Lemma be_words_words b : Forall is_byte b -> length b = 128%nat ->
  be_words sha2_64 b = map (fun j => PACK64 (drop (8 * j) b)) (seq 0 16) /\
  Forall word64 (be_words sha2_64 b) /\ length (be_words sha2_64 b) = 16%nat.
Proof.
  intros H L. unfold be_words. change (word_bytes sha2_64) with 8%nat. rewrite L. change (128 / 8)%nat with 16%nat.
  assert (D : forall j, (j < 16)%nat -> Forall is_byte (drop (8 * j) b) /\ (8 <= length (drop (8 * j) b))%nat).
  { intros j J. split; [now apply Forall_drop | rewrite length_drop; lia]. }
  split; [|split].
  - apply map_ext_in. intros j J. apply in_seq in J. destruct (D j ltac:(lia)). symmetry. now apply PACK64_ok.
  - pose proof (be_words_word sha2_64 b eq_refl H) as W. unfold be_words in W. now rewrite L in W.
  - now rewrite length_map, length_seq.
Qed.

Lemma sha512_block_ok h b : state_ok sha2_64 h -> Forall is_byte b -> length b = 128%nat ->
  sha512_block w0 h b = fips_compress sha2_64 h b /\ state_ok sha2_64 (fips_compress sha2_64 h b).
Proof.
  intros H B L. destruct (be_words_words b B L) as (E & Fw & Lw).
  unfold sha512_block, fips_compress, compress_words. rewrite fill_ok by lia. rewrite <- E. set (ws := be_words sha2_64 b) in *.
  assert (T : take 16 (ws ++ drop 16 w0) = ws) by now apply take_app_length'.
  rewrite (schedule_array sha2_64 eq_refl SHA512_SCR 64 SHA512_SCR_ok) by
    (rewrite ?T, ?length_app, ?length_drop; (exact Fw || lia)).
  rewrite T. change (rounds sha2_64 - 16)%nat with 64%nat.
  destruct (extend_ok sha2_64 eq_refl 64 ws Fw) as [Le _]. set (W := extend sha2_64 64 ws) in *.
  assert (I : map (lane h) (seq 0 8) = h) by (apply lanes_id; apply H). rewrite I.
  assert (Lk : length sha512_k = 80%nat) by reflexivity.
  destruct (rounds_array sha2_64 eq_refl (sha512_round W) sha512_k W 80 Lk ltac:(lia)
              (fun v j _ Hv => sha512_round_ok W v j Hv) h H) as [-> Ov].
  rewrite <- sha512_k_fips. set (v := fold_left _ _ h) in *.
  split; [|now apply add_words_ok].
  destruct H as [Lh _], Ov as [Lv _]. clear - Lh Lv.
  do 8 (destruct h as [|? h]; [discriminate Lh|]). destruct h; [|discriminate Lh].
  generalize dependent v. intros v Lv. do 8 (destruct v as [|? v]; [discriminate Lv|]). destruct v; [|discriminate Lv].
  reflexivity.
Qed.
End TransformLemmas.

(** ** Messages *)

Section Messages.
Variable w0 : list Z.
Hypothesis w0_length : length w0 = 80%nat.

Lemma IV_ok : state_ok sha2_64 sha512_256_h0.
Proof. split; [reflexivity|]. repeat (apply List.Forall_cons; [split; reflexivity || discriminate|]). apply List.Forall_nil. Qed.

Definition chain (h : list Z) (blocks : list (list Z)) : list Z := fold_left (fips_compress sha2_64) blocks h.

Lemma chain_ok blocks : forall h, state_ok sha2_64 h -> Forall (fun b => Forall is_byte b /\ length b = 128%nat) blocks ->
  fold_left (sha512_block w0) blocks h = chain h blocks /\ state_ok sha2_64 (chain h blocks).
Proof.
  induction blocks as [|b blocks IH]; intros h O F; [split; [reflexivity | exact O]|].
  rewrite List.Forall_cons_iff in F. destruct F as [[B L] F]. unfold chain in *. cbn [fold_left].
  destruct (sha512_block_ok w0 w0_length h b O B L) as [E O']. rewrite E. now apply IH.
Qed.

Lemma sha512_transf_ok h m nb : state_ok sha2_64 h -> Forall is_byte m -> (nb * 128 <= length m)%nat ->
  sha512_transf w0 h m (Z.of_nat nb) = Some (chain h (split_blocks nb 128 m)) /\
  state_ok sha2_64 (chain h (split_blocks nb 128 m)).
Proof.
  intros O B L. unfold sha512_transf. rewrite (proj2 (Z.leb_le _ _)) by lia. cbn [c_assert bind]. rewrite Nat2Z.id.
  destruct (chain_ok (split_blocks nb 128 m) h O (split_blocks_ok 128 nb m L B)) as [E O'].
  rewrite <- E. split; [|now rewrite E]. f_equal. now rewrite split_blocks_map, fold_left_map.
Qed.

Lemma sha512_transf_take h m nb : (nb * 128 <= length m)%nat ->
  sha512_transf w0 h m (Z.of_nat nb) = sha512_transf w0 h (take (nb * 128) m) (Z.of_nat nb).
Proof.
  intros L. unfold sha512_transf. rewrite (length_take_le m (nb * 128) L), !(proj2 (Z.leb_le _ _)) by lia.
  cbn [c_assert bind]. rewrite Nat2Z.id.
  assert (E : split_blocks nb 128 m = split_blocks nb 128 (take (nb * 128) m)).
  { rewrite <- (take_drop (nb * 128) m) at 1. apply split_blocks_take. rewrite length_take. lia. }
  assert (G : forall x, fold_left (fun h i => sha512_block w0 h (take 128 (drop (128 * i) x))) (seq 0 nb) h =
                        fold_left (sha512_block w0) (split_blocks nb 128 x) h)
    by (intros x; now rewrite split_blocks_map, fold_left_map).
  now rewrite !G, E.
Qed.

(** The bytes [d] are absorbed. *)
Definition absorbed512 (d : list Z) (c : sha512_ctx) : Prop :=
  let q := (length d / 128)%nat in
  ctx_h c = chain sha512_256_h0 (split_blocks q 128 d) /\ ctx_len c = Z.of_nat (length d - q * 128) /\
  tot_len c = Z.of_nat (q * 128) /\ length (block c) = 256%nat /\
  take (length d - q * 128) (block c) = drop (q * 128) d.

(** [q] whole blocks and less than one more. *)
Lemma absorbed512_at d c q x : d = x ++ take (length d - q * 128) (block c) -> length x = (q * 128)%nat ->
  (length d < q * 128 + 128)%nat -> length (block c) = 256%nat -> ctx_len c = Z.of_nat (length d - q * 128) ->
  tot_len c = Z.of_nat (q * 128) -> ctx_h c = chain sha512_256_h0 (split_blocks q 128 x) -> absorbed512 d c.
Proof.
  intros D X L Lb Cl Ct Ch. assert (Q : (length d / 128)%nat = q).
  { symmetry. apply (Nat.div_unique _ _ _ (length d - q * 128)); [lia|].
    rewrite D, length_app, X. lia. }
  unfold absorbed512. rewrite Q. split; [|split; [exact Cl|split; [exact Ct|split; [exact Lb|]]]].
  - rewrite Ch, D. f_equal. symmetry. apply split_blocks_take. lia.
  - rewrite D at 2. rewrite drop_app_length' by exact (eq_sym X). reflexivity.
Qed.

Lemma sha512_256_update_ok d m c : Forall is_byte (d ++ m) -> Z.of_nat (length (d ++ m)) < 2 ^ 29 -> absorbed512 d c ->
  exists c', sha512_256_update w0 c m = Some c' /\ absorbed512 (d ++ m) c'.
Proof.
  intros B N (H & Cl & Ct & Lb & T). apply Forall_app in B. destruct B as [Bd Bm]. rewrite length_app in N.
  set (q := (length d / 128)%nat) in *. pose proof (Nat.div_mod_eq (length d) 128) as Dm. fold q in Dm.
  pose proof (Nat.mod_upper_bound (length d) 128 ltac:(lia)) as Rb. set (r := (length d - q * 128)%nat) in *.
  assert (R : (r < 128)%nat) by lia.
  assert (Dq : d = take (q * 128) d ++ take r (block c)) by (rewrite T; symmetry; apply take_drop).
  assert (Lq : length (take (q * 128) d) = (q * 128)%nat) by (rewrite length_take; lia).
  unfold sha512_256_update. rewrite Cl. change SHA512_BLOCK_SIZE with 128.
  assert (Us : forall z, 0 <= z < 2 ^ 32 -> u32 z = z) by (intros z; apply Z.mod_small).
  rewrite (Us (128 - _)) by lia.

  set (rem := Nat.min (length m) (128 - r)).
  assert (Rm : (if Z.of_nat (length m) <? 128 - Z.of_nat r then Z.of_nat (length m) else 128 - Z.of_nat r) = Z.of_nat rem).
  { unfold rem. destruct (Z.ltb_spec (Z.of_nat (length m)) (128 - Z.of_nat r)); lia. }
  rewrite Rm, !Nat2Z.id. assert (Lr : length (take rem m) = rem) by (rewrite length_take; lia).
  destruct (memcpy_spec (block c) r (take rem m)) as (b & M & L1 & T1 & _); [lia|]. rewrite M. cbn [bind].
  rewrite Lr in T1. rewrite (Us (Z.of_nat r + _)) by lia.
  assert (Ld : length (d ++ m) = (q * 128 + r + length m)%nat) by (rewrite length_app; lia).
  destruct (Z.ltb_spec (Z.of_nat r + Z.of_nat (length m)) 128) as [S|S].
  - eexists. split; [reflexivity|]. replace rem with (length m) in * by lia. rewrite (take_ge m) in T1 by lia.
    apply (absorbed512_at _ _ q (take (q * 128) d)); cbn [block ctx_len tot_len ctx_h]; try assumption; try lia.
    + rewrite Ld. replace (q * 128 + r + length m - q * 128)%nat with (r + length m)%nat by lia.
      rewrite T1, app_assoc, <- Dq. reflexivity.
    + rewrite H. f_equal. rewrite Dq at 1. apply split_blocks_take. lia.
  - assert (Er : rem = (128 - r)%nat) by lia. set (s := drop rem m).
    assert (Ls : length s = (length m - rem)%nat) by apply length_drop.
    assert (Bs : Forall is_byte s) by now apply Forall_drop.
    assert (Nl : u32 (Z.of_nat (length m) - Z.of_nat rem) = Z.of_nat (length s)) by (rewrite Us; lia).
    rewrite Nl. set (nb := (length s / 128)%nat).
    assert (Nb : Z.of_nat (length s) / 128 = Z.of_nat nb) by (unfold nb; exact (eq_sym (Nat2Z.inj_div _ 128))).
    assert (Nr : Z.of_nat (length s) mod 128 = Z.of_nat (length s - nb * 128)).
    { pose proof (Nat.div_mod_eq (length s) 128) as E. fold nb in E. change 128 with (Z.of_nat 128) at 1. rewrite <- Nat2Z.inj_mod. f_equal. lia. }
    pose proof (Nat.div_mod_eq (length s) 128) as Ds. fold nb in Ds. pose proof (Nat.mod_upper_bound (length s) 128 ltac:(lia)).
    rewrite Nb, Nr, Z.shiftl_mul_pow2, Nat2Z.id by lia. 

    assert (Tb : take 128 b = take r (block c) ++ take rem m).
    { replace 128%nat with (r + rem)%nat by lia. exact T1. }
    assert (Lx : length (take r (block c) ++ take rem m) = 128%nat) by (rewrite length_app, length_take; lia).
    assert (Bt : Forall is_byte (take r (block c))) by (rewrite T; now apply Forall_drop).
    destruct (chain_ok (split_blocks q 128 d) _ IV_ok (split_blocks_ok 128 q d ltac:(lia) Bd)) as [_ O0].
    assert (Tr1 : sha512_transf w0 (ctx_h c) b 1 =
                  Some (chain (ctx_h c) [take r (block c) ++ take rem m]) /\
                  state_ok sha2_64 (chain (ctx_h c) [take r (block c) ++ take rem m])).
    { rewrite H. pose proof (sha512_transf_ok (chain sha512_256_h0 (split_blocks q 128 d)) (take 128 b) 1 O0) as P.
      rewrite Tb in P. destruct P as [P P2]; [apply Forall_app; split; [exact Bt | now apply Forall_take] | lia|].
      cbn [split_blocks] in P, P2. rewrite (take_ge (take r (block c) ++ take rem m)) in P, P2 by lia. split; [|exact P2]. rewrite <- P, <- Tb.
      apply (sha512_transf_take _ b 1). lia. }
    destruct Tr1 as [-> O1]. cbn [bind].
    destruct (sha512_transf_ok _ s nb O1 Bs ltac:(lia)) as [-> O2]. cbn [bind].
    replace (Z.to_nat (Z.of_nat nb * 2 ^ 7)) with (nb * 128)%nat by lia.
    rewrite (take_ge (drop (nb * 128) s)) by (rewrite length_drop; lia).
    destruct (memcpy_spec b 0 (drop (nb * 128) s)) as (b2 & -> & L2 & T2 & _); [rewrite length_drop; lia|]. cbn [bind].
    eexists. split; [reflexivity|]. rewrite Nat.add_0_l, length_drop in T2.
    apply (absorbed512_at _ _ (q + 1 + nb) (d ++ take rem m ++ take (nb * 128) s));
      cbn [block ctx_len tot_len ctx_h]; try lia.
    + rewrite Ld. replace (q * 128 + r + length m - (q + 1 + nb) * 128)%nat with (length s - nb * 128)%nat by lia.
      rewrite T2. change (take 0 b) with (@nil Z). cbn [app]. rewrite <- !app_assoc, take_drop. unfold s. now rewrite take_drop.
    + rewrite !length_app, Lr, length_take. lia.
    + rewrite Ct, Z.shiftl_mul_pow2, (Us ((_ + 1) * _)), Us by lia. lia.
    + assert (Ed : d ++ take rem m ++ take (nb * 128) s =
                   (take (q * 128) d ++ (take r (block c) ++ take rem m)) ++ take (nb * 128) s)
        by (rewrite Dq at 1; now rewrite <- !app_assoc).
      rewrite Ed, split_blocks_app by (rewrite length_app; lia).
      rewrite <- (app_nil_r (take r (block c) ++ take rem m)) at 2. rewrite split_blocks_app by lia.
      cbn [split_blocks]. rewrite app_nil_r, (take_ge (take r (block c) ++ take rem m)) by lia.
      unfold chain. rewrite !fold_left_app, H. unfold chain. rewrite Dq at 1. rewrite split_blocks_take by lia.
      cbn [fold_left]. f_equal. rewrite <- (take_drop (nb * 128) s) at 1. rewrite split_blocks_take; [reflexivity|].
      rewrite length_take. lia.
Qed.

Lemma digest_words h : length h = 8%nat ->
  concat (map (fun i => UNPACK64 (lane h i)) (seq 0 4)) = take 32 (digest_bytes sha2_64 h).
Proof.
  intros L. do 8 (destruct h as [|? h]; [discriminate L|]). destruct h; [|discriminate L].
  unfold digest_bytes. change (word_bytes sha2_64) with 8%nat. unfold lane. cbn [seq map nth concat].
  rewrite !UNPACK64_ok, app_nil_r. symmetry.
  rewrite 3app_assoc. apply take_app_length'. rewrite !length_app, !length_be_bytes. reflexivity.
Qed.

(** The padded end of a message. *)
Definition padded_end (rest : list Z) (k n : nat) : list Z :=
  rest ++ 0x80 :: repeat 0 (k * 128 - length rest - 5)%nat ++ be_bytes 4 (8 * Z.of_nat n).

Lemma padded_end_ok d q k : (length d - q * 128 < 128)%nat -> (q * 128 <= length d)%nat -> Z.of_nat (length d) < 2 ^ 29 ->
  k = (if (111 <? length d - q * 128)%nat then 2%nat else 1%nat) ->
  d ++ padding sha2_64 (length d) = take (q * 128) d ++ padded_end (drop (q * 128) d) k (length d) /\
  length (padded_end (drop (q * 128) d) k (length d)) = (k * 128)%nat.
Proof.
  intros R Q N K. assert (Kb : (length d - q * 128 + 17 <= k * 128 /\ k * 128 < length d - q * 128 + 145)%nat).
  { rewrite K. destruct (Nat.ltb_spec 111 (length d - q * 128)); lia. }
  clear K. split.
  - unfold padded_end, padding. rewrite app_assoc, take_drop. do 2 f_equal. rewrite length_drop.
    change (2 * word_bytes sha2_64)%nat with (12 + 4)%nat. change (Z.of_nat (block_bytes sha2_64)) with 128.
    rewrite be_bytes_wide by lia. rewrite app_assoc, <- repeat_app. do 2 f_equal.
    replace (- Z.of_nat (length d + 1 + (12 + 4))) with
      (Z.of_nat (k * 128 - (length d - q * 128) - 17) + (- Z.of_nat (q + k)) * 128) by lia.
    rewrite Z_mod_plus_full, Z.mod_small by lia. lia.
  - unfold padded_end. rewrite length_app. cbn [length]. rewrite length_app, repeat_length, length_be_bytes, length_drop. lia.
Qed.

(** The padding: one or two blocks at the end of the buffer. *)
Lemma sha512_256_final_ok d c : Forall is_byte d -> Z.of_nat (length d) < 2 ^ 29 -> absorbed512 d c ->
  sha512_256_final w0 c = Some (sha512_256_spec d).
Proof.
  intros B N (H & Cl & Ct & Lb & T).
  set (q := (length d / 128)%nat) in *. pose proof (Nat.div_mod_eq (length d) 128) as Dm. fold q in Dm.
  pose proof (Nat.mod_upper_bound (length d) 128 ltac:(lia)) as Rb. set (r := (length d - q * 128)%nat) in *.
  assert (R : (r < 128)%nat) by lia.
  assert (Us : forall z, 0 <= z < 2 ^ 32 -> u32 z = z) by (intros z; apply Z.mod_small).
  unfold sha512_256_final. rewrite Cl, Ct. change SHA512_BLOCK_SIZE with 128. rewrite (Z.mod_small (Z.of_nat r)) by lia.
  set (k := if (111 <? r)%nat then 2%nat else 1%nat).
  assert (K : 1 + (if 128 - 17 <? Z.of_nat r then 1 else 0) = Z.of_nat k).
  { unfold k. destruct (Z.ltb_spec (128 - 17) (Z.of_nat r)), (Nat.ltb_spec 111 r); lia. }
  assert (Kb : (k * 128 <= 256 /\ r + 17 <= k * 128)%nat) by (unfold k; destruct (Nat.ltb_spec 111 r); lia).
  rewrite K, (Us (Z.of_nat (q * 128) + _)), !Z.shiftl_mul_pow2, !Us by lia.
  rewrite Nat2Z.id. replace (Z.to_nat (Z.of_nat k * 2 ^ 7 - Z.of_nat r)) with (k * 128 - r)%nat by lia.
  replace (Z.to_nat (Z.of_nat k * 2 ^ 7 - 4)) with (k * 128 - 4)%nat by lia.

  set (rest := take r (block c)) in *. set (tl := drop (k * 128) (block c)).
  assert (Lrest : length rest = r) by (apply length_take_le; lia).
  assert (Ltl : (k * 128 + length tl = 256)%nat) by (unfold tl; rewrite length_drop; lia).
  unfold memcpy at 1. rewrite repeat_length, (proj2 (Nat.leb_le _ _)) by lia. cbn [bind].
  replace (r + (k * 128 - r))%nat with (k * 128)%nat by lia. fold rest tl.
  rewrite insert_app_r_alt, Lrest, Nat.sub_diag by lia.
  replace (k * 128 - r)%nat with (S (k * 128 - r - 5 + 4)) by lia. cbn [repeat app insert list_insert].
  rewrite repeat_app. rewrite UNPACK32_ok, <- app_assoc. set (U := be_bytes 4 _).
  assert (LU : length U = 4%nat) by apply length_be_bytes.
  set (front := rest ++ 0x80 :: repeat 0 (k * 128 - r - 5)).
  assert (Lf : length front = (k * 128 - 4)%nat) by (unfold front; rewrite length_app; cbn [length]; rewrite repeat_length; lia).
  replace (rest ++ 128 :: repeat 0 (k * 128 - r - 5) ++ repeat 0 4 ++ tl) with (front ++ repeat 0 4 ++ tl)
    by (unfold front; now rewrite <- app_assoc).
  unfold memcpy. rewrite !length_app, LU, repeat_length, (proj2 (Nat.leb_le _ _)) by lia. cbn [bind].
  rewrite take_app_length' by lia. replace (k * 128 - 4 + 4)%nat with (length front + 4)%nat by lia.
  rewrite drop_app_ge by lia. replace (length front + 4 - length front)%nat with 4%nat by lia. cbn [repeat app drop skipn].
  rewrite app_assoc.
  destruct (padded_end_ok d q k R ltac:(lia) N eq_refl) as [Ep Lp].
  assert (P : front ++ U = padded_end (drop (q * 128) d) k (length d)).
  { assert (L8 : (Z.of_nat (q * 128) + Z.of_nat r) * 2 ^ 3 = 8 * Z.of_nat (length d)) by lia.
    unfold front, padded_end, U. now rewrite <- T, Lrest, <- app_assoc, L8. }
  rewrite P. set (e := padded_end _ _ _) in *.
  assert (Be : Forall is_byte e).
  { unfold e, padded_end. apply Forall_app. split; [now apply Forall_drop|].
    apply List.Forall_cons; [unfold is_byte; lia|]. apply Forall_app. split; [apply zeros_byte | apply be_bytes_byte]. }
  rewrite sha512_transf_take by (rewrite length_app; lia). rewrite take_app_length' by lia.
  destruct (chain_ok (split_blocks q 128 d) _ IV_ok (split_blocks_ok 128 q d ltac:(lia) B)) as [_ O0].
  assert (S : split_blocks q 128 d = split_blocks q 128 (take (q * 128) d)).
  { rewrite <- (take_drop (q * 128) d) at 1. apply split_blocks_take. rewrite length_take. lia. }
  rewrite S in H, O0. rewrite H. destruct (sha512_transf_ok _ e k O0 Be ltac:(lia)) as [-> O1]. cbn [bind].
  unfold sha512_256_spec, fips_hash. rewrite Ep, <- sha512_256_h0_fips. change (block_bytes sha2_64) with 128%nat.
  assert (Lq : length (take (q * 128) d) = (q * 128)%nat) by (rewrite length_take; lia).
  rewrite length_app, Lq, Lp. replace (q * 128 + k * 128)%nat with ((q + k) * 128)%nat by lia. rewrite Nat.div_mul by lia.
  rewrite split_blocks_app, fold_left_app by exact Lq.
  fold (chain sha512_256_h0 (split_blocks q 128 (take (q * 128) d))).
  fold (chain (chain sha512_256_h0 (split_blocks q 128 (take (q * 128) d))) (split_blocks k 128 e)).
  destruct O1 as [O1 _]. f_equal. now apply digest_words.
Qed.
End Messages.

(** ** Properties *)

(** C12.  The streaming interface computes SHA-512/256: whatever the buffer and the
    locals hold, and however a message below 2^29 bytes (the code writes its length in
    bits as 32 bits) is cut into calls of sha512_256_update, sha512_256_final returns
    the SHA-512/256 of FIPS 180-4, its constants taken from the roots of the primes and
    its initial state from the generation function. *)
Theorem sha512_256_streaming w0 block0 chunks : length w0 = 80%nat -> length block0 = 256%nat ->
  Forall is_byte (concat chunks) -> Z.of_nat (length (concat chunks)) < 2 ^ 29 ->
  exists c, foldM (sha512_256_update w0) (sha512_256_init block0) chunks = Some c /\
    sha512_256_final w0 c = Some (sha512_256_spec (concat chunks)) /\
    sha512_256 w0 block0 (concat chunks) = Some (sha512_256_spec (concat chunks)).
Proof.
  intros W L B N. assert (A0 : absorbed512 [] (sha512_256_init block0)) by (repeat split; exact L).
  assert (G : forall cs d c, Forall is_byte (d ++ concat cs) -> Z.of_nat (length (d ++ concat cs)) < 2 ^ 29 ->
    absorbed512 d c -> exists c', foldM (sha512_256_update w0) c cs = Some c' /\ absorbed512 (d ++ concat cs) c').
  { induction cs as [|m cs IH]; intros d c Bd Nd A; cbn [concat foldM] in *.
    - rewrite app_nil_r. eauto.
    - rewrite app_assoc in *. destruct (sha512_256_update_ok w0 W d m c) as (c' & -> & A').
      + now apply Forall_app in Bd.
      + rewrite length_app in Nd. lia.
      + exact A.
      + cbn [bind]. now apply IH. }
  destruct (G chunks [] _ B N A0) as (c & E & A). exists c. cbn [app] in A.
  split; [exact E|]. split; [now apply sha512_256_final_ok|].
  unfold sha512_256. destruct (sha512_256_update_ok w0 W [] (concat chunks) _ B N A0) as (c' & -> & A'). cbn [bind].
  now apply sha512_256_final_ok.
Qed.

Lemma sha512_256_streaming_witness : exists c,
  foldM (sha512_256_update (repeat 1 80)) (sha512_256_init (repeat 2 256)) [[97]; []; [98; 99]] = Some c /\
  sha512_256_final (repeat 1 80) c = Some (sha512_256_spec [97; 98; 99]).
Proof.
  destruct (sha512_256_streaming (repeat 1 80) (repeat 2 256) [[97]; []; [98; 99]]) as (c & E & F & _);
    [reflexivity | reflexivity | repeat constructor; unfold is_byte; lia | reflexivity|].
  exists c. split; [exact E | exact F].
Defined.
