(* ===== verification/Blake2b.v ===== *)
(** BLAKE2b (libubqhash/blake2.c, blake2.h, blake2-impl.h), the hash that Ubqhash
    fills its cache with: the context and its operations as the code has them, and
    the function of RFC 7693 they implement.  Words are 64-bit, bytes little-endian;
    [None] is an access outside an array. *)
From Stdlib Require Import ZArith Lia List Bool.
From stdpp Require Import base list.
From S2P Require Import Prelude CInt Bytes Keccak SpongeSpec Blocks Arx.
Import ListNotations.
Local Open Scope Z_scope.

Definition BLAKE2B_BLOCKBYTES : nat := 128.
Definition BLAKE2B_OUTBYTES : nat := 64.
Definition BLAKE2B_KEYBYTES : nat := 64.

Definition blake2b_IV : list Z :=
  [0x6a09e667f3bcc908; 0xbb67ae8584caa73b; 0x3c6ef372fe94f82b; 0xa54ff53a5f1d36f1;
   0x510e527fade682d1; 0x9b05688c2b3e6c1f; 0x1f83d9abfb41bd6b; 0x5be0cd19137e2179].

Definition blake2b_sigma : list (list nat) :=
  [[0; 1; 2; 3; 4; 5; 6; 7; 8; 9; 10; 11; 12; 13; 14; 15];
   [14; 10; 4; 8; 9; 15; 13; 6; 1; 12; 0; 2; 11; 7; 5; 3];
   [11; 8; 12; 0; 5; 2; 15; 13; 10; 14; 3; 6; 7; 1; 9; 4];
   [7; 9; 3; 1; 13; 12; 11; 14; 2; 6; 5; 10; 4; 0; 15; 8];
   [9; 0; 5; 7; 2; 4; 10; 15; 14; 1; 11; 12; 6; 8; 3; 13];
   [2; 12; 6; 10; 0; 11; 8; 3; 4; 13; 7; 5; 15; 14; 1; 9];
   [12; 5; 1; 15; 14; 13; 4; 10; 0; 7; 6; 3; 9; 2; 8; 11];
   [13; 11; 7; 14; 12; 1; 3; 9; 5; 0; 15; 4; 8; 6; 2; 10];
   [6; 15; 14; 9; 11; 3; 0; 8; 12; 2; 13; 7; 1; 4; 10; 5];
   [10; 2; 8; 4; 7; 6; 1; 5; 15; 11; 9; 14; 3; 12; 13; 0];
   [0; 1; 2; 3; 4; 5; 6; 7; 8; 9; 10; 11; 12; 13; 14; 15];
   [14; 10; 4; 8; 9; 15; 13; 6; 1; 12; 0; 2; 11; 7; 5; 3]]%nat.

(** ** Words *)

(** The portable branches of blake2-impl.h. *)
Definition load64 (p : list Z) (i : nat) : Z :=
  Z.lor (Z.lor (Z.lor (Z.lor (Z.lor (Z.lor (Z.lor
    (Z.shiftl (lane p i) 0) (Z.shiftl (lane p (i + 1)) 8)) (Z.shiftl (lane p (i + 2)) 16))
    (Z.shiftl (lane p (i + 3)) 24)) (Z.shiftl (lane p (i + 4)) 32)) (Z.shiftl (lane p (i + 5)) 40))
    (Z.shiftl (lane p (i + 6)) 48)) (Z.shiftl (lane p (i + 7)) 56).

Definition store64 (w : Z) : list Z :=
  [w mod 256; Z.shiftr w 8 mod 256; Z.shiftr w 16 mod 256; Z.shiftr w 24 mod 256;
   Z.shiftr w 32 mod 256; Z.shiftr w 40 mod 256; Z.shiftr w 48 mod 256; Z.shiftr w 56 mod 256].

Definition store32 (w : Z) : list Z :=
  [w mod 256; Z.shiftr w 8 mod 256; Z.shiftr w 16 mod 256; Z.shiftr w 24 mod 256].

Definition rotr64 (w c : Z) : Z := Z.lor (Z.shiftr w c) (u64 (Z.shiftl w (64 - c))).

(** ** The context *)

Record blake2b_state : Type := mkstate {
  h : list Z; t0 : Z; t1 : Z; f0 : Z; f1 : Z; buf : list Z; buflen : nat; outlen : nat; last_node : Z
}.

Record blake2b_param : Type := mkparam {
  digest_length : Z; key_length : Z; fanout : Z; depth : Z; leaf_length : Z; node_offset : Z; xof_length : Z;
  node_depth : Z; inner_length : Z; reserved : list Z; salt : list Z; personal : list Z
}.

(** The packed structure in memory. *)
Definition param_bytes (P : blake2b_param) : list Z :=
  [digest_length P; key_length P; fanout P; depth P] ++ store32 (leaf_length P) ++ store32 (node_offset P) ++
  store32 (xof_length P) ++ [node_depth P; inner_length P] ++ reserved P ++ salt P ++ personal P.

Definition set_h (S : blake2b_state) (x : list Z) : blake2b_state :=
  mkstate x (t0 S) (t1 S) (f0 S) (f1 S) (buf S) (buflen S) (outlen S) (last_node S).
Definition set_buf (S : blake2b_state) (b : list Z) (n : nat) : blake2b_state :=
  mkstate (h S) (t0 S) (t1 S) (f0 S) (f1 S) b n (outlen S) (last_node S).

Definition blake2b_set_lastnode (S : blake2b_state) : blake2b_state :=
  mkstate (h S) (t0 S) (t1 S) (f0 S) (u64 (-1)) (buf S) (buflen S) (outlen S) (last_node S).

Definition blake2b_is_lastblock (S : blake2b_state) : bool := negb (f0 S =? 0).

Definition blake2b_set_lastblock (S : blake2b_state) : blake2b_state :=
  let S := if negb (last_node S =? 0) then blake2b_set_lastnode S else S in
  mkstate (h S) (t0 S) (t1 S) (u64 (-1)) (f1 S) (buf S) (buflen S) (outlen S) (last_node S).

Definition blake2b_increment_counter (S : blake2b_state) (inc : Z) : blake2b_state :=
  let t := u64 (t0 S + inc) in
  mkstate (h S) t (u64 (t1 S + (if t <? inc then 1 else 0))) (f0 S) (f1 S) (buf S) (buflen S) (outlen S) (last_node S).

Definition blake2b_init0 : blake2b_state := mkstate blake2b_IV 0 0 0 0 (repeat 0 128%nat) 0 0 0.

Definition blake2b_init_param (P : blake2b_param) : blake2b_state :=
  let p := param_bytes P in
  let x := fold_left (fun x i => <[i := Z.lxor (lane x i) (load64 p (8 * i))]> x) (seq 0 8) (h blake2b_init0) in
  let S := set_h blake2b_init0 x in
  mkstate (h S) (t0 S) (t1 S) (f0 S) (f1 S) (buf S) (buflen S) (Z.to_nat (digest_length P)) (last_node S).

Definition sequential_param (outlen keylen : nat) : blake2b_param :=
  mkparam (Z.of_nat outlen mod 256) (Z.of_nat keylen mod 256) 1 1 0 0 0 0 0 (repeat 0 14%nat) (repeat 0 16%nat)
    (repeat 0 16%nat).

(** [None] for the return value -1. *)
Definition blake2b_init (outlen : nat) : option blake2b_state :=
  if (outlen =? 0)%nat || (BLAKE2B_OUTBYTES <? outlen)%nat then None
  else Some (blake2b_init_param (sequential_param outlen 0)).

(** ** Compression *)

Definition sigma (r i : nat) : nat := nth i (nth r blake2b_sigma []) 0%nat.

(** The macro G; a, b, c, d are indices of v. *)
Definition G (m : list Z) (r i a b c d : nat) (v : list Z) : list Z :=
  let v := <[a := u64 (lane v a + lane v b + lane m (sigma r (2 * i + 0)))]> v in
  let v := <[d := rotr64 (Z.lxor (lane v d) (lane v a)) 32]> v in
  let v := <[c := u64 (lane v c + lane v d)]> v in
  let v := <[b := rotr64 (Z.lxor (lane v b) (lane v c)) 24]> v in
  let v := <[a := u64 (lane v a + lane v b + lane m (sigma r (2 * i + 1)))]> v in
  let v := <[d := rotr64 (Z.lxor (lane v d) (lane v a)) 16]> v in
  let v := <[c := u64 (lane v c + lane v d)]> v in
  <[b := rotr64 (Z.lxor (lane v b) (lane v c)) 63]> v.

Definition ROUND (m v : list Z) (r : nat) : list Z :=
  let v := G m r 0 0 4 8 12 v in
  let v := G m r 1 1 5 9 13 v in
  let v := G m r 2 2 6 10 14 v in
  let v := G m r 3 3 7 11 15 v in
  let v := G m r 4 0 5 10 15 v in
  let v := G m r 5 1 6 11 12 v in
  let v := G m r 6 2 7 8 13 v in
  G m r 7 3 4 9 14 v.

Definition blake2b_compress (S : blake2b_state) (block : list Z) : blake2b_state :=
  let m := map (fun i => load64 block (8 * i)) (seq 0 16) in
  let v := map (fun i => lane (h S) i) (seq 0 8) ++
    [lane blake2b_IV 0; lane blake2b_IV 1; lane blake2b_IV 2; lane blake2b_IV 3;
     Z.lxor (lane blake2b_IV 4) (t0 S); Z.lxor (lane blake2b_IV 5) (t1 S);
     Z.lxor (lane blake2b_IV 6) (f0 S); Z.lxor (lane blake2b_IV 7) (f1 S)] in
  let v := fold_left (ROUND m) [0; 1; 2; 3; 4; 5; 6; 7; 8; 9; 10; 11]%nat v in
  set_h S (fold_left (fun x i => <[i := Z.lxor (Z.lxor (lane x i) (lane v i)) (lane v (i + 8))]> x) (seq 0 8) (h S)).

(** ** Update and final *)

(** The loop on whole blocks; the fuel is the length of the input. *)
Fixpoint update_blocks (fuel : nat) (S : blake2b_state) (inp : list Z) : option (blake2b_state * list Z) :=
  if (BLAKE2B_BLOCKBYTES <? length inp)%nat then
    match fuel with
    | O => None
    | Datatypes.S fuel =>
        let S := blake2b_increment_counter S 128 in
        let S := blake2b_compress S (take BLAKE2B_BLOCKBYTES inp) in
        update_blocks fuel S (drop BLAKE2B_BLOCKBYTES inp)
    end
  else Some (S, inp).

Definition blake2b_update (S : blake2b_state) (inp : list Z) : option blake2b_state :=
  if (0 <? length inp)%nat then
    let left := buflen S in
    let fill := (BLAKE2B_BLOCKBYTES - left)%nat in
    let! (S, inp) :=
      if (fill <? length inp)%nat then
        let! b := memcpy (buf S) left (take fill inp) in
        let S := set_buf S b 0 in
        let S := blake2b_increment_counter S 128 in
        let S := blake2b_compress S (buf S) in
        update_blocks (length inp) S (drop fill inp)
      else Some (S, inp) in
    let! b := memcpy (buf S) (buflen S) inp in
    Some (set_buf S b (buflen S + length inp))
  else Some S.

(** The inner [None] is the return value -1, which leaves the context and the
    output; [out] is NULL or the content of the output buffer, [len] the argument
    outlen. *)
Definition blake2b_final (S : blake2b_state) (out : option (list Z)) (len : nat)
    : option (option (blake2b_state * list Z)) :=
  match out with
  | None => Some None
  | Some out =>
      if (len <? outlen S)%nat then Some None
      else if blake2b_is_lastblock S then Some None
      else
        let S := blake2b_increment_counter S (Z.of_nat (buflen S)) in
        let S := blake2b_set_lastblock S in
        let! b := memcpy (buf S) (buflen S) (repeat 0 (BLAKE2B_BLOCKBYTES - buflen S)%nat) in
        let S := set_buf S b (buflen S) in
        let S := blake2b_compress S (buf S) in
        let buffer := concat (map (fun i => store64 (lane (h S) i)) (seq 0 8)) in
        let! out := memcpy out 0 (take (outlen S) buffer) in
        Some (Some (S, out))
  end.

(** A pointer is NULL or what is behind it. *)
Definition is_null (p : option (list Z)) : bool := match p with None => true | Some _ => false end.

(** The [n] bytes a pointer reads, which may be NULL for [n] = 0. *)
Definition bytes_at (p : option (list Z)) (n : nat) : option (list Z) :=
  if (n =? 0)%nat then Some []
  else
    let! b := p in
    if (n <=? length b)%nat then Some (take n b) else None.

Definition blake2b_init_key (outlen : nat) (key : option (list Z)) (keylen : nat) : option (option blake2b_state) :=
  if (outlen =? 0)%nat || (BLAKE2B_OUTBYTES <? outlen)%nat then Some None
  else
    match key with
    | None => Some None
    | Some key =>
        if (keylen =? 0)%nat || (BLAKE2B_KEYBYTES <? keylen)%nat then Some None
        else
          let S := blake2b_init_param (sequential_param outlen keylen) in
          let! key := bytes_at (Some key) keylen in
          let! block := memcpy (repeat 0 BLAKE2B_BLOCKBYTES) 0 key in
          let! S := blake2b_update S block in
          Some (Some S)
    end.

(** The inner [None] is the return value -1; the result is the output buffer. *)
Definition blake2b (out : option (list Z)) (outlen : nat) (inp : option (list Z)) (inlen : nat)
    (key : option (list Z)) (keylen : nat) : option (option (list Z)) :=
  if is_null inp && (0 <? inlen)%nat then Some None
  else
    match out with
    | None => Some None
    | Some dst =>
        if is_null key && (0 <? keylen)%nat then Some None
        else if (outlen =? 0)%nat || (BLAKE2B_OUTBYTES <? outlen)%nat then Some None
        else if (BLAKE2B_KEYBYTES <? keylen)%nat then Some None
        else
          let! st := if (0 <? keylen)%nat then blake2b_init_key outlen key keylen else Some (blake2b_init outlen) in
          match st with
          | None => Some None
          | Some st =>
              let! data := bytes_at inp inlen in
              let! st := blake2b_update st data in
              let! r := blake2b_final st (Some dst) outlen in
              Some (Some (match r with Some (_, dst) => dst | None => dst end))
          end
    end.

(** blake2.h. *)
Definition BLAKE2B_512 (ret data : list Z) : option (list Z) :=
  let! r := blake2b (Some ret) 64 (Some data) (length data) None 0 in
  r.

(** ** RFC 7693 *)

Definition mix64 (a b c d x y : Z) : Z * Z * Z * Z :=
  let a := (a + b + x) mod 2 ^ 64 in
  let d := rotr64 (Z.lxor d a) 32 in
  let c := (c + d) mod 2 ^ 64 in
  let b := rotr64 (Z.lxor b c) 24 in
  let a := (a + b + y) mod 2 ^ 64 in
  let d := rotr64 (Z.lxor d a) 16 in
  let c := (c + d) mod 2 ^ 64 in
  let b := rotr64 (Z.lxor b c) 63 in
  (a, b, c, d).

(** The word order of round r is row r mod 10 of sigma. *)
Definition sigma_round (m v : list Z) (r : nat) : list Z :=
  arx_round mix64 v (map (fun k => lane m (sigma (r mod 10) k)) (seq 0 16)).

(** The compression function F(h, m, t, f), of twelve rounds. *)
Definition blake2b_F (x block : list Z) (t : Z) (last : bool) : list Z :=
  let m := map (word block) (seq 0 16) in
  let v := x ++ xor_bytes blake2b_IV
    [0; 0; 0; 0; t mod 2 ^ 64; (t / 2 ^ 64) mod 2 ^ 64; if last then 2 ^ 64 - 1 else 0] in
  let v := fold_left (sigma_round m) (seq 0 12) v in
  xor_bytes (xor_bytes x (take 8 v)) (drop 8 v).

Definition pad_zeros (n : nat) (b : list Z) : list Z := b ++ repeat 0 (n - length b)%nat.

(** The chain over the blocks before the last. *)
Definition blake2b_chain (x : list Z) (blocks : list (list Z)) : list Z :=
  fst (fold_left (fun '(x, t) b => let t := t + 128 in (blake2b_F x b t false, t)) blocks (x, 0)).

(** The hash of [nn] bytes; a key makes the first block. *)
Definition blake2b_spec (nn : nat) (key data : list Z) : list Z :=
  let d := match key with [] => [] | _ => pad_zeros 128 key end ++ data in
  let x := <[0%nat := Z.lxor (lane blake2b_IV 0) (0x01010000 + 256 * Z.of_nat (length key) + Z.of_nat nn)]> blake2b_IV in
  let x := blake2b_chain x (lblocks 128 d) in
  let x := blake2b_F x (pad_zeros 128 (lrest 128 d)) (Z.of_nat (length d)) true in
  take nn (concat (map (le_bytes 8) x)).

(** ** Words *)

Lemma store64_le w : store64 w = le_bytes 8 w.
Proof. unfold store64. rewrite !Z.shiftr_div_pow2 by lia. unfold le_bytes. cbn [seq map]. now rewrite Z.div_1_r. Qed.

Lemma load64_word p i : Forall is_byte p -> (8 * i + 8 <= length p)%nat -> load64 p (8 * i) = word p i.
Proof.
  intros F L. unfold load64, word. rewrite take_lanes by exact L. cbn [seq map]. rewrite Nat.add_0_r. set (k := (8 * i)%nat).
  pose proof (fun j => lane_byte p j F) as B. unfold is_byte in B.
  pose proof (B k). pose proof (B (k + 1)%nat). pose proof (B (k + 2)%nat). pose proof (B (k + 3)%nat).
  pose proof (B (k + 4)%nat). pose proof (B (k + 5)%nat). pose proof (B (k + 6)%nat). pose proof (B (k + 7)%nat). clear B.
  rewrite Z.shiftl_0_r. rewrite (lor_byte _ _ 8), (lor_byte _ _ 16), (lor_byte _ _ 24), (lor_byte _ _ 32), (lor_byte _ _ 40), (lor_byte _ _ 48),
    (lor_byte _ _ 56) by lia. cbn [le_val]. lia.
Qed.

(** ** Compression *)

Lemma G_mix m r i a b c d v : NoDup [a; b; c; d] -> Forall (gt (length v)) [a; b; c; d] ->
  G m r i a b c d v = mix_at mix64 (lane m (sigma r (2 * i + 0))) (lane m (sigma r (2 * i + 1))) a b c d v.
Proof.
  intros D R. unfold mix_at. generalize (put4_lanes v a b c d D R).
  generalize (lane v a), (lane v b), (lane v c), (lane v d). intros xa xb xc xd E. rewrite <- E at 1. clear E.
  unfold G, mix64. generalize (lane m (sigma r (2 * i + 0))), (lane m (sigma r (2 * i + 1))). intros x y.
  put4_steps.
Qed.

Lemma G_length m r i a b c d v : length (G m r i a b c d v) = length v.
Proof. unfold G. cbv zeta. now rewrite !length_insert. Qed.

Lemma ROUND_ok m v r : length v = 16%nat ->
  ROUND m v r = arx_round mix64 v (map (fun k => lane m (sigma r k)) (seq 0 16)).
Proof.
  intros V. rewrite <- unrolled_round_ok by (assumption || reflexivity). unfold ROUND.
  rewrite !G_mix by (rewrite ?G_length, ?V; quad_ok).
  unfold unrolled_diagonals, unrolled_columns. rewrite !lane_map_seq by lia. reflexivity.
Qed.

Lemma sigma_mod r k : (r < 12)%nat -> sigma r k = sigma (r mod 10) k.
Proof. intros R. do 12 (destruct r as [|r]; [reflexivity|]). lia. Qed.

Lemma sigma_round_ok m v r : (r < 12)%nat -> length v = 16%nat -> ROUND m v r = sigma_round m v r.
Proof.
  intros R V. rewrite ROUND_ok by exact V. unfold sigma_round. f_equal. apply map_ext. intros k.
  now rewrite sigma_mod.
Qed.

Lemma rounds_ok m v : length v = 16%nat ->
  fold_left (ROUND m) (seq 0 12) v = fold_left (sigma_round m) (seq 0 12) v /\
  length (fold_left (ROUND m) (seq 0 12) v) = 16%nat.
Proof.
  apply (fold_left_ext_inv (fun v => length v = 16%nat)). intros u r I U. apply in_seq in I.
  split; [apply sigma_round_ok; [lia | exact U] | apply arx_round_length].
Qed.

Lemma blake2b_F_length x block t (last : bool) : length x = 8%nat -> length (blake2b_F x block t last) = 8%nat.
Proof. intros L. unfold blake2b_F. now rewrite !length_xor_bytes. Qed.

Lemma blake2b_compress_ok S block t (last : bool) : length (h S) = 8%nat -> length block = 128%nat -> Forall is_byte block ->
  t0 S = t mod 2 ^ 64 -> t1 S = (t / 2 ^ 64) mod 2 ^ 64 -> f0 S = (if last then 2 ^ 64 - 1 else 0) -> f1 S = 0 ->
  blake2b_compress S block = set_h S (blake2b_F (h S) block t last).
Proof.
  intros H B F T0 T1 F0 F1. unfold blake2b_compress, blake2b_F. f_equal. rewrite T0, T1, F0, F1, (lanes_id 8) by exact H.
  rewrite (map_ext_in (fun i => load64 block (8 * i)) (word block))
    by (intros i I; apply in_seq in I; apply load64_word; [exact F | lia]).
  set (m := map (word block) (seq 0 16)).
  set (u := h S ++ xor_bytes blake2b_IV _).
  match goal with |- context [fold_left (ROUND m) _ ?w] => change w with u end.
  assert (U : length u = 16%nat) by (unfold u; rewrite length_app, H, length_xor_bytes; reflexivity).
  change [0; 1; 2; 3; 4; 5; 6; 7; 8; 9; 10; 11]%nat with (seq 0 12).
  destruct (rounds_ok m u U) as [<- L]. set (v := fold_left (ROUND m) (seq 0 12) u) in *.
  clearbody v. clear - H L. set (x := h S) in *. clearbody x.
  do 8 (destruct x as [|? x]; [discriminate H|]). destruct x; [|discriminate H]. words16 v L. reflexivity.
Qed.

(** ** The invariant of the context *)

Definition ctr (S : blake2b_state) (t : Z) : Prop := t0 S = t mod 2 ^ 64 /\ t1 S = (t / 2 ^ 64) mod 2 ^ 64.

Lemma blake2b_increment_counter_ok S t inc : 0 <= t -> 0 <= inc < 2 ^ 64 -> ctr S t ->
  ctr (blake2b_increment_counter S inc) (t + inc).
Proof.
  intros T I [E0 E1]. unfold ctr, blake2b_increment_counter. cbn [t0 t1]. rewrite E0, E1. rewrite !u64_mod.
  rewrite Zplus_mod_idemp_l. split; [reflexivity|].
  set (M := 2 ^ 64) in *. assert (P : 0 < M) by reflexivity.
  pose proof (Z.mod_pos_bound t M P) as B. pose proof (Z.div_mod t M ltac:(lia)) as D.
  assert (C : (t + inc) / M = t / M + (if (t + inc) mod M <? inc then 1 else 0)).
  { symmetry. destruct (Z.lt_ge_cases (t mod M + inc) M) as [L|L].
    - assert (Em : (t + inc) mod M = t mod M + inc) by (symmetry; apply (Zmod_unique_full _ _ (t / M)); [left; lia | lia]).
      rewrite Em, (proj2 (Z.ltb_ge _ _)) by lia. apply (Z.div_unique_pos _ _ _ (t mod M + inc)); lia.
    - assert (Em : (t + inc) mod M = t mod M + inc - M)
        by (symmetry; apply (Zmod_unique_full _ _ (t / M + 1)); [left; lia | lia]).
      rewrite Em, (proj2 (Z.ltb_lt _ _)) by lia. apply (Z.div_unique_pos _ _ _ (t mod M + inc - M)); lia. }
  rewrite C, Zplus_mod_idemp_l. reflexivity.
Qed.

Lemma blake2b_chain_app x bs b :
  blake2b_chain x (bs ++ [b]) = blake2b_F (blake2b_chain x bs) b (128 * Z.of_nat (length bs) + 128) false.
Proof.
  unfold blake2b_chain. rewrite fold_left_app. cbn [fold_left].
  assert (T : forall x t, snd (fold_left (fun '(x, t) b => let t := t + 128 in (blake2b_F x b t false, t)) bs (x, t)) =
                          t + 128 * Z.of_nat (length bs)).
  { induction bs as [|c bs IH]; intros y t; cbn [fold_left length snd]; [lia | rewrite IH; lia]. }
  specialize (T x 0). destruct (fold_left _ bs (x, 0)) as [y t]. cbn [snd fst] in *. rewrite T. f_equal.
Qed.

Lemma blake2b_chain_length x bs : length x = 8%nat -> length (blake2b_chain x bs) = 8%nat.
Proof.
  intros X. induction bs as [|b bs IH] using rev_ind; [exact X|]. rewrite blake2b_chain_app. now apply blake2b_F_length.
Qed.

(** The blocks compressed so far, from the chaining value [x]. *)
Definition chained (x : list Z) (bs : list (list Z)) (S : blake2b_state) : Prop :=
  h S = blake2b_chain x bs /\ ctr S (128 * Z.of_nat (length bs)) /\ f0 S = 0 /\ f1 S = 0.

(** What compression leaves alone. *)
Definition same_buffer (S S' : blake2b_state) : Prop :=
  buf S' = buf S /\ buflen S' = buflen S /\ outlen S' = outlen S /\ last_node S' = last_node S.

Lemma compress_chained x bs S b : length x = 8%nat -> length b = 128%nat -> Forall is_byte b -> chained x bs S ->
  let S' := blake2b_compress (blake2b_increment_counter S 128) b in chained x (bs ++ [b]) S' /\ same_buffer S S'.
Proof.
  intros X B F (H & C & F0 & F1). cbv zeta.
  apply (blake2b_increment_counter_ok _ _ 128) in C; [|lia..].
  set (S1 := blake2b_increment_counter S 128) in *.
  rewrite (blake2b_compress_ok S1 b (128 * Z.of_nat (length bs) + 128) false);
    try assumption; try apply C; [|change (h S1) with (h S); rewrite H; now apply blake2b_chain_length].
  split; [|repeat split]. unfold chained. rewrite blake2b_chain_app, <- H, length_app. cbn [length].
  replace (128 * Z.of_nat (length bs + 1)) with (128 * Z.of_nat (length bs) + 128) by lia. auto.
Qed.

Lemma update_blocks_ok x inp : length x = 8%nat -> Forall is_byte inp -> forall fuel bs S,
  (length inp <= fuel)%nat -> chained x bs S ->
  exists S', update_blocks fuel S inp = Some (S', lrest 128 inp) /\ chained x (bs ++ lblocks 128 inp) S' /\ same_buffer S S'.
Proof.
  intros X. induction inp as [inp L | inp L IH] using (lazy_ind 128 ltac:(lia)); intros F fuel bs S Fu C.
  - destruct (lazy_short 128 ltac:(lia) inp L) as [-> ->]. rewrite app_nil_r. exists S.
    split; [|split; [exact C | repeat split]].
    destruct fuel; cbn [update_blocks]; unfold BLAKE2B_BLOCKBYTES; now rewrite (proj2 (Nat.ltb_ge _ _)) by lia.
  - destruct (lazy_step 128 ltac:(lia) inp L) as [-> ->]. destruct fuel as [|fuel]; [lia|]. cbn [update_blocks].
    unfold BLAKE2B_BLOCKBYTES. rewrite (proj2 (Nat.ltb_lt _ _)) by lia.
    destruct (compress_chained x bs S (take 128 inp) X) as [C' Sb]; [rewrite length_take; lia | now apply Forall_take | exact C|].
    destruct (IH (Forall_drop _ _ _ F) fuel _ _ ltac:(rewrite length_drop; lia) C') as (S' & -> & C2 & Sb').
    exists S'. split; [reflexivity|]. rewrite <- app_assoc in C2. split; [exact C2|].
    unfold same_buffer in *. intuition congruence.
Qed.

(** The context has absorbed the bytes [d]. *)
Definition absorbed2b (x : list Z) (d : list Z) (S : blake2b_state) : Prop :=
  chained x (lblocks 128 d) S /\ last_node S = 0 /\ length (buf S) = 128%nat /\ Forall is_byte (buf S) /\ Forall is_byte d /\
  buflen S = length (lrest 128 d) /\ take (buflen S) (buf S) = lrest 128 d.

(** Input that does not fit the buffer: the buffer is filled and compressed, then
    the whole blocks of the input. *)
Lemma update_flush x d S inp : length x = 8%nat -> Forall is_byte inp -> absorbed2b x d S ->
  (128 - buflen S < length inp)%nat ->
  let fill := (128 - buflen S)%nat in
  exists b S', memcpy (buf S) (buflen S) (take fill inp) = Some b /\
    update_blocks (length inp) (blake2b_compress (blake2b_increment_counter (set_buf S b 0) 128) b) (drop fill inp) =
      Some (S', lrest 128 (d ++ inp)) /\
    chained x (lblocks 128 (d ++ inp)) S' /\ same_buffer (set_buf S b 0) S' /\ length b = 128%nat /\ Forall is_byte b.
Proof.
  intros X F (C & LN & Lb & Fb & Fd & Ll & Tk) Fi. cbv zeta. set (left := buflen S) in *. set (fill := (128 - left)%nat) in *.
  destruct (lazy_rest_bound 128 ltac:(lia) d) as [Lr _]. destruct (lazy_app 128 ltac:(lia) d inp) as [EB ER].
  destruct (memcpy_spec (buf S) left (take fill inp)) as (b & M & Lb1 & A & Fb1); [rewrite length_take; lia|].
  rewrite Lb in Lb1. rewrite take_ge, Tk in A by (rewrite length_take; lia).
  specialize (Fb1 is_byte Fb (Forall_take _ _ _ F)).
  destruct (compress_chained x (lblocks 128 d) (set_buf S b 0) b X Lb1 Fb1 C) as [C1 B1].
  destruct (update_blocks_ok x (drop fill inp) X (Forall_drop _ _ _ F) (length inp) _ _ ltac:(rewrite length_drop; lia) C1)
    as (S2 & U & C2 & B2).
  assert (Sp : lrest 128 d ++ inp = b ++ drop fill inp) by (rewrite A, <- app_assoc; now rewrite take_drop).
  destruct (lazy_full 128 ltac:(lia) b (drop fill inp) Lb1) as [FB FR].
  { intros E. apply (f_equal (@length Z)) in E. rewrite length_drop in E. cbn in E. lia. }
  rewrite <- Sp in FB, FR. rewrite <- app_assoc in C2. rewrite EB, ER, FB, FR. exists b, S2.
  unfold same_buffer in *. intuition congruence.
Qed.

Lemma blake2b_update_ok x d S inp : length x = 8%nat -> Forall is_byte inp -> absorbed2b x d S ->
  exists S', blake2b_update S inp = Some S' /\ absorbed2b x (d ++ inp) S' /\ outlen S' = outlen S.
Proof.
  intros X F A. pose proof A as (C & LN & Lb & Fb & Fd & Ll & Tk). unfold blake2b_update, BLAKE2B_BLOCKBYTES.
  destruct (Nat.ltb_spec 0 (length inp)) as [P|P].
  2:{ exists S. destruct inp; [|cbn in P; lia]. rewrite app_nil_r. auto. }
  destruct (Nat.ltb_spec (128 - buflen S) (length inp)) as [Fi|Fi].
  - destruct (update_flush x d S inp X F A Fi) as (b & S2 & M & U & C2 & (B2 & N2 & O2 & L2) & Lb1 & Fb1).
    rewrite M. cbn [bind]. change (buf (blake2b_increment_counter (set_buf S b 0) 128)) with b. rewrite U. cbn [bind].
    destruct (lazy_rest_bound 128 ltac:(lia) (d ++ inp)) as [Lr _].
    rewrite N2, B2. cbn [buflen buf set_buf].
    destruct (memcpy_spec b 0 (lrest 128 (d ++ inp))) as (b2 & M2 & Lb2 & T2 & Fb2); [cbn; lia|].
    rewrite M2. cbn [bind]. eexists. split; [reflexivity|]. split; [|exact O2].
    assert (Fdi : Forall is_byte (d ++ inp)) by now apply Forall_app.
    split; [exact C2|]. split; [cbn in *; congruence|]. split; [cbn; congruence|].
    split; [apply Fb2; [exact Fb1 | now apply (lazy_Forall 128 ltac:(lia))]|].
    split; [exact Fdi|]. split; [reflexivity | exact T2].
  - destruct (lazy_rest_bound 128 ltac:(lia) d) as [Lr _]. destruct (lazy_app 128 ltac:(lia) d inp) as [EB ER].
    destruct (lazy_short 128 ltac:(lia) (lrest 128 d ++ inp)) as [SB SR]; [rewrite length_app; lia|].
    rewrite SB, app_nil_r in EB. rewrite SR in ER. cbn [bind].
    destruct (memcpy_spec (buf S) (buflen S) inp) as (b & M & Lb1 & T1 & Fb1); [lia|].
    rewrite M. cbn [bind]. eexists. split; [reflexivity|]. split; [|reflexivity].
    unfold absorbed2b. rewrite EB, ER, length_app. cbn [set_buf buf buflen last_node]. rewrite <- Ll, T1, Tk, Lb1.
    rewrite Forall_app. auto 12.
Qed.

(** ** Initialisation and final block *)

(** The first chaining value of [nn] bytes of output and a key of [kk] bytes. *)
Definition h0 (nn kk : nat) : list Z :=
  <[0%nat := Z.lxor (lane blake2b_IV 0) (0x01010000 + 256 * Z.of_nat kk + Z.of_nat nn)]> blake2b_IV.

Lemma h0_length nn kk : length (h0 nn kk) = 8%nat.
Proof. apply length_insert. Qed.

Lemma init_param_h nn kk : (nn < 256)%nat -> (kk < 256)%nat -> h (blake2b_init_param (sequential_param nn kk)) = h0 nn kk.
Proof.
  intros N K. unfold blake2b_init_param. cbn [h set_h]. set (p := param_bytes _).
  assert (E0 : load64 p 0 = 0x01010000 + 256 * Z.of_nat kk + Z.of_nat nn).
  { rewrite (load64_word p 0 : _ -> _ -> load64 p 0 = _).
    - unfold word, p, param_bytes, sequential_param. cbn [digest_length key_length]. rewrite !Z.mod_small by lia.
      change (le_val [Z.of_nat nn; Z.of_nat kk; 1; 1; 0; 0; 0; 0] = 0x01010000 + 256 * Z.of_nat kk + Z.of_nat nn).
      cbn [le_val]. lia.
    - unfold p, param_bytes, sequential_param. cbn [digest_length key_length].
      repeat first [apply Forall_cons; split | apply Forall_nil_2 | apply Forall_app; split | apply zeros_byte];
        unfold is_byte; cbn [fanout depth node_depth inner_length]; try (apply Z.mod_pos_bound); lia.
    - cbn. lia. }
  cbn [fold_left seq]. rewrite !Nat.mul_0_r, E0. unfold h0.
  repeat match goal with |- context [load64 p ?i] => replace (load64 p i) with 0 by reflexivity end.
  rewrite !Z.lxor_0_r. reflexivity.
Qed.

Lemma init_absorbed nn kk : (nn < 256)%nat -> (kk < 256)%nat ->
  let S := blake2b_init_param (sequential_param nn kk) in absorbed2b (h0 nn kk) [] S /\ outlen S = nn.
Proof.
  intros N K. cbv zeta. split.
  - unfold absorbed2b, chained. rewrite init_param_h by assumption. repeat split; try apply zeros_byte. constructor.
  - unfold blake2b_init_param. cbn [outlen digest_length sequential_param]. rewrite Z.mod_small by lia. apply Nat2Z.id.
Qed.

Lemma store64_h x : length x = 8%nat -> concat (map (fun i => store64 (lane x i)) (seq 0 8)) = concat (map (le_bytes 8) x).
Proof.
  intros X. f_equal. transitivity (map (le_bytes 8) (map (lane x) (seq 0 8))); [|now rewrite (lanes_id 8 x X)].
  rewrite map_map. apply map_ext. intros i. apply store64_le.
Qed.

(** The digest of the bytes [d]. *)
Definition digest (x : list Z) (nn : nat) (d : list Z) : list Z :=
  let x := blake2b_chain x (lblocks 128 d) in
  take nn (concat (map (le_bytes 8) (blake2b_F x (pad_zeros 128 (lrest 128 d)) (Z.of_nat (length d)) true))).

Lemma length_words x : length (concat (map (le_bytes 8) x)) = (8 * length x)%nat.
Proof.
  induction x as [|w x IH]; [reflexivity|]. cbn [map concat length]. rewrite length_app, length_le_bytes, IH. lia.
Qed.

Lemma digest_length2b x nn d : length x = 8%nat -> (nn <= 64)%nat -> length (digest x nn d) = nn.
Proof.
  intros X N. unfold digest. rewrite length_take, length_words, blake2b_F_length by now apply blake2b_chain_length. lia.
Qed.

Lemma blake2b_final_ok x d S out len : length x = 8%nat -> absorbed2b x d S -> (outlen S <= 64)%nat ->
  (outlen S <= len)%nat -> (outlen S <= length out)%nat ->
  exists S', blake2b_final S (Some out) len = Some (Some (S', digest x (outlen S) d ++ drop (outlen S) out)) /\
    outlen S' = outlen S /\ blake2b_is_lastblock S' = true.
Proof.
  intros X ((H & C & F0 & F1) & LN & Lb & Fb & Fd & Ll & Tk) O6 Ol Oo.
  destruct (lazy_rest_bound 128 ltac:(lia) d) as [Lr _]. pose proof (lazy_count 128 ltac:(lia) d) as Ct.
  unfold blake2b_final, blake2b_is_lastblock, BLAKE2B_BLOCKBYTES. rewrite F0, (proj2 (Nat.ltb_ge _ _)) by lia. cbn [Z.eqb negb].
  apply (blake2b_increment_counter_ok _ _ (Z.of_nat (buflen S))) in C; [|lia..].
  unfold blake2b_set_lastblock. cbn [blake2b_increment_counter last_node]. rewrite LN. cbn [Z.eqb negb].
  set (S1 := mkstate _ _ _ _ _ _ _ _ _). cbn [blake2b_increment_counter buf buflen] in S1.
  change (buf S1) with (buf S). change (buflen S1) with (buflen S).
  destruct (memcpy_spec (buf S) (buflen S) (repeat 0 (128 - buflen S)%nat)) as (b & M & Lb1 & T1 & Fb1);
    [rewrite repeat_length; lia|].
  rewrite M. cbn [bind].
  assert (Eb : b = pad_zeros 128 (lrest 128 d)).
  { rewrite take_ge, Tk in T1 by (rewrite repeat_length; lia). unfold pad_zeros. now rewrite <- Ll. }
  rewrite (blake2b_compress_ok (set_buf S1 b (buflen S)) (buf (set_buf S1 b (buflen S))) (Z.of_nat (length d)) true).
  - cbn [set_buf set_h h outlen buf S1 blake2b_increment_counter].
    rewrite store64_h by (apply blake2b_F_length; rewrite H; now apply blake2b_chain_length).
    rewrite H, Eb. change (take (outlen S) _) with (digest x (outlen S) d).
    rewrite memcpy_0 by (rewrite digest_length2b by assumption; lia). rewrite digest_length2b by assumption.
    cbn [bind]. eexists. split; [reflexivity|]. split; reflexivity.
  - cbn [set_buf h S1 blake2b_increment_counter]. rewrite H. now apply blake2b_chain_length.
  - cbn [set_buf buf]. lia.
  - apply Fb1; [exact Fb | apply zeros_byte].
  - rewrite Ct, Nat2Z.inj_add, Nat2Z.inj_mul, <- Ll. apply C.
  - rewrite Ct, Nat2Z.inj_add, Nat2Z.inj_mul, <- Ll. apply C.
  - reflexivity.
  - exact F1.
Qed.

(** ** Keys and sequences of updates *)

(** The key block of a key, none for no key. *)
Definition key_block (key : list Z) : list Z := match key with [] => [] | _ => pad_zeros 128 key end.

Lemma blake2b_spec_digest nn key data : blake2b_spec nn key data = digest (h0 nn (length key)) nn (key_block key ++ data).
Proof. reflexivity. Qed.

Lemma init_key_absorbed nn key keylen : (0 < nn <= 64)%nat -> (0 < keylen <= 64)%nat -> (keylen <= length key)%nat ->
  Forall is_byte key ->
  exists S, blake2b_init_key nn (Some key) keylen = Some (Some S) /\
    absorbed2b (h0 nn keylen) (key_block (take keylen key)) S /\ outlen S = nn.
Proof.
  intros N K L F. unfold blake2b_init_key, BLAKE2B_OUTBYTES, BLAKE2B_KEYBYTES, bytes_at.
  rewrite (proj2 (Nat.eqb_neq nn 0)), (proj2 (Nat.eqb_neq keylen 0)), !(proj2 (Nat.ltb_ge _ _)) by lia. cbn [orb bind].
  rewrite (proj2 (Nat.leb_le _ _)) by lia. cbn [bind].
  rewrite memcpy_0 by (rewrite repeat_length, length_take; unfold BLAKE2B_BLOCKBYTES; lia). cbn [bind].
  destruct (init_absorbed nn keylen ltac:(lia) ltac:(lia)) as [A O].
  assert (E : take keylen key ++ drop (length (take keylen key)) (repeat 0 BLAKE2B_BLOCKBYTES) = key_block (take keylen key)).
  { rewrite drop_repeat. unfold key_block, pad_zeros. destruct (take keylen key) eqn:T; [|reflexivity].
    apply (f_equal (@length Z)) in T. rewrite length_take in T. cbn in T. lia. }
  rewrite E. assert (Fk : Forall is_byte (key_block (take keylen key))).
  { rewrite <- E. apply Forall_app. split; [now apply Forall_take | apply Forall_drop, zeros_byte]. }
  destruct (blake2b_update_ok _ [] _ _ (h0_length nn keylen) Fk A) as (S & -> & A' & O'). cbn [bind].
  exists S. split; [reflexivity|]. split; [exact A' | congruence].
Qed.

Lemma updates_absorbed x chunks : length x = 8%nat -> Forall (Forall is_byte) chunks -> forall d S, absorbed2b x d S ->
  exists S', foldM blake2b_update S chunks = Some S' /\ absorbed2b x (d ++ concat chunks) S' /\ outlen S' = outlen S.
Proof.
  intros X F. induction F as [|c chunks Fc F IH]; intros d S A; cbn [foldM concat].
  - exists S. rewrite app_nil_r. auto.
  - destruct (blake2b_update_ok x d S c X Fc A) as (S1 & -> & A1 & O1). cbn [bind].
    destruct (IH _ _ A1) as (S2 & -> & A2 & O2). exists S2. rewrite app_assoc. split; [reflexivity|]. split; [exact A2 | congruence].
Qed.

(** The start of a hash, with a key or without. *)
Definition blake2b_start (nn : nat) (key : list Z) : option (option blake2b_state) :=
  match key with
  | [] => Some (blake2b_init nn)
  | _ => blake2b_init_key nn (Some key) (length key)
  end.

Lemma start_absorbed nn key : (0 < nn <= 64)%nat -> (length key <= 64)%nat -> Forall is_byte key ->
  exists S, blake2b_start nn key = Some (Some S) /\ absorbed2b (h0 nn (length key)) (key_block key) S /\ outlen S = nn.
Proof.
  intros N K F. unfold blake2b_start. destruct key as [|k key].
  - unfold blake2b_init, BLAKE2B_OUTBYTES. rewrite (proj2 (Nat.eqb_neq nn 0)), (proj2 (Nat.ltb_ge _ _)) by lia. cbn [orb].
    eexists. split; [reflexivity|]. apply init_absorbed; cbn [length]; lia.
  - destruct (init_key_absorbed nn (k :: key) (length (k :: key)) N) as (S & E & A & O); [cbn [length] in *; lia | lia | exact F|].
    rewrite firstn_all in A. eauto.
Qed.

(** ** Properties *)

(** C11.  The streaming interface computes BLAKE2b: for every output length up to 64,
    key up to 64 bytes and way to cut a message into updates, the calls succeed,
    blake2b_final writes the hash of RFC 7693 to the front of the output buffer, and
    a second blake2b_final returns -1. *)
Theorem blake2b_streaming nn key chunks out len : (0 < nn <= 64)%nat -> (length key <= 64)%nat -> Forall is_byte key ->
  Forall (Forall is_byte) chunks -> (nn <= len)%nat -> (nn <= length out)%nat ->
  exists S S' S'', blake2b_start nn key = Some (Some S) /\ foldM blake2b_update S chunks = Some S' /\
    blake2b_final S' (Some out) len = Some (Some (S'', blake2b_spec nn key (concat chunks) ++ drop nn out)) /\
    blake2b_final S'' (Some out) len = Some None.
Proof.
  intros N K Fk Fc Ln Lo. destruct (start_absorbed nn key N K Fk) as (S & E & A & O).
  destruct (updates_absorbed _ chunks (h0_length nn (length key)) Fc _ _ A) as (S' & U & A' & O').
  rewrite O in O'. destruct (blake2b_final_ok _ _ S' out len (h0_length nn (length key)) A') as (S'' & Fi & O'' & B); try lia.
  exists S, S', S''. rewrite O' in Fi. rewrite blake2b_spec_digest. split; [exact E|]. split; [exact U|]. split; [exact Fi|].
  unfold blake2b_final. rewrite B. now destruct (_ <? _)%nat.
Qed.

Lemma abc_digest : take 8 (blake2b_spec 64 [] [97; 98; 99]) = [186; 128; 165; 63; 152; 28; 77; 13].
Proof. vm_compute. reflexivity. Qed.

Lemma blake2b_streaming_witness :
  exists S S' S'' out, blake2b_start 64 [] = Some (Some S) /\ foldM blake2b_update S [[97]; []; [98; 99]] = Some S' /\
    blake2b_final S' (Some (repeat 0 64%nat)) 64 = Some (Some (S'', out)) /\
    take 8 out = [186; 128; 165; 63; 152; 28; 77; 13].
Proof.
  destruct (blake2b_streaming 64 [] [[97]; []; [98; 99]] (repeat 0 64%nat) 64) as (S & S' & S'' & E & U & F & _);
    [lia | cbn; lia | constructor | repeat constructor; unfold is_byte; lia | lia | rewrite repeat_length; lia |].
  exists S, S', S''. eexists. split; [exact E|]. split; [exact U|]. split; [exact F|].
  rewrite take_app_le by (rewrite blake2b_spec_digest, digest_length2b by (apply h0_length || lia); lia). exact abc_digest.
Defined.

(** [n] bytes can be read behind a pointer that is not NULL. *)
Definition readable (p : option (list Z)) (n : nat) : Prop :=
  match p with Some b => (n <= length b)%nat /\ Forall is_byte b | None => True end.

Lemma bytes_at_readable p n : readable p n -> (p = None -> n = 0%nat) ->
  bytes_at p n = Some (take n (default [] p)) /\ Forall is_byte (take n (default [] p)).
Proof.
  intros R N. unfold bytes_at. destruct p as [b|]; cbn [default] in *.
  - destruct R as [L F]. split; [|now apply Forall_take]. cbn [bind]. destruct n; [reflexivity|]. cbn [Nat.eqb].
    now rewrite (proj2 (Nat.leb_le _ _)) by exact L.
  - rewrite N by reflexivity. split; [reflexivity | constructor].
Qed.

(** The start of blake2b. *)
Lemma start_key_absorbed nn key keylen : (0 < nn <= 64)%nat -> (keylen <= 64)%nat -> readable key keylen ->
  (key = None -> keylen = 0%nat) ->
  exists S, (if (0 <? keylen)%nat then blake2b_init_key nn key keylen else Some (blake2b_init nn)) = Some (Some S) /\
    absorbed2b (h0 nn (length (take keylen (default [] key)))) (key_block (take keylen (default [] key))) S /\ outlen S = nn.
Proof.
  intros N K R Z0. destruct (Nat.ltb_spec 0 keylen) as [P|P].
  - destruct key as [key|]; [|specialize (Z0 eq_refl); lia]. destruct R as [L F]. cbn [default id].
    rewrite length_take, Nat.min_l by exact L. apply init_key_absorbed; (exact F || lia).
  - replace keylen with 0%nat by lia. change (take 0 (default [] key)) with (@nil Z).
    exact (start_absorbed nn [] N ltac:(cbn; lia) (List.Forall_nil _)).
Qed.

(** The arguments blake2b refuses. *)
Definition refused (out : option (list Z)) (outlen : nat) (inp : option (list Z)) (inlen : nat) (key : option (list Z))
    (keylen : nat) : bool :=
  (is_null inp && (0 <? inlen)%nat) || is_null out || (is_null key && (0 <? keylen)%nat) ||
  (outlen =? 0)%nat || (64 <? outlen)%nat || (64 <? keylen)%nat.

(** The arguments it accepts. *)
Lemma blake2b_accepted dst olen inp inlen key keylen :
  readable inp inlen -> readable key keylen -> (olen <= length dst)%nat ->
  refused (Some dst) olen inp inlen key keylen = false ->
  blake2b (Some dst) olen inp inlen key keylen =
  Some (Some (blake2b_spec olen (take keylen (default [] key)) (take inlen (default [] inp)) ++ drop olen dst)).
Proof.
  intros Ri Rk Lo R. unfold blake2b, BLAKE2B_OUTBYTES, BLAKE2B_KEYBYTES. unfold refused in R. cbn [is_null] in *.
  rewrite !orb_false_iff in R. destruct R as (((((Ni & _) & Nk) & N0) & N64) & K). rewrite Ni, Nk, N0, N64, K.
  cbn [orb]. apply Nat.eqb_neq in N0. apply Nat.ltb_ge in N64, K.
  assert (Zi : inp = None -> inlen = 0%nat) by (intros ->; apply Nat.ltb_ge in Ni; lia).
  destruct (bytes_at_readable inp inlen Ri Zi) as [-> Fi].
  destruct (start_key_absorbed olen key keylen) as (S & -> & A & O); [lia | exact K | exact Rk | |].
  { intros ->. apply Nat.ltb_ge in Nk. lia. }
  cbn [bind]. destruct (blake2b_update_ok _ _ S _ (h0_length _ _) Fi A) as (S' & -> & A' & O'). cbn [bind].
  rewrite O in O'. destruct (blake2b_final_ok _ _ S' dst olen (h0_length _ _) A') as (S'' & -> & _); try lia.
  cbn [bind]. now rewrite O', blake2b_spec_digest.
Qed.

(** The BLAKE2B_512 of a node. *)
Lemma BLAKE2B_512_ok ret data : length ret = 64%nat -> Forall is_byte data ->
  BLAKE2B_512 ret data = Some (blake2b_spec 64 [] data).
Proof.
  intros L F. unfold BLAKE2B_512. rewrite (blake2b_accepted ret 64 (Some data) (length data) None 0); try exact I.
  - cbn [bind default id]. rewrite firstn_all, drop_ge by lia. now rewrite app_nil_r.
  - split; [lia | exact F].
  - lia.
  - reflexivity.
Qed.

Lemma blake2b_spec_length nn data : (nn <= 64)%nat -> length (blake2b_spec nn [] data) = nn.
Proof. intros N. rewrite blake2b_spec_digest. apply digest_length2b; [apply h0_length | exact N]. Qed.

(** blake2b returns -1 exactly for the arguments its checks refuse (a NULL output,
    a NULL input or key with a length, an output length of 0 or above 64, a key above
    64 bytes) and otherwise writes the hash of the input under the key to the front of
    the output buffer, leaving the rest. *)
Theorem blake2b_correct out olen inp inlen key keylen :
  readable inp inlen -> readable key keylen -> readable out olen ->
  blake2b out olen inp inlen key keylen =
  if refused out olen inp inlen key keylen then Some None
  else Some (Some (blake2b_spec olen (take keylen (default [] key)) (take inlen (default [] inp)) ++
                   drop olen (default [] out))).
Proof.
  intros Ri Rk Ro. destruct (refused out olen inp inlen key keylen) eqn:R.
  - unfold blake2b, refused, BLAKE2B_OUTBYTES, BLAKE2B_KEYBYTES in *.
    destruct (is_null inp && _); [reflexivity|]. destruct out as [dst|]; [|reflexivity].
    destruct (is_null key && _); [reflexivity|]. cbn [is_null orb] in *.
    destruct (olen =? 0)%nat, (64 <? olen)%nat; try reflexivity. cbn [orb] in *. now rewrite R.
  - destruct out as [dst|]; [now apply blake2b_accepted, R; destruct Ro|]. unfold refused in R.
    now rewrite orb_true_r in R.
Qed.

Lemma blake2b_correct_witness :
  blake2b (Some (repeat 0 64%nat)) 64 (Some [97; 98; 99; 100]) 3 None 0 = Some (Some (blake2b_spec 64 [] [97; 98; 99])) /\
  blake2b (Some []) 0 None 0 None 0 = Some None.
Proof.
  split.
  - rewrite (blake2b_correct (Some (repeat 0 64%nat)) 64 (Some [97; 98; 99; 100]) 3 None 0);
      [| split; [cbn; lia | repeat constructor; unfold is_byte; lia] | exact I
       | split; [rewrite repeat_length; lia | apply zeros_byte]].
    change (drop 64 (default [] (Some (repeat 0 64%nat)))) with (@nil Z). now rewrite app_nil_r.
  - exact (blake2b_correct (Some []) 0 None 0 None 0 I I (conj (le_n 0) (List.Forall_nil _))).
Defined.
