(* ===== verification/Blake3.v ===== *)
(** BLAKE3 (libethhashb3/internal.c, internal.h), the hash that Ethhashb3 mixes
    headers and results with: the incremental hasher as the code has it, with its
    chunk state and its stack of chaining values, and the tree hash it implements.
    Words are 32-bit; [None] is an access outside an array, a failed assertion or a
    loop that does not end. *)
From Stdlib Require Import ZArith Lia List Bool.
From stdpp Require Import base list.
From S2P Require Import Prelude CInt Keccak SpongeSpec Blocks Arx.
Import ListNotations.
Local Open Scope Z_scope.

Definition BLAKE3_OUT_LEN : nat := 32.
Definition BLAKE3_KEY_LEN : nat := 32.
Definition BLAKE3_BLOCK_LEN : nat := 64.
Definition BLAKE3_CHUNK_LEN : nat := 1024.

Definition CHUNK_START : Z := Z.shiftl 1 0.
Definition CHUNK_END : Z := Z.shiftl 1 1.
Definition PARENT : Z := Z.shiftl 1 2.
Definition ROOT : Z := Z.shiftl 1 3.
Definition KEYED_HASH : Z := Z.shiftl 1 4.
Definition DERIVE_KEY_CONTEXT : Z := Z.shiftl 1 5.
Definition DERIVE_KEY_MATERIAL : Z := Z.shiftl 1 6.

Definition IV : list Z :=
  [0x6A09E667; 0xBB67AE85; 0x3C6EF372; 0xA54FF53A; 0x510E527F; 0x9B05688C; 0x1F83D9AB; 0x5BE0CD19].

Definition MSG_PERMUTATION : list nat := [2; 6; 3; 10; 7; 0; 4; 13; 1; 11; 12; 5; 9; 14; 15; 8]%nat.

(** ** Compression *)

Definition rotate_right (x n : Z) : Z := Z.lor (Z.shiftr x n) (u32 (Z.shiftl x (32 - n))).

Definition g (a b c d : nat) (mx my : Z) (state : list Z) : list Z :=
  let state := <[a := u32 (lane state a + lane state b + mx)]> state in
  let state := <[d := rotate_right (Z.lxor (lane state d) (lane state a)) 16]> state in
  let state := <[c := u32 (lane state c + lane state d)]> state in
  let state := <[b := rotate_right (Z.lxor (lane state b) (lane state c)) 12]> state in
  let state := <[a := u32 (lane state a + lane state b + my)]> state in
  let state := <[d := rotate_right (Z.lxor (lane state d) (lane state a)) 8]> state in
  let state := <[c := u32 (lane state c + lane state d)]> state in
  <[b := rotate_right (Z.lxor (lane state b) (lane state c)) 7]> state.

Definition round_function (state m : list Z) : list Z :=
  let state := g 0 4 8 12 (lane m 0) (lane m 1) state in
  let state := g 1 5 9 13 (lane m 2) (lane m 3) state in
  let state := g 2 6 10 14 (lane m 4) (lane m 5) state in
  let state := g 3 7 11 15 (lane m 6) (lane m 7) state in
  let state := g 0 5 10 15 (lane m 8) (lane m 9) state in
  let state := g 1 6 11 12 (lane m 10) (lane m 11) state in
  let state := g 2 7 8 13 (lane m 12) (lane m 13) state in
  g 3 4 9 14 (lane m 14) (lane m 15) state.

Definition permute (m : list Z) : list Z := map (fun i => lane m (nth i MSG_PERMUTATION 0%nat)) (seq 0 16).

Definition compress (chaining_value block_words : list Z) (counter block_len flags : Z) : list Z :=
  let state := map (lane chaining_value) (seq 0 8) ++
    [lane IV 0; lane IV 1; lane IV 2; lane IV 3; u32 counter; u32 (Z.shiftr counter 32); block_len; flags] in
  let block := block_words in
  let state := round_function state block in
  let block := permute block in
  let state := round_function state block in
  let block := permute block in
  let state := round_function state block in
  let block := permute block in
  let state := round_function state block in
  let block := permute block in
  let state := round_function state block in
  let block := permute block in
  let state := round_function state block in
  let block := permute block in
  let state := round_function state block in
  fold_left (fun state i =>
    let state := <[i := Z.lxor (lane state i) (lane state (i + 8))]> state in
    <[(i + 8)%nat := Z.lxor (lane state (i + 8)) (lane chaining_value i)]> state) (seq 0 8) state.

Definition words_from_little_endian_bytes (bytes : list Z) : option (list Z) :=
  let! _ := c_assert (length bytes mod 4 =? 0)%nat in
  Some (map (fun i =>
    let out := lane bytes (4 * i) in
    let out := u32 (out + u32 (Z.shiftl (lane bytes (4 * i + 1)) 8)) in
    let out := u32 (out + u32 (Z.shiftl (lane bytes (4 * i + 2)) 16)) in
    u32 (out + u32 (Z.shiftl (lane bytes (4 * i + 3)) 24))) (seq 0 (length bytes / 4))).

(** ** Outputs *)

Record output : Type := mkoutput {
  input_chaining_value : list Z; block_words : list Z; counter : Z; oblock_len : Z; oflags : Z
}.

Definition output_chaining_value (self : output) : list Z :=
  take 8 (compress (input_chaining_value self) (block_words self) (counter self) (oblock_len self) (oflags self)).

(** The bytes of a word, (uint8_t)(word >> (8 * byte)). *)
Definition word_bytes (w : Z) : list Z := map (fun byte => Z.shiftr w (8 * Z.of_nat byte) mod 256) (seq 0 4).

(** Each turn of the outer loop writes at most 64 bytes; the fuel is out_len. *)
Fixpoint root_bytes_loop (fuel : nat) (self : output) (output_block_counter : Z) (out_len : nat) : option (list Z) :=
  match out_len with
  | O => Some []
  | _ =>
      match fuel with
      | O => None
      | S fuel =>
          let words := compress (input_chaining_value self) (block_words self) output_block_counter (oblock_len self)
                         (Z.lor (oflags self) ROOT) in
          let bytes := take out_len (concat (map word_bytes words)) in
          let! rest := root_bytes_loop fuel self (u64 (output_block_counter + 1)) (out_len - length bytes) in
          Some (bytes ++ rest)
      end
  end.

Definition output_root_bytes (self : output) (out_len : nat) : option (list Z) := root_bytes_loop out_len self 0 out_len.

(** ** Chunks *)

Record chunk_state : Type := mkchunk {
  chaining_value : list Z; chunk_counter : Z; block : list Z; block_len : nat; blocks_compressed : nat; flags : Z
}.

Definition u8 (n : nat) : nat := (n mod 256)%nat.

Definition chunk_state_init (key_words : list Z) (chunk_counter flags : Z) : chunk_state :=
  mkchunk key_words chunk_counter (repeat 0 BLAKE3_BLOCK_LEN) 0 0 flags.

Definition chunk_state_len (self : chunk_state) : nat := (BLAKE3_BLOCK_LEN * blocks_compressed self + block_len self)%nat.

Definition chunk_state_start_flag (self : chunk_state) : Z := if (blocks_compressed self =? 0)%nat then CHUNK_START else 0.

(** The block buffer is full: compress it and clear it. *)
Definition chunk_state_flush (self : chunk_state) : option chunk_state :=
  let! block_words := words_from_little_endian_bytes (block self) in
  let out16 := compress (chaining_value self) block_words (chunk_counter self) (Z.of_nat BLAKE3_BLOCK_LEN)
                 (Z.lor (flags self) (chunk_state_start_flag self)) in
  Some (mkchunk (take 8 out16) (chunk_counter self) (repeat 0 BLAKE3_BLOCK_LEN) 0 (u8 (blocks_compressed self + 1))
          (flags self)).

(** Copy input bytes into the block buffer. *)
Definition chunk_state_copy (self : chunk_state) (y : list Z) : option chunk_state :=
  let! b := memcpy (block self) (block_len self) y in
  Some (mkchunk (chaining_value self) (chunk_counter self) b (u8 (block_len self + u8 (length y)))
          (blocks_compressed self) (flags self)).

(** The fuel is the length of the input: each turn copies at least one byte. *)
Fixpoint chunk_update_loop (fuel : nat) (self : chunk_state) (input : list Z) : option chunk_state :=
  match input with
  | [] => Some self
  | _ =>
      match fuel with
      | O => None
      | S fuel =>
          let! self := if (block_len self =? BLAKE3_BLOCK_LEN)%nat then chunk_state_flush self else Some self in
          let want := (BLAKE3_BLOCK_LEN - block_len self)%nat in
          let tk := if (length input <? want)%nat then length input else want in
          let! self := chunk_state_copy self (take tk input) in
          chunk_update_loop fuel self (drop tk input)
      end
  end.

Definition chunk_state_update (self : chunk_state) (input : list Z) : option chunk_state :=
  chunk_update_loop (length input) self input.

Definition chunk_state_output (self : chunk_state) : option output :=
  let! words := words_from_little_endian_bytes (block self) in
  Some (mkoutput (chaining_value self) words (chunk_counter self) (Z.of_nat (block_len self))
          (Z.lor (Z.lor (flags self) (chunk_state_start_flag self)) CHUNK_END)).

Definition parent_output (left_child_cv right_child_cv key_words : list Z) (flags : Z) : output :=
  mkoutput key_words (take 8 left_child_cv ++ take 8 right_child_cv) 0 (Z.of_nat BLAKE3_BLOCK_LEN) (Z.lor PARENT flags).

Definition parent_cv (left_child_cv right_child_cv key_words : list Z) (flags : Z) : list Z :=
  output_chaining_value (parent_output left_child_cv right_child_cv key_words flags).

(** ** The hasher *)

Record blake3_hasher : Type := mkhasher {
  chunk : chunk_state; key_words : list Z; cv_stack : list Z; cv_stack_len : nat; hflags : Z
}.

(** [stack]: the content of cv_stack before the call, which is left as it is. *)
Definition hasher_init_internal (stack key_words : list Z) (flags : Z) : blake3_hasher :=
  mkhasher (chunk_state_init key_words 0 flags) key_words stack 0 flags.

Definition blake3_hasher_init (stack : list Z) : blake3_hasher := hasher_init_internal stack IV 0.

Definition blake3_hasher_init_keyed (stack key : list Z) : option blake3_hasher :=
  let! key_words := words_from_little_endian_bytes key in
  Some (hasher_init_internal stack key_words KEYED_HASH).

Definition set_stack (self : blake3_hasher) (stack : list Z) (n : nat) : blake3_hasher :=
  mkhasher (chunk self) (key_words self) stack n (hflags self).
Definition set_chunk (self : blake3_hasher) (c : chunk_state) : blake3_hasher :=
  mkhasher c (key_words self) (cv_stack self) (cv_stack_len self) (hflags self).

Definition hasher_push_stack (self : blake3_hasher) (cv : list Z) : option blake3_hasher :=
  let! stack := memcpy (cv_stack self) (cv_stack_len self * 8) (take 8 cv) in
  Some (set_stack self stack (u8 (cv_stack_len self + 1))).

(** The entry [n] of the stack. *)
Definition stack_cv (self : blake3_hasher) (n : nat) : option (list Z) :=
  if (n * 8 + 8 <=? length (cv_stack self))%nat then Some (take 8 (drop (n * 8) (cv_stack self))) else None.

Definition hasher_pop_stack (self : blake3_hasher) : option (list Z * blake3_hasher) :=
  let n := u8 (cv_stack_len self + 255) in
  let! cv := stack_cv self n in
  Some (cv, set_stack self (cv_stack self) n).

(** The fuel is 64, for a 64-bit total_chunks; 0 would not end. *)
Fixpoint add_chunk_loop (fuel : nat) (self : blake3_hasher) (new_cv : list Z) (total_chunks : Z) : option blake3_hasher :=
  if Z.land total_chunks 1 =? 0 then
    match fuel with
    | O => None
    | S fuel =>
        let! (left_cv, self) := hasher_pop_stack self in
        let new_cv := parent_cv left_cv new_cv (key_words self) (hflags self) in
        add_chunk_loop fuel self new_cv (Z.shiftr total_chunks 1)
    end
  else hasher_push_stack self new_cv.

Definition hasher_add_chunk_cv (self : blake3_hasher) (new_cv : list Z) (total_chunks : Z) : option blake3_hasher :=
  add_chunk_loop 64 self new_cv total_chunks.

(** The current chunk is complete: finalise it and start the next. *)
Definition hasher_flush (self : blake3_hasher) : option blake3_hasher :=
  let! chunk_output := chunk_state_output (chunk self) in
  let chunk_cv := output_chaining_value chunk_output in
  let total_chunks := u64 (chunk_counter (chunk self) + 1) in
  let! self := hasher_add_chunk_cv self chunk_cv total_chunks in
  Some (set_chunk self (chunk_state_init (key_words self) total_chunks (hflags self))).

Fixpoint hasher_update_loop (fuel : nat) (self : blake3_hasher) (input : list Z) : option blake3_hasher :=
  match input with
  | [] => Some self
  | _ =>
      match fuel with
      | O => None
      | S fuel =>
          let! self := if (chunk_state_len (chunk self) =? BLAKE3_CHUNK_LEN)%nat then hasher_flush self else Some self in
          let want := (BLAKE3_CHUNK_LEN - chunk_state_len (chunk self))%nat in
          let tk := if (length input <? want)%nat then length input else want in
          let! c := chunk_state_update (chunk self) (take tk input) in
          hasher_update_loop fuel (set_chunk self c) (drop tk input)
      end
  end.

Definition blake3_hasher_update (self : blake3_hasher) (input : list Z) : option blake3_hasher :=
  hasher_update_loop (length input) self input.

(** The loop on parent_nodes_remaining. *)
Fixpoint finalize_loop (parent_nodes_remaining : nat) (self : blake3_hasher) (current_output : output) : option output :=
  match parent_nodes_remaining with
  | O => Some current_output
  | S n =>
      let current_cv := output_chaining_value current_output in
      let! left_cv := stack_cv self n in
      finalize_loop n self (parent_output left_cv current_cv (key_words self) (hflags self))
  end.

Definition blake3_hasher_finalize (self : blake3_hasher) (out_len : nat) : option (list Z) :=
  let! current_output := chunk_state_output (chunk self) in
  let! current_output := finalize_loop (cv_stack_len self) self current_output in
  output_root_bytes current_output out_len.

(** [context]: the bytes before the terminating zero; [stack'] is the content of the
    local hasher's cv_stack. *)
Definition blake3_hasher_init_derive_key (stack stack' context : list Z) : option blake3_hasher :=
  let context_hasher := hasher_init_internal stack' IV DERIVE_KEY_CONTEXT in
  let! context_hasher := blake3_hasher_update context_hasher context in
  let! context_key := blake3_hasher_finalize context_hasher BLAKE3_KEY_LEN in
  let! context_key_words := words_from_little_endian_bytes context_key in
  Some (hasher_init_internal stack context_key_words DERIVE_KEY_MATERIAL).

Definition blake3_hash (stack input : list Z) (out_len : nat) : option (list Z) :=
  let hasher := blake3_hasher_init stack in
  let! hasher := blake3_hasher_update hasher input in
  blake3_hasher_finalize hasher out_len.

Definition blake3_hash_256 (stack input : list Z) : option (list Z) := blake3_hash stack input 32.
Definition blake3_hash_512 (stack input : list Z) : option (list Z) := blake3_hash stack input 64.

(** ** The specification *)

Definition mix32 (a b c d x y : Z) : Z * Z * Z * Z :=
  let a := (a + b + x) mod 2 ^ 32 in
  let d := rotate_right (Z.lxor d a) 16 in
  let c := (c + d) mod 2 ^ 32 in
  let b := rotate_right (Z.lxor b c) 12 in
  let a := (a + b + y) mod 2 ^ 32 in
  let d := rotate_right (Z.lxor d a) 8 in
  let c := (c + d) mod 2 ^ 32 in
  let b := rotate_right (Z.lxor b c) 7 in
  (a, b, c, d).

(** Seven rounds, the message permuted after each. *)
Fixpoint rounds (n : nat) (v m : list Z) : list Z :=
  match n with
  | O => v
  | S n => rounds n (arx_round mix32 v m) (permute m)
  end.

Definition blake3_F (cv m : list Z) (t len flags : Z) : list Z :=
  let v := rounds 7 (cv ++ [0x6A09E667; 0xBB67AE85; 0x3C6EF372; 0xA54FF53A; t mod 2 ^ 32; (t / 2 ^ 32) mod 2 ^ 32; len; flags]) m in
  xor_bytes (take 8 v) (drop 8 v) ++ xor_bytes (drop 8 v) cv.

(** The 32-bit words of a block, and a block padded with zeros. *)
Definition words32 (b : list Z) : list Z := map (fun i => le_val (take 4 (drop (4 * i) b))) (seq 0 (length b / 4)).
Definition pad64 (b : list Z) : list Z := b ++ repeat 0 (64 - length b)%nat.

Section Tree.
Context (key : list Z) (flags : Z).

(** The chain over the blocks of chunk [i] but the last; the first has CHUNK_START. *)
Definition start_flag (n : nat) : Z := if (n =? 0)%nat then 1 else 0.

Definition chunk_chain (i : Z) (blocks : list (list Z)) : list Z :=
  fst (fold_left (fun '(cv, n) b => (take 8 (blake3_F cv (words32 b) i 64 (Z.lor flags (start_flag n))), S n)) blocks (key, 0%nat)).

(** The last block of a chunk, not compressed yet; 2 is CHUNK_END. *)
Definition chunk_node (i : Z) (c : list Z) : output :=
  mkoutput (chunk_chain i (lblocks 64 c)) (words32 (pad64 (lrest 64 c))) i (Z.of_nat (length (lrest 64 c)))
    (Z.lor (Z.lor flags (start_flag (length (lblocks 64 c)))) 2).

Definition node_cv (o : output) : list Z :=
  take 8 (blake3_F (input_chaining_value o) (block_words o) (counter o) (oblock_len o) (oflags o)).

(** 4 is PARENT. *)
Definition parent_node (l r : output) : output := mkoutput key (node_cv l ++ node_cv r) 0 64 (Z.lor 4 flags).

(** The tree over the [n] leaves from [a], for [n] at most 2 ^ level: the left subtree
    of more than one leaf is full, with the largest power of two below [n]. *)
Fixpoint tree (leaf : nat -> output) (level a n : nat) : output :=
  match level with
  | O => leaf a
  | S j =>
      if (n <=? 2 ^ j)%nat then tree leaf j a n
      else parent_node (tree leaf j a (2 ^ j)) (tree leaf j (a + 2 ^ j) (n - 2 ^ j))
  end.

Definition chunks (d : list Z) : list (list Z) := lblocks 1024 d ++ [lrest 1024 d].
Definition leaf (d : list Z) (i : nat) : output := chunk_node (Z.of_nat i) (nth i (chunks d) []).
Definition blake3_root (d : list Z) : output := tree (leaf d) (Nat.log2_up (length (chunks d))) 0 (length (chunks d)).

(** The output stream: block [t] of it compresses the root with counter [t] and the
    flag ROOT, which is 8. *)
Definition stream_block (o : output) (t : nat) : list Z :=
  concat (map (le_bytes 4)
    (blake3_F (input_chaining_value o) (block_words o) (Z.of_nat t mod 2 ^ 64) (oblock_len o) (Z.lor (oflags o) 8))).
Definition stream (o : output) (n : nat) : list Z :=
  map (fun i => lane (stream_block o (i / 64)) (i mod 64)) (seq 0 n).

Definition blake3_spec (d : list Z) (n : nat) : list Z := stream (blake3_root d) n.
End Tree.

(** ** Compression *)

Lemma g_mix a b c d mx my v : NoDup [a; b; c; d] -> Forall (gt (length v)) [a; b; c; d] ->
  g a b c d mx my v = mix_at mix32 mx my a b c d v.
Proof.
  intros D R. unfold mix_at. generalize (put4_lanes v a b c d D R).
  generalize (lane v a), (lane v b), (lane v c), (lane v d). intros xa xb xc xd E. rewrite <- E at 1. clear E.
  unfold g, mix32. put4_steps.
Qed.

Lemma g_length a b c d mx my v : length (g a b c d mx my v) = length v.
Proof. unfold g. cbv zeta. now rewrite !length_insert. Qed.

Lemma round_function_ok v m : length v = 16%nat -> length m = 16%nat -> round_function v m = arx_round mix32 v m.
Proof.
  intros V M. rewrite <- unrolled_round_ok by assumption. unfold round_function.
  rewrite !g_mix by (rewrite ?g_length, ?V; quad_ok).
  unfold unrolled_diagonals, unrolled_columns. reflexivity.
Qed.

Lemma round_function_length v m : length (round_function v m) = length v.
Proof. unfold round_function. cbv zeta. now rewrite !g_length. Qed.

Lemma permute_length m : length (permute m) = 16%nat.
Proof. reflexivity. Qed.

(** The rounds with the unrolled function. *)
Fixpoint unrolled_rounds (n : nat) (v m : list Z) : list Z :=
  match n with
  | O => v
  | S n => unrolled_rounds n (round_function v m) (permute m)
  end.

Lemma unrolled_rounds_S n v m : unrolled_rounds (S n) v m = unrolled_rounds n (round_function v m) (permute m).
Proof. reflexivity. Qed.

Lemma unrolled_rounds_0 v m : unrolled_rounds 0 v m = v.
Proof. reflexivity. Qed.

Lemma unrolled_rounds_ok n : forall v m, length v = 16%nat -> length m = 16%nat ->
  unrolled_rounds n v m = rounds n v m /\ length (rounds n v m) = 16%nat.
Proof.
  induction n as [|n IH]; intros v m V M; [split; [reflexivity | exact V]|]. cbn [rounds unrolled_rounds].
  rewrite round_function_ok by assumption. apply IH; [apply arx_round_length | apply permute_length].
Qed.

(** The state before the rounds. *)
Definition init_state (cv : list Z) (t len flags : Z) : list Z :=
  cv ++ [0x6A09E667; 0xBB67AE85; 0x3C6EF372; 0xA54FF53A; t mod 2 ^ 32; (t / 2 ^ 32) mod 2 ^ 32; len; flags].

Lemma init_state_length cv t len fl : length cv = 8%nat -> length (init_state cv t len fl) = 16%nat.
Proof. intros C. unfold init_state. now rewrite length_app, C. Qed.

Lemma blake3_F_length cv m t len fl : length cv = 8%nat -> length m = 16%nat -> length (blake3_F cv m t len fl) = 16%nat.
Proof.
  intros C M. unfold blake3_F. fold (init_state cv t len fl).
  destruct (unrolled_rounds_ok 7 _ m (init_state_length cv t len fl C) M) as [_ V]. cbv zeta.
  rewrite length_app, !length_xor_bytes, length_take, length_drop, V. reflexivity.
Qed.

(** The last loop of compress. *)
Lemma compress_out v cv : length v = 16%nat -> length cv = 8%nat ->
  fold_left (fun state i =>
    let state := <[i := Z.lxor (lane state i) (lane state (i + 8))]> state in
    <[(i + 8)%nat := Z.lxor (lane state (i + 8)) (lane cv i)]> state) (seq 0 8) v =
  xor_bytes (take 8 v) (drop 8 v) ++ xor_bytes (drop 8 v) cv.
Proof.
  intros V C. words16 v V. do 8 (destruct cv as [|? cv]; [discriminate C|]). destruct cv; [reflexivity | discriminate C].
Qed.

Lemma compress_ok cv m t len fl : length cv = 8%nat -> length m = 16%nat ->
  compress cv m t len fl = blake3_F cv m t len fl.
Proof.
  intros C M. unfold compress. rewrite (lanes_id 8) by exact C. rewrite Z.shiftr_div_pow2 by lia.
  change (cv ++ _) with (init_state cv t len fl).
  destruct (unrolled_rounds_ok 7 _ m (init_state_length cv t len fl C) M) as [E V].
  rewrite !unrolled_rounds_S, unrolled_rounds_0 in E. cbv zeta. rewrite E. unfold blake3_F. fold (init_state cv t len fl).
  apply compress_out; assumption.
Qed.

(** ** Chunks *)

Lemma words_ok b : Forall is_byte b -> (length b mod 4 = 0)%nat -> words_from_little_endian_bytes b = Some (words32 b).
Proof.
  intros F M. unfold words_from_little_endian_bytes. rewrite M. cbn [Nat.eqb c_assert bind]. f_equal.
  apply map_ext_in. intros i I. apply in_seq in I. rewrite take_lanes by (pose proof (Nat.div_mod_eq (length b) 4); lia).
  cbn [seq map]. rewrite Nat.add_0_r. set (k := (4 * i)%nat).
  pose proof (fun j => lane_byte b j F) as B. unfold is_byte in B.
  pose proof (B k). pose proof (B (k + 1)%nat). pose proof (B (k + 2)%nat). pose proof (B (k + 3)%nat). clear B.
  rewrite !Z.shiftl_mul_pow2 by lia. unfold u32. cbn [le_val].
  set (x := lane b k) in *. set (y := lane b (k + 1)) in *. set (z := lane b (k + 2)) in *. set (w := lane b (k + 3)) in *.
  rewrite (Z.mod_small (y * 2 ^ 8)), (Z.mod_small (z * 2 ^ 16)), (Z.mod_small (w * 2 ^ 24)) by lia.
  rewrite (Z.mod_small (x + _)) by lia. rewrite (Z.mod_small (x + _ + _)) by lia. rewrite Z.mod_small by lia. lia.
Qed.

Lemma words32_length b : length (words32 b) = (length b / 4)%nat.
Proof. unfold words32. now rewrite length_map, length_seq. Qed.

Lemma pad64_ok b : (length b <= 64)%nat -> Forall is_byte b -> length (pad64 b) = 64%nat /\ Forall is_byte (pad64 b).
Proof.
  intros L F. unfold pad64. rewrite length_app, repeat_length. split; [lia|]. apply Forall_app. split; [exact F | apply zeros_byte].
Qed.

Lemma pad64_full b : length b = 64%nat -> pad64 b = b.
Proof. intros L. unfold pad64. rewrite L. apply app_nil_r. Qed.

Section Chunk.
Context (key : list Z) (fl : Z) (Hkey : length key = 8%nat).

Lemma chunk_chain_app i bs b : chunk_chain key fl i (bs ++ [b]) =
  take 8 (blake3_F (chunk_chain key fl i bs) (words32 b) i 64 (Z.lor fl (start_flag (length bs)))).
Proof.
  unfold chunk_chain. rewrite fold_left_app. cbn [fold_left].
  assert (T : forall x n, snd (fold_left (fun '(cv, n) b =>
      (take 8 (blake3_F cv (words32 b) i 64 (Z.lor fl (start_flag n))), S n)) bs (x, n)) = (length bs + n)%nat).
  { induction bs as [|c bs IH]; intros y t; cbn [fold_left length snd]; [lia | rewrite IH; lia]. }
  specialize (T key 0%nat). destruct (fold_left _ bs (key, 0%nat)) as [y t]. cbn [snd fst] in *. now rewrite T, Nat.add_0_r.
Qed.

Lemma chunk_chain_length i bs : Forall (fun b => length b = 64%nat) bs -> length (chunk_chain key fl i bs) = 8%nat.
Proof.
  induction bs as [|b bs IH] using rev_ind; intros F; [exact Hkey|]. apply Forall_app in F. destruct F as [F Fb].
  rewrite chunk_chain_app, length_take, blake3_F_length; [reflexivity | now apply IH|].
  inversion Fb; subst. rewrite words32_length. now rewrite H1.
Qed.

(** The chunk state of chunk [i] has absorbed the bytes [c]. *)
Definition chunk_ok (i : Z) (c : list Z) (st : chunk_state) : Prop :=
  chaining_value st = chunk_chain key fl i (lblocks 64 c) /\ chunk_counter st = i /\ block st = pad64 (lrest 64 c) /\
  block_len st = length (lrest 64 c) /\ blocks_compressed st = length (lblocks 64 c) /\ flags st = fl /\
  Forall is_byte c /\ (length c <= 1024)%nat.

Lemma chunk_init_ok i : chunk_ok i [] (chunk_state_init key i fl).
Proof. repeat split; try constructor. cbn. lia. Qed.

Lemma chunk_rest_ok i c st : chunk_ok i c st -> length (pad64 (lrest 64 c)) = 64%nat /\ Forall is_byte (pad64 (lrest 64 c)).
Proof.
  intros (_ & _ & _ & _ & _ & _ & F & _). apply pad64_ok; [apply (lazy_rest_bound 64 ltac:(lia)) | now apply (lazy_Forall 64 ltac:(lia))].
Qed.

Lemma chunk_len_ok i c st : chunk_ok i c st -> chunk_state_len st = length c.
Proof.
  intros (_ & _ & _ & L & B & _). unfold chunk_state_len. rewrite L, B. symmetry. apply (lazy_count 64 ltac:(lia)).
Qed.

Lemma chunk_output_ok i c st : chunk_ok i c st -> chunk_state_output st = Some (chunk_node key fl i c).
Proof.
  intros O. destruct (chunk_rest_ok i c st O) as [Lp Fp]. destruct O as (C & I & B & L & N & Fl & _ & _).
  unfold chunk_state_output, chunk_state_start_flag. rewrite B, words_ok by (rewrite ?Lp; easy). cbn [bind].
  rewrite C, I, L, N, Fl. reflexivity.
Qed.

(** A full block is compressed when more input is there. *)
Lemma chunk_flush_ok i c st : chunk_ok i c st -> length (lrest 64 c) = 64%nat ->
  chunk_state_flush st = Some (mkchunk (chunk_chain key fl i (lblocks 64 c ++ [lrest 64 c])) i (repeat 0 64%nat) 0
                                 (length (lblocks 64 c) + 1) fl).
Proof.
  intros O R. destruct (chunk_rest_ok i c st O) as [Lp Fp]. destruct O as (C & I & B & L & N & Fl & _ & Lc).
  pose proof (lazy_count 64 ltac:(lia) c) as Ct.
  unfold chunk_state_flush, chunk_state_start_flag. rewrite B, words_ok by (rewrite ?Lp; easy). cbn [bind].
  rewrite C, I, N, Fl, pad64_full, chunk_chain_app by exact R.
  rewrite compress_ok; [|apply chunk_chain_length, (lazy_blocks_length 64 ltac:(lia)) | now rewrite words32_length, R].
  unfold u8. rewrite Nat.mod_small by lia. reflexivity.
Qed.
Lemma pad64_copy r y : (length r + length y <= 64)%nat -> memcpy (pad64 r) (length r) y = Some (pad64 (r ++ y)).
Proof.
  intros L. unfold memcpy, pad64. rewrite !length_app, repeat_length, (proj2 (Nat.leb_le _ _)) by lia. f_equal.
  rewrite take_app_length, drop_app_ge, drop_repeat by lia. rewrite <- app_assoc. do 3 f_equal. lia.
Qed.

Lemma chunk_copy_ok i c st y : chunk_ok i c st -> Forall is_byte y -> (length (lrest 64 c) + length y <= 64)%nat ->
  (length c + length y <= 1024)%nat ->
  exists st', chunk_state_copy st y = Some st' /\ chunk_ok i (c ++ y) st'.
Proof.
  intros (C & I & B & L & N & Fl & F & Lc) Fy Ly Lt. unfold chunk_state_copy. rewrite B, L, pad64_copy by lia. cbn [bind].
  eexists. split; [reflexivity|]. destruct (lazy_app 64 ltac:(lia) c y) as [EB ER].
  destruct (lazy_short 64 ltac:(lia) (lrest 64 c ++ y)) as [SB SR]; [rewrite length_app; lia|].
  rewrite SB, app_nil_r in EB. rewrite SR in ER. unfold chunk_ok. rewrite EB, ER, !length_app, Forall_app.
  unfold u8. rewrite (Nat.mod_small (length y)), Nat.mod_small by lia. auto 12.
Qed.

Lemma chunk_flush_copy i c st y : chunk_ok i c st -> length (lrest 64 c) = 64%nat -> Forall is_byte y ->
  (0 < length y <= 64)%nat -> (length c + length y <= 1024)%nat ->
  exists st', (let! self := chunk_state_flush st in chunk_state_copy self y) = Some st' /\ chunk_ok i (c ++ y) st'.
Proof.
  intros O R Fy Ly Lt. rewrite (chunk_flush_ok i c st O R). cbn [bind].
  destruct O as (C & I & B & L & N & Fl & F & Lc). unfold chunk_state_copy. cbn [block block_len blocks_compressed flags chunk_counter chaining_value].
  change (repeat 0 64%nat) with (pad64 []). change 0%nat with (@length Z []) at 1. rewrite pad64_copy by (cbn; lia). cbn [bind app length Nat.add].
  eexists. split; [reflexivity|].
  destruct (lazy_app 64 ltac:(lia) c y) as [EB ER].
  destruct (lazy_full 64 ltac:(lia) (lrest 64 c) y R) as [FB FR]; [intros ->; cbn in Ly; lia|].
  destruct (lazy_short 64 ltac:(lia) y) as [SB SR]; [lia|].
  rewrite FB, SB in EB. rewrite FR, SR in ER. unfold chunk_ok. rewrite EB, ER, !length_app, Forall_app.
  unfold u8. rewrite (Nat.mod_small (length y)), Nat.mod_small by lia.
  cbn [chaining_value chunk_counter block block_len blocks_compressed flags length]. auto 12.
Qed.

Lemma chunk_loop_ok i : forall fuel c st input, chunk_ok i c st -> Forall is_byte input -> (length input <= fuel)%nat ->
  (length c + length input <= 1024)%nat ->
  exists st', chunk_update_loop fuel st input = Some st' /\ chunk_ok i (c ++ input) st'.
Proof.
  induction fuel as [|fuel IH]; intros c st input O F Lf Lt.
  { destruct input; [|cbn in Lf; lia]. exists st. rewrite app_nil_r. auto. }
  destruct input as [|x input]; [exists st; rewrite app_nil_r; auto|]. cbn [chunk_update_loop].
  set (inp := x :: input) in *. assert (P : (0 < length inp)%nat) by (cbn; lia). unfold BLAKE3_BLOCK_LEN.
  destruct (lazy_rest_bound 64 ltac:(lia) c) as [Lr _].
  destruct O as (O1 & O2 & O3 & Lb & O4). pose proof (conj O1 (conj O2 (conj O3 (conj Lb O4)))) as O. rewrite Lb.
  destruct (Nat.eqb_spec (length (lrest 64 c)) 64) as [R|R].
  - set (tk := if (length inp <? 64)%nat then length inp else 64%nat).
    assert (K : (0 < length (take tk inp) <= 64)%nat /\ (0 < tk <= length inp)%nat)
      by (rewrite length_take; unfold tk; destruct (Nat.ltb_spec (length inp) 64); lia).
    destruct (chunk_flush_copy i c st (take tk inp) O R (Forall_take _ _ _ F)) as (st1 & T & Ok1); [lia | rewrite length_take; lia|].
    rewrite (chunk_flush_ok i c st O R) in *. cbn [bind block_len Nat.sub] in *. fold tk. rewrite T. cbn [bind].
    destruct (IH (c ++ take tk inp) st1 (drop tk inp) Ok1 (Forall_drop _ _ _ F)) as (st2 & U & Ok2);
      [rewrite length_drop; lia | rewrite length_app, length_take, length_drop; lia|].
    exists st2. rewrite <- app_assoc, take_drop in Ok2. auto.
  - cbn [bind]. rewrite Lb. set (want := (64 - length (lrest 64 c))%nat).
    set (tk := if (length inp <? want)%nat then length inp else want).
    assert (K : (length (take tk inp) <= want)%nat /\ (0 < tk <= length inp)%nat)
      by (rewrite length_take; unfold tk; destruct (Nat.ltb_spec (length inp) want); unfold want in *; lia).
    destruct (chunk_copy_ok i c st (take tk inp) O (Forall_take _ _ _ F)) as (st1 & T & Ok1);
      [unfold want in K; lia | rewrite length_take; lia|].
    rewrite T. cbn [bind].
    destruct (IH (c ++ take tk inp) st1 (drop tk inp) Ok1 (Forall_drop _ _ _ F)) as (st2 & U & Ok2);
      [rewrite length_drop; lia | rewrite length_app, length_take, length_drop; lia|].
    exists st2. rewrite <- app_assoc, take_drop in Ok2. auto.
Qed.
End Chunk.
