(* ===== verification/Blake3Tree.v ===== *)
(** BLAKE3: the stack of chaining values is the binary representation of the number
    of finished chunks, finalisation turns it into the tree, and the incremental
    hasher of Blake3 computes the tree hash. *)
From Stdlib Require Import ZArith Lia List Bool.
From stdpp Require Import base list.
From S2P Require Import Prelude CInt Keccak SpongeSpec Blocks Arx Blake3.
Import ListNotations.
Local Open Scope Z_scope.

(** ** The tree *)

Section TreeLemmas.
Context (key : list Z) (fl : Z) (Hkey : length key = 8%nat).
Abbreviation tree := (tree key fl).
Abbreviation parent_node := (parent_node key fl).

(** What the outputs of the tree are compressed from. *)
Definition node_ok (o : output) : Prop := length (input_chaining_value o) = 8%nat /\ length (block_words o) = 16%nat.

Lemma node_cv_ok o : node_ok o -> output_chaining_value o = node_cv o /\ length (node_cv o) = 8%nat.
Proof.
  intros [C W]. unfold output_chaining_value, node_cv. rewrite compress_ok by assumption. split; [reflexivity|].
  now rewrite length_take, blake3_F_length.
Qed.

Lemma parent_node_ok l r : node_ok l -> node_ok r -> node_ok (parent_node l r) /\
  parent_output (node_cv l) (node_cv r) key fl = parent_node l r.
Proof.
  intros L R. destruct (node_cv_ok l L) as [_ Cl], (node_cv_ok r R) as [_ Cr]. unfold parent_output, parent_node, node_ok.
  cbn [input_chaining_value block_words]. rewrite length_app, Cl, Cr, !take_ge by lia. repeat split; assumption.
Qed.

Lemma chunk_node_ok i c : (length c <= 1024)%nat -> node_ok (chunk_node key fl i c).
Proof.
  intros L. split; cbn [input_chaining_value chunk_node block_words].
  - apply (chunk_chain_length key fl Hkey), (lazy_blocks_length 64 ltac:(lia)).
  - rewrite words32_length. unfold pad64. destruct (lazy_rest_bound 64 ltac:(lia) c) as [B _].
    rewrite length_app, repeat_length. replace (_ + _)%nat with 64%nat by lia. reflexivity.
Qed.

Context (leaf : nat -> output) (Hleaf : forall i, node_ok (leaf i)).

Lemma tree_ok j : forall a n, node_ok (tree leaf j a n).
Proof.
  induction j as [|j IH]; intros a n; [apply Hleaf|]. cbn [Blake3.tree].
  destruct (n <=? 2 ^ j)%nat; [apply IH | now apply parent_node_ok].
Qed.

(** The level does not matter. *)
Lemma tree_level j a n : (n <= 2 ^ j)%nat -> tree leaf (S j) a n = tree leaf j a n.
Proof. intros N. cbn [Blake3.tree]. now rewrite (proj2 (Nat.leb_le _ _)). Qed.

Lemma tree_levels j k a n : (n <= 2 ^ j)%nat -> (j <= k)%nat -> tree leaf k a n = tree leaf j a n.
Proof.
  intros N. induction 1 as [|k L IH]; [reflexivity|]. rewrite tree_level; [exact IH|].
  transitivity (2 ^ j)%nat; [exact N | apply Nat.pow_le_mono_r; lia].
Qed.

Lemma tree_join j a n : (0 < n <= 2 ^ j)%nat ->
  parent_node (tree leaf j a (2 ^ j)) (tree leaf j (a + 2 ^ j) n) = tree leaf (S j) a (2 ^ j + n).
Proof.
  intros N. cbn [Blake3.tree]. rewrite (proj2 (Nat.leb_gt _ _)) by lia. do 3 f_equal. lia.
Qed.

(** ** The stack of chaining values: a full subtree for each bit of the number of
    finished chunks, the lowest bit at the top *)

Definition full (j : nat) (q : positive) : output := tree leaf j (Pos.to_nat q * 2 * 2 ^ j) (2 ^ j).

Fixpoint stk (j : nat) (k : positive) : list (list Z) :=
  match k with
  | xH => [node_cv (tree leaf j 0 (2 ^ j))]
  | xO q => stk (S j) q
  | xI q => node_cv (full j q) :: stk (S j) q
  end.

Definition stack_of (j : nat) (k : N) : list (list Z) := match k with N0 => [] | Npos p => stk j p end.

Lemma stk_length j k : (length (stk j k) <= Pos.size_nat k)%nat.
Proof. clear Hkey Hleaf. revert j. induction k as [k IH | k IH |]; intros j; cbn; try (specialize (IH (S j))); lia. Qed.

Lemma stk_cvs j k : Forall (fun cv => length cv = 8%nat) (stk j k).
Proof.
  revert j. induction k as [k IH | k IH |]; intros j; cbn [stk]; try constructor; try apply IH;
    try (apply node_cv_ok, tree_ok). constructor.
Qed.

(** A chaining value joined with the output on its right. *)
Definition link (left_cv : list Z) (o : output) : output := mkoutput key (left_cv ++ node_cv o) 0 64 (Z.lor 4 fl).

Lemma link_node l o : link (node_cv l) o = parent_node l o.
Proof. reflexivity. Qed.

(** The parents of the right edge: the rest of the chunks makes the tree. *)
Definition edge (stack : list (list Z)) (o : output) : output :=
  fold_left (fun o left_cv => link left_cv o) stack o.

Lemma edge_tree k n : forall j, (0 < n <= 2 ^ j)%nat ->
  edge (stack_of j k) (tree leaf j (N.to_nat k * 2 ^ j) n) =
  tree leaf (j + N.size_nat k) 0 (N.to_nat k * 2 ^ j + n).
Proof.
  assert (P : forall p j n, (0 < n <= 2 ^ j)%nat ->
    edge (stk j p) (tree leaf j (Pos.to_nat p * 2 ^ j) n) = tree leaf (j + Pos.size_nat p) 0 (Pos.to_nat p * 2 ^ j + n)).
  { clear n. induction p as [q IH | q IH |]; intros j n N; cbn [stk edge fold_left Pos.size_nat].
    - specialize (IH (S j) (2 ^ j + n)%nat). unfold edge in IH.
      rewrite link_node.
      unfold full. replace (Pos.to_nat q~1 * 2 ^ j)%nat with (Pos.to_nat q * 2 * 2 ^ j + 2 ^ j)%nat by lia.
      rewrite tree_join by exact N. replace (Pos.to_nat q * 2 * 2 ^ j)%nat with (Pos.to_nat q * 2 ^ S j)%nat by (cbn [Nat.pow]; lia).
      rewrite IH by (cbn [Nat.pow]; lia). f_equal; cbn [Nat.pow]; lia.
    - specialize (IH (S j) n). unfold edge in IH. rewrite <- (tree_level j) by lia.
      replace (Pos.to_nat q~0 * 2 ^ j)%nat with (Pos.to_nat q * 2 ^ S j)%nat by (cbn [Nat.pow]; lia).
      rewrite IH by (cbn [Nat.pow]; lia). f_equal; cbn [Nat.pow]; lia.
    - rewrite link_node. replace (Pos.to_nat 1 * 2 ^ j)%nat with (0 + 2 ^ j)%nat by lia. rewrite tree_join by exact N.
      f_equal; lia. }
  intros j N. destruct k as [|p]; [cbn; f_equal; lia | now apply P].
Qed.

(** The stack in memory, from the bottom. *)
Definition stack_holds (h : blake3_hasher) (st : list (list Z)) : Prop :=
  cv_stack_len h = length st /\ length (cv_stack h) = 432%nat /\ take (8 * length st) (cv_stack h) = concat (rev st) /\
  Forall (fun cv => length cv = 8%nat) st /\ (length st <= 54)%nat /\ key_words h = key /\ hflags h = fl.

Lemma push_ok h st cv : stack_holds h st -> (length st < 54)%nat -> length cv = 8%nat ->
  exists h', hasher_push_stack h cv = Some h' /\ stack_holds h' (cv :: st) /\ chunk h' = chunk h.
Proof.
  intros (N & M & T & F & L & K & Fl) Lt C. unfold hasher_push_stack. rewrite N, take_ge by lia.
  destruct (memcpy_spec (cv_stack h) (length st * 8) cv) as (m & -> & Lm & Tm & _); [lia|]. cbn [bind].
  eexists. split; [reflexivity|]. split; [|reflexivity]. unfold stack_holds, u8. cbn [set_stack cv_stack_len cv_stack key_words hflags length rev].
  rewrite Nat.mod_small by lia. rewrite concat_app. cbn [concat]. rewrite app_nil_r.
  replace (8 * S (length st))%nat with (length st * 8 + length cv)%nat by lia. rewrite Tm, Nat.mul_comm, T.
  split; [lia|]. split; [congruence|]. split; [reflexivity|]. split; [now constructor|]. auto with lia.
Qed.

Lemma concat_lookup n : forall st, (n < length st)%nat -> Forall (fun cv => length cv = 8%nat) st ->
  take 8 (drop (n * 8) (concat st)) = nth n st ([] : list Z).
Proof.
  induction n as [|n IH]; intros [|cv st] L F; cbn [length] in L; try lia; inversion F; subst; cbn [concat nth].
  - cbn [Nat.mul]. rewrite drop_0. apply take_app_length'. now symmetry.
  - rewrite drop_app_ge by lia. replace (S n * 8 - length cv)%nat with (n * 8)%nat by lia. apply IH; [lia | assumption].
Qed.

Lemma stack_cv_ok h st n : stack_holds h st -> (n < length st)%nat -> stack_cv h n = Some (nth n (rev st) []).
Proof.
  intros (_ & M & T & F & L & _) B. unfold stack_cv. rewrite (proj2 (Nat.leb_le _ _)) by lia. f_equal.
  rewrite <- concat_lookup by (rewrite ?length_rev; auto using Forall_rev). rewrite <- T.
  rewrite <- (take_drop (8 * length st) (cv_stack h)) at 1. rewrite drop_app_le, take_app_le; [reflexivity|..];
    rewrite ?length_drop, length_take; lia.
Qed.

Lemma pop_ok h st cv : stack_holds h (cv :: st) ->
  exists h', hasher_pop_stack h = Some (cv, h') /\ stack_holds h' st /\ chunk h' = chunk h.
Proof.
  intros O. pose proof O as (N & M & T & F & L & K & Fl). unfold hasher_pop_stack. cbn [length] in N, L, T.
  assert (E : u8 (cv_stack_len h + 255) = length st).
  { unfold u8. rewrite N. replace (S (length st) + 255)%nat with (length st + 1 * 256)%nat by lia.
    rewrite Nat.Div0.mod_add, Nat.mod_small by lia. reflexivity. }
  rewrite E, (stack_cv_ok h (cv :: st)) by (exact O || cbn; lia). cbn [bind rev].
  rewrite app_nth2, length_rev, Nat.sub_diag by (rewrite length_rev; lia). cbn [nth].
  eexists. split; [reflexivity|]. split; [|reflexivity]. inversion F; subst. unfold stack_holds.
  cbn [set_stack cv_stack_len cv_stack key_words hflags]. split; [reflexivity|]. split; [exact M|]. split; [|auto with lia].
  cbn [rev] in T. rewrite concat_app in T. cbn [concat] in T. rewrite app_nil_r in T.
  apply (f_equal (take (8 * length st))) in T. rewrite take_take, Nat.min_l in T by lia. rewrite T.
  apply take_app_length'. rewrite <- (length_rev st). apply Forall_rev in H2. clear - H2.
  induction H2 as [|x l X _ IH]; [reflexivity|]. cbn [concat length]. rewrite length_app. lia.
Qed.

(** A finished subtree is merged into the stack: the count of chunks goes up by one
    unit of the subtree's size. *)
Lemma add_chunk_loop_ok p : forall j fuel h, stack_holds h (stk j p) -> (length (stk j (Pos.succ p)) <= 54)%nat ->
  (Pos.size_nat p <= fuel)%nat ->
  exists h', add_chunk_loop fuel h (node_cv (tree leaf j (Pos.to_nat p * 2 ^ j) (2 ^ j))) (Zpos (Pos.succ p)) = Some h' /\
    stack_holds h' (stk j (Pos.succ p)) /\ chunk h' = chunk h.
Proof.
  induction p as [q IH | q IH |]; intros j fuel h O L Fu; (destruct fuel as [|fuel]; [cbn in Fu; lia|]).
  - change (Pos.succ q~1) with ((Pos.succ q)~0)%positive in *. cbn [stk] in O, L. cbn [add_chunk_loop Z.land Pos.land Z.eqb].
    destruct (pop_ok h _ _ O) as (h1 & -> & O1 & C1). cbn [bind]. pose proof O1 as (_ & _ & _ & _ & _ & K & Fl). rewrite K, Fl.
    unfold parent_cv. destruct (parent_node_ok (full j q) (tree leaf j (Pos.to_nat q~1 * 2 ^ j) (2 ^ j))) as [Po ->];
      [apply tree_ok | apply tree_ok |]. rewrite (proj1 (node_cv_ok _ Po)).
    assert (E : parent_node (full j q) (tree leaf j (Pos.to_nat q~1 * 2 ^ j) (2 ^ j)) =
                tree leaf (S j) (Pos.to_nat q * 2 ^ S j) (2 ^ S j)).
    { unfold full. replace (Pos.to_nat q~1 * 2 ^ j)%nat with (Pos.to_nat q * 2 * 2 ^ j + 2 ^ j)%nat by lia.
      rewrite tree_join by (split; [apply Nat.neq_0_lt_0, Nat.pow_nonzero|]; lia). f_equal; cbn [Nat.pow]; lia. }
    rewrite E. change (Z.shiftr (Zpos (Pos.succ q)~0) 1) with (Zpos (Pos.succ q)).
    destruct (IH (S j) fuel h1 O1 L) as (h2 & -> & O2 & C2); [cbn in Fu; lia|]. exists h2. split; [reflexivity|].
    split; [exact O2 | congruence].
  - change (Pos.succ q~0) with (q~1)%positive in *. cbn [add_chunk_loop Z.land Pos.land Z.eqb].
    destruct (push_ok h _ (node_cv (tree leaf j (Pos.to_nat q~0 * 2 ^ j) (2 ^ j))) O) as (h' & -> & O' & C');
      [exact L | apply node_cv_ok, tree_ok |]. exists h'. split; [reflexivity|]. split; [|exact C'].
    cbn [stk]. unfold full. replace (Pos.to_nat q * 2 * 2 ^ j)%nat with (Pos.to_nat q~0 * 2 ^ j)%nat by lia. exact O'.
  - change (Pos.succ 1) with 2%positive in *. cbn [stk] in O, L. cbn [add_chunk_loop Z.land Pos.land Z.eqb].
    destruct (pop_ok h _ _ O) as (h1 & -> & O1 & C1). cbn [bind]. pose proof O1 as (_ & _ & _ & _ & _ & K & Fl). rewrite K, Fl.
    unfold parent_cv. destruct (parent_node_ok (tree leaf j 0 (2 ^ j)) (tree leaf j (Pos.to_nat 1 * 2 ^ j) (2 ^ j))) as [Po ->];
      [apply tree_ok | apply tree_ok |]. rewrite (proj1 (node_cv_ok _ Po)).
    change (Z.shiftr 2 1) with 1. replace (Pos.to_nat 1 * 2 ^ j)%nat with (0 + 2 ^ j)%nat by lia.
    rewrite tree_join by (split; [apply Nat.neq_0_lt_0, Nat.pow_nonzero|]; lia).
    destruct (push_ok h1 [] (node_cv (tree leaf (S j) 0 (2 ^ j + 2 ^ j))) O1) as (h' & E & O' & C');
      [cbn; lia | apply node_cv_ok, tree_ok |].
    exists h'. split; [destruct fuel; exact E|]. split; [|congruence]. cbn [stk].
    replace (2 ^ S j)%nat with (2 ^ j + 2 ^ j)%nat by (cbn [Nat.pow]; lia). exact O'.
Qed.

(** The parents of the right edge in blake3_hasher_finalize. *)
Lemma finalize_loop_ok h st st' : stack_holds h (st' ++ st) -> forall o, node_ok o ->
  finalize_loop (length st) h o = Some (edge st o) /\ node_ok (edge st o).
Proof.
  revert st'. induction st as [|cv st IH]; intros st' O o Ho; [split; [reflexivity | exact Ho]|].
  cbn [length finalize_loop edge fold_left].
  rewrite (stack_cv_ok h _ (length st) O) by (rewrite length_app; cbn; lia). cbn [bind].
  rewrite rev_app_distr. cbn [rev]. rewrite <- app_assoc, app_nth2, length_rev, Nat.sub_diag by (rewrite length_rev; lia).
  cbn [app nth]. pose proof O as (_ & _ & _ & F & _ & -> & ->). apply Forall_app in F. destruct F as [_ F]. inversion F; subst.
  destruct (node_cv_ok o Ho) as [-> Lo].
  assert (E : parent_output cv (node_cv o) key fl = link cv o) by (unfold parent_output; now rewrite !take_ge by lia).
  rewrite E. apply (IH (st' ++ [cv])); [now rewrite <- app_assoc|].
  split; cbn [link input_chaining_value block_words]; [exact Hkey | rewrite length_app; lia].
Qed.
End TreeLemmas.

(** ** The output stream *)

Lemma word_bytes_le w : word_bytes w = le_bytes 4 w.
Proof. unfold word_bytes, le_bytes. apply map_ext. intros k. now rewrite Z.shiftr_div_pow2 by lia. Qed.

Lemma stream_block_length o t : node_ok o -> length (stream_block o t) = 64%nat.
Proof.
  intros [C W]. unfold stream_block. pose proof (blake3_F_length _ _ (Z.of_nat t mod 2 ^ 64) (oblock_len o) (Z.lor (oflags o) 8) C W) as L.
  revert L. generalize (blake3_F (input_chaining_value o) (block_words o) (Z.of_nat t mod 2 ^ 64) (oblock_len o) (Z.lor (oflags o) 8)).
  intros x L. words16 x L. reflexivity.
Qed.

(** The [n] bytes of the stream from block [t]. *)
Definition stream_from (o : output) (t n : nat) : list Z :=
  map (fun i => lane (stream_block o (t + i / 64)) (i mod 64)) (seq 0 n).

Lemma stream_from_step o t n : node_ok o -> stream_from o t n = take n (stream_block o t) ++ stream_from o (S t) (n - 64).
Proof.
  intros O. pose proof (stream_block_length o t O) as L. unfold stream_from. apply lane_ext.
  - rewrite length_app, length_take, !length_map, !length_seq. lia.
  - intros i I. rewrite length_map, length_seq in I.
    rewrite lane_map_seq, lane_app, length_take, lane_take, (proj2 (Nat.ltb_lt i n)) by exact I.
    rewrite L. destruct (Nat.ltb_spec i (n `min` 64)) as [B|B].
    + rewrite Nat.div_small, Nat.mod_small by lia. now rewrite Nat.add_0_r.
    + rewrite lane_map_seq by lia. replace i with ((i - n `min` 64) + 1 * 64)%nat at 1 2 by lia.
      rewrite Nat.div_add, Nat.Div0.mod_add by lia.
      assert (Ea : forall q, (t + (q + 1) = S t + q)%nat) by (intros q; lia). rewrite Ea. reflexivity.
Qed.

Lemma root_bytes_loop_ok o : node_ok o -> forall fuel t n, (n <= fuel)%nat ->
  root_bytes_loop fuel o (Z.of_nat t mod 2 ^ 64) n = Some (stream_from o t n).
Proof.
  intros O. induction fuel as [|fuel IH]; intros t n L.
  - replace n with 0%nat by lia. reflexivity.
  - destruct n as [|n]; [reflexivity|]. cbn [root_bytes_loop].
    rewrite compress_ok by apply O. rewrite (map_ext word_bytes (le_bytes 4) word_bytes_le).
    change (concat _) with (stream_block o t). rewrite length_take, stream_block_length by exact O.
    rewrite u64_mod, Zplus_mod_idemp_l. replace (Z.of_nat t + 1) with (Z.of_nat (S t)) by lia.
    rewrite IH by lia. cbn [bind]. rewrite (stream_from_step o t) by exact O.
    replace (S n - S n `min` 64)%nat with (S n - 64)%nat by lia. reflexivity.
Qed.

Lemma output_root_bytes_ok o n : node_ok o -> output_root_bytes o n = Some (stream o n).
Proof. intros O. exact (root_bytes_loop_ok o O n 0 n (le_n n)). Qed.

(** ** The hasher *)

Section Hasher.
Context (key : list Z) (fl : Z) (Hkey : length key = 8%nat).

(** The message to be hashed in all. *)
Context (D : list Z) (HD : Z.of_nat (length D) < 2 ^ 64).
Abbreviation leaf := (leaf key fl D).
Abbreviation tree := (tree key fl leaf).

Lemma chunks_bound c : In c (chunks D) -> (length c <= 1024)%nat.
Proof.
  intros I. apply in_app_or in I. destruct I as [I | [<- | []]].
  - pose proof (lazy_blocks_length 1024 ltac:(lia) D) as F. rewrite List.Forall_forall in F. now rewrite (F c I).
  - apply (lazy_rest_bound 1024 ltac:(lia)).
Qed.

Lemma leaf_ok i : node_ok (leaf i).
Proof.
  apply (chunk_node_ok key fl Hkey). destruct (nth_in_or_default i (chunks D) []) as [I | ->]; [now apply chunks_bound | cbn; lia].
Qed.

(** The bytes [d] are absorbed: the finished chunks are in the stack. *)
Definition absorbed3 (d : list Z) (h : blake3_hasher) : Prop :=
  let k := length (lblocks 1024 d) in
  chunk_ok key fl (Z.of_nat k) (lrest 1024 d) (chunk h) /\ stack_holds key fl h (stack_of key fl leaf 0 (N.of_nat k)).

Lemma size_nat_bound p n : Z.pos p < 2 ^ Z.of_nat n -> (Pos.size_nat p <= n)%nat.
Proof.
  revert n. induction p as [p IH | p IH |]; intros n B; destruct n as [|n]; try (cbn in B; lia); cbn [Pos.size_nat];
    try lia; apply le_n_S, IH; rewrite Nat2Z.inj_succ, Z.pow_succ_r in B by lia; lia.
Qed.

Lemma size_nat_max p : Z.pos p < 2 ^ 54 -> (length (stk key fl leaf 0 p) <= 54)%nat.
Proof. intros B. etransitivity; [apply stk_length|]. apply size_nat_bound. exact B. Qed.

Lemma hasher_flush_ok d y h : D = d ++ y -> y <> [] -> length (lrest 1024 d) = 1024%nat -> absorbed3 d h ->
  let k := length (lblocks 1024 d) in
  exists h', hasher_flush h = Some h' /\ stack_holds key fl h' (stack_of key fl leaf 0 (N.of_nat (S k))) /\
    chunk h' = chunk_state_init key (Z.of_nat (S k)) fl.
Proof.
  intros E Y R [Co Sh]. cbv zeta. set (k := length (lblocks 1024 d)) in *.
  assert (Lf : leaf k = chunk_node key fl (Z.of_nat k) (lrest 1024 d)).
  { unfold Blake3.leaf, chunks. f_equal. rewrite E.
    destruct (lazy_app 1024 ltac:(lia) d y) as [-> _]. destruct (lazy_full 1024 ltac:(lia) (lrest 1024 d) y R Y) as [-> _].
    rewrite <- app_assoc, app_nth2 by (unfold k; lia). fold k. now rewrite Nat.sub_diag. }
  assert (Bk : Z.of_nat k + 1 < 2 ^ 54).
  { pose proof (lazy_count 1024 ltac:(lia) d) as C. pose proof HD as B. rewrite E, length_app in B. destruct y; [easy|].
    cbn [length] in B. fold k in C. lia. }
  unfold hasher_flush. rewrite (chunk_output_ok key fl Hkey _ _ _ Co). cbn [bind]. rewrite <- Lf.
  rewrite (proj1 (node_cv_ok _ (leaf_ok k))).
  destruct Co as (_ & Ci & _). rewrite Ci. change (u64 (Z.of_nat k + 1)) with ((Z.of_nat k + 1) mod 2 ^ 64).
  rewrite Z.mod_small by lia.
  assert (A : exists h1, hasher_add_chunk_cv h (node_cv (leaf k)) (Z.of_nat k + 1) = Some h1 /\
    stack_holds key fl h1 (stack_of key fl leaf 0 (N.of_nat (S k))) /\ chunk h1 = chunk h).
  { unfold hasher_add_chunk_cv. destruct k as [|k'] eqn:Ek.
    - destruct (push_ok key fl Hkey h [] (node_cv (leaf 0)) Sh) as (h1 & E1 & S1 & C1); [cbn; lia | apply node_cv_ok, leaf_ok |].
      exists h1. split; [exact E1|]. split; [exact S1 | exact C1].
    - cbn [stack_of N.of_nat] in *. set (p := Pos.of_succ_nat k') in *.
      assert (Ep : Pos.to_nat p = S k') by apply SuccNat2Pos.id_succ.
      destruct (add_chunk_loop_ok key fl Hkey leaf leaf_ok p 0 64 h Sh) as (h1 & E1 & S1 & C1).
      + apply size_nat_max. lia.
      + apply size_nat_bound. lia.
      + change (tree 0 (Pos.to_nat p * 2 ^ 0) (2 ^ 0)) with (leaf (Pos.to_nat p * 2 ^ 0)) in E1.
        rewrite Ep, Nat.mul_1_r in E1. replace (Z.pos (Pos.succ p)) with (Z.of_nat (S k') + 1) in E1 by lia.
        exists h1. split; [exact E1|]. split; [|exact C1].
        replace (N.of_nat (S (S k'))) with (N.pos (Pos.succ p)) by lia. exact S1. }
  destruct A as (h1 & -> & S1 & C1). cbn [bind]. eexists. split; [reflexivity|].
  pose proof S1 as (_ & _ & _ & _ & _ & K & Fl). split; [exact S1|]. cbn [chunk set_chunk]. rewrite K, Fl.
  replace (Z.of_nat k + 1) with (Z.of_nat (S k)) by lia. reflexivity.
Qed.

(** One turn of the update loop. *)
Lemma hasher_loop_ok : forall fuel d h input rest, D = d ++ input ++ rest -> absorbed3 d h -> Forall is_byte input ->
  (length input <= fuel)%nat ->
  exists h', hasher_update_loop fuel h input = Some h' /\ absorbed3 (d ++ input) h'.
Proof.
  induction fuel as [|fuel IH]; intros d h input rest E A F Lf.
  { destruct input; [|cbn in Lf; lia]. exists h. rewrite app_nil_r. auto. }
  destruct input as [|x input]; [exists h; rewrite app_nil_r; auto|]. cbn [hasher_update_loop].
  set (inp := x :: input) in *. assert (P : (0 < length inp)%nat) by (cbn; lia). unfold BLAKE3_CHUNK_LEN.
  destruct (lazy_rest_bound 1024 ltac:(lia) d) as [Lr _]. rewrite (chunk_len_ok key fl Hkey _ _ _ (proj1 A)).
  assert (T : forall h1 c tk, absorbed3 (d ++ take tk inp) (set_chunk h1 c) -> (0 < tk <= length inp)%nat ->
    exists h', hasher_update_loop fuel (set_chunk h1 c) (drop tk inp) = Some h' /\ absorbed3 (d ++ inp) h').
  { intros h1 c tk A1 K. destruct (IH (d ++ take tk inp) (set_chunk h1 c) (drop tk inp) rest) as (h2 & U & A2);
      [rewrite <- app_assoc, (app_assoc (take tk inp)), take_drop; exact E | exact A1 | now apply Forall_drop
       | rewrite length_drop; lia|].
    exists h2. rewrite <- app_assoc, take_drop in A2. auto. }
  destruct (Nat.eqb_spec (length (lrest 1024 d)) 1024) as [R|R].
  - destruct (hasher_flush_ok d (inp ++ rest) h E ltac:(discriminate) R A) as (h1 & -> & S1 & C1). cbn [bind].
    rewrite C1. cbn [chunk_state_len chunk_state_init blocks_compressed block_len Nat.mul Nat.add Nat.sub BLAKE3_BLOCK_LEN].
    set (tk := if (length inp <? 1024)%nat then length inp else 1024%nat).
    assert (K : (0 < tk <= length inp)%nat /\ (tk <= 1024)%nat) by (unfold tk; destruct (Nat.ltb_spec (length inp) 1024); lia).
    destruct (chunk_loop_ok key fl Hkey (Z.of_nat (S (length (lblocks 1024 d)))) (length (take tk inp)) []
                (chunk_state_init key (Z.of_nat (S (length (lblocks 1024 d)))) fl) (take tk inp)) as (c & U & Oc);
      [apply (chunk_init_ok key fl Hkey) | now apply Forall_take | lia | rewrite length_take; cbn [length]; lia|].
    unfold chunk_state_update. rewrite U. cbn [bind]. apply T; [|exact (proj1 K)].
    destruct (lazy_app 1024 ltac:(lia) d (take tk inp)) as [EB ER].
    destruct (lazy_full 1024 ltac:(lia) (lrest 1024 d) (take tk inp) R) as [FB FR].
    { intros N. apply (f_equal (@length Z)) in N. rewrite length_take in N. cbn [length] in N. lia. }
    destruct (lazy_short 1024 ltac:(lia) (take tk inp)) as [SB SR]; [rewrite length_take; lia|].
    rewrite FB, SB in EB. rewrite FR, SR in ER. unfold absorbed3. rewrite EB, ER, length_app. cbn [length].
    rewrite Nat.add_1_r. split; [exact Oc | exact S1].
  - cbn [bind]. rewrite (chunk_len_ok key fl Hkey _ _ _ (proj1 A)). set (want := (1024 - length (lrest 1024 d))%nat).
    set (tk := if (length inp <? want)%nat then length inp else want).
    assert (K : (0 < tk <= length inp)%nat /\ (tk <= want)%nat)
      by (unfold tk; destruct (Nat.ltb_spec (length inp) want); unfold want in *; lia).
    destruct (chunk_loop_ok key fl Hkey _ (length (take tk inp)) _ _ (take tk inp) (proj1 A)) as (c & U & Oc);
      [now apply Forall_take | lia | rewrite length_take; unfold want in *; lia|].
    unfold chunk_state_update. rewrite U. cbn [bind]. apply T; [|exact (proj1 K)].
    destruct (lazy_app 1024 ltac:(lia) d (take tk inp)) as [EB ER].
    destruct (lazy_short 1024 ltac:(lia) (lrest 1024 d ++ take tk inp)) as [SB SR];
      [rewrite length_app, length_take; unfold want in *; lia|].
    rewrite SB, app_nil_r in EB. rewrite SR in ER. unfold absorbed3. rewrite EB, ER. split; [exact Oc | exact (proj2 A)].
Qed.

Lemma init_absorbed3 stack : length stack = 432%nat -> absorbed3 [] (hasher_init_internal stack key fl).
Proof.
  intros L. split; [apply (chunk_init_ok key fl Hkey)|].
  unfold stack_holds, hasher_init_internal. cbn. auto 10 using List.Forall_nil, Nat.le_0_l.
Qed.

Lemma size_nat_pow k : (N.to_nat k < 2 ^ N.size_nat k)%nat.
Proof.
  destruct k as [|p]; [cbn; lia|]. cbn [N.size_nat N.to_nat].
  induction p as [p IH | p IH |]; cbn [Pos.size_nat Nat.pow]; lia.
Qed.

Lemma finalize_ok h n : absorbed3 D h -> blake3_hasher_finalize h n = Some (blake3_spec key fl D n).
Proof.
  intros [Co Sh]. unfold blake3_hasher_finalize. rewrite (chunk_output_ok key fl Hkey _ _ _ Co). cbn [bind].
  set (k := length (lblocks 1024 D)) in *.
  assert (Lf : leaf k = chunk_node key fl (Z.of_nat k) (lrest 1024 D)).
  { unfold Blake3.leaf, chunks. f_equal. rewrite app_nth2 by (unfold k; lia). fold k. now rewrite Nat.sub_diag. }
  rewrite <- Lf. pose proof Sh as (-> & _).
  destruct (finalize_loop_ok key fl Hkey h _ [] Sh (leaf k) (leaf_ok k)) as [-> Oe]. cbn [bind].
  rewrite output_root_bytes_ok by exact Oe. unfold blake3_spec. apply (f_equal (fun o => Some (stream o n))).
  pose proof (edge_tree key fl Hkey leaf (N.of_nat k) 1 0 ltac:(cbn; lia)) as T. cbn [Nat.pow] in T.
  rewrite Nat2N.id, Nat.mul_1_r in T. change (tree 0 k 1) with (leaf k) in T.
  rewrite T. unfold blake3_root. assert (Lc : length (chunks D) = (k + 1)%nat) by (unfold chunks; rewrite length_app; reflexivity).
  rewrite Lc. apply (tree_levels key fl Hkey).
  - destruct (Nat.log2_log2_up_spec (k + 1) ltac:(lia)) as [_ B]. exact B.
  - cbn [Nat.add]. apply Nat.log2_up_le_pow2; [lia|]. pose proof (size_nat_pow (N.of_nat k)). rewrite Nat2N.id in H. lia.
Qed.
End Hasher.

(** ** Modes *)

Inductive blake3_mode : Type :=
| Hash
| KeyedHash (key : list Z)
| DeriveKey (context : list Z).

Definition blake3_start (stack stack' : list Z) (m : blake3_mode) : option blake3_hasher :=
  match m with
  | Hash => Some (blake3_hasher_init stack)
  | KeyedHash key => blake3_hasher_init_keyed stack key
  | DeriveKey context => blake3_hasher_init_derive_key stack stack' context
  end.

(** The key words and flags of a mode: 16, 32 and 64 are KEYED_HASH,
    DERIVE_KEY_CONTEXT and DERIVE_KEY_MATERIAL. *)
Definition mode_key (m : blake3_mode) : list Z :=
  match m with
  | Hash => IV
  | KeyedHash key => words32 key
  | DeriveKey context => words32 (blake3_spec IV 32 context 32)
  end.

Definition mode_flags (m : blake3_mode) : Z := match m with Hash => 0 | KeyedHash _ => 16 | DeriveKey _ => 64 end.

Definition message_ok (d : list Z) : Prop := Forall is_byte d /\ Z.of_nat (length d) < 2 ^ 64.

Definition mode_ok (m : blake3_mode) : Prop :=
  match m with
  | Hash => True
  | KeyedHash key => length key = 32%nat /\ Forall is_byte key
  | DeriveKey context => message_ok context
  end.

(** Updates from a fresh hasher. *)
Lemma updates_ok (key : list Z) fl (stack : list Z) D : length key = 8%nat -> length stack = 432%nat -> Z.of_nat (length D) < 2 ^ 64 ->
  forall chunks d h rest, D = d ++ concat chunks ++ rest -> Forall (Forall is_byte) chunks -> absorbed3 key fl D d h ->
  exists h', foldM blake3_hasher_update h chunks = Some h' /\ absorbed3 key fl D (d ++ concat chunks) h'.
Proof.
  intros K L B chunks. induction chunks as [|c chunks IH]; intros d h rest E F A; cbn [foldM concat] in *.
  - exists h. rewrite app_nil_r. auto.
  - apply Forall_cons in F. destruct F as [Fc F'].
    destruct (hasher_loop_ok key fl K D B (length c) d h c (concat chunks ++ rest)) as (h1 & U & A1);
      [now rewrite E, <- app_assoc | exact A | exact Fc | reflexivity |].
    unfold blake3_hasher_update at 1. rewrite U. cbn [bind].
    destruct (IH (d ++ c) h1 rest) as (h2 & U2 & A2); [now rewrite E, <- !app_assoc | exact F' | exact A1 |].
    exists h2. rewrite app_assoc. auto.
Qed.

Lemma hash_ok (key : list Z) fl (stack : list Z) chunks n : length key = 8%nat -> length stack = 432%nat -> Forall (Forall is_byte) chunks ->
  Z.of_nat (length (concat chunks)) < 2 ^ 64 ->
  exists h, foldM blake3_hasher_update (hasher_init_internal stack key fl) chunks = Some h /\
    blake3_hasher_finalize h n = Some (blake3_spec key fl (concat chunks) n).
Proof.
  intros K L F B.
  destruct (updates_ok key fl stack (concat chunks) K L B chunks [] (hasher_init_internal stack key fl) []) as (h & U & A).
  - now rewrite app_nil_r.
  - exact F.
  - now apply init_absorbed3.
  - exists h. split; [exact U|]. now apply finalize_ok.
Qed.

Lemma blake3_hash_ok (stack : list Z) input n : length stack = 432%nat -> message_ok input ->
  blake3_hash stack input n = Some (blake3_spec IV 0 input n).
Proof.
  intros L [F B]. destruct (hash_ok IV 0 stack [input] n eq_refl L) as (h & U & E); try (cbn [concat]; rewrite app_nil_r);
    [now constructor | exact B |].
  cbn [foldM concat] in U, E. rewrite app_nil_r in E. unfold blake3_hash, blake3_hasher_init.
  destruct (blake3_hasher_update _ input) as [h'|]; [|discriminate U]. cbn [bind] in *. injection U as ->. exact E.
Qed.

Lemma lane_map_byte (f : nat -> Z) n : (forall i, is_byte (f i)) -> Forall is_byte (map f (seq 0 n)).
Proof. intros H. apply List.Forall_map, List.Forall_forall. auto. Qed.

Lemma blake3_spec_bytes key fl d n : length (blake3_spec key fl d n) = n /\ Forall is_byte (blake3_spec key fl d n).
Proof.
  unfold blake3_spec, stream. split; [now rewrite length_map, length_seq|]. apply lane_map_byte. intros i.
  apply lane_byte. unfold stream_block. apply Forall_concat, List.Forall_map, List.Forall_forall.
  intros w _. apply le_bytes_byte.
Qed.

Lemma blake3_start_ok m (stack stack' : list Z) : mode_ok m -> length stack = 432%nat -> length stack' = 432%nat ->
  length (mode_key m) = 8%nat /\ blake3_start stack stack' m = Some (hasher_init_internal stack (mode_key m) (mode_flags m)).
Proof.
  intros M L L'. destruct m as [|key|context]; cbn [mode_key mode_flags blake3_start].
  - split; reflexivity.
  - destruct M as [Lk Fk]. split; [now rewrite words32_length, Lk|].
    unfold blake3_hasher_init_keyed. now rewrite words_ok by (rewrite ?Lk; easy).
  - destruct (blake3_spec_bytes IV 32 context 32) as [Ls Fs]. split; [now rewrite words32_length, Ls|].
    destruct M as [F B]. destruct (hash_ok IV 32 stack' [context] 32 eq_refl L') as (h & U & E);
      [now constructor | cbn [concat]; now rewrite app_nil_r|].
    cbn [foldM concat] in U, E. rewrite app_nil_r in E. unfold blake3_hasher_init_derive_key.
    change DERIVE_KEY_CONTEXT with 32. destruct (blake3_hasher_update _ context) as [h'|]; [|discriminate U].
    cbn [bind] in *. injection U as ->. unfold BLAKE3_KEY_LEN. rewrite E. cbn [bind].
    now rewrite words_ok by (rewrite ?Ls; easy).
Qed.

(** ** Properties *)

(** C10.  The incremental hasher computes BLAKE3: in each of its three modes, whatever
    the uninitialised stacks hold and however a message below 2^64 bytes is cut into
    updates, no access leaves an array, no loop runs on, and blake3_hasher_finalize
    writes the first bytes of the root's output stream, the root being the binary
    tree over the 1024-byte chunks whose left subtrees are full. *)
Theorem blake3_streaming m (stack stack' : list Z) chunks n : mode_ok m -> length stack = 432%nat -> length stack' = 432%nat ->
  message_ok (concat chunks) ->
  exists h h', blake3_start stack stack' m = Some h /\ foldM blake3_hasher_update h chunks = Some h' /\
    blake3_hasher_finalize h' n = Some (blake3_spec (mode_key m) (mode_flags m) (concat chunks) n).
Proof.
  intros M L L' [F B]. destruct (blake3_start_ok m stack stack' M L L') as [K ->].
  assert (Fc : Forall (Forall is_byte) chunks).
  { clear - F. induction chunks as [|c chunks IH]; [constructor|]. cbn [concat] in F. apply Forall_app in F.
    destruct F as [Fc F]. constructor; [exact Fc | now apply IH]. }
  destruct (hash_ok (mode_key m) (mode_flags m) stack chunks n K L Fc B) as (h' & U & E).
  eexists. exists h'. split; [reflexivity|]. auto.
Qed.

Lemma blake3_streaming_witness :
  exists h h' d, blake3_start (repeat 9 432%nat) (repeat 8 432%nat) Hash = Some h /\
    foldM blake3_hasher_update h [[97]; []; [98; 99]] = Some h' /\
    blake3_hasher_finalize h' 6 = Some d /\ d = [100; 55; 179; 172; 56; 70].
Proof.
  destruct (blake3_streaming Hash (repeat 9 432%nat) (repeat 8 432%nat) [[97]; []; [98; 99]] 6 I (repeat_length _ _)
              (repeat_length _ _)) as (h & h' & S & U & E).
  - split; [repeat constructor; unfold is_byte; lia | cbn; lia].
  - exists h, h'. eexists. split; [exact S|]. split; [exact U|]. split; [exact E|]. vm_compute. reflexivity.
Defined.
