(* ===== verification/Sponge.v ===== *)
(** The hash functions built on Keccak-f[1600]: keccak, keccak1600 and cn_fast_hash
    (libcryptonote/crypto/keccak.c, hash.c), ethash_keccak256 and 512
    (libkawpow/keccak/keccak.c), the incremental SHA-3 of
    libmultihash/verthash/tiny_sha3/sha3.c, and the one-shot hash of
    libethhash/sha3.c.  Each handles blocks, the last block and padding in its own
    way; each is shown to compute the sponge of SpongeSpec. *)
From Stdlib Require Import ZArith Lia List Bool.
From stdpp Require Import base list.
From S2P Require Import Prelude CInt Keccak SpongeSpec Blocks.
Import ListNotations.
Local Open Scope Z_scope.

(** ** keccak (libcryptonote/crypto/keccak.c)

    uint64_t loads are little-endian; [None] is an access outside in or temp, or the
    loop that never ends for a rate of 0. *)

(** [for (i = 0; i < rsizw; i++) st[i] ^= ((uint64_t * ) in)[i];] *)
Definition xor_words (st : list Z) (n : nat) (blk : list Z) : list Z :=
  fold_left (fun st i => <[i := Z.lxor (lane st i) (word blk i)]> st) (seq 0 n) st.

Fixpoint keccak_absorb (fuel rsiz : nat) (st inp : list Z) (inlen : Z) : option (list Z * list Z * Z) :=
  if inlen <? Z.of_nat rsiz then Some (st, inp, inlen)
  else match fuel with
       | O => None
       | S fuel =>
           let! _ := c_assert (rsiz <=? length inp)%nat in
           keccak_absorb fuel rsiz (keccakf (xor_words st (rsiz / 8) inp) 24) (drop rsiz inp) (inlen - Z.of_nat rsiz)
       end.

(** The last block in temp. *)
Definition keccak_temp (rsiz : nat) (inp : list Z) : list Z :=
  let temp := inp ++ [1] ++ repeat 0 (rsiz - (length inp + 1)) in
  <[(rsiz - 1)%nat := Z.lor (lane temp (rsiz - 1)) 128]> temp.

(** [inlen] is an int, which the memcpy to temp converts to size_t. *)
Definition keccak (inp : list Z) (inlen : Z) (mdlen : nat) : option (list Z) :=
  let rsiz := (if mdlen =? 200 then 136 else 200 - 2 * mdlen)%nat in
  if (rsiz =? 0)%nat || (144 <? rsiz)%nat then None
  else
    let! (st, inp, inlen) := keccak_absorb (length inp) rsiz (repeat 0 25%nat) inp inlen in
    let! last := read_bytes inp inlen in
    let! _ := c_assert (length last <=? 144)%nat in
    let st := xor_words st (rsiz / 8) (keccak_temp rsiz last) in
    let st := keccakf st 24 in
    Some (take mdlen (bytes_of st)).

Definition keccak1600 (inp : list Z) (inlen : Z) : option (list Z) := keccak inp inlen 200.

(** hash_process and cn_fast_hash (libcryptonote/crypto/hash.c): the size_t count becomes
    keccak's int. *)
Definition hash_process (buf : list Z) (count : Z) : option (list Z) := keccak1600 buf (to_i32 count).

Definition cn_fast_hash (data : list Z) (length : Z) : option (list Z) :=
  let! state := hash_process data length in
  Some (take 32 state).

(** ** keccak (libkawpow/keccak/keccak.c), for a little-endian host *)

Fixpoint kawpow_absorb (fuel block_size : nat) (state data : list Z) : option (list Z * list Z) :=
  if (length data <? block_size)%nat then Some (state, data)
  else match fuel with
       | O => None
       | S fuel => kawpow_absorb fuel block_size
                     (ethash_keccakf1600 (xor_words state (block_size / 8) data)) (drop block_size data)
       end.

(** [while (size >= word_size)]: [it] is state_iter - state. *)
Fixpoint kawpow_words (fuel it : nat) (state data : list Z) : option (nat * list Z * list Z) :=
  if (length data <? 8)%nat then Some (it, state, data)
  else match fuel with
       | O => None
       | S fuel => kawpow_words fuel (S it) (<[it := Z.lxor (lane state it) (word data 0)]> state) (drop 8 data)
       end.

Definition kawpow_keccak (bits : nat) (data : list Z) : option (list Z) :=
  let hash_size := (bits / 8)%nat in
  let block_size := ((1600 - bits * 2) / 8)%nat in
  let! (state, data) := kawpow_absorb (length data) block_size (repeat 0 25%nat) data in
  let! (it, state, data) := kawpow_words (length data) 0 state data in
  let last_word := le_val (data ++ [1]) in
  let state := <[it := Z.lxor (lane state it) last_word]> state in
  let w := (block_size / 8 - 1)%nat in
  let state := <[w := Z.lxor (lane state w) 0x8000000000000000]> state in
  let state := ethash_keccakf1600 state in
  Some (bytes_of (take (hash_size / 8) state)).

Definition ethash_keccak256 (data : list Z) : option (list Z) := kawpow_keccak 256 data.
Definition ethash_keccak512 (data : list Z) : option (list Z) := kawpow_keccak 512 data.

(** ** SHA-3 (libmultihash/verthash/tiny_sha3/sha3.c)

    The union of 200 bytes and 25 words is its bytes; sha3_keccakf is keccakf of
    keccak.c with 24 rounds, on the words. *)

Record sha3_ctx : Set := mkctx { st_b : list Z; pt : nat; rsiz : nat; mdlen : nat }.

Definition sha3_keccakf (b : list Z) : list Z := bytes_of (keccakf (lanes_of b) 24).

(** [c->st.b[i] ^= x] *)
Definition xor_at (b : list Z) (i : nat) (x : Z) : list Z := <[i := Z.lxor (lane b i) x]> b.

Definition sha3_init (mdlen : nat) : sha3_ctx := mkctx (repeat 0 200%nat) 0 (200 - 2 * mdlen) mdlen.

Definition sha3_update_byte (rsiz : nat) (s : list Z * nat) (x : Z) : list Z * nat :=
  let '(b, j) := s in
  let b := xor_at b j x in
  let j := S j in
  if (rsiz <=? j)%nat then (sha3_keccakf b, 0%nat) else (b, j).

Definition sha3_update (c : sha3_ctx) (data : list Z) : sha3_ctx :=
  let '(b, j) := fold_left (sha3_update_byte (rsiz c)) data (st_b c, pt c) in
  mkctx b j (rsiz c) (mdlen c).

Definition sha3_final (c : sha3_ctx) : list Z :=
  let b := xor_at (st_b c) (pt c) 6 in
  let b := xor_at b (rsiz c - 1) 128 in
  take (mdlen c) (sha3_keccakf b).

Definition sha3 (inp : list Z) (mdlen : nat) : list Z := sha3_final (sha3_update (sha3_init mdlen) inp).

Definition shake_xof (c : sha3_ctx) : sha3_ctx :=
  let b := xor_at (st_b c) (pt c) 31 in
  let b := xor_at b (rsiz c - 1) 128 in
  mkctx (sha3_keccakf b) 0 (rsiz c) (mdlen c).

(** The bytes written and the context left. *)
Fixpoint shake_out (n : nat) (c : sha3_ctx) : list Z * sha3_ctx :=
  match n with
  | O => ([], c)
  | S n =>
      let c := if (rsiz c <=? pt c)%nat then mkctx (sha3_keccakf (st_b c)) 0 (rsiz c) (mdlen c) else c in
      let '(out, c') := shake_out n (mkctx (st_b c) (S (pt c)) (rsiz c) (mdlen c)) in
      (lane (st_b c) (pt c) :: out, c')
  end.

(** ** hash (libethhash/sha3.c); [None] is the return value -1 *)

Definition eth_perm (a : list Z) : list Z := bytes_of (eth_keccakf (lanes_of a)).

(** [foldP(in, inlen, xorin)]. *)
Fixpoint eth_absorb (fuel rate : nat) (a inp : list Z) : option (list Z * list Z) :=
  if (length inp <? rate)%nat then Some (a, inp)
  else match fuel with
       | O => None
       | S fuel => eth_absorb fuel rate (eth_perm (xor_bytes a (take rate inp))) (drop rate inp)
       end.

(** [foldP(out, outlen, setout)] and the last [setout]. *)
Fixpoint eth_squeeze (fuel rate outlen : nat) (a : list Z) : option (list Z) :=
  if (outlen <? rate)%nat then Some (take outlen a)
  else match fuel with
       | O => None
       | S fuel =>
           let! rest := eth_squeeze fuel rate (outlen - rate) (eth_perm a) in
           Some (take rate a ++ rest)
       end.

Definition eth_hash (outlen : nat) (inp : list Z) (rate : nat) (delim : Z) : option (list Z) :=
  if (200 <=? rate)%nat then None
  else
    let! (a, inp) := eth_absorb (length inp) rate (repeat 0 200%nat) inp in
    let a := xor_at a (length inp) delim in
    let a := xor_at a (rate - 1) 128 in
    let a := xor_bytes a inp in
    let a := eth_perm a in
    eth_squeeze outlen rate outlen a.

Definition eth_sha3 (bits outlen : nat) (inp : list Z) : option (list Z) :=
  if (bits / 8 <? outlen)%nat then None
  else eth_hash outlen inp (200 - bits / 4) 1.

Definition sha3_256 (outlen : nat) (inp : list Z) : option (list Z) := eth_sha3 256 outlen inp.
Definition sha3_512 (outlen : nat) (inp : list Z) : option (list Z) := eth_sha3 512 outlen inp.

(** ** Absorbing a block *)

Lemma fold_seq_insert (f : nat -> Z -> Z) st n : (n <= length st)%nat ->
  let r := fold_left (fun st i => <[i := f i (lane st i)]> st) (seq 0 n) st in
  length r = length st /\ forall i, lane r i = if (i <? n)%nat then f i (lane st i) else lane st i.
Proof.
  cbv zeta. induction n as [|n IH]; intros L; [auto|].
  rewrite seq_S, fold_left_app. cbn [fold_left Nat.add]. destruct (IH ltac:(lia)) as [LR R].
  set (r := fold_left _ (seq 0 n) st) in *. clearbody r. rewrite length_insert. split; [exact LR|].
  intros i. rewrite lane_insert, !R, LR. destruct (Nat.eqb_spec n i) as [<-|N].
  - rewrite (proj2 (Nat.ltb_lt n (length st))), (proj2 (Nat.ltb_ge n n)), (proj2 (Nat.ltb_lt n (S n))) by lia.
    reflexivity.
  - cbn [andb]. destruct (Nat.ltb_spec i n), (Nat.ltb_spec i (S n)); try reflexivity; lia.
Qed.

Lemma word_take b i n : word (take (8 * n) b) i = if (i <? n)%nat then word b i else 0.
Proof.
  unfold word. destruct (Nat.ltb_spec i n).
  - rewrite !take_drop_commute, take_take, Nat.min_l by lia. reflexivity.
  - rewrite drop_ge; [reflexivity|]. rewrite length_take. lia.
Qed.

Lemma xor_words_lanes b n blk : is_state b -> Forall is_byte blk -> (n <= 25)%nat ->
  xor_words (lanes_of b) n blk = lanes_of (xor_bytes b (take (8 * n) blk)).
Proof.
  intros [L B] K N. unfold xor_words.
  destruct (fold_seq_insert (fun i x => Z.lxor x (word blk i)) (lanes_of b) n) as [LR R];
    [now rewrite lanes_of_length|]. cbv beta in LR, R.
  apply lane_ext; [now rewrite LR|]. intros i I. rewrite LR, lanes_of_length in I.
  rewrite R, !lane_lanes_of by exact I. rewrite word_xor_bytes, word_take.
  - destruct (i <? n)%nat; [reflexivity | now rewrite Z.lxor_0_r].
  - exact B.
  - now apply Forall_take.
  - rewrite length_take, L. lia.
Qed.

(** One block of a rate of n lanes. *)
Lemma keccakf_block b n blk : is_state b -> Forall is_byte blk -> (n <= 25)%nat ->
  keccakf (xor_words (lanes_of b) n blk) 24 = lanes_of (absorb_block b (take (8 * n) blk)).
Proof.
  intros S K N. rewrite xor_words_lanes by assumption. apply keccakf_perm, xor_bytes_state; [exact S|].
  now apply Forall_take.
Qed.

Lemma lanes_zero : lanes_of (repeat 0 200%nat) = repeat 0 25%nat.
Proof. reflexivity. Qed.

(** The three absorbing loops, against [absorbed]. *)
Section Absorb.
Context (n : nat) (N : (0 < n <= 25)%nat).

Lemma keccak_absorb_ok m : Forall is_byte m -> forall fuel b, (length m <= fuel)%nat -> is_state b ->
  keccak_absorb fuel (8 * n) (lanes_of b) m (Z.of_nat (length m)) =
  let (b, r) := absorbed (8 * n) b m in Some (lanes_of b, r, Z.of_nat (length r)).
Proof.
  revert m. refine (blocks_ind (8 * n) _ ltac:(lia) _ _); [intros m L F fuel b B S | intros m L IH F fuel b B S].
  - rewrite absorbed_short by exact L. destruct fuel; cbn [keccak_absorb]; now rewrite (proj2 (Z.ltb_lt _ _)) by lia.
  - rewrite absorbed_step by lia. destruct fuel as [|fuel]; [lia|].
    cbn [keccak_absorb]. rewrite (proj2 (Z.ltb_ge _ _)), (proj2 (Nat.leb_le _ _) L), (Nat.mul_comm 8 n), Nat.div_mul by lia.
    cbn [c_assert bind]. rewrite (Nat.mul_comm n 8), keccakf_block by (assumption || lia).
    rewrite <- Nat2Z.inj_sub, <- length_drop by lia. apply IH; [now apply Forall_drop | rewrite length_drop; lia | apply absorb_block_state].
Qed.

Lemma kawpow_absorb_ok m : Forall is_byte m -> forall fuel b, (length m <= fuel)%nat -> is_state b ->
  kawpow_absorb fuel (8 * n) (lanes_of b) m =
  Some (lanes_of (fst (absorbed (8 * n) b m)), snd (absorbed (8 * n) b m)).
Proof.
  revert m. refine (blocks_ind (8 * n) _ ltac:(lia) _ _); [intros m L F fuel b B S | intros m L IH F fuel b B S].
  - rewrite absorbed_short by exact L. destruct fuel; cbn [kawpow_absorb]; now rewrite (proj2 (Nat.ltb_lt _ _) L).
  - rewrite absorbed_step by lia. destruct fuel as [|fuel]; [lia|].
    cbn [kawpow_absorb]. rewrite (proj2 (Nat.ltb_ge _ _) L), (Nat.mul_comm 8 n), Nat.div_mul by lia.
    rewrite (Nat.mul_comm n 8), ethash_keccakf1600_eq, keccakf_block
      by (assumption || lia || (rewrite xor_words_lanes by (assumption || lia); reflexivity)).
    apply IH; [now apply Forall_drop | rewrite length_drop; lia | apply absorb_block_state].
Qed.
End Absorb.

Lemma eth_perm_eq a : eth_perm a = perm a.
Proof. unfold eth_perm. now rewrite eth_keccakf_eq, perm_keccakf by reflexivity. Qed.

Lemma eth_absorb_ok rate m : (0 < rate)%nat -> forall fuel b, (length m <= fuel)%nat ->
  eth_absorb fuel rate b m = Some (absorbed rate b m).
Proof.
  intros R. revert m. refine (blocks_ind rate _ R _ _); [intros m L fuel b B | intros m L IH fuel b B].
  - rewrite absorbed_short by exact L. destruct fuel; cbn [eth_absorb]; now rewrite (proj2 (Nat.ltb_lt _ _) L).
  - rewrite absorbed_step by lia. destruct fuel as [|fuel]; [lia|].
    cbn [eth_absorb]. rewrite (proj2 (Nat.ltb_ge _ _) L), eth_perm_eq. apply IH. rewrite length_drop. lia.
Qed.

(** ** The last block *)

Lemma xor_at_lane b i x j : (i < length b)%nat ->
  lane (xor_at b i x) j = Z.lxor (lane b j) (if (i =? j)%nat then x else 0).
Proof.
  intros I. unfold xor_at. rewrite lane_insert. destruct (Nat.eqb_spec i j) as [<-|N]; cbn [andb].
  - now rewrite (proj2 (Nat.ltb_lt i (length b)) I).
  - now rewrite Z.lxor_0_r.
Qed.

Lemma length_xor_at b i x : length (xor_at b i x) = length b.
Proof. apply length_insert. Qed.

(** Xoring the suffix and the last bit in place is xoring the padded block. *)
Lemma xor_at_pad rate suffix b r : (length r < rate)%nat -> (rate <= length b)%nat ->
  xor_at (xor_at (xor_bytes b r) (length r) suffix) (rate - 1) 128 = xor_bytes b (pad_block rate suffix r).
Proof.
  intros R L. pose proof (length_pad_block rate suffix r R) as LP.
  apply lane_ext; [now rewrite !length_xor_at, !length_xor_bytes|].
  intros i _. rewrite !xor_at_lane by (rewrite ?length_xor_at, length_xor_bytes; lia).
  rewrite !lane_xor_bytes by lia. destruct (Nat.lt_ge_cases i rate) as [I|I].
  - rewrite lane_pad_block by assumption. rewrite !Z.lxor_assoc. f_equal.
    rewrite (Nat.eqb_sym i (rate - 1)), (Nat.eqb_sym i (length r)), <- Z.lxor_assoc. f_equal.
    destruct (Nat.ltb_spec i (length r)).
    + rewrite (proj2 (Nat.eqb_neq (length r) i)) by lia. apply Z.lxor_0_r.
    + rewrite (lane_over r) by lia. apply Z.lxor_0_l.
  - rewrite (lane_over (pad_block _ _ _)), (lane_over r) by lia.
    rewrite (proj2 (Nat.eqb_neq (length r) i)), (proj2 (Nat.eqb_neq (rate - 1) i)) by lia.
    now rewrite !Z.lxor_0_r.
Qed.

(** The block keccak builds in temp. *)
Lemma keccak_temp_pad rsiz m : (length m < rsiz)%nat -> keccak_temp rsiz m = pad_block rsiz 1 m.
Proof.
  intros L. unfold keccak_temp. set (temp := m ++ [1] ++ repeat 0 (rsiz - (length m + 1))).
  assert (LT : length temp = rsiz) by (unfold temp; rewrite !length_app, repeat_length; cbn [length]; lia).
  apply lane_ext; [now rewrite length_insert, length_pad_block|].
  intros i I. rewrite length_insert, LT in I. rewrite lane_pad_block by assumption.
  assert (T : forall j, lane temp j = if (j <? length m)%nat then lane m j else if (j =? length m)%nat then 1 else 0).
  { intros j. unfold temp. rewrite lane_app. destruct (Nat.ltb_spec j (length m)); [reflexivity|].
    rewrite lane_app, lane_repeat. cbn [length].
    destruct (Nat.eqb_spec j (length m)) as [->|N]; [now rewrite Nat.sub_diag|].
    rewrite (proj2 (Nat.ltb_ge (j - length m) 1)) by lia. now destruct (_ <? _)%nat. }
  rewrite lane_insert, LT, !T. destruct (Nat.eqb_spec (rsiz - 1) i) as [E|N].
  - rewrite (proj2 (Nat.ltb_lt i rsiz) I). cbn [andb]. rewrite <- E, Nat.eqb_refl.
    rewrite (proj2 (Nat.ltb_ge (rsiz - 1) (length m))) by lia. now destruct (rsiz - 1 =? length m)%nat.
  - cbn [andb]. rewrite (proj2 (Nat.eqb_neq i (rsiz - 1))), Z.lxor_0_r by lia. reflexivity.
Qed.

(** ** keccak and cn_fast_hash *)

Lemma keccak_rate_ok rsiz n m st0 : rsiz = (8 * n)%nat -> (0 < n <= 18)%nat -> Forall is_byte m ->
  (let! (st, inp, inlen) := keccak_absorb (length m) rsiz (repeat 0 25%nat) m (Z.of_nat (length m)) in
   let! last := read_bytes inp inlen in
   let! _ := c_assert (length last <=? 144)%nat in
   let st := xor_words st (rsiz / 8) (keccak_temp rsiz last) in
   let st := keccakf st 24 in
   Some (take st0 (bytes_of st))) = Some (sponge rsiz 1 st0 m).
Proof.
  intros -> N F. rewrite <- lanes_zero, keccak_absorb_ok by (assumption || lia || apply zero_state).
  rewrite sponge_absorbed.
  pose proof (absorbed_ok (8 * n) m ltac:(lia) F (repeat 0 200%nat) zero_state) as A.
  destruct (absorbed (8 * n) (repeat 0 200%nat) m) as [b r]. destruct A as (SB & FR & LR). cbn [fst snd bind].
  rewrite read_bytes_all by lia. cbn [bind]. rewrite (proj2 (Nat.leb_le _ 144)) by lia. cbn [c_assert bind].
  rewrite keccak_temp_pad, (Nat.mul_comm 8 n), Nat.div_mul, (Nat.mul_comm n 8) by lia.
  assert (FP : Forall is_byte (pad_block (8 * n) 1 r)) by (apply pad_block_byte; [unfold is_byte; lia | exact FR]).
  rewrite keccakf_block by (assumption || lia).
  rewrite (take_ge (pad_block (8 * n) 1 r)) by (rewrite length_pad_block; lia). rewrite bytes_lanes by apply absorb_block_state. reflexivity.
Qed.

Lemma keccak_ok m mdlen : Forall is_byte m ->
  mdlen = 200%nat \/ (28 <= mdlen < 100 /\ mdlen mod 4 = 0)%nat ->
  keccak m (Z.of_nat (length m)) mdlen = Some (sponge (if (mdlen =? 200)%nat then 136 else 200 - 2 * mdlen) 1 mdlen m).
Proof.
  intros F M. unfold keccak. set (rsiz := (if mdlen =? 200 then 136 else 200 - 2 * mdlen)%nat).
  assert (R : rsiz = (8 * (rsiz / 8))%nat /\ (0 < rsiz / 8 <= 18)%nat).
  { unfold rsiz. destruct M as [->|[M1 M2]]; [split; [reflexivity | cbn; lia]|].
    rewrite (proj2 (Nat.eqb_neq mdlen 200)) by lia.
    pose proof (Nat.div_mod mdlen 4 ltac:(lia)) as D. rewrite M2 in D.
    replace (200 - 2 * mdlen)%nat with ((25 - mdlen / 4) * 8)%nat by lia. rewrite Nat.div_mul by lia. lia. }
  destruct R as [R1 R2]. clearbody rsiz.
  rewrite (proj2 (Nat.eqb_neq rsiz 0)), (proj2 (Nat.ltb_ge 144 rsiz)) by lia. cbn [orb].
  exact (keccak_rate_ok rsiz (rsiz / 8) m mdlen R1 R2 F).
Qed.

(** A negative int ends the loop at once and is a huge size for memcpy. *)
Lemma keccak_negative m inlen mdlen : - 2 ^ 31 <= inlen < 0 -> Z.of_nat (length m) < 2 ^ 63 -> keccak m inlen mdlen = None.
Proof.
  intros N L. unfold keccak. set (rsiz := (if mdlen =? 200 then 136 else 200 - 2 * mdlen)%nat). clearbody rsiz.
  destruct ((rsiz =? 0)%nat || (144 <? rsiz)%nat); [reflexivity|].
  assert (E : forall fuel, keccak_absorb fuel rsiz (repeat 0 25%nat) m inlen = Some (repeat 0 25%nat, m, inlen))
    by (intros [|fuel]; cbn [keccak_absorb]; now rewrite (proj2 (Z.ltb_lt inlen _)) by lia).
  rewrite E. cbn [bind]. now rewrite read_bytes_negative.
Qed.

Lemma cn_fast_hash_ok m : Forall is_byte m -> Z.of_nat (length m) < 2 ^ 31 ->
  cn_fast_hash m (Z.of_nat (length m)) = Some (keccak256 m).
Proof.
  intros F L. unfold cn_fast_hash, hash_process, keccak1600. rewrite to_i32_id by (unfold imin, imax; lia).
  rewrite keccak_ok by (try exact F; now left). cbn [bind Nat.eqb].
  unfold keccak256. rewrite !sponge_absorbed. destruct (absorbed 136 (repeat 0 200%nat) m) as [b r].
  now rewrite take_take.
Qed.

(** What the narrowing of the length does from 2^31 bytes on. *)
Lemma cn_fast_hash_narrow m : (2 ^ 31 <= Z.of_nat (length m) < 2 ^ 32 -> cn_fast_hash m (Z.of_nat (length m)) = None) /\
  cn_fast_hash m (2 ^ 32) = Some (keccak256 []).
Proof.
  unfold cn_fast_hash, hash_process, keccak1600. split.
  - intros L. rewrite to_i32_negative by lia. now rewrite keccak_negative by lia.
  - change (to_i32 (2 ^ 32)) with 0.
    assert (E : keccak m 0 200 = keccak [] 0 200) by (unfold keccak; cbn [Nat.eqb orb]; destruct m; reflexivity).
    rewrite E. exact (cn_fast_hash_ok [] (List.Forall_nil _) eq_refl).
Qed.

(** A digest shorter than 28 bytes has a rate above the 144 bytes of temp, and one
    of 100 bytes a rate of 0, for which the loop over blocks never ends. *)
Lemma keccak_temp_overflow m inlen mdlen : (mdlen < 28 \/ mdlen = 100)%nat -> keccak m inlen mdlen = None.
Proof.
  intros M. unfold keccak. rewrite (proj2 (Nat.eqb_neq mdlen 200)) by lia.
  destruct (Nat.eqb_spec (200 - 2 * mdlen) 0), (Nat.ltb_spec 144 (200 - 2 * mdlen)); try reflexivity; lia.
Qed.

(** ** ethash_keccak256 and ethash_keccak512 *)

(** A word depends on the bytes at its eight positions only. *)
Lemma le_val_lanes a : forall b, (forall j, lane a j = lane b j) -> le_val a = le_val b.
Proof.
  induction a as [|x a IH].
  - induction b as [|y b IHb]; intros H; [reflexivity|]. cbn [le_val]. rewrite <- IHb.
    + pose proof (H 0%nat) as H0. unfold lane in H0. cbn in H0. cbn [le_val]. lia.
    + intros j. rewrite (lane_over [] j) by (cbn; lia). specialize (H (S j)).
      rewrite lane_over in H by (cbn; lia). exact H.
  - intros [|y b] H.
    + cbn [le_val]. rewrite (IH []).
      * pose proof (H 0%nat) as H0. unfold lane in H0. cbn in H0. rewrite H0. reflexivity.
      * intros j. specialize (H (S j)). rewrite (lane_over [] (S j)) in H by (cbn; lia).
        rewrite (lane_over [] j) by (cbn; lia). exact H.
    + cbn [le_val]. rewrite (IH b).
      * pose proof (H 0%nat) as H0. unfold lane in H0. cbn in H0. now rewrite H0.
      * intros j. exact (H (S j)).
Qed.

Lemma word_lanes a b i k : (forall j, (j < 8)%nat -> lane a (8 * i + j) = lane b (8 * k + j)) -> word a i = word b k.
Proof.
  intros H. apply le_val_lanes. intros j. rewrite !lane_take, !lane_drop.
  destruct (Nat.ltb_spec j 8); [now apply H | reflexivity].
Qed.

Lemma kawpow_words_ok fuel : forall it st data, (length data <= fuel)%nat ->
  (it + length data / 8 <= length st)%nat ->
  exists st', kawpow_words fuel it st data = Some ((it + length data / 8)%nat, st', drop (8 * (length data / 8)) data) /\
    length st' = length st /\
    forall i, lane st' i = if (it <=? i)%nat && (i <? it + length data / 8)%nat
                           then Z.lxor (lane st i) (word data (i - it)) else lane st i.
Proof.
  induction fuel as [|fuel IH]; intros it st data F L.
  - destruct data; [|cbn in F; lia]. exists st. rewrite Nat.add_0_r. split; [reflexivity|]. split; [reflexivity|].
    intros i. destruct (Nat.leb_spec it i), (Nat.ltb_spec i it); try reflexivity; lia.
  - cbn [kawpow_words]. destruct (Nat.ltb_spec (length data) 8) as [Sh|Sh].
    + rewrite Nat.div_small by exact Sh. rewrite Nat.add_0_r. exists st. split; [reflexivity|]. split; [reflexivity|].
      intros i. destruct (Nat.leb_spec it i), (Nat.ltb_spec i it); try reflexivity; lia.
    + assert (D : (length data / 8 = S (length (drop 8 data) / 8))%nat).
      { rewrite length_drop. replace (length data) with (length data - 8 + 1 * 8)%nat at 1 by lia.
        rewrite Nat.div_add by lia. lia. }
      rewrite D in *. set (st1 := <[it := Z.lxor (lane st it) (word data 0)]> st).
      destruct (IH (S it) st1 (drop 8 data)) as (st' & -> & L' & H).
      * rewrite length_drop. lia.
      * unfold st1. rewrite length_insert. lia.
      * exists st'. rewrite drop_drop. split; [do 2 f_equal; [f_equal; lia | f_equal; lia]|].
        split; [unfold st1 in L'; now rewrite length_insert in L'|].
        intros i. rewrite H. unfold st1. rewrite lane_insert.
        assert (W : (S it <= i)%nat -> word (drop 8 data) (i - S it) = word data (i - it)).
        { intros Hi. unfold word. rewrite drop_drop. do 3 f_equal. lia. }
        destruct (Nat.eqb_spec it i) as [<-|N].
        -- rewrite (proj2 (Nat.leb_gt (S it) it)), (proj2 (Nat.ltb_lt it (length st))), Nat.leb_refl by lia.
           rewrite (proj2 (Nat.ltb_lt it (it + _))), Nat.sub_diag by lia. reflexivity.
        -- cbn [andb]. replace (S it + length (drop 8 data) / 8)%nat with (it + S (length (drop 8 data) / 8))%nat by lia.
           destruct (Nat.leb_spec (S it) i), (Nat.leb_spec it i); try lia; [now rewrite W by lia | reflexivity].
Qed.

(** The lanes of the padded block, as the code builds them. *)
Lemma word_last_bit n i : (0 < n)%nat -> (i < n)%nat ->
  word (repeat 0 (8 * n - 1) ++ [128]) i = if (i =? n - 1)%nat then 0x8000000000000000 else 0.
Proof.
  intros N I. destruct (Nat.eqb_spec i (n - 1)) as [->|Ni].
  - transitivity (word (repeat 0 7 ++ [128]) 0); [|reflexivity]. apply word_lanes. intros j J.
    rewrite !lane_app, !lane_repeat, !repeat_length.
    destruct (Nat.ltb_spec (8 * (n - 1) + j) (8 * n - 1)), (Nat.ltb_spec (8 * 0 + j) 7); try lia.
    f_equal. lia.
  - transitivity (word [] 0); [|reflexivity]. apply word_lanes. intros j J.
    rewrite lane_app, lane_repeat, repeat_length, (proj2 (Nat.ltb_lt _ (8 * n - 1))) by lia.
    symmetry. apply lane_over. cbn. lia.
Qed.

Lemma word_suffix k m i :
  word (m ++ 1 :: repeat 0 k) i =
  if (i <? length m / 8)%nat then word m i
  else if (i =? length m / 8)%nat then le_val (drop (8 * (length m / 8)) m ++ [1]) else 0.
Proof.
  pose proof (Nat.div_mod (length m) 8 ltac:(lia)) as D. pose proof (Nat.mod_upper_bound (length m) 8 ltac:(lia)) as U.
  set (q := (length m / 8)%nat) in *.
  assert (E : forall j, lane (m ++ 1 :: repeat 0 k) j = lane (m ++ [1]) j).
  { intros j. rewrite (app_assoc m [1] (repeat 0 k) : m ++ 1 :: repeat 0 k = _), (lane_app (m ++ [1])).
    destruct (Nat.ltb_spec j (length (m ++ [1]))); [reflexivity|].
    rewrite lane_repeat, (lane_over (m ++ [1])) by lia. now destruct (_ <? _)%nat. }
  destruct (Nat.ltb_spec i q).
  - apply word_lanes. intros j J. now rewrite E, lane_app, (proj2 (Nat.ltb_lt _ (length m))) by lia.
  - destruct (Nat.eqb_spec i q) as [->|N].
    + apply le_val_lanes. intros j. rewrite lane_take, lane_drop, E, !lane_app, lane_drop, length_drop.
      destruct (Nat.ltb_spec j 8), (Nat.ltb_spec (8 * q + j) (length m)), (Nat.ltb_spec j (length m - 8 * q));
        try lia; try reflexivity.
      * f_equal. lia.
      * symmetry. apply lane_over. cbn [length]. lia.
    + transitivity (word [] 0); [|reflexivity]. apply word_lanes. intros j J.
      rewrite E, !lane_over; [reflexivity | cbn; lia | rewrite length_app; cbn [length]; lia].
Qed.

Lemma word_pad n m i : (length m < 8 * n)%nat -> Forall is_byte m -> (i < n)%nat ->
  word (pad_block (8 * n) 1 m) i =
  Z.lxor (if (i <? length m / 8)%nat then word m i
          else if (i =? length m / 8)%nat then le_val (drop (8 * (length m / 8)) m ++ [1]) else 0)
         (if (i =? n - 1)%nat then 0x8000000000000000 else 0).
Proof.
  intros L F I. unfold pad_block. rewrite word_xor_bytes.
  - now rewrite word_suffix, word_last_bit by lia.
  - apply Forall_app. split; [exact F|]. constructor; [unfold is_byte; lia | apply zeros_byte].
  - apply Forall_app. split; [apply zeros_byte|]. constructor; [unfold is_byte; lia | constructor].
  - rewrite !length_app. cbn [length]. rewrite !repeat_length. lia.
Qed.

Lemma length_absorbed_rest rate m b : (0 < rate)%nat -> (length (snd (absorbed rate b m)) < rate)%nat.
Proof.
  intros R. revert m b. refine (blocks_ind rate _ R _ _); [intros m L b | intros m L IH b].
  - now rewrite absorbed_short.
  - rewrite absorbed_step by lia. apply IH.
Qed.

Lemma length_absorbed_state rate m b : (0 < rate)%nat -> length b = 200%nat ->
  length (fst (absorbed rate b m)) = 200%nat.
Proof.
  intros R. revert m b. refine (blocks_ind rate _ R _ _); [intros m L b B | intros m L IH b B].
  - now rewrite absorbed_short.
  - rewrite absorbed_step by lia. apply IH, perm_state.
Qed.

Lemma take_bytes_of k st : bytes_of (take k st) = take (8 * k) (bytes_of st).
Proof.
  unfold bytes_of. revert st. induction k as [|k IH]; intros [|x st]; try reflexivity.
  cbn [take map concat]. rewrite IH. replace (8 * S k)%nat with (8 + 8 * k)%nat by lia.
  now rewrite (take_app_add' (le_bytes 8 x)) by (now rewrite length_le_bytes).
Qed.

(** The last block of keccak, word by word. *)
Lemma kawpow_last n b r : is_state b -> Forall is_byte r -> (0 < n <= 25)%nat -> (length r < 8 * n)%nat ->
  (let! (it, state, data) := kawpow_words (length r) 0 (lanes_of b) r in
   let state := <[it := Z.lxor (lane state it) (le_val (data ++ [1]))]> state in
   Some (<[(n - 1)%nat := Z.lxor (lane state (n - 1)) 0x8000000000000000]> state))
  = Some (lanes_of (xor_bytes b (pad_block (8 * n) 1 r))).
Proof.
  intros [LB B] F N L. pose proof (Nat.div_mod (length r) 8 ltac:(lia)) as D.
  assert (Q : (length r / 8 < n)%nat) by (apply Nat.Div0.div_lt_upper_bound; lia).
  destruct (kawpow_words_ok (length r) 0 (lanes_of b) r) as (st & -> & LS & H); [lia | rewrite lanes_of_length; lia|].
  rewrite lanes_of_length in LS. cbn [bind Nat.add] in *. set (q := (length r / 8)%nat) in *.
  set (lw := le_val (drop (8 * q) r ++ [1])). f_equal.
  set (g := fun i => if (i <? q)%nat then word r i else if (i =? q)%nat then lw else 0).
  assert (H1 : forall i, (i < 25)%nat -> lane (<[q := Z.lxor (lane st q) lw]> st) i = Z.lxor (word b i) (g i)).
  { intros i I. rewrite lane_insert, LS, !H, (proj2 (Nat.ltb_lt i 25) I), andb_true_r, !Nat.sub_0_r.
    unfold g. cbn [Nat.leb andb]. rewrite Nat.ltb_irrefl, (Nat.eqb_sym i q), !lane_lanes_of by lia.
    destruct (Nat.eqb_spec q i) as [<-|Nq]; [now rewrite Nat.ltb_irrefl|].
    destruct (i <? q)%nat; [reflexivity | now rewrite Z.lxor_0_r]. }
  set (st1 := <[q := _]> st) in *. assert (LS1 : length st1 = 25%nat) by (unfold st1; now rewrite length_insert).
  clearbody st1. apply lane_ext; [now rewrite length_insert, LS1|]. intros i I. rewrite length_insert, LS1 in I.
  assert (FP : Forall is_byte (pad_block (8 * n) 1 r)) by (apply pad_block_byte; [unfold is_byte; lia | exact F]).
  rewrite lane_lanes_of, word_xor_bytes by (assumption || rewrite ?length_pad_block; lia).
  rewrite lane_insert, LS1, (proj2 (Nat.ltb_lt i 25) I), andb_true_r, !H1, (Nat.eqb_sym (n - 1) i) by lia.
  destruct (Nat.lt_ge_cases i n) as [In|In].
  - rewrite word_pad by assumption. fold q. fold lw. change (if (i <? q)%nat then _ else _) with (g i).
    destruct (Nat.eqb_spec i (n - 1)) as [->|Ni]; [apply Z.lxor_assoc | now rewrite Z.lxor_0_r].
  - rewrite (proj2 (Nat.eqb_neq i (n - 1))) by lia. f_equal.
    unfold g. rewrite (proj2 (Nat.ltb_ge i q)), (proj2 (Nat.eqb_neq i q)) by lia.
    unfold word. rewrite drop_ge; [reflexivity|]. rewrite length_pad_block; lia.
Qed.

Lemma kawpow_keccak_ok bits n m : ((1600 - bits * 2) / 8 = 8 * n)%nat -> (0 < n <= 25)%nat -> Forall is_byte m ->
  kawpow_keccak bits m = Some (sponge (8 * n) 1 (8 * (bits / 8 / 8)) m).
Proof.
  intros E N F. unfold kawpow_keccak. rewrite E, <- lanes_zero, kawpow_absorb_ok by (assumption || lia || apply zero_state).
  cbn [bind]. rewrite sponge_absorbed.
  pose proof (absorbed_ok (8 * n) m ltac:(lia) F (repeat 0 200%nat) zero_state) as A.
  destruct (absorbed (8 * n) (repeat 0 200%nat) m) as [b r]. destruct A as (SB & FR & LR). cbn [fst snd] in *.
  pose proof (kawpow_last n b r SB FR N LR) as K.
  replace (8 * n / 8)%nat with n by (rewrite (Nat.mul_comm 8 n), Nat.div_mul; lia).
  destruct (kawpow_words (length r) 0 (lanes_of b) r) as [[[it st] data]|]; [|discriminate].
  cbn [bind] in *. apply Some_inj in K. rewrite K. f_equal.
  rewrite take_bytes_of, ethash_keccakf1600_eq by apply lanes_of_length.
  unfold absorb_block. now rewrite perm_keccakf.
Qed.

Lemma ethash_keccak256_ok m : Forall is_byte m -> ethash_keccak256 m = Some (keccak256 m).
Proof. intros F. exact (kawpow_keccak_ok 256 17 m eq_refl ltac:(lia) F). Qed.

Lemma ethash_keccak512_ok m : Forall is_byte m -> ethash_keccak512 m = Some (keccak512 m).
Proof. intros F. exact (kawpow_keccak_ok 512 9 m eq_refl ltac:(lia) F). Qed.

(** ** libethhash/sha3.c *)

Lemma xor_at_comm_block b i x r : (length r <= i)%nat -> (i < length b)%nat ->
  xor_bytes (xor_at b i x) r = xor_at (xor_bytes b r) i x.
Proof.
  intros R I. apply lane_ext; [now rewrite length_xor_bytes, !length_xor_at, length_xor_bytes|].
  intros j _. rewrite lane_xor_bytes by (rewrite length_xor_at; lia).
  rewrite !xor_at_lane, lane_xor_bytes by (rewrite ?length_xor_bytes; lia).
  rewrite !Z.lxor_assoc. f_equal. apply Z.lxor_comm.
Qed.

Lemma eth_hash_ok outlen m rate delim : (0 < rate < 200)%nat -> (outlen < rate)%nat ->
  eth_hash outlen m rate delim = Some (sponge rate delim outlen m).
Proof.
  intros R O. unfold eth_hash. rewrite (proj2 (Nat.leb_gt 200 rate)), eth_absorb_ok by lia. cbn [bind].
  rewrite sponge_absorbed. pose proof (length_absorbed_rest rate m (repeat 0 200%nat) ltac:(lia)) as LR.
  pose proof (length_absorbed_state rate m (repeat 0 200%nat) ltac:(lia) eq_refl) as LB.
  destruct (absorbed rate (repeat 0 200%nat) m) as [b r]. cbn [fst snd] in *.
  rewrite !xor_at_comm_block by (rewrite ?length_xor_at; lia).
  rewrite xor_at_pad, eth_perm_eq by lia.
  destruct outlen; cbn [eth_squeeze]; now rewrite (proj2 (Nat.ltb_lt _ rate) O).
Qed.

(** ** tiny_sha3 *)

Lemma sha3_keccakf_perm b : sha3_keccakf b = perm b.
Proof. apply perm_keccakf. Qed.

(** What a context has absorbed: [absorbs c m]. *)
Definition absorbs (c : sha3_ctx) (m : list Z) : Prop :=
  let '(b, r) := absorbed (rsiz c) (repeat 0 200%nat) m in
  st_b c = xor_bytes b r /\ pt c = length r.

Lemma xor_at_next b r x : (length r < length b)%nat -> xor_at (xor_bytes b r) (length r) x = xor_bytes b (r ++ [x]).
Proof.
  intros R. assert (LX : length (r ++ [x]) = S (length r)) by (rewrite length_app; cbn; lia).
  apply lane_ext; [now rewrite length_xor_at, !length_xor_bytes|].
  intros i _. rewrite xor_at_lane by (rewrite length_xor_bytes; lia). rewrite !lane_xor_bytes by lia.
  rewrite lane_app, Z.lxor_assoc. f_equal. destruct (Nat.eqb_spec (length r) i) as [<-|N].
  - rewrite (lane_over r), Nat.ltb_irrefl, Nat.sub_diag by lia. apply Z.lxor_0_l.
  - rewrite Z.lxor_0_r. destruct (Nat.ltb_spec i (length r)); [reflexivity|].
    rewrite !lane_over; [reflexivity | cbn [length]; lia | lia].
Qed.

(** Absorbing more: only the rest of the message matters. *)
Lemma absorbed_app rate m m' b : (0 < rate)%nat ->
  absorbed rate b (m ++ m') = absorbed rate (fst (absorbed rate b m)) (snd (absorbed rate b m) ++ m').
Proof.
  intros R. revert m b. refine (blocks_ind rate _ R _ _); [intros m L b | intros m L IH b].
  - now rewrite (absorbed_short rate b m).
  - rewrite (absorbed_step rate b m), <- IH by lia. rewrite absorbed_step by (rewrite length_app; lia).
    now rewrite take_app_le, drop_app_le by lia.
Qed.

Lemma sha3_update_byte_ok rate b r x : (0 < rate <= length b)%nat -> (length r < rate)%nat ->
  sha3_update_byte rate (xor_bytes b r, length r) x =
  let '(b', r') := absorbed rate b (r ++ [x]) in (xor_bytes b' r', length r').
Proof.
  intros R L. cbn [sha3_update_byte]. rewrite xor_at_next by lia.
  assert (LX : length (r ++ [x]) = S (length r)) by (rewrite length_app; cbn; lia).
  destruct (Nat.leb_spec rate (S (length r))) as [G|G].
  - rewrite absorbed_step, take_ge, drop_ge, absorbed_short by (cbn [length]; lia).
    now rewrite xor_bytes_nil_r, sha3_keccakf_perm.
  - now rewrite absorbed_short, LX by lia.
Qed.

Lemma sha3_update_absorbs c m data : (0 < rsiz c <= 200)%nat -> absorbs c m ->
  absorbs (sha3_update c data) (m ++ data) /\ rsiz (sha3_update c data) = rsiz c /\ mdlen (sha3_update c data) = mdlen c.
Proof.
  destruct c as [b j rate md]. unfold absorbs, sha3_update. cbn [st_b pt rsiz mdlen]. intros R A.
  destruct (fold_left (sha3_update_byte rate) data (b, j)) as [b' j'] eqn:E. cbn [st_b pt rsiz mdlen].
  split; [|auto]. revert m b j A E. induction data as [|x data IH]; intros m b j A E.
  - cbn [fold_left] in E. injection E as <- <-. now rewrite app_nil_r.
  - cbn [fold_left] in E. destruct (sha3_update_byte rate (b, j) x) as [b1 j1] eqn:U.
    rewrite (app_assoc m [x] data : m ++ x :: data = _). apply (IH (m ++ [x]) b1 j1); [|exact E].
    pose proof (length_absorbed_rest rate m (repeat 0 200%nat) ltac:(lia)) as LR.
    pose proof (length_absorbed_state rate m (repeat 0 200%nat) ltac:(lia) eq_refl) as LB.
    rewrite absorbed_app by lia.
    destruct (absorbed rate (repeat 0 200%nat) m) as [b0 r]. cbn [fst snd] in *. destruct A as [-> ->].
    rewrite sha3_update_byte_ok in U by lia.
    destruct (absorbed rate b0 (r ++ [x])) as [b2 r2]. injection U as <- <-. auto.
Qed.

Lemma sha3_init_absorbs mdlen : (mdlen < 100)%nat -> absorbs (sha3_init mdlen) [].
Proof. intros M. unfold absorbs, sha3_init. cbn [rsiz st_b pt]. rewrite absorbed_short by (cbn; lia). auto. Qed.

Lemma sha3_final_absorbs c m : (0 < rsiz c <= 200)%nat -> absorbs c m ->
  sha3_final c = sponge (rsiz c) 6 (mdlen c) m.
Proof.
  destruct c as [b j rate md]. unfold absorbs, sha3_final. cbn [st_b pt rsiz mdlen]. intros R A.
  rewrite sponge_absorbed.
  pose proof (length_absorbed_rest rate m (repeat 0 200%nat) ltac:(lia)) as LR.
  pose proof (length_absorbed_state rate m (repeat 0 200%nat) ltac:(lia) eq_refl) as LB.
  destruct (absorbed rate (repeat 0 200%nat) m) as [b0 r]. cbn [fst snd] in *. destruct A as [-> ->].
  now rewrite xor_at_pad, sha3_keccakf_perm by lia.
Qed.

(** [shake_out] writes the bytes of the successive states. *)
Definition squeeze_byte (rate : nat) (b : list Z) (i : nat) : Z := lane (Nat.iter (i / rate) perm b) (i mod rate).

Lemma squeeze_byte_next rate b i : (0 < rate)%nat -> squeeze_byte rate b (rate + i) = squeeze_byte rate (perm b) i.
Proof.
  intros R. unfold squeeze_byte. replace (rate + i)%nat with (i + 1 * rate)%nat by lia.
  rewrite Nat.div_add, Nat.Div0.mod_add, Nat.add_1_r, Nat.iter_succ_r by lia. reflexivity.
Qed.

Lemma shake_out_bytes n : forall b j rate md, (0 < rate)%nat -> (j <= rate)%nat ->
  fst (shake_out n (mkctx b j rate md)) = map (fun i => squeeze_byte rate b (j + i)) (seq 0 n).
Proof.
  induction n as [|n IH]; intros b j rate md R J; [reflexivity|]. cbn [shake_out rsiz pt seq map].
  destruct (Nat.leb_spec rate j) as [G|G]; cbn [st_b pt rsiz mdlen].
  - pose proof (IH (sha3_keccakf b) 1%nat rate md R ltac:(lia)) as H.
    destruct (shake_out n _) as [out c']. cbn [fst] in *. rewrite H, <- seq_shift, map_map.
    replace j with rate by lia. rewrite sha3_keccakf_perm. f_equal.
    + rewrite squeeze_byte_next by exact R. unfold squeeze_byte. now rewrite Nat.div_small, Nat.mod_small by lia.
    + apply map_ext. intros i. now rewrite squeeze_byte_next by exact R.
  - pose proof (IH b (S j) rate md R ltac:(lia)) as H.
    destruct (shake_out n _) as [out c']. cbn [fst] in *. rewrite H, <- seq_shift, map_map. f_equal.
    + rewrite Nat.add_0_r. unfold squeeze_byte. now rewrite Nat.div_small, Nat.mod_small by lia.
    + apply map_ext. intros i. f_equal. lia.
Qed.

Lemma sponge_take rate suffix n k m : (n <= k)%nat -> sponge rate suffix n m = take n (sponge rate suffix k m).
Proof.
  intros L. rewrite !sponge_absorbed. destruct (absorbed rate (repeat 0 200%nat) m) as [b r].
  now rewrite take_take, Nat.min_l by exact L.
Qed.

Lemma shake_xof_absorbs c m : (0 < rsiz c <= 200)%nat -> absorbs c m ->
  let '(b, r) := absorbed (rsiz c) (repeat 0 200%nat) m in
  shake_xof c = mkctx (absorb_block b (pad_block (rsiz c) 31 r)) 0 (rsiz c) (mdlen c).
Proof.
  destruct c as [b j rate md]. unfold absorbs, shake_xof. cbn [st_b pt rsiz mdlen]. intros R A.
  pose proof (length_absorbed_rest rate m (repeat 0 200%nat) ltac:(lia)) as LR.
  pose proof (length_absorbed_state rate m (repeat 0 200%nat) ltac:(lia) eq_refl) as LB.
  destruct (absorbed rate (repeat 0 200%nat) m) as [b0 r]. cbn [fst snd] in *. destruct A as [-> ->].
  now rewrite xor_at_pad, sha3_keccakf_perm by lia.
Qed.

(** Feeding a context in pieces. *)
Lemma sha3_updates_absorb mdl chunks : (mdl < 100)%nat ->
  let c := fold_left sha3_update chunks (sha3_init mdl) in
  absorbs c (concat chunks) /\ rsiz c = (200 - 2 * mdl)%nat /\ mdlen c = mdl.
Proof.
  intros M. cbv zeta. rewrite <- (app_nil_l (concat chunks)).
  assert (G : absorbs (sha3_init mdl) [] /\ rsiz (sha3_init mdl) = (200 - 2 * mdl)%nat /\ mdlen (sha3_init mdl) = mdl)
    by (split; [now apply sha3_init_absorbs | auto]).
  revert G. generalize (@nil Z) as m, (sha3_init mdl) as c.
  induction chunks as [|d chunks IH]; intros m c (A & R & E).
  - cbn [concat fold_left]. rewrite app_nil_r. auto.
  - cbn [concat fold_left]. rewrite app_assoc.
    destruct (sha3_update_absorbs c m d ltac:(lia) A) as (A' & R' & E').
    apply IH. rewrite R', E'. auto.
Qed.

(** ** Properties *)

(** keccak(in, inlen, md, mdlen) returns the sponge with the padding of the
    first Keccak submission: the rate is 136 for mdlen = 200 (the whole state, as
    keccak1600 calls it) and 200 - 2 * mdlen otherwise, for every digest length
    whose rate is a whole number of words that fits temp; cn_fast_hash is
    Keccak-256. The absorbing loop ends within inlen steps. *)
Theorem keccak_correct m mdlen : Forall is_byte m -> Z.of_nat (length m) < 2 ^ 31 ->
  mdlen = 200%nat \/ (28 <= mdlen < 100 /\ mdlen mod 4 = 0)%nat ->
  keccak m (Z.of_nat (length m)) mdlen = Some (sponge (if (mdlen =? 200)%nat then 136 else 200 - 2 * mdlen) 1 mdlen m) /\
  cn_fast_hash m (Z.of_nat (length m)) = Some (keccak256 m).
Proof. intros F L M. split; [now apply keccak_ok | now apply cn_fast_hash_ok]. Qed.

Lemma abc_bytes : Forall is_byte [97; 98; 99].
Proof. repeat constructor; unfold is_byte; lia. Qed.

Lemma keccak_correct_witness :
  cn_fast_hash [97; 98; 99] 3 = Some (keccak256 [97; 98; 99]) /\
  le_val (rev (default [] (keccak [97; 98; 99] 3 32))) =
    0x4e03657aea45a94fc7d47ba826c8d667c0d1e6e33a64a036ec44f58fa12d6c45.
Proof.
  split; [|vm_compute; reflexivity].
  exact (proj2 (keccak_correct [97; 98; 99] 32 abc_bytes eq_refl ltac:(right; split; [lia | reflexivity]))).
Defined.

(** C28.  The three implementations of Keccak-256 and the two of Keccak-512 in the
    native libraries (libcryptonote, libkawpow, libethhash) agree on every byte
    string below 2^31 bytes, although one copies the last block, one xors it word by
    word and one xors its padding in place.  From there on libcryptonote's length, an
    int, is another one: up to 2^32 bytes it is negative and its memcpy is out of
    bounds, and 2^32 bytes hash as none, while the other two agree with each other on
    every length. *)
Theorem keccak_implementations_agree m : Forall is_byte m ->
  (Z.of_nat (length m) < 2 ^ 31 ->
     cn_fast_hash m (Z.of_nat (length m)) = ethash_keccak256 m /\ keccak m (Z.of_nat (length m)) 64 = ethash_keccak512 m) /\
  ethash_keccak256 m = sha3_256 32 m /\ ethash_keccak512 m = sha3_512 64 m /\
  (2 ^ 31 <= Z.of_nat (length m) < 2 ^ 32 -> cn_fast_hash m (Z.of_nat (length m)) = None) /\
  cn_fast_hash m (2 ^ 32) = ethash_keccak256 [].
Proof.
  intros F. destruct (cn_fast_hash_narrow m) as [Neg Zero].
  rewrite Zero, !ethash_keccak256_ok, ethash_keccak512_ok by (exact F || apply List.Forall_nil).
  unfold sha3_256, sha3_512, eth_sha3. split; [|split; [|split; [|split]]].
  - intros L. rewrite cn_fast_hash_ok by assumption. split; [reflexivity|].
    rewrite keccak_ok by (exact F || (right; split; [lia | reflexivity])). reflexivity.
  - symmetry. apply eth_hash_ok; cbn; lia.
  - symmetry. apply eth_hash_ok; cbn; lia.
  - exact Neg.
  - reflexivity.
Qed.

Lemma keccak_implementations_agree_witness :
  cn_fast_hash (repeat 7 200) 200 = ethash_keccak256 (repeat 7 200) /\ ethash_keccak256 [] = sha3_256 32 [].
Proof.
  assert (F : Forall is_byte (repeat 7 200)) by (apply Forall_forall; intros x X;
    apply list_elem_of_In, repeat_spec in X; rewrite X; unfold is_byte; lia).
  split; [exact (proj1 (proj1 (keccak_implementations_agree (repeat 7 200) F) eq_refl))|].
  exact (proj1 (proj2 (keccak_implementations_agree [] (List.Forall_nil _)))).
Defined.

(** sha3_256 and sha3_512 of libethhash refuse an output longer than the
    digest (they return -1); for any other length they write that prefix of the
    Keccak digest (the delimiter is 0x01, so not FIPS 202's SHA-3). *)
Theorem eth_sha3_outlen bits outlen m : bits = 256%nat \/ bits = 512%nat ->
  eth_sha3 bits outlen m =
  if (bits / 8 <? outlen)%nat then None
  else Some (take outlen (sponge (200 - bits / 4) 1 (bits / 8) m)).
Proof.
  intros B. unfold eth_sha3. destruct (Nat.ltb_spec (bits / 8) outlen) as [L|L]; [reflexivity|].
  rewrite <- sponge_take by exact L.
  apply eth_hash_ok; destruct B as [-> | ->]; cbn in *; lia.
Qed.

Lemma eth_sha3_outlen_witness :
  sha3_256 33 [1] = None /\ sha3_256 20 [1] = Some (take 20 (keccak256 [1])).
Proof.
  split; [exact (eth_sha3_outlen 256 33 [1] (or_introl eq_refl))|
          exact (eth_sha3_outlen 256 20 [1] (or_introl eq_refl))].
Defined.

(** C27.  tiny_sha3's incremental interface: however a message is cut into
    sha3_update calls (empty ones included, across block boundaries), sha3_final
    gives FIPS 202's SHA-3 of the concatenation: rate 200 - 2 * mdlen, suffix 0x06. *)
Theorem sha3_streaming mdl chunks : (0 < mdl < 100)%nat ->
  sha3_final (fold_left sha3_update chunks (sha3_init mdl)) = sha3_spec mdl (concat chunks) /\
  sha3 (concat chunks) mdl = sha3_spec mdl (concat chunks).
Proof.
  intros M. destruct (sha3_updates_absorb mdl chunks ltac:(lia)) as (A & R & E).
  destruct (sha3_updates_absorb mdl [concat chunks] ltac:(lia)) as (A1 & R1 & E1).
  unfold sha3. cbn [fold_left concat] in A1, R1, E1. rewrite app_nil_r in A1.
  split; (erewrite sha3_final_absorbs by (eassumption || lia)); [now rewrite R, E | now rewrite R1, E1].
Qed.

Lemma sha3_streaming_witness :
  sha3_final (fold_left sha3_update [[97]; []; [98; 99]] (sha3_init 32)) = sha3 [97; 98; 99] 32 /\
  le_val (rev (sha3 [97; 98; 99] 32)) = 0x3a985da74fe225b2045c172d6bd390bd855f086e3e9d525b46bfe24511431532.
Proof.
  split; [|vm_compute; reflexivity].
  destruct (sha3_streaming 32 [[97]; []; [98; 99]] ltac:(lia)) as [-> E]. symmetry. exact E.
Defined.

(** SHAKE: after any sequence of updates and shake_xof, [n] bytes read by
    shake_out are the first [n] of the endless squeeze (byte [i] is byte [i mod
    rate] of the state after [i / rate] more permutations), and reading them in
    two calls gives the same bytes as in one. *)
Theorem shake_correct mdl chunks n k : (0 < mdl < 100)%nat ->
  let c := shake_xof (fold_left sha3_update chunks (sha3_init mdl)) in
  let rate := (200 - 2 * mdl)%nat in
  let '(b, r) := absorbed rate (repeat 0 200%nat) (concat chunks) in
  fst (shake_out n c) = map (squeeze_byte rate (absorb_block b (pad_block rate 31 r))) (seq 0 n) /\
  fst (shake_out (n + k) c) = fst (shake_out n c) ++ fst (shake_out k (snd (shake_out n c))).
Proof.
  intros M. cbv zeta. destruct (sha3_updates_absorb mdl chunks ltac:(lia)) as (A & R & E).
  pose proof (shake_xof_absorbs _ _ ltac:(rewrite R; lia) A) as X. rewrite R, E in X.
  destruct (absorbed _ _ _) as [b r]. rewrite X. split.
  - apply shake_out_bytes; lia.
  - generalize (mkctx (absorb_block b (pad_block (200 - 2 * mdl) 31 r)) 0 (200 - 2 * mdl) mdl) as c. clear.
    induction n as [|n IH]; intros c; [reflexivity|]. cbn [Nat.add shake_out].
    set (c1 := if (rsiz c <=? pt c)%nat then _ else c).
    specialize (IH (mkctx (st_b c1) (S (pt c1)) (rsiz c1) (mdlen c1))).
    destruct (shake_out n _) as [o1 d1]. destruct (shake_out (n + k) _) as [o2 d2]. cbn [fst snd] in *.
    now rewrite IH.
Qed.

Lemma shake_correct_witness :
  fst (shake_out 5 (shake_xof (sha3_update (sha3_init 16) [1]))) =
  fst (shake_out 2 (shake_xof (sha3_update (sha3_init 16) [1]))) ++
  fst (shake_out 3 (snd (shake_out 2 (shake_xof (sha3_update (sha3_init 16) [1]))))).
Proof. exact (proj2 (shake_correct 16 [[1]] 2 3 ltac:(lia))). Defined.
