(* ===== verification/TreeHash.v ===== *)
(** The transaction tree of libcryptonote/crypto/tree-hash.c: tree_hash,
    tree_depth, tree_branch and tree_hash_from_branch, over any hash of a pair of
    nodes (the class [NodeHash]; [cn_node] is cn_fast_hash), and the binary tree they
    compute.  The buffer the code takes from alloca is a list of
    optional nodes, [None] before it is written; a read of an unwritten or missing
    entry, a write outside the buffer and a failed assertion give [None]. *)
From Stdlib Require Import ZArith Lia List Bool.
From stdpp Require Import base list.
From S2P Require Import Prelude CInt Keccak SpongeSpec Sponge.
Import ListNotations.
Local Open Scope Z_scope.

(** cn_fast_hash(x, 2 * HASH_SIZE, out) on two neighbouring nodes. *)
Class NodeHash (A : Type) := node_hash : A -> A -> A.

Abbreviation buffer A := (list (option A)).

Definition alloca {A} (n : Z) : buffer A := repeat None (Z.to_nat n).
Definition get {A} (b : buffer A) (i : nat) : option A := mjoin (b !! i).
Definition put {A} (b : buffer A) (i : nat) (x : A) : option (buffer A) :=
  if (i <? length b)%nat then Some (<[i := Some x]> b) else None.

(** memcpy(dst, src, n * HASH_SIZE). *)
Definition memcpy {A} (dst src : buffer A) (n : nat) : option (buffer A) :=
  if (n <=? length src)%nat && (n <=? length dst)%nat then Some (take n src ++ drop n dst) else None.

(** ** The counts *)

(** tree_hash: [for (i = 1; i < sizeof(size_t) << 3; i <<= 1) cnt |= cnt >> i;
    cnt &= ~(cnt >> 1);]. *)
Definition tree_cnt (count : Z) : Z :=
  let cnt := u64 (count - 1) in
  let cnt := fold_left (fun cnt i => Z.lor cnt (Z.shiftr cnt i)) [1; 2; 4; 8; 16; 32] cnt in
  Z.land cnt (Z.lxor (Z.shiftr cnt 1) 0xFFFFFFFFFFFFFFFF).

(** [for (i = sizeof(size_t) << 2; i > 0; i >>= 1)]. *)
Definition halvings : list Z := [32; 16; 8; 4; 2; 1].

Definition depth_body '((count, depth) : Z * Z) (i : Z) : Z * Z :=
  if 0 <? Z.shiftr count i then (Z.shiftr count i, depth + i) else (count, depth).

Definition tree_depth (count : Z) : option Z :=
  let! _ := c_assert (0 <? count) in
  Some (snd (fold_left depth_body halvings (count, 0))).

(** The same loop of tree_branch. *)
Definition branch_body (count : Z) '((cnt, depth) : Z * Z) (i : Z) : Z * Z :=
  if u64 (Z.shiftl cnt i) <=? count then (u64 (Z.shiftl cnt i), depth + i) else (cnt, depth).

Definition branch_cnt (count : Z) : Z * Z := fold_left (branch_body count) halvings (1, 0).

(** ** The operations *)

(** Nodes are char[HASH_SIZE]; two neighbours are hashed as one string. *)
Definition cn_node : NodeHash (list Z) := fun a b => default [] (cn_fast_hash (a ++ b) 64).
Definition keccak_node : NodeHash (list Z) := fun a b => SpongeSpec.keccak256 (a ++ b).

Section Operations.
Context {A : Type} {H : NodeHash A}.

(** cn_fast_hash(src[i], 2 * HASH_SIZE, dst[j]); [src] may be [dst]. *)
Definition hash_pair (src : buffer A) (i : nat) (dst : buffer A) (j : nat) : option (buffer A) :=
  let! a := get src i in
  let! b := get src (S i) in
  put dst j (node_hash a b).

(** [for (...; j < last; i += 2, ++j) cn_fast_hash(hashes[i], 64, ints[j]);],
    with the final value of i. *)
Fixpoint hash_leaves (n : nat) (src : buffer A) (i : nat) (ints : buffer A) (j : nat) : option (nat * buffer A) :=
  match n with
  | O => Some (i, ints)
  | S n => let! ints := hash_pair src i ints j in hash_leaves n src (i + 2) ints (S j)
  end.

(** The same loop inside the buffer. *)
Fixpoint hash_level (n : nat) (ints : buffer A) (i j : nat) : option (buffer A) :=
  match n with
  | O => Some ints
  | S n => let! ints := hash_pair ints i ints j in hash_level n ints (i + 2) (S j)
  end.

(** [while (cnt > 2)]. *)
Fixpoint tree_levels (fuel : nat) (cnt : Z) (ints : buffer A) : option (buffer A) :=
  if 2 <? cnt then
    match fuel with
    | O => None
    | S fuel =>
        let cnt := Z.shiftr cnt 1 in
        let! ints := hash_level (Z.to_nat cnt) ints 0 0 in
        tree_levels fuel cnt ints
    end
  else Some ints.

Definition tree_hash (hashes : list A) : option A :=
  let count := Z.of_nat (length hashes) in
  let hashes := map Some hashes in
  let! _ := c_assert (0 <? count) in
  if count =? 1 then get hashes 0
  else if count =? 2 then
    let! a := get hashes 0 in let! b := get hashes 1 in Some (node_hash a b)
  else
    let cnt := tree_cnt count in
    let first := Z.to_nat (u64 (u64 (2 * cnt) - count)) in
    let! ints := memcpy (alloca cnt) hashes first in
    let! (i, ints) := hash_leaves (Z.to_nat cnt - first) hashes first ints first in
    let! _ := c_assert (Z.of_nat i =? count) in
    let! ints := tree_levels 64 cnt ints in
    let! a := get ints 0 in let! b := get ints 1 in Some (node_hash a b).

(** [while (depth > 0)]: the branch from index [depth] on. *)
Fixpoint branch_levels (depth : nat) (cnt : Z) (ints : buffer A) (branch : list A) : option (list A) :=
  match depth with
  | O => Some branch
  | S depth =>
      let! _ := c_assert (cnt =? u64 (Z.shiftl 1 (Z.of_nat (S depth)))) in
      let cnt := Z.shiftr cnt 1 in
      let! b := get ints 0 in
      let! ints := hash_level (Z.to_nat (cnt - 1)) ints 1 0 in
      branch_levels depth cnt ints (b :: branch)
  end.

Definition tree_branch (hashes : list A) : option (list A) :=
  let count := Z.of_nat (length hashes) in
  let hashes := map Some hashes in
  let! _ := c_assert (0 <? count) in
  let '(cnt, depth) := branch_cnt count in
  let! _ := c_assert (cnt =? u64 (Z.shiftl 1 depth)) in
  let! d := tree_depth count in
  let! _ := c_assert (depth =? d) in
  let n := Z.to_nat (u64 (u64 (2 * cnt) - count - 1)) in
  let! ints := memcpy (alloca (cnt - 1)) (drop 1 hashes) n in
  let! (i, ints) := hash_leaves (Z.to_nat (cnt - 1) - n) hashes (Z.to_nat (u64 (u64 (2 * cnt) - count))) ints n in
  let! _ := c_assert (Z.of_nat i =? count) in
  branch_levels (Z.to_nat depth) cnt ints [].

(** [((const char * ) path)[depth >> 3] & (1 << (depth & 7))]; a byte past the
    path's end is [None]. *)
Definition path_bit (path : option (list Z)) (depth : nat) : option bool :=
  match path with
  | None => Some false
  | Some p =>
      let! b := p !! Nat.shiftr depth 3 in
      Some (negb (Z.land b (Z.shiftl 1 (Z.of_nat (Nat.land depth 7))) =? 0))
  end.

(** [buffer] as a pair; [None] in it is not yet written. *)
Fixpoint from_branch_loop (depth : nat) (branch : list A) (leaf : A) (path : option (list Z))
    (from_leaf : bool) (buf : option A * option A) : option A :=
  match depth with
  | O => let! a := fst buf in let! b := snd buf in Some (node_hash a b)
  | S depth =>
      let! rgt := path_bit path depth in
      let! x := if from_leaf then Some leaf
                else let! a := fst buf in let! b := snd buf in Some (node_hash a b) in
      let! y := branch !! depth in
      from_branch_loop depth branch leaf path false
        (if rgt then (Some y, Some x) else (Some x, Some y))
  end.

Definition tree_hash_from_branch (branch : list A) (depth : nat) (leaf : A) (path : option (list Z)) : option A :=
  if (depth =? 0)%nat then Some leaf
  else from_branch_loop depth branch leaf path true (None, None).

(** ** The tree *)

(** The root of 2^d nodes. *)
Fixpoint full_root (d : nat) (l : list A) : option A :=
  match d with
  | O => head l
  | S d =>
      let! a := full_root d (take (2 ^ d) l) in
      let! b := full_root d (drop (2 ^ d) l) in
      Some (node_hash a b)
  end.

Fixpoint pairs (l : list A) : list A :=
  match l with
  | a :: b :: l => node_hash a b :: pairs l
  | _ => []
  end.

(** [count] leaves between 2^d and 2^(d+1): the last ones are paired so that 2^d
    nodes are left. *)
Definition tree_bottom (d : nat) (l : list A) : list A :=
  let n := (2 * 2 ^ d - length l)%nat in take n l ++ pairs (drop n l).

Definition tree_root (l : list A) : option A :=
  let d := Nat.log2 (length l) in full_root d (tree_bottom d l).

(** The root that a leaf, its siblings (the one under the root first) and its
    directions give. *)
Fixpoint branch_root (branch : list A) (dirs : list bool) (leaf : A) : A :=
  match branch, dirs with
  | s :: branch, rgt :: dirs =>
      let x := branch_root branch dirs leaf in
      if rgt then node_hash s x else node_hash x s
  | _, _ => leaf
  end.

End Operations.

(** ** The counts are powers of two *)

(** Loops over 1, 2, 4, ... and over 2^(n-1), ..., 2, 1. *)
Lemma fold_doubling {A} (P : Z -> A -> Prop) (f : A -> Z -> A) (l : list Z) :
  (forall w a, 0 < w -> P w a -> P (2 * w) (f a w)) ->
  forall w a, 0 < w -> l = map (fun k => w * 2 ^ Z.of_nat k) (seq 0 (length l)) ->
  P w a -> P (w * 2 ^ Z.of_nat (length l)) (fold_left f l a).
Proof.
  intros St. induction l as [|i l IH]; intros w a W E I; [cbn [length fold_left]; now rewrite Z.mul_1_r|].
  cbn [length seq map] in E. injection E as -> E. rewrite Z.mul_1_r in *. cbn [fold_left].
  replace (w * 2 ^ Z.of_nat (length (w :: l))) with (2 * w * 2 ^ Z.of_nat (length l)).
  - apply IH; [lia | | now apply St]. rewrite E at 1. rewrite <- seq_shift, map_map. apply map_ext.
    intros k. rewrite Nat2Z.inj_succ, Z.pow_succ_r by lia. ring.
  - cbn [length]. rewrite Nat2Z.inj_succ, Z.pow_succ_r by lia. ring.
Qed.

Fixpoint halves (n : nat) : list Z :=
  match n with
  | O => []
  | S n => 2 ^ Z.of_nat n :: halves n
  end.

Lemma fold_halving {A} (P : Z -> A -> Prop) (f : A -> Z -> A) n :
  (forall i a, 0 < i -> P (2 * i) a -> P i (f a i)) ->
  forall a, P (2 ^ Z.of_nat n) a -> P 1 (fold_left f (halves n) a).
Proof.
  intros St. induction n as [|n IH]; intros a I; [exact I|]. cbn [halves fold_left]. apply IH, St; [lia|].
  rewrite Nat2Z.inj_succ, Z.pow_succ_r in I by lia. exact I.
Qed.

(** The bits of [c] are 0 above [n] and 1 in the [w] positions down from [n]. *)
Definition smeared (n w c : Z) : Prop :=
  forall j, 0 <= j -> (n < j -> Z.testbit c j = false) /\ (n - w < j <= n -> Z.testbit c j = true).

Lemma smear_step n w c : 0 < w -> smeared n w c -> smeared n (2 * w) (Z.lor c (Z.shiftr c w)).
Proof.
  intros W S j J. rewrite Z.lor_spec, Z.shiftr_spec by exact J.
  destruct (S j J) as [S1 S2]. destruct (S (j + w) ltac:(lia)) as [S3 S4]. split; intros K.
  - rewrite S1, S3 by lia. reflexivity.
  - destruct (Z.lt_ge_cases (n - w) j); [rewrite S2 by lia; reflexivity|].
    rewrite S4 by lia. apply orb_true_r.
Qed.

Lemma tree_cnt_ok count : 2 <= count < 2 ^ 64 -> tree_cnt count = 2 ^ Z.log2 (count - 1).
Proof.
  intros C. unfold tree_cnt, u64. rewrite (Z.mod_small (count - 1)) by (change 18446744073709551616 with (2 ^ 64); lia).
  set (c := count - 1). set (n := Z.log2 c).
  assert (N : 0 <= n < 64) by (split; [apply Z.log2_nonneg | apply Z.log2_lt_pow2; unfold c; lia]).
  assert (S1 : smeared n 1 c).
  { intros j J. split; intros K; [apply Z.bits_above_log2; fold n; unfold c; lia|].
    replace j with n by lia. apply Z.bit_log2. unfold c. lia. }
  apply (fold_doubling (smeared n) (fun c w => Z.lor c (Z.shiftr c w)) [1; 2; 4; 8; 16; 32]) in S1;
    [|intros w a; apply smear_step | lia | reflexivity].
  set (d := fold_left _ _ c) in *. change (1 * 2 ^ Z.of_nat (length [1; 2; 4; 8; 16; 32])) with 64 in S1.
  clearbody d.
  assert (D : d = Z.ones (n + 1)).
  { apply Z.bits_inj'. intros j J. destruct (S1 j J) as [A B]. rewrite Z.testbit_ones_nonneg by lia.
    destruct (Z.ltb_spec j (n + 1)); [apply B; lia | apply A; lia]. }
  apply Z.bits_inj'. intros j J. rewrite Z.pow2_bits_eqb by lia.
  change 0xFFFFFFFFFFFFFFFF with (Z.ones 64).
  rewrite Z.land_spec, Z.lxor_spec, Z.shiftr_spec, D, !Z.testbit_ones_nonneg by lia.
  destruct (Z.ltb_spec j (n + 1)), (Z.ltb_spec (j + 1) (n + 1)), (Z.ltb_spec j 64), (Z.eqb_spec n j);
    try lia; reflexivity.
Qed.

(** What is left of [count] after [depth] bits. *)
Definition depth_inv (count k : Z) '((c, d) : Z * Z) : Prop :=
  0 <= d /\ c = count / 2 ^ d /\ 1 <= c < 2 ^ k.

Lemma depth_step count i cd : 0 < i -> depth_inv count (2 * i) cd ->
  depth_inv count i (depth_body cd i).
Proof.
  destruct cd as [c d]. unfold depth_body. intros I (D & E & B). rewrite Z.shiftr_div_pow2 by lia.
  pose proof (Z.pow_pos_nonneg 2 i ltac:(lia) ltac:(lia)) as P.
  replace (2 ^ (2 * i)) with (2 ^ i * 2 ^ i) in B by (rewrite <- Z.pow_add_r by lia; f_equal; lia).
  destruct (Z.ltb_spec 0 (c / 2 ^ i)) as [L|L]; split; try lia; split; try lia.
  - rewrite Z.pow_add_r, <- Z.div_div by lia. now rewrite E.
  - split; [lia|]. apply Z.div_lt_upper_bound; lia.
  - split; [lia|]. destruct (Z.lt_ge_cases c (2 ^ i)) as [?|G]; [assumption|].
    apply Z.div_le_mono with (c := 2 ^ i) in G; [|lia]. rewrite Z.div_same in G by lia. lia.
Qed.

Lemma tree_depth_ok count : 0 < count < 2 ^ 64 -> tree_depth count = Some (Z.log2 count).
Proof.
  intros C. unfold tree_depth. rewrite (proj2 (Z.ltb_lt 0 count)) by lia. cbn [c_assert bind]. f_equal.
  assert (I : depth_inv count 64 (count, 0)) by (split; [lia|]; rewrite Z.pow_0_r, Z.div_1_r; lia).
  apply (fold_halving (depth_inv count) depth_body 6) in I; [|intros i a; apply depth_step].
  change (halves 6) with halvings in I. set (r := fold_left _ halvings (count, 0)) in *.
  clearbody r. destruct r as [c d]. destruct I as (D & E & B). cbn [snd]. assert (c = 1) by lia. subst c.
  symmetry. apply Z.log2_unique; [exact D|].
  pose proof (Z.pow_pos_nonneg 2 d ltac:(lia) D). pose proof (Z.div_mod count (2 ^ d) ltac:(lia)).
  pose proof (Z.mod_pos_bound count (2 ^ d) ltac:(lia)). unfold Z.succ. rewrite Z.pow_add_r by lia. lia.
Qed.

(** The power of two below [count], and the doublings left. *)
Definition cnt_inv (count k : Z) '((cnt, d) : Z * Z) : Prop :=
  0 <= d /\ d + k <= 64 /\ cnt = 2 ^ d /\ cnt <= count < cnt * 2 ^ k.

Lemma cnt_step count i cd : count < 2 ^ 64 -> 0 < i -> cnt_inv count (2 * i) cd ->
  cnt_inv count i (branch_body count cd i).
Proof.
  destruct cd as [cnt d]. unfold branch_body. intros C I (D & K & E & B). rewrite Z.shiftl_mul_pow2 by lia.
  assert (S : cnt * 2 ^ i = 2 ^ (d + i)) by (rewrite Z.pow_add_r by lia; now rewrite E).
  assert (U : u64 (cnt * 2 ^ i) = cnt * 2 ^ i).
  { unfold u64. change 18446744073709551616 with (2 ^ 64). rewrite S.
    pose proof (Z.pow_pos_nonneg 2 (d + i)). pose proof (Z.pow_lt_mono_r 2 (d + i) 64). apply Z.mod_small. lia. }
  rewrite U. replace (2 ^ (2 * i)) with (2 ^ i * 2 ^ i) in B by (rewrite <- Z.pow_add_r by lia; f_equal; lia).
  destruct (Z.leb_spec (cnt * 2 ^ i) count) as [L|L].
  - split; [lia|]. split; [lia|]. split; [exact S|]. lia.
  - split; [lia|]. split; [lia|]. split; [exact E|]. lia.
Qed.

Lemma branch_cnt_ok count : 0 < count < 2 ^ 64 -> branch_cnt count = (2 ^ Z.log2 count, Z.log2 count).
Proof.
  intros C. unfold branch_cnt.
  assert (I : cnt_inv count 64 (1, 0)) by (split; [lia|]; rewrite Z.pow_0_r; lia).
  apply (fold_halving (cnt_inv count) (branch_body count) 6) in I; [|intros i a; apply cnt_step; lia].
  change (halves 6) with halvings in I. destruct (fold_left _ halvings (1, 0)) as [cnt d].
  destruct I as (D & K & E & B). assert (L : Z.log2 count = d); [|now rewrite L, E].
  apply Z.log2_unique; [exact D|]. unfold Z.succ. rewrite Z.pow_add_r by lia. lia.
Qed.

(** ** The buffers *)

Section BufferLemmas.
Context {A : Type} {H : NodeHash A}.

Lemma get_some (l : list A) i : get (map Some l) i = l !! i.
Proof. unfold get. revert i. induction l as [|x l IH]; intros [|i]; try reflexivity. exact (IH i). Qed.

Lemma put_next (pre : list A) n x :
  put (map Some pre ++ repeat None (S n)) (length pre) x = Some (map Some (pre ++ [x]) ++ repeat None n).
Proof.
  unfold put. rewrite length_app, length_map, repeat_length, (proj2 (Nat.ltb_lt _ _)) by lia.
  f_equal. rewrite insert_app_r_alt by (now rewrite length_map). rewrite length_map, Nat.sub_diag, map_app. cbn.
  now rewrite <- app_assoc.
Qed.

Lemma put_some (l : list A) j x : (j < length l)%nat -> put (map Some l) j x = Some (map Some (<[j := x]> l)).
Proof.
  intros J. unfold put. rewrite length_map, (proj2 (Nat.ltb_lt _ _) J). f_equal.
  revert j J. induction l as [|y l IH]; intros [|j] J; cbn in J; try lia; [reflexivity|].
  cbn [map insert list_insert]. f_equal. apply IH. lia.
Qed.

Lemma memcpy_alloca (l : list A) n k : (n <= length l)%nat -> (n <= Z.to_nat k)%nat ->
  memcpy (alloca k) (map Some l) n = Some (map Some (take n l) ++ repeat None (Z.to_nat k - n)).
Proof.
  intros L K. unfold memcpy, alloca. rewrite length_map, repeat_length, !(proj2 (Nat.leb_le _ _)) by assumption.
  cbn [andb]. now rewrite firstn_map, drop_repeat.
Qed.

Lemma hash_pair_some (l : list A) i a b rest dst j : drop i l = a :: b :: rest ->
  hash_pair (map Some l) i dst j = put dst j (node_hash a b).
Proof.
  intros E. unfold hash_pair. rewrite !get_some.
  assert (Ea : l !! i = Some a) by (rewrite <- (Nat.add_0_r i), <- lookup_drop, E; reflexivity).
  assert (Eb : l !! S i = Some b) by (rewrite <- Nat.add_1_r, <- lookup_drop, E; reflexivity).
  now rewrite Ea, Eb.
Qed.

Lemma drop_two (l : list A) i : (i + 2 <= length l)%nat -> exists a b, drop i l = a :: b :: drop (i + 2) l.
Proof.
  intros L. destruct (drop i l) as [|a [|b r]] eqn:E;
    try (apply (f_equal length) in E; rewrite length_drop in E; cbn in E; lia).
  exists a, b. rewrite <- drop_drop, E. reflexivity.
Qed.

Lemma hash_leaves_ok (l : list A) n : forall i pre, (i + 2 * n <= length l)%nat ->
  hash_leaves n (map Some l) i (map Some pre ++ repeat None n) (length pre) =
  Some ((i + 2 * n)%nat, map Some (pre ++ pairs (take (2 * n) (drop i l)))).
Proof.
  induction n as [|n IH]; intros i pre L.
  - cbn [hash_leaves repeat]. cbn. now rewrite Nat.add_0_r, !app_nil_r.
  - destruct (drop_two l i ltac:(lia)) as (a & b & E). cbn [hash_leaves].
    rewrite (hash_pair_some l i a b _ _ _ E), put_next. cbn [bind].
    replace (S (length pre)) with (length (pre ++ [node_hash a b])) by (rewrite length_app; cbn; lia).
    rewrite IH by lia. f_equal. f_equal; [lia|]. rewrite E. replace (2 * S n)%nat with (S (S (2 * n))) by lia.
    cbn [take pairs]. now rewrite <- app_assoc.
Qed.

(** The loop inside one buffer: entry [j] is written after it is read. *)
Lemma hash_level_ok n : forall (l : list A) i j, (j <= i)%nat -> (i + 2 * n <= length l)%nat ->
  hash_level n (map Some l) i j =
  Some (map Some (take j l ++ pairs (take (2 * n) (drop i l)) ++ drop (j + n) l)).
Proof.
  induction n as [|n IH]; intros l i j J L.
  - cbn [hash_level]. rewrite Nat.mul_0_r, take_0, Nat.add_0_r. cbn [pairs app]. now rewrite take_drop.
  - destruct (drop_two l i ltac:(lia)) as (a & b & E). cbn [hash_level].
    rewrite (hash_pair_some l i a b _ _ _ E), put_some by lia. cbn [bind].
    rewrite IH by (rewrite ?length_insert; lia). do 2 f_equal.
    rewrite drop_insert_lt by lia. rewrite (drop_insert_lt _ (S j + n)) by lia.
    rewrite E. replace (2 * S n)%nat with (S (S (2 * n))) by lia. cbn [take pairs].
    rewrite (take_S_r _ j (node_hash a b)) by (apply list_lookup_insert_eq; lia).
    rewrite take_insert_ge by lia. rewrite <- app_assoc. cbn [app].
    now replace (S j + n)%nat with (j + S n)%nat by lia.
Qed.

Lemma length_pairs (l : list A) n : length l = (2 * n)%nat -> length (pairs l) = n.
Proof.
  revert l. induction n as [|n IH]; intros [|a [|b l]] L; cbn in L; try lia; [reflexivity|].
  cbn [pairs length]. rewrite IH; lia.
Qed.

Lemma pairs_app (l1 l2 : list A) n : length l1 = (2 * n)%nat -> pairs (l1 ++ l2) = pairs l1 ++ pairs l2.
Proof.
  revert l1. induction n as [|n IH]; intros [|a [|b l]] L; cbn in L; try lia; [reflexivity|].
  cbn [pairs app]. rewrite IH by lia. reflexivity.
Qed.

Lemma full_root_pairs d : forall l : list A, length l = (2 ^ S d)%nat -> full_root (S d) l = full_root d (pairs l).
Proof.
  induction d as [|d IH]; intros l L.
  - destruct l as [|a [|b [|c l]]]; cbn in L; try lia. reflexivity.
  - change (full_root (S (S d)) l) with (let! a := full_root (S d) (take (2 ^ S d) l) in
      let! b := full_root (S d) (drop (2 ^ S d) l) in Some (node_hash a b)).
    cbn [Nat.pow] in L. rewrite !IH by (rewrite ?length_take, ?length_drop; cbn [Nat.pow]; lia).
    assert (P : pairs l = pairs (take (2 ^ S d) l) ++ pairs (drop (2 ^ S d) l)).
    { rewrite <- (pairs_app _ _ (2 ^ d)) by (rewrite length_take; cbn [Nat.pow]; lia). now rewrite take_drop. }
    assert (L1 : length (pairs (take (2 ^ S d) l)) = (2 ^ d)%nat)
      by (apply length_pairs; rewrite length_take; cbn [Nat.pow]; lia).
    cbn [full_root]. now rewrite P, take_app_length', drop_app_length' by exact (eq_sym L1) || exact L1.
Qed.
End BufferLemmas.

(** ** The operations compute the tree *)

Lemma pow2_nat d : Z.to_nat (2 ^ Z.of_nat d) = (2 ^ d)%nat.
Proof. replace (2 ^ Z.of_nat d) with (Z.of_nat (2 ^ d)) by apply (Nat2Z.inj_pow 2 d). apply Nat2Z.id. Qed.

Section OperationLemmas.
Context {A : Type} {H : NodeHash A}.

Lemma shiftr_pow2 d : Z.shiftr (2 ^ Z.of_nat (S d)) 1 = 2 ^ Z.of_nat d.
Proof.
  rewrite Z.shiftr_div_pow2, Nat2Z.inj_succ, Z.pow_succ_r, Z.pow_1_r, Z.mul_comm by lia. apply Z.div_mul. lia.
Qed.

Lemma tree_levels_ok d : forall fuel (l : list A), (d <= fuel)%nat -> (2 ^ S d <= length l)%nat ->
  exists a b rest, tree_levels fuel (2 ^ Z.of_nat (S d)) (map Some l) = Some (map Some (a :: b :: rest)) /\
    full_root (S d) (take (2 ^ S d) l) = Some (node_hash a b).
Proof.
  induction d as [|d IH]; intros fuel l F L.
  - destruct l as [|a [|b rest]]; cbn in L; try lia. exists a, b, rest. split; [now destruct fuel | reflexivity].
  - destruct fuel as [|fuel]; [lia|].
    assert (G : 2 < 2 ^ Z.of_nat (S (S d))).
    { rewrite !Nat2Z.inj_succ, !Z.pow_succ_r by lia. pose proof (Z.pow_pos_nonneg 2 (Z.of_nat d)). lia. }
    cbn [tree_levels]. rewrite (proj2 (Z.ltb_lt _ _) G), shiftr_pow2, pow2_nat.
    pose proof (Nat.pow_nonzero 2 d ltac:(lia)) as P. cbn [Nat.pow] in L.
    rewrite hash_level_ok by (cbn [Nat.pow]; lia). cbn [bind]. rewrite take_0, drop_0. cbn [app].
    set (l1 := pairs (take (2 * 2 ^ S d) l)).
    assert (L1 : length l1 = (2 ^ S d)%nat) by (apply length_pairs; rewrite length_take; cbn [Nat.pow]; lia).
    destruct (IH fuel (l1 ++ drop (0 + 2 ^ S d) l)) as (a & b & rest & -> & R); [lia | rewrite length_app; lia|].
    exists a, b, rest. split; [reflexivity|]. rewrite <- R, take_app_length' by exact (eq_sym L1) || exact L1.
    rewrite full_root_pairs by (rewrite length_take; cbn [Nat.pow]; lia). reflexivity.
Qed.

Lemma u64_range x : 0 <= x < 2 ^ 64 -> u64 x = x.
Proof. apply Z.mod_small. Qed.

Lemma tree_hash_big (l : list A) d : (2 ^ S d < length l <= 2 ^ S (S d))%nat -> Z.of_nat (length l) <= 2 ^ 63 ->
  tree_hash l = full_root (S d) (tree_bottom (S d) l).
Proof.
  intros L Z63. assert (E : Z.of_nat (2 ^ S d) = 2 ^ Z.of_nat (S d)) by apply (Nat2Z.inj_pow 2).
  pose proof (Nat.pow_nonzero 2 d ltac:(lia)) as P. cbn [Nat.pow] in L, E.
  set (n := (2 * 2 ^ S d - length l)%nat).
  assert (C : tree_cnt (Z.of_nat (length l)) = 2 ^ Z.of_nat (S d)).
  { rewrite tree_cnt_ok by lia. f_equal. apply Z.log2_unique; [lia|]. unfold Z.succ. rewrite Z.pow_add_r by lia. lia. }
  assert (F : Z.to_nat (u64 (u64 (2 * 2 ^ Z.of_nat (S d)) - Z.of_nat (length l))) = n).
  { rewrite (u64_range (2 * _)), u64_range by lia. unfold n. cbn [Nat.pow]. lia. }
  unfold tree_hash. rewrite C, F, (proj2 (Z.ltb_lt 0 _)) by lia. cbn [c_assert bind].
  rewrite (proj2 (Z.eqb_neq _ 1)), (proj2 (Z.eqb_neq _ 2)) by lia.
  rewrite memcpy_alloca by (rewrite ?pow2_nat; unfold n; cbn [Nat.pow]; lia). cbn [bind]. rewrite pow2_nat.
  replace n with (length (take n l)) at 5 by (rewrite length_take; unfold n; cbn [Nat.pow]; lia).
  rewrite hash_leaves_ok by (unfold n; cbn [Nat.pow]; lia). cbn [bind].
  rewrite (proj2 (Z.eqb_eq _ _)) by (unfold n; cbn [Nat.pow]; lia). cbn [c_assert bind].
  rewrite (take_ge (drop n l)) by (rewrite length_drop; unfold n; cbn [Nat.pow]; lia).
  change (take n l ++ pairs (drop n l)) with (tree_bottom (S d) l).
  assert (LB : length (tree_bottom (S d) l) = (2 ^ S d)%nat).
  { unfold tree_bottom. fold n. rewrite length_app, length_take.
    rewrite (length_pairs _ (2 ^ S d - n)) by (rewrite length_drop; unfold n; cbn [Nat.pow]; lia).
    unfold n. cbn [Nat.pow]. lia. }
  destruct (tree_levels_ok d 64 (tree_bottom (S d) l)) as (a & b & rest & -> & R); [|lia|].
  - assert (Z.of_nat (S d) < 64); [|lia]. apply (Z.pow_lt_mono_r_iff 2); lia.
  - rewrite take_ge in R by lia. now rewrite R.
Qed.

(** 2^(d+1) leaves are paired like 2^d of them and more. *)
Lemma tree_bottom_full (l : list A) d : length l = (2 ^ S d)%nat ->
  full_root (S d) (tree_bottom (S d) l) = full_root d (tree_bottom d l).
Proof.
  intros L. unfold tree_bottom. rewrite L. cbn [Nat.pow].
  replace (2 * (2 * 2 ^ d) - 2 * 2 ^ d)%nat with (2 * 2 ^ d)%nat by lia.
  rewrite Nat.sub_diag, take_0, drop_0, take_ge, drop_ge by (rewrite L; cbn [Nat.pow]; lia).
  cbn [pairs app]. rewrite app_nil_r. now apply full_root_pairs.
Qed.

Lemma tree_hash_root (l : list A) : (0 < length l)%nat -> Z.of_nat (length l) <= 2 ^ 63 -> tree_hash l = tree_root l.
Proof.
  intros L0 Z63. unfold tree_root.
  destruct (Nat.lt_ge_cases (length l) 3) as [L3|L3];
    [destruct l as [|a [|b [|c l]]]; cbn in L0, L3; try lia; reflexivity|].
  pose proof (Nat.log2_spec (length l - 1) ltac:(lia)) as LS.
  destruct (Nat.log2 (length l - 1)) as [|d] eqn:E; [cbn in LS; lia|].
  rewrite (tree_hash_big l d) by lia. destruct (Nat.eq_dec (length l) (2 ^ S (S d))%nat) as [Q|Q].
  - rewrite Q, Nat.log2_pow2 by lia. symmetry. now apply tree_bottom_full.
  - rewrite (Nat.log2_unique (length l) (S d)) by lia. reflexivity.
Qed.

Lemma branch_root_app (bs : list A) b r x : forall ds, length ds = length bs ->
  branch_root (bs ++ [b]) (ds ++ [r]) x = branch_root bs ds (if r : bool then node_hash b x else node_hash x b).
Proof.
  induction bs as [|s bs IH]; intros [|r' ds] L; cbn in L; try lia; [reflexivity|].
  cbn [branch_root app]. rewrite IH by lia. reflexivity.
Qed.

Lemma repeat_snoc {B} (x : B) n : repeat x (S n) = repeat x n ++ [x].
Proof. induction n as [|n IH]; [reflexivity|]. cbn [repeat app] in *. now rewrite <- IH. Qed.

Lemma branch_levels_ok d : forall (a : A) l junk br, S (length l) = (2 ^ d)%nat -> (d < 64)%nat ->
  exists bs, branch_levels d (2 ^ Z.of_nat d) (map Some (l ++ junk)) br = Some (bs ++ br) /\
    length bs = d /\ full_root d (a :: l) = Some (branch_root bs (repeat false d) a).
Proof.
  induction d as [|d IH]; intros a l junk br L D.
  - exists []. destruct l; [|cbn in L; lia]. auto.
  - pose proof (Nat.pow_nonzero 2 d ltac:(lia)) as P. cbn [Nat.pow] in L.
    destruct l as [|b l]; [cbn in L; lia|]. cbn [branch_levels length] in *.
    rewrite u64_range, Z.shiftl_1_l, Z.eqb_refl, shiftr_pow2
      by (rewrite Z.shiftl_1_l; split; [apply Z.pow_nonneg; lia | apply Z.pow_lt_mono_r; lia]).
    cbn [c_assert bind]. rewrite get_some. cbn [app lookup list_lookup bind].
    replace (Z.to_nat (2 ^ Z.of_nat d - 1)) with (2 ^ d - 1)%nat by (rewrite <- (pow2_nat d); lia).
    rewrite hash_level_ok by (rewrite ?length_cons, ?length_app; cbn [length]; rewrite ?length_app; lia). cbn [bind app skipn firstn].
    rewrite drop_0, take_app_length' by lia.
    destruct (IH (node_hash a b) (pairs l) (drop (0 + (2 ^ d - 1)) (b :: l ++ junk)) (b :: br)) as (bs & -> & LB & R).
    { rewrite (length_pairs l (2 ^ d - 1)) by lia. lia. }
    { lia. }
    exists (bs ++ [b]). rewrite <- app_assoc. split; [reflexivity|]. rewrite length_app. cbn [length].
    split; [lia|]. rewrite full_root_pairs by (cbn [length Nat.pow]; lia). cbn [pairs].
    rewrite R, repeat_snoc, branch_root_app by (rewrite repeat_length; lia). reflexivity.
Qed.

Lemma tree_branch_ok (a : A) l : Z.of_nat (S (length l)) < 2 ^ 63 ->
  exists bs, tree_branch (a :: l) = Some bs /\ length bs = Nat.log2 (S (length l)) /\
    tree_root (a :: l) = Some (branch_root bs (repeat false (length bs)) a).
Proof.
  intros Z63. unfold tree_branch, tree_root. cbn [length map].
  set (count := S (length l)) in *. set (d := Nat.log2 count).
  pose proof (Nat.log2_spec count ltac:(lia)) as LS. fold d in LS. cbn [Nat.pow] in LS.
  assert (E : Z.of_nat (2 ^ d) = 2 ^ Z.of_nat d) by apply (Nat2Z.inj_pow 2).
  assert (LZ : Z.log2 (Z.of_nat count) = Z.of_nat d).
  { apply Z.log2_unique; [lia|]. unfold Z.succ. rewrite Z.pow_add_r by lia. lia. }
  assert (D : (d < 63)%nat) by (assert (Z.of_nat d < 63); [apply (Z.pow_lt_mono_r_iff 2); lia | lia]).
  rewrite branch_cnt_ok, tree_depth_ok, LZ, (proj2 (Z.ltb_lt 0 _)) by lia. cbn [c_assert bind].
  rewrite Z.shiftl_1_l, u64_range, !Z.eqb_refl by lia. cbn [c_assert bind].
  set (n := (2 * 2 ^ d - count - 1)%nat).
  assert (F : Z.to_nat (u64 (u64 (2 * 2 ^ Z.of_nat d) - Z.of_nat count - 1)) = n).
  { rewrite (u64_range (2 * _)), u64_range by lia. unfold n. lia. }
  assert (F1 : Z.to_nat (u64 (u64 (2 * 2 ^ Z.of_nat d) - Z.of_nat count)) = S n).
  { rewrite (u64_range (2 * _)), u64_range by lia. unfold n. lia. }
  rewrite F, F1. change (drop 1 (Some a :: map Some l)) with (map Some l).
  assert (PN : Z.to_nat (2 ^ Z.of_nat d - 1) = (2 ^ d - 1)%nat) by lia.
  rewrite memcpy_alloca, PN by (unfold n, count in *; lia). cbn [bind].
  assert (LN : length (take n l) = n) by (rewrite length_take; unfold n, count in *; lia).
  pose proof (hash_leaves_ok (a :: l) (2 ^ d - 1 - n) (S n) (take n l)
    ltac:(cbn [length]; unfold n, count in *; lia)) as HL.
  rewrite LN in HL. cbn [map skipn] in HL. rewrite HL. cbn [bind].
  rewrite (proj2 (Z.eqb_eq _ _)) by (unfold n, count in *; lia). cbn [c_assert bind].
  rewrite (take_ge (drop n l)) by (rewrite length_drop; unfold n, count in *; lia).
  set (ints := take n l ++ pairs (drop n l)). rewrite Nat2Z.id.
  destruct (branch_levels_ok d a ints [] []) as (bs & B & LB & R).
  - unfold ints. rewrite length_app, LN, (length_pairs _ (2 ^ d - 1 - n))
      by (rewrite length_drop; unfold n, count in *; lia). unfold n, count in *; lia.
  - lia.
  - rewrite !app_nil_r in B. exists bs. split; [exact B|]. split; [exact LB|]. rewrite LB, <- R.
    unfold tree_bottom. cbn [length]. fold count.
    replace (2 * 2 ^ d - count)%nat with (S n) by (unfold n; lia). reflexivity.
Qed.
End OperationLemmas.

(** ** Branches *)

Definition path_covers (path : option (list Z)) (depth : nat) : Prop :=
  match path with
  | None => True
  | Some p => (depth <= 8 * length p)%nat
  end.

(** Direction k of a path: bit [k mod 8] of byte [k / 8]; left without a path. *)
Definition dir (path : option (list Z)) (k : nat) : bool :=
  match path with
  | None => false
  | Some p => Z.testbit (nth (k / 8) p 0) (Z.of_nat (k mod 8))
  end.

Definition dirs (path : option (list Z)) (depth : nat) : list bool := map (dir path) (seq 0 depth).

Lemma land_pow2_testbit x k : 0 <= k -> negb (Z.land x (Z.shiftl 1 k) =? 0) = Z.testbit x k.
Proof.
  intros K. rewrite Z.shiftl_1_l. destruct (Z.testbit x k) eqn:T.
  - apply negb_true_iff, Z.eqb_neq. intros E. apply (f_equal (fun z => Z.testbit z k)) in E.
    rewrite Z.land_spec, T, Z.pow2_bits_true, Z.bits_0 in E by exact K. discriminate.
  - apply negb_false_iff, Z.eqb_eq. apply Z.bits_inj'. intros j J.
    rewrite Z.land_spec, Z.pow2_bits_eqb, Z.bits_0 by exact K.
    destruct (Z.eqb_spec k j) as [<-|N]; [now rewrite T | apply andb_false_r].
Qed.

Lemma path_bit_ok path depth k : path_covers path depth -> (k < depth)%nat -> path_bit path k = Some (dir path k).
Proof.
  destruct path as [p|]; [|reflexivity]. cbn [path_covers path_bit dir]. intros C K.
  rewrite Nat.shiftr_div_pow2. change (2 ^ 3)%nat with 8%nat.
  assert (I : (k / 8 < length p)%nat) by (apply Nat.Div0.div_lt_upper_bound; lia).
  destruct (lookup_lt_is_Some_2 p _ I) as [b B]. rewrite B. cbn [bind].
  rewrite (nth_lookup_Some p _ 0 b B), land_pow2_testbit by lia. do 3 f_equal.
  change 7%nat with (Nat.ones 3). now rewrite Nat.land_ones.
Qed.

Section BranchLemmas.
Context {A : Type} {H : NodeHash A}.

Lemma dirs_S path d : dirs path (S d) = dirs path d ++ [dir path d].
Proof. unfold dirs. now rewrite seq_S, map_app. Qed.

Lemma length_dirs path d : length (dirs path d) = d.
Proof. unfold dirs. now rewrite length_map, length_seq. Qed.

(** The value of a buffer that is full. *)
Lemma from_branch_loop_ok (branch : list A) path d : path_covers path d -> (d <= length branch)%nat ->
  forall leaf from_leaf buf x,
  (if from_leaf : bool then Some leaf else let! a := fst buf in let! b := snd buf in Some (node_hash a b)) = Some x ->
  from_leaf = false \/ (0 < d)%nat ->
  from_branch_loop d branch leaf path from_leaf buf = Some (branch_root (take d branch) (dirs path d) x).
Proof.
  induction d as [|d IH]; intros C L leaf fl buf x X Z0'.
  - destruct Z0' as [->|]; [exact X | lia].
  - cbn [from_branch_loop]. rewrite (path_bit_ok path (S d)) by (assumption || lia). cbn [bind]. rewrite X.
    destruct (lookup_lt_is_Some_2 branch d ltac:(lia)) as [y Y]. rewrite Y. cbn [bind].
    assert (C' : path_covers path d) by (destruct path; cbn in *; lia || exact I).
    rewrite (IH C' ltac:(lia) leaf false _ (if dir path d then node_hash y x else node_hash x y));
      [| now destruct (dir path d) | now left].
    rewrite (take_S_r _ _ _ Y), dirs_S, branch_root_app; [reflexivity|].
    rewrite length_dirs, length_take. lia.
Qed.

Lemma tree_hash_from_branch_ok (branch : list A) depth leaf path :
  path_covers path depth -> (depth <= length branch)%nat ->
  tree_hash_from_branch branch depth leaf path = Some (branch_root (take depth branch) (dirs path depth) leaf).
Proof.
  intros C L. unfold tree_hash_from_branch. destruct depth as [|d]; [reflexivity|]. cbn [Nat.eqb].
  now apply from_branch_loop_ok; [| | |right; lia].
Qed.

(** The siblings of a leaf of a full tree, and the leaf, from its directions. *)
Fixpoint siblings (d : nat) (l : list A) (ds : list bool) : option (list A * A) :=
  match d, ds with
  | O, _ => let! x := head l in Some ([], x)
  | S d, r :: ds =>
      let '(near, far) := if r : bool then (drop (2 ^ d) l, take (2 ^ d) l) else (take (2 ^ d) l, drop (2 ^ d) l) in
      let! s := full_root d far in
      let! (bs, x) := siblings d near ds in
      Some (s :: bs, x)
  | S _, [] => None
  end.

Lemma siblings_root d : forall (l : list A) ds bs x, siblings d l ds = Some (bs, x) ->
  full_root d l = Some (branch_root bs ds x) /\ length bs = d.
Proof.
  induction d as [|d IH]; intros l ds bs x E.
  - cbn [siblings] in E. apply bind_Some in E. destruct E as (y & E & Q). injection Q as <- <-. split; [exact E | reflexivity].
  - destruct ds as [|r ds]; [discriminate|]. cbn [siblings] in E. destruct r; apply bind_Some in E;
      destruct E as (s & S & E); apply bind_Some in E; destruct E as ([bs' x'] & E & Q); injection Q as <- <-;
      apply IH in E; destruct E as [R L]; cbn [full_root branch_root length]; rewrite S, R, L; auto.
Qed.

(** Where two branches that give one root first differ, from the root down. *)
Context {E : EqDecision A}.

Fixpoint branch_collision (bs1 bs2 : list A) (ds : list bool) (x1 x2 : A) : option ((A * A) * (A * A)) :=
  match bs1, bs2, ds with
  | s1 :: bs1, s2 :: bs2, r :: ds =>
      let y1 := branch_root bs1 ds x1 in
      let y2 := branch_root bs2 ds x2 in
      if decide ((s1, y1) = (s2, y2)) then branch_collision bs1 bs2 ds x1 x2
      else Some (if r : bool then ((s1, y1), (s2, y2)) else ((y1, s1), (y2, s2)))
  | _, _, _ => None
  end.

Lemma branch_collision_ok ds : forall (bs1 bs2 : list A) x1 x2, length bs1 = length ds -> length bs2 = length ds ->
  branch_root bs1 ds x1 = branch_root bs2 ds x2 ->
  match branch_collision bs1 bs2 ds x1 x2 with
  | Some ((a, b), (a', b')) => (a, b) <> (a', b') /\ node_hash a b = node_hash a' b'
  | None => bs1 = bs2 /\ x1 = x2
  end.
Proof.
  induction ds as [|r ds IH]; intros [|s1 bs1] [|s2 bs2] x1 x2 L1 L2 R; cbn in L1, L2; try lia; [now split|].
  cbn [branch_collision branch_root] in *. destruct (decide _) as [D|D].
  - injection D as -> D. specialize (IH bs1 bs2 x1 x2 ltac:(lia) ltac:(lia) D).
    destruct (branch_collision bs1 bs2 ds x1 x2) as [[[] []]|]; [exact IH|]. destruct IH as [-> ->]. auto.
  - destruct r; (split; [intros Q; apply D; congruence | exact R]).
Qed.
End BranchLemmas.

(** ** The hash *)

Definition is_hash (h : list Z) : Prop := length h = 32%nat /\ Forall is_byte h.

Lemma keccak256_hash m : is_hash (keccak256 m).
Proof.
  unfold keccak256. rewrite sponge_absorbed. destruct (absorbed 136 (repeat 0 200%nat) m) as [b r].
  destruct (absorb_block_state b (pad_block 136 1 r)) as [L F].
  split; [rewrite length_take, L; reflexivity | now apply Forall_take].
Qed.

Lemma cn_node_keccak a b : is_hash a -> is_hash b -> cn_node a b = keccak_node a b.
Proof.
  intros [LA FA] [LB FB]. unfold cn_node, keccak_node. assert (Ll : length (a ++ b) = 64%nat) by (rewrite length_app; lia).
  change 64 with (Z.of_nat 64). rewrite <- Ll, cn_fast_hash_ok by (rewrite ?Ll; (now apply Forall_app) || reflexivity). reflexivity.
Qed.

(** Two hashes that agree on a closed set of nodes give one tree. *)
Section Agree.
Context {A : Type} (h1 h2 : NodeHash A) (P : A -> Prop).
Context (PC : forall a b, P a -> P b -> @node_hash A h1 a b = @node_hash A h2 a b /\ P (@node_hash A h2 a b)).

Lemma full_root_agree d : forall l, Forall P l ->
  full_root (H := h1) d l = full_root (H := h2) d l /\ forall r, full_root (H := h2) d l = Some r -> P r.
Proof.
  induction d as [|d IH]; intros l F.
  - split; [reflexivity|]. intros r R. destruct F; [discriminate|]. injection R as <-. assumption.
  - destruct (IH _ (Forall_take P (2 ^ d) l F)) as [E1 P1]. destruct (IH _ (Forall_drop P (2 ^ d) l F)) as [E2 P2].
    cbn [full_root]. rewrite E1, E2. destruct (full_root (H := h2) d (take (2 ^ d) l)) as [a|]; [|now split].
    destruct (full_root (H := h2) d (drop (2 ^ d) l)) as [b|]; [|now split]. cbn [bind].
    destruct (PC a b (P1 a eq_refl) (P2 b eq_refl)) as [E Pn]. rewrite E. split; [reflexivity|].
    intros r R. injection R as <-. exact Pn.
Qed.

Lemma pairs_agree n : forall l, (length l <= n)%nat -> Forall P l ->
  pairs (H := h1) l = pairs (H := h2) l /\ Forall P (pairs (H := h2) l).
Proof.
  induction n as [|n IH]; intros [|a [|b l]] L F; try (split; [reflexivity | constructor]); [cbn in L; lia|].
  inversion F as [|? ? Pa F1]; subst. inversion F1 as [|? ? Pb F2]; subst.
  destruct (IH l ltac:(cbn in L; lia) F2) as [E Fp]. destruct (PC a b Pa Pb) as [Ea Pn].
  cbn [pairs]. rewrite E, Ea. auto.
Qed.

Lemma tree_root_agree l : Forall P l ->
  tree_root (H := h1) l = tree_root (H := h2) l /\ forall r, tree_root (H := h2) l = Some r -> P r.
Proof.
  intros F. unfold tree_root, tree_bottom. set (n := (_ - _)%nat).
  destruct (pairs_agree _ (drop n l) (le_n _) (Forall_drop P n l F)) as [-> Fp].
  apply full_root_agree, Forall_app. split; [now apply Forall_take | exact Fp].
Qed.
End Agree.

(** ** Properties *)

(** C18.  tree_hash of 1 to 2^58 hashes (the most that fit memory) returns the root
    of the binary tree over them: no assertion fails, every buffer entry is written
    before it is read although each level is hashed in place, and with
    cn_fast_hash the tree is built with Keccak-256 and the root is again a 32-byte
    hash. *)
Theorem tree_hash_correct (hashes : list (list Z)) : (0 < length hashes)%nat -> Z.of_nat (length hashes) < 2 ^ 58 ->
  Forall is_hash hashes ->
  exists root, tree_hash (H := cn_node) hashes = Some root /\ tree_root (H := keccak_node) hashes = Some root /\
    is_hash root.
Proof.
  intros L M F. rewrite tree_hash_root by lia.
  destruct (tree_root_agree cn_node keccak_node is_hash) with (l := hashes) as [E P]; [|exact F|].
  - intros a b Ha Hb. split; [now apply cn_node_keccak | apply keccak256_hash].
  - rewrite E. destruct hashes as [|a l]; [cbn in L; lia|]. cbn [length] in M.
    destruct (tree_branch_ok (H := keccak_node) a l ltac:(lia)) as (bs & _ & _ & R).
    rewrite R in *. eexists. split; [reflexivity|]. split; [reflexivity|]. now apply P.
Qed.

Lemma tree_hash_correct_witness :
  exists root, tree_hash (H := cn_node) [repeat 1 32%nat; repeat 2 32%nat; repeat 3 32%nat] = Some root /\ is_hash root.
Proof.
  destruct (tree_hash_correct [repeat 1 32%nat; repeat 2 32%nat; repeat 3 32%nat]) as (r & E & _ & P).
  - cbn. lia.
  - reflexivity.
  - repeat (constructor; [split; [reflexivity | apply Forall_forall; intros x X;
      apply list_elem_of_In, repeat_spec in X; subst x; unfold is_byte; lia]|]). constructor.
  - exists r. auto.
Defined.

(** C19.  tree_branch round trip: the branch of the first hash has tree_depth(count)
    entries, and tree_hash_from_branch with no path rebuilds from it the root that
    tree_hash returns, whatever the node hash. *)
Theorem tree_branch_roundtrip {A} {H : NodeHash A} (leaf : A) (hashes : list A) :
  Z.of_nat (length (leaf :: hashes)) < 2 ^ 58 ->
  exists branch, tree_branch (leaf :: hashes) = Some branch /\
    tree_depth (Z.of_nat (length (leaf :: hashes))) = Some (Z.of_nat (length branch)) /\
    tree_hash_from_branch branch (length branch) leaf None = tree_hash (leaf :: hashes).
Proof.
  cbn [length]. intros M. destruct (tree_branch_ok leaf hashes ltac:(lia)) as (bs & B & L & R).
  exists bs. split; [exact B|]. split.
  - rewrite tree_depth_ok by lia. f_equal. rewrite L. set (n := S (length hashes)).
    pose proof (Nat.log2_spec n ltac:(lia)) as LS. apply Z.log2_unique; [lia|].
    rewrite <- Nat2Z.inj_succ, <- !(Nat2Z.inj_pow 2 _ : Z.of_nat (2 ^ _) = 2 ^ Z.of_nat _). lia.
  - rewrite tree_hash_from_branch_ok, tree_hash_root, R, take_ge by (exact I || cbn [length]; lia).
    do 2 f_equal. unfold dirs. clear. generalize 0%nat. induction (length bs) as [|n IH]; intros k; [reflexivity|].
    cbn [seq map repeat]. now rewrite IH.
Qed.

Lemma tree_branch_roundtrip_witness :
  let H : NodeHash (list Z) := fun a b => a ++ b in
  exists branch, tree_branch [[1]; [2]; [3]; [4]; [5]] = Some branch /\
    tree_hash_from_branch branch (length branch) [1] None = Some [1; 2; 3; 4; 5].
Proof.
  destruct (tree_branch_roundtrip (H := fun a b => a ++ b) [1] [[2]; [3]; [4]; [5]] eq_refl) as (b & E & _ & R).
  exists b. split; [exact E | exact R].
Defined.

(** tree_hash_from_branch for any path: from a leaf of a full tree and its
    siblings along the path's bits (bit k of the path is the direction taken at
    depth k) it rebuilds the root of the tree; the path's bytes are read in range. *)
Theorem tree_hash_from_branch_path {A} {H : NodeHash A} depth (leaves : list A) path branch leaf :
  path_covers path depth -> siblings depth leaves (dirs path depth) = Some (branch, leaf) ->
  tree_hash_from_branch branch depth leaf path = full_root depth leaves.
Proof.
  intros C E. destruct (siblings_root _ _ _ _ _ E) as [-> L].
  rewrite tree_hash_from_branch_ok, take_ge by (assumption || lia). reflexivity.
Qed.

Lemma tree_hash_from_branch_path_witness :
  let H : NodeHash (list Z) := fun a b => a ++ b in
  tree_hash_from_branch [[1; 2]; [4]] 2 [3] (Some [1]) = Some [1; 2; 3; 4].
Proof.
  exact (tree_hash_from_branch_path (H := fun a b => a ++ b) 2 [[1]; [2]; [3]; [4]] (Some [1]) [[1; 2]; [4]] [3]
    ltac:(cbn; lia) eq_refl).
Defined.

(** C40.  Branches bind: if two branches of one depth and path give the same root,
    the leaves and the branches are equal, or [branch_collision] finds two
    different pairs of nodes with one hash. *)
Theorem tree_branch_binding {A} {H : NodeHash A} {E : EqDecision A} depth path (br1 br2 : list A) x1 x2 :
  path_covers path depth -> length br1 = depth -> length br2 = depth ->
  tree_hash_from_branch br1 depth x1 path = tree_hash_from_branch br2 depth x2 path ->
  match branch_collision br1 br2 (dirs path depth) x1 x2 with
  | Some ((a, b), (a', b')) => (a, b) <> (a', b') /\ node_hash a b = node_hash a' b'
  | None => br1 = br2 /\ x1 = x2
  end.
Proof.
  intros C L1 L2 R. rewrite !tree_hash_from_branch_ok, !take_ge in R by (assumption || lia). injection R as R.
  apply branch_collision_ok; [now rewrite length_dirs | now rewrite length_dirs | exact R].
Qed.

Lemma tree_branch_binding_witness :
  let H : NodeHash Z := Z.add in
  branch_collision [5; 1] [5; 2] [false; false] 4 3 = Some ((4, 1), (3, 2)) /\ 4 + 1 = 3 + 2.
Proof.
  split; [reflexivity|].
  exact (proj2 (tree_branch_binding (H := Z.add) 2 None [5; 1] [5; 2] 4 3 I eq_refl eq_refl eq_refl)).
Defined.

(** tree_depth is the binary logarithm of a size_t; it fails its assertion on
    0.  The power of two that tree_hash starts from is the largest below count, the
    one of tree_branch the largest not above it. *)
Theorem tree_counts_correct count : 0 <= count < 2 ^ 64 ->
  tree_depth count = (if count =? 0 then None else Some (Z.log2 count)) /\
  (0 < count -> branch_cnt count = (2 ^ Z.log2 count, Z.log2 count)) /\
  (1 < count -> tree_cnt count < count <= 2 * tree_cnt count /\ tree_cnt count = 2 ^ Z.log2 (count - 1)).
Proof.
  intros C. split; [|split].
  - destruct (Z.eqb_spec count 0) as [->|N]; [reflexivity | apply tree_depth_ok; lia].
  - intros P. apply branch_cnt_ok. lia.
  - intros P. rewrite tree_cnt_ok by lia. pose proof (Z.log2_spec (count - 1) ltac:(lia)) as L.
    unfold Z.succ in L. rewrite Z.pow_add_r in L by (lia || apply Z.log2_nonneg). split; [lia | reflexivity].
Qed.

Lemma tree_counts_correct_witness : tree_depth 0 = None /\ tree_depth 37 = Some 5 /\ tree_cnt 64 = 32.
Proof.
  split; [exact (proj1 (tree_counts_correct 0 ltac:(lia)))|].
  split; [exact (proj1 (tree_counts_correct 37 ltac:(lia)))|].
  exact (proj2 (proj2 (proj2 (tree_counts_correct 64 ltac:(lia))) eq_refl)).
Defined.
