(* ===== verification/EthashCore.v ===== *)
(** The proof of work of the Ethash libraries (internal.c of libethhash, libetchash,
    libubqhash and libethhashb3), which differ in the hash functions and in the epoch
    length: the class [EthashParams] holds these, and this file has the code they
    share, read in libethhash.  It models the cache of a light client, the items of the
    dataset, the full dataset, the hash over either of them, and the quick check of a
    claimed result.  A node is the 16 words of its union, little-endian in memory;
    [None] is undefined behaviour (a division by zero, an access outside the cache or
    the dataset, a null pointer) or a failed assertion, [Some None] inside a result a
    returned false or NULL. *)
From Stdlib Require Import ZArith Lia List Bool.
From stdpp Require Import base list.
From S2P Require Import Prelude CInt Keccak SpongeSpec Sponge EthashData.
Import ListNotations.
Local Open Scope Z_scope.

(** ** Nodes *)

Definition NODE_WORDS : nat := 16.
Definition MIX_WORDS : nat := 32.
Definition MIX_NODES : Z := 2.
Definition ETHASH_DATASET_PARENTS : nat := 256.
Definition ETHASH_CACHE_ROUNDS : nat := 3.
Definition ETHASH_ACCESSES : nat := 64.

(** node.words and node.bytes. *)
Definition node : Type := list Z.
Definition node_bytes (n : node) : list Z := concat (map (le_bytes 4) n).
Definition bytes_node (b : list Z) : node :=
  map (fun i => le_val (take 4 (drop (4 * i) b))) (seq 0 (length b / 4)).

(** SHA3_512 and SHA3_256 of libethhash/sha3.h. *)
Definition SHA3_512 (data : list Z) : list Z := default [] (sha3_512 64 data).
Definition SHA3_256 (data : list Z) : list Z := default [] (sha3_256 32 data).

Definition sha3_node (n : node) : node := bytes_node (SHA3_512 (node_bytes n)).

(** fnv_hash (libethhash/fnv.h). *)
Definition fnv_hash (x y : Z) : Z := Z.lxor (u32 (x * 0x01000193)) y.

Record ethash_light : Type := mklight { cache : list node; cache_size : Z; block_number : Z }.

(** What the libraries differ in: the epoch length, the hash of the cache's nodes, the
    hash of the header and the nonce, and the hash of the result. *)
Class EthashParams : Type := {
  ETHASH_EPOCH_LENGTH : Z;
  cache_512 : list Z -> list Z;
  mix_512 : list Z -> list Z;
  result_256 : list Z -> list Z
}.

(** What the functions need of them, for messages of the domain [dom]. *)
Class ParamsLaws (P : EthashParams) (dom : list Z -> Prop) : Prop := {
  epoch_length_pos : 0 < ETHASH_EPOCH_LENGTH;
  cache_512_length m : dom m -> length (cache_512 m) = 64%nat;
  mix_512_length m : dom m -> length (mix_512 m) = 64%nat;
  mix_512_bytes m : dom m -> Forall is_byte (mix_512 m);
  result_256_length m : dom m -> length (result_256 m) = 32%nat;
  result_256_bytes m : dom m -> Forall is_byte (result_256 m);
  dom_bytes m : (length m <= 96)%nat -> Forall is_byte m -> dom m
}.

Section Ethash.
Context {P : EthashParams}.

(** ** Sizes and seeds *)

Definition ethash_get_datasize (block_number : Z) : option Z :=
  let! _ := c_assert (block_number / ETHASH_EPOCH_LENGTH <? 2048) in
  dag_sizes !! Z.to_nat (block_number / ETHASH_EPOCH_LENGTH).

Definition ethash_get_cachesize (block_number : Z) : option Z :=
  let! _ := c_assert (block_number / ETHASH_EPOCH_LENGTH <? 2048) in
  cache_sizes !! Z.to_nat (block_number / ETHASH_EPOCH_LENGTH).

(** [for (uint32_t i = 0; i < epochs; ++i)] with a uint64_t bound; [None] when it does
    not end in [fuel] iterations. *)
Fixpoint seed_loop (fuel : nat) (i epochs : Z) (ret : list Z) : option (list Z) :=
  if i <? epochs then
    match fuel with
    | O => None
    | S fuel => seed_loop fuel (u32 (i + 1)) epochs (SHA3_256 ret)
    end
  else Some ret.

(** Where the loop ends it takes [epochs] iterations. *)
Definition ethash_get_seedhash (block_number : Z) : option (list Z) :=
  let epochs := block_number / ETHASH_EPOCH_LENGTH in
  seed_loop (Z.to_nat epochs) 0 epochs (repeat 0 32%nat).

(** ** ethash_compute_cache_nodes *)

(** A node hashed with the cache's hash, SHA3_512 in libethhash. *)
Definition cache_node (n : node) : node := bytes_node (cache_512 (node_bytes n)).

(** nodes[i] = SHA3_512(nodes[i - 1]) for the [n] nodes after [prev]. *)
Fixpoint cache_fill (n : nat) (prev : node) : list node :=
  match n with
  | O => []
  | S n => let next := cache_node prev in next :: cache_fill n next
  end.

(** The body of the loop on [i] in a round. *)
Definition cache_mix (num_nodes : Z) (nodes : list node) (i : nat) : option (list node) :=
  let! ni := nodes !! i in
  let! w0 := ni !! 0%nat in
  let idx := w0 mod num_nodes in
  let! data := nodes !! Z.to_nat (u32 (num_nodes - 1 + Z.of_nat i) mod num_nodes) in
  let! other := nodes !! Z.to_nat idx in
  Some (<[i := cache_node (zip_with Z.lxor data other)]> nodes).

Definition cache_round (num_nodes : Z) (nodes : list node) (_ : nat) : option (list node) :=
  foldM (cache_mix num_nodes) nodes (seq 0 (Z.to_nat num_nodes)).

Definition ethash_compute_cache_nodes (cache_size : Z) (seed : list Z) : option (option (list node)) :=
  if negb (cache_size mod 64 =? 0) then Some None
  else
    let num_nodes := u32 (cache_size / 64) in
    if num_nodes =? 0 then None
    else
      let first := bytes_node (cache_512 seed) in
      let nodes := first :: cache_fill (Z.to_nat num_nodes - 1) first in
      let! nodes := foldM (cache_round num_nodes) nodes (seq 0 ETHASH_CACHE_ROUNDS) in
      Some (Some nodes).

(** ** Dataset items *)

Definition dag_parent (num_parent_nodes node_index : Z) (light : ethash_light) (ret : node) (i : nat) : option node :=
  let! w := ret !! (i mod NODE_WORDS)%nat in
  let parent_index := fnv_hash (Z.lxor node_index (Z.of_nat i)) w mod num_parent_nodes in
  let! parent := cache light !! Z.to_nat parent_index in
  Some (zip_with fnv_hash ret parent).

Definition ethash_calculate_dag_item (node_index : Z) (light : ethash_light) : option node :=
  let num_parent_nodes := u32 (cache_size light / 64) in
  if num_parent_nodes =? 0 then None
  else
    let! init := cache light !! Z.to_nat (node_index mod num_parent_nodes) in
    let! w0 := init !! 0%nat in
    let ret := <[0%nat := Z.lxor w0 node_index]> init in
    let ret := sha3_node ret in
    let! ret := foldM (dag_parent num_parent_nodes node_index light) ret (seq 0 ETHASH_DATASET_PARENTS) in
    Some (sha3_node ret).

(** [callback n] says whether the call of the callback before node [n] returns
    non-zero; a callback with fewer than 100 nodes divides by zero. *)
Fixpoint full_data_loop (k : nat) (max_n n : Z) (light : ethash_light) (callback : option (Z -> bool))
    : option (option (list node)) :=
  match k with
  | O => Some (Some [])
  | S k =>
      let! stop := match callback with
                   | None => Some false
                   | Some cb => if max_n / 100 =? 0 then None else Some ((n mod (max_n / 100) =? 0) && cb n)
                   end in
      if stop : bool then Some None
      else
        let! item := ethash_calculate_dag_item n light in
        let! rest := full_data_loop k max_n (n + 1) light callback in
        Some (option_map (cons item) rest)
  end.

Definition ethash_compute_full_data (full_size : Z) (light : ethash_light) (callback : option (Z -> bool))
    : option (option (list node)) :=
  if negb (full_size mod 128 =? 0) || negb (full_size mod 64 =? 0) then Some None
  else
    let max_n := u32 (full_size / 64) in
    full_data_loop (Z.to_nat max_n) max_n 0 light callback.

(** ** ethash_hash *)

(** dag_node: an entry of full_nodes, or a calculated item when that is NULL.  The
    code reads the item through a pointer to a block-scoped local after the block
    has ended; the model takes the value that was stored there. *)
Definition dag_node (full_nodes : option (list node)) (light : option ethash_light) (i : Z) : option node :=
  match full_nodes with
  | Some nodes => nodes !! Z.to_nat i
  | None => let! light := light in ethash_calculate_dag_item i light
  end.

(** One access: both halves of the mix are folded with the page's nodes. *)
Definition access (nodes : Z -> option node) (num_full_pages s0 : Z) (mix : list Z) (i : nat) : option (list Z) :=
  let! m := mix !! (i mod MIX_WORDS)%nat in
  let index := fnv_hash (Z.lxor s0 (Z.of_nat i)) m mod num_full_pages in
  let! d0 := nodes (u32 (u32 (MIX_NODES * index) + 0)) in
  let mix := zip_with fnv_hash (take NODE_WORDS mix) d0 ++ drop NODE_WORDS mix in
  let! d1 := nodes (u32 (u32 (MIX_NODES * index) + 1)) in
  Some (take NODE_WORDS mix ++ zip_with fnv_hash (drop NODE_WORDS mix) d1).

(** [reduction] of the four words from [w], written to mix->words[w / 4]. *)
Definition compress (mix : list Z) (w : nat) : list Z :=
  let reduction := lane mix w in
  let reduction := fnv_hash reduction (lane mix (w + 1)) in
  let reduction := fnv_hash reduction (lane mix (w + 2)) in
  let reduction := fnv_hash reduction (lane mix (w + 3)) in
  <[(w / 4)%nat := reduction]> mix.

(** The result and the mix hash; [Some None] is [return false]. *)
Definition ethash_hash (full_nodes : option (list node)) (light : option ethash_light) (full_size : Z)
    (header_hash : list Z) (nonce : Z) : option (option (list Z * list Z)) :=
  if negb (full_size mod 32 =? 0) then Some None
  else
    let s_mix := bytes_node (mix_512 (header_hash ++ le_bytes 8 nonce)) in
    let mix := map (fun w => lane s_mix (w mod NODE_WORDS)) (seq 0 MIX_WORDS) in
    let num_full_pages := u32 (full_size / 128) in
    if num_full_pages =? 0 then None
    else
      let! mix := foldM (access (dag_node full_nodes light) num_full_pages (lane s_mix 0)) mix
                    (seq 0 ETHASH_ACCESSES) in
      let mix := fold_left compress [0; 4; 8; 12; 16; 20; 24; 28]%nat mix in
      let mix_hash := node_bytes (take 8 mix) in
      Some (Some (result_256 (node_bytes s_mix ++ mix_hash), mix_hash)).

(** A field the code leaves unset is [None]. *)
Record ethash_return_value : Type := mkret { result : option (list Z); mix_hash : option (list Z); success : bool }.

Definition to_return_value (r : option (list Z * list Z)) : ethash_return_value :=
  match r with
  | Some (res, mh) => mkret (Some res) (Some mh) true
  | None => mkret None None false
  end.

Definition ethash_light_compute_internal (light : ethash_light) (full_size : Z) (header_hash : list Z) (nonce : Z)
    : option ethash_return_value :=
  let! r := ethash_hash None (Some light) full_size header_hash nonce in
  Some (to_return_value r).

Definition ethash_light_compute (light : ethash_light) (header_hash : list Z) (nonce : Z) : option ethash_return_value :=
  let! full_size := ethash_get_datasize (block_number light) in
  ethash_light_compute_internal light full_size header_hash nonce.

(** The data of an ethash_full handler and its file_size. *)
Definition ethash_full_compute (data : list node) (file_size : Z) (header_hash : list Z) (nonce : Z)
    : option ethash_return_value :=
  let! r := ethash_hash (Some data) None file_size header_hash nonce in
  Some (to_return_value r).

(** ** Quick verification *)

Definition ethash_quick_hash (header_hash : list Z) (nonce : Z) (mix_hash : list Z) : list Z :=
  SHA3_256 (SHA3_512 (header_hash ++ le_bytes 8 nonce) ++ mix_hash).

(** ethash_check_difficulty (libethhash/internal.h): big-endian [<=]. *)
Fixpoint ethash_check_difficulty (hash boundary : list Z) : bool :=
  match hash, boundary with
  | h :: hash, b :: boundary => if h =? b then ethash_check_difficulty hash boundary else h <? b
  | _, _ => true
  end.

Definition ethash_quick_check_difficulty (header_hash : list Z) (nonce : Z) (mix_hash boundary : list Z) : bool :=
  ethash_check_difficulty (ethash_quick_hash header_hash nonce mix_hash) boundary.

(** ** Light clients *)

(** [calloc_ok] and [malloc_ok]: the allocations succeed. *)
Definition ethash_light_new_internal (calloc_ok malloc_ok : bool) (cache_size : Z) (seed : list Z)
    : option (option ethash_light) :=
  if negb calloc_ok || negb malloc_ok then Some None
  else
    let! nodes := ethash_compute_cache_nodes cache_size seed in
    Some (option_map (fun nodes => mklight nodes cache_size 0) nodes).

(** The returned pointer is used without a test for NULL. *)
Definition ethash_light_new (calloc_ok malloc_ok : bool) (block_number : Z) : option ethash_light :=
  let! seedhash := ethash_get_seedhash block_number in
  let! size := ethash_get_cachesize block_number in
  let! ret := ethash_light_new_internal calloc_ok malloc_ok size seedhash in
  let! light := ret in
  Some (mklight (cache light) (cache_size light) block_number).

End Ethash.

(** ** Nodes and hashes *)

Definition node_ok (n : node) : Prop := length n = NODE_WORDS.

Lemma SHA3_512_keccak m : SHA3_512 m = keccak512 m.
Proof. unfold SHA3_512, sha3_512, eth_sha3. cbn [Nat.div Nat.ltb]. now rewrite eth_hash_ok by (cbn; lia). Qed.

Lemma SHA3_256_keccak m : SHA3_256 m = SpongeSpec.keccak256 m.
Proof. unfold SHA3_256, sha3_256, eth_sha3. now rewrite eth_hash_ok by (cbn; lia). Qed.

Lemma sponge_bytes rate suffix n m : (n <= 200)%nat ->
  length (sponge rate suffix n m) = n /\ Forall is_byte (sponge rate suffix n m).
Proof.
  intros N. rewrite sponge_absorbed. destruct (absorbed rate (repeat 0 200%nat) m) as [b r].
  destruct (absorb_block_state b (pad_block rate suffix r)) as [L F].
  split; [rewrite length_take, L; lia | now apply Forall_take].
Qed.

Lemma SHA3_512_length m : length (SHA3_512 m) = 64%nat.
Proof. rewrite SHA3_512_keccak. now apply sponge_bytes; lia. Qed.

Lemma SHA3_512_bytes m : Forall is_byte (SHA3_512 m).
Proof. rewrite SHA3_512_keccak. now apply sponge_bytes; lia. Qed.

Lemma SHA3_256_ok m : length (SHA3_256 m) = 32%nat /\ Forall is_byte (SHA3_256 m).
Proof. rewrite SHA3_256_keccak. apply sponge_bytes. lia. Qed.

Lemma bytes_node_ok b : length b = 64%nat -> node_ok (bytes_node b).
Proof. intros L. unfold node_ok, bytes_node. rewrite length_map, length_seq, L. reflexivity. Qed.

Lemma sha3_node_ok n : node_ok (sha3_node n).
Proof. apply bytes_node_ok, SHA3_512_length. Qed.

(** Words and bytes of a node. *)
Lemma node_bytes_words k : forall b, length b = (4 * k)%nat -> Forall is_byte b ->
  node_bytes (map (fun i => le_val (take 4 (drop (4 * i) b))) (seq 0 k)) = b.
Proof.
  induction k as [|k IH]; intros b L B; [now destruct b|].
  cbn [seq map]. unfold node_bytes in *. cbn [map concat].
  assert (E : map (fun i => le_val (take 4 (drop (4 * i) b))) (seq 1 k) =
              map (fun i => le_val (take 4 (drop (4 * i) (drop 4 b)))) (seq 0 k)).
  { rewrite <- seq_shift, map_map. apply map_ext. intros i. rewrite drop_drop. do 3 f_equal. lia. }
  rewrite E, IH by (rewrite ?length_drop; auto using Forall_drop; lia).
  transitivity (take 4 b ++ drop 4 b); [|apply take_drop]. f_equal.
  rewrite Nat.mul_0_r, drop_0. assert (L4 : length (take 4 b) = 4%nat) by (rewrite length_take; lia).
  rewrite <- L4 at 1. apply le_bytes_le_val. now apply Forall_take.
Qed.

Lemma node_bytes_bytes_node b : length b = 64%nat -> Forall is_byte b -> node_bytes (bytes_node b) = b.
Proof. intros L F. unfold bytes_node. rewrite L. now apply (node_bytes_words 16). Qed.

Lemma node_bytes_length n : length (node_bytes n) = (4 * length n)%nat.
Proof.
  unfold node_bytes. induction n as [|w n IH]; [reflexivity|]. cbn [map concat length].
  rewrite length_app, length_le_bytes, IH. lia.
Qed.

Lemma node_bytes_byte n : Forall is_byte (node_bytes n).
Proof. unfold node_bytes. apply Forall_concat, List.Forall_map, List.Forall_forall. intros w _. apply le_bytes_byte. Qed.

Lemma zip_node (f : Z -> Z -> Z) a b : node_ok a -> node_ok b -> node_ok (zip_with f a b).
Proof. unfold node_ok. intros A B. rewrite length_zip_with. lia. Qed.

Lemma lookup_safe {A} (l : list A) (P : A -> Prop) i : (i < length l)%nat -> Forall P l -> safe (l !! i) P.
Proof.
  intros I F. destruct (lookup_lt_is_Some_2 l i I) as [x X]. rewrite X. exact (Forall_lookup_1 P l i x F X).
Qed.

Lemma node_word_safe n i : node_ok n -> (i < 16)%nat -> safe (n !! i) (fun _ => True).
Proof.
  unfold node_ok, NODE_WORDS. intros L I. apply lookup_safe; [lia|]. apply Forall_forall. auto.
Qed.

Lemma mod_index x n : 0 < n -> (Z.to_nat (x mod n) < Z.to_nat n)%nat.
Proof. intros N. pose proof (Z.mod_pos_bound x n N). lia. Qed.

(** ** Seeds *)

(** The seed of an epoch: that many hashes of zero. *)
Definition seed_of_epoch (epoch : Z) : list Z := Nat.iter (Z.to_nat epoch) SHA3_256 (repeat 0 32%nat).

Lemma seed_of_epoch_bytes e : length (seed_of_epoch e) = 32%nat /\ Forall is_byte (seed_of_epoch e).
Proof.
  unfold seed_of_epoch. destruct (Z.to_nat e) as [|k]; [|apply SHA3_256_ok]. split; [reflexivity | apply zeros_byte].
Qed.

Lemma seed_loop_ok fuel : forall i epochs ret, 0 <= i <= epochs -> epochs < 2 ^ 32 -> fuel = Z.to_nat (epochs - i) ->
  seed_loop fuel i epochs ret = Some (Nat.iter fuel SHA3_256 ret).
Proof.
  induction fuel as [|fuel IH]; intros i epochs ret I E F; cbn [seed_loop].
  - now rewrite (proj2 (Z.ltb_ge _ _)) by lia.
  - rewrite (proj2 (Z.ltb_lt _ _)) by lia. unfold u32. rewrite Z.mod_small, IH by lia.
    now rewrite Nat.iter_succ_r.
Qed.

(** From 2^32 epochs on the counter never reaches the bound. *)
Lemma seed_loop_endless fuel : forall i epochs ret, 0 <= i < 2 ^ 32 -> 2 ^ 32 <= epochs -> seed_loop fuel i epochs ret = None.
Proof.
  induction fuel as [|fuel IH]; intros i epochs ret I E; cbn [seed_loop]; rewrite (proj2 (Z.ltb_lt _ _)) by lia; [reflexivity|].
  apply IH; [|exact E]. apply Z.mod_pos_bound. reflexivity.
Qed.

(** ** The cache *)

Section Laws.
Context {EP : EthashParams} {dom : list Z -> Prop} {PL : ParamsLaws EP dom}.

Lemma cache_node_ok n : node_ok n -> node_ok (cache_node n).
Proof.
  intros N. apply bytes_node_ok, cache_512_length, dom_bytes; [|apply node_bytes_byte].
  rewrite node_bytes_length, N. unfold NODE_WORDS. lia.
Qed.

Definition nodes_ok (num : Z) (nodes : list node) : Prop := length nodes = Z.to_nat num /\ Forall node_ok nodes.

Lemma cache_fill_ok n prev : node_ok prev -> length (cache_fill n prev) = n /\ Forall node_ok (cache_fill n prev).
Proof.
  revert prev. induction n as [|n IH]; intros prev O; [split; constructor|]. cbn [cache_fill length].
  apply cache_node_ok in O. destruct (IH (cache_node prev) O) as [L F]. split; [now rewrite L | now constructor].
Qed.

Lemma cache_mix_safe num nodes i : 0 < num -> In i (seq 0 (Z.to_nat num)) -> nodes_ok num nodes ->
  safe (cache_mix num nodes i) (nodes_ok num).
Proof.
  intros N I [L F]. apply in_seq in I. unfold cache_mix.
  eapply safe_bind; [apply (lookup_safe _ node_ok); [lia | exact F]|]. intros ni Ni.
  eapply safe_bind; [apply node_word_safe; [exact Ni | lia]|]. intros w _.
  eapply safe_bind; [apply (lookup_safe _ node_ok); [rewrite L; now apply mod_index | exact F]|]. intros data Nd.
  eapply safe_bind; [apply (lookup_safe _ node_ok); [rewrite L; now apply mod_index | exact F]|]. intros other No.
  split; [now rewrite length_insert|]. apply Forall_insert; [exact F | now apply cache_node_ok, zip_node].
Qed.

Lemma ethash_compute_cache_nodes_ok size seed : 0 < size < 2 ^ 38 -> dom seed ->
  if size mod 64 =? 0
  then exists nodes, ethash_compute_cache_nodes size seed = Some (Some nodes) /\ nodes_ok (size / 64) nodes
  else ethash_compute_cache_nodes size seed = Some None.
Proof.
  intros S Ds. unfold ethash_compute_cache_nodes. destruct (Z.eqb_spec (size mod 64) 0) as [E|E]; [|reflexivity].
  cbn [negb]. apply Z.div_exact in E; [|lia].
  assert (U : u32 (size / 64) = size / 64) by (apply Z.mod_small; lia). rewrite U.
  set (num := size / 64) in *. rewrite (proj2 (Z.eqb_neq num 0)) by lia. set (first := bytes_node _).
  assert (O : node_ok first) by now apply bytes_node_ok, cache_512_length.
  destruct (cache_fill_ok (Z.to_nat num - 1) first O) as [L F].
  assert (R : safe (foldM (cache_round num) (first :: cache_fill (Z.to_nat num - 1) first) (seq 0 ETHASH_CACHE_ROUNDS))
                (nodes_ok num)).
  { apply foldM_safe.
    - intros nodes r _ K. apply foldM_safe; [|exact K]. intros ns i I. apply cache_mix_safe; [lia | exact I].
    - split; [cbn [length]; lia | now constructor]. }
  apply safe_some in R. destruct R as (nodes & -> & K). exists nodes. auto.
Qed.

(** ** Dataset items *)

Definition light_ok (light : ethash_light) : Prop :=
  0 < cache_size light < 2 ^ 38 /\ cache_size light mod 64 = 0 /\ nodes_ok (cache_size light / 64) (cache light).

Lemma light_parents light : light_ok light ->
  u32 (cache_size light / 64) = cache_size light / 64 /\ 0 < cache_size light / 64.
Proof.
  intros (S & E & _). apply Z.div_exact in E; [|lia]. split; [apply Z.mod_small|]; lia.
Qed.

Lemma ethash_calculate_dag_item_safe light i : light_ok light -> safe (ethash_calculate_dag_item i light) node_ok.
Proof.
  intros Lk. destruct (light_parents light Lk) as [U P]. destruct Lk as (_ & _ & L & F).
  unfold ethash_calculate_dag_item. rewrite U. set (num := cache_size light / 64) in *.
  rewrite (proj2 (Z.eqb_neq num 0)) by lia.
  eapply safe_bind; [apply (lookup_safe _ node_ok); [rewrite L; now apply mod_index | exact F]|]. intros init Ni.
  eapply safe_bind; [apply node_word_safe; [exact Ni | lia]|]. intros w _.
  eapply safe_bind; [apply (foldM_safe node_ok)|]; [| apply sha3_node_ok | intros ret _; apply sha3_node_ok].
  intros ret k _ R. unfold dag_parent.
  eapply safe_bind; [apply node_word_safe; [exact R | apply Nat.mod_upper_bound; discriminate]|]. intros x _.
  eapply safe_bind; [apply (lookup_safe _ node_ok); [rewrite L; now apply mod_index | exact F]|]. intros parent Pk.
  now apply zip_node.
Qed.

(** Without a callback that stops it, the loop stores item [n + k] at entry [k]. *)
Lemma full_data_loop_ok light callback max_n k : light_ok light ->
  (forall cb, callback = Some cb -> 100 <= max_n /\ forall n, cb n = false) -> forall n,
  exists nodes, full_data_loop k max_n n light callback = Some (Some nodes) /\ length nodes = k /\
    forall i, (i < k)%nat -> nodes !! i = ethash_calculate_dag_item (n + Z.of_nat i) light.
Proof.
  intros Lk C. induction k as [|k IH]; intros n; [exists []; repeat split; lia|].
  cbn [full_data_loop].
  assert (Cs : (match callback with
    | None => Some false
    | Some cb => if max_n / 100 =? 0 then None else Some ((n mod (max_n / 100) =? 0) && cb n)
    end) = Some false).
  { destruct callback as [cb|]; [|reflexivity]. destruct (C cb eq_refl) as [M Cb].
    assert (0 < max_n / 100) by (apply Z.div_str_pos; lia).
    rewrite (proj2 (Z.eqb_neq (max_n / 100) 0)), Cb, andb_false_r by lia. reflexivity. }
  rewrite Cs. cbn [bind].
  pose proof (ethash_calculate_dag_item_safe light n Lk) as I. apply safe_some in I. destruct I as (item & E & _).
  rewrite E. cbn [bind]. destruct (IH (n + 1)) as (rest & -> & L & R). exists (item :: rest).
  split; [reflexivity|]. split; [cbn [length]; lia|]. intros [|i] I.
  - rewrite Z.add_0_r, E. reflexivity.
  - replace (n + Z.of_nat (S i)) with (n + 1 + Z.of_nat i) by lia. apply R. lia.
Qed.

(** ** The hash *)

Definition mix_ok (mix : list Z) : Prop := length mix = MIX_WORDS.

Lemma access_ok (nodes nodes' : Z -> option node) pages s0 mix i : 0 < pages < 2 ^ 31 ->
  (forall k, 0 <= k < 2 * pages -> nodes k = nodes' k /\ safe (nodes k) node_ok) -> mix_ok mix ->
  access nodes pages s0 mix i = access nodes' pages s0 mix i /\ safe (access nodes pages s0 mix i) mix_ok.
Proof.
  unfold mix_ok, MIX_WORDS. intros P Nd M. unfold access.
  destruct (lookup_lt_is_Some_2 mix (i mod MIX_WORDS)%nat) as [m ->];
    [rewrite M; apply Nat.mod_upper_bound; discriminate|]. cbn [bind].
  set (index := fnv_hash _ m mod pages).
  assert (I : 0 <= index < pages) by (apply Z.mod_pos_bound; lia).
  assert (U0 : u32 (u32 (MIX_NODES * index) + 0) = 2 * index)
    by (unfold u32, MIX_NODES; rewrite (Z.mod_small (2 * index)), Z.mod_small by lia; lia).
  assert (U1 : u32 (u32 (MIX_NODES * index) + 1) = 2 * index + 1)
    by (unfold u32, MIX_NODES; rewrite (Z.mod_small (2 * index)), Z.mod_small by lia; lia).
  rewrite U0, U1. destruct (Nd (2 * index) ltac:(lia)) as [<- S0]. destruct (Nd (2 * index + 1) ltac:(lia)) as [<- S1].
  apply safe_some in S0, S1. destruct S0 as (d0 & -> & O0). destruct S1 as (d1 & -> & O1). cbn [bind].
  split; [reflexivity|]. cbn [safe]. unfold node_ok, NODE_WORDS in *.
  rewrite length_app, length_take, length_zip_with, length_drop, length_app, length_zip_with, length_take, length_drop, M.
  lia.
Qed.

Lemma compress_length mix ws : length (fold_left compress ws mix) = length mix.
Proof.
  revert mix. induction ws as [|w ws IH]; intros mix; [reflexivity|]. cbn [fold_left]. rewrite IH. apply length_insert.
Qed.

(** With at least one page and nodes for every page, the hash is returned, its result
    hashes the mix hash with the header, and it depends on the nodes only. *)
Lemma ethash_hash_ok full light full' light' pages header nonce : 0 < pages < 2 ^ 31 -> dom (header ++ le_bytes 8 nonce) ->
  (forall k, 0 <= k < 2 * pages -> dag_node full light k = dag_node full' light' k /\ safe (dag_node full light k) node_ok) ->
  ethash_hash full light (128 * pages) header nonce = ethash_hash full' light' (128 * pages) header nonce /\
  exists mh, length mh = 32%nat /\ Forall is_byte mh /\
    ethash_hash full light (128 * pages) header nonce =
      Some (Some (result_256 (mix_512 (header ++ le_bytes 8 nonce) ++ mh), mh)).
Proof.
  intros Pg Dm Nd. unfold ethash_hash.
  assert (D : (128 * pages) mod 32 = 0) by (replace (128 * pages) with (4 * pages * 32) by lia; apply Z.mod_mul; lia).
  rewrite D. cbn [negb Z.eqb].
  assert (U : u32 (128 * pages / 128) = pages) by (rewrite Z.mul_comm, Z.div_mul by lia; apply Z.mod_small; lia).
  rewrite U, (proj2 (Z.eqb_neq pages 0)) by lia.
  set (s_mix := bytes_node _). set (mix := map _ (seq 0 MIX_WORDS)).
  assert (M : mix_ok mix) by (unfold mix, mix_ok; rewrite length_map, length_seq; reflexivity).
  assert (St : forall a b, In b (seq 0 ETHASH_ACCESSES) -> mix_ok a ->
    access (dag_node full light) pages (lane s_mix 0) a b = access (dag_node full' light') pages (lane s_mix 0) a b /\
    safe (access (dag_node full light) pages (lane s_mix 0) a b) mix_ok) by (intros; now apply access_ok).
  rewrite <- (foldM_ext mix_ok _ _ _ St mix M). split; [reflexivity|].
  pose proof (foldM_safe mix_ok _ _ (fun a b I O => proj2 (St a b I O)) mix M) as R.
  apply safe_some in R. destruct R as (mix' & -> & M'). cbn [bind].
  set (mix2 := fold_left compress _ mix').
  exists (node_bytes (take 8 mix2)). split; [|split; [apply node_bytes_byte|]].
  - rewrite node_bytes_length, length_take. unfold mix2. rewrite compress_length, M'. reflexivity.
  - unfold s_mix. now rewrite node_bytes_bytes_node by (exact (mix_512_length _ Dm) || exact (mix_512_bytes _ Dm)).
Qed.

(** A light client over a dataset of [size] bytes. *)
Lemma light_compute_ok light size header nonce : light_ok light -> 0 < size < 2 ^ 38 -> size mod 128 = 0 ->
  dom (header ++ le_bytes 8 nonce) ->
  exists mh, length mh = 32%nat /\ Forall is_byte mh /\
    let res := result_256 (mix_512 (header ++ le_bytes 8 nonce) ++ mh) in
    ethash_light_compute_internal light size header nonce = Some (mkret (Some res) (Some mh) true) /\
    length res = 32%nat /\ Forall is_byte res.
Proof.
  intros Lk S D Dm. unfold ethash_light_compute_internal. apply Z.div_exact in D; [|lia]. rewrite D.
  destruct (ethash_hash_ok None (Some light) None (Some light) (size / 128) header nonce) as [_ (mh & Lm & Fm & ->)];
    [lia | exact Dm | intros k _; split; [reflexivity | now apply ethash_calculate_dag_item_safe]|].
  exists mh. split; [exact Lm|]. split; [exact Fm|]. split; [reflexivity|].
  assert (Dr : dom (mix_512 (header ++ le_bytes 8 nonce) ++ mh)).
  { apply dom_bytes; [rewrite length_app, mix_512_length, Lm by exact Dm; lia|].
    apply Forall_app. split; [now apply mix_512_bytes | exact Fm]. }
  split; [now apply result_256_length | now apply result_256_bytes].
Qed.

(** Full and light clients over [pages] pages. *)
Lemma full_light_ok light pages callback : light_ok light -> 0 < pages < 2 ^ 31 ->
  (forall cb, callback = Some cb -> 50 <= pages /\ forall n, cb n = false) ->
  exists data, ethash_compute_full_data (128 * pages) light callback = Some (Some data) /\
    Z.of_nat (length data) = 2 * pages /\
    forall header nonce, dom (header ++ le_bytes 8 nonce) -> exists ret,
      ethash_full_compute data (128 * pages) header nonce = Some ret /\
      ethash_light_compute_internal light (128 * pages) header nonce = Some ret /\ success ret = true.
Proof.
  intros Lk Pg C. unfold ethash_compute_full_data.
  assert (D1 : (128 * pages) mod 128 = 0) by (rewrite Z.mul_comm; apply Z.mod_mul; lia).
  assert (D2 : (128 * pages) mod 64 = 0) by (replace (128 * pages) with (2 * pages * 64) by lia; apply Z.mod_mul; lia).
  assert (U : u32 (128 * pages / 64) = 2 * pages).
  { replace (128 * pages) with (2 * pages * 64) by lia. rewrite Z.div_mul by lia. apply Z.mod_small. lia. }
  rewrite D1, D2, U. cbn [Z.eqb negb orb].
  destruct (full_data_loop_ok light callback (2 * pages) (Z.to_nat (2 * pages)) Lk) with (n := 0) as (data & -> & Ld & G).
  { intros cb E. destruct (C cb E). split; [lia | assumption]. }
  exists data. split; [reflexivity|]. split; [lia|]. intros header nonce Dm.
  unfold ethash_full_compute, ethash_light_compute_internal.
  destruct (ethash_hash_ok (Some data) None None (Some light) pages header nonce Pg Dm) as [<- (mh & _ & _ & ->)].
  - intros k K. cbn [dag_node bind]. rewrite G, Z2Nat.id by lia. rewrite Z.add_0_l.
    split; [reflexivity | now apply ethash_calculate_dag_item_safe].
  - eexists. split; [reflexivity|]. split; reflexivity.
Qed.

(** ** Sizes *)

Definition size_row_ok (unit init growth slack : Z) '((e, s) : nat * Z) : bool :=
  let top := init + growth * Z.of_nat e in
  (s mod unit =? 0) && (top - slack <=? s) && (s <? top).

Definition sizes_ok (unit init growth slack : Z) (sizes : list Z) : bool :=
  (length sizes =? 2048)%nat && forallb (size_row_ok unit init growth slack) (combine (seq 0 (length sizes)) sizes).

Lemma dag_sizes_ok : sizes_ok 128 (2 ^ 30) (2 ^ 23) 13952 dag_sizes = true.
Proof. vm_compute. reflexivity. Qed.

Lemma cache_sizes_ok : sizes_ok 64 (2 ^ 24) (2 ^ 17) 6336 cache_sizes = true.
Proof. vm_compute. reflexivity. Qed.

Lemma size_lookup unit init growth slack sizes e : sizes_ok unit init growth slack sizes = true -> 0 <= e < 2048 ->
  exists s, sizes !! Z.to_nat e = Some s /\ s mod unit = 0 /\
    init + growth * e - slack <= s < init + growth * e.
Proof.
  intros O E. apply andb_true_iff in O. destruct O as [L F]. apply Nat.eqb_eq in L.
  destruct (lookup_lt_is_Some_2 sizes (Z.to_nat e)) as [s Hs]; [lia|]. exists s. split; [exact Hs|].
  rewrite forallb_forall in F. specialize (F (Z.to_nat e, s)). cbn [size_row_ok] in F.
  rewrite Z2Nat.id in F by lia. assert (H : In (Z.to_nat e, s) (combine (seq 0 (length sizes)) sizes)).
  { apply list_elem_of_In. apply (list_elem_of_lookup_2 _ (Z.to_nat e)).
    change (combine (seq 0 (length sizes)) sizes) with (zip (seq 0 (length sizes)) sizes).
    rewrite lookup_zip_with, lookup_seq_lt by lia. cbn [mbind option_bind]. rewrite Hs. reflexivity. }
  specialize (F H). rewrite !andb_true_iff, Z.eqb_eq, Z.leb_le, Z.ltb_lt in F. lia.
Qed.

Lemma epoch_range len bn : 0 < len -> 0 <= bn < 2048 * len -> 0 <= bn / len < 2048.
Proof. intros E B. split; [apply Z.div_pos; lia | apply Z.div_lt_upper_bound; lia]. Qed.

(** The sizes of an epoch of the tables. *)
Lemma sizes_lookup e : 0 <= e < 2048 -> exists dag cs,
  dag_sizes !! Z.to_nat e = Some dag /\ dag mod 128 = 0 /\ 2 ^ 30 + 2 ^ 23 * e - 13952 <= dag < 2 ^ 30 + 2 ^ 23 * e /\
  cache_sizes !! Z.to_nat e = Some cs /\ cs mod 64 = 0 /\ 2 ^ 24 + 2 ^ 17 * e - 6336 <= cs < 2 ^ 24 + 2 ^ 17 * e.
Proof.
  intros E. destruct (size_lookup _ _ _ _ _ _ dag_sizes_ok E) as (d & Hd & D1 & D2).
  destruct (size_lookup _ _ _ _ _ _ cache_sizes_ok E) as (c & Hc & C1 & C2). exists d, c. auto 10.
Qed.

(** The seed hash of a block: that of its epoch, if its loop ends. *)
Lemma seedhash_ok bn : 0 <= bn -> dom (seed_of_epoch (bn / ETHASH_EPOCH_LENGTH)) /\
  ethash_get_seedhash bn =
    if bn / ETHASH_EPOCH_LENGTH <? 2 ^ 32 then Some (seed_of_epoch (bn / ETHASH_EPOCH_LENGTH)) else None.
Proof.
  intros B. pose proof (Z.div_pos bn ETHASH_EPOCH_LENGTH B epoch_length_pos) as E.
  split; [destruct (seed_of_epoch_bytes (bn / ETHASH_EPOCH_LENGTH)) as [Ls F]; apply dom_bytes; [lia | exact F]|].
  unfold ethash_get_seedhash, seed_of_epoch. destruct (Z.ltb_spec (bn / ETHASH_EPOCH_LENGTH) (2 ^ 32)) as [L|L].
  - apply seed_loop_ok; lia.
  - apply seed_loop_endless; lia.
Qed.

(** A block whose epoch the tables cover has one. *)
Lemma seedhash_covered bn : 0 <= bn -> bn / ETHASH_EPOCH_LENGTH < 2 ^ 32 ->
  ethash_get_seedhash bn = Some (seed_of_epoch (bn / ETHASH_EPOCH_LENGTH)).
Proof. intros B L. rewrite (proj2 (seedhash_ok bn B)). now rewrite (proj2 (Z.ltb_lt _ _) L). Qed.

(** A cache of a tabulated size. *)
Lemma light_new_internal_ok size seed : 0 < size < 2 ^ 38 -> size mod 64 = 0 -> dom seed ->
  exists light, ethash_light_new_internal true true size seed = Some (Some light) /\ cache_size light = size /\
    forall bn, light_ok (mklight (cache light) (cache_size light) bn).
Proof.
  intros S D Ds. unfold ethash_light_new_internal. cbn [negb orb].
  pose proof (ethash_compute_cache_nodes_ok size seed S Ds) as C. rewrite D in C. cbn [Z.eqb] in C.
  destruct C as (nodes & -> & O). cbn [bind option_map]. eexists. split; [reflexivity|]. split; [reflexivity|].
  intros bn. split; [exact S|]. auto.
Qed.

(** The sizes for a block the tables cover. *)
Lemma get_sizes_ok bn : 0 <= bn < 2048 * ETHASH_EPOCH_LENGTH -> exists dag cs,
  ethash_get_datasize bn = Some dag /\ 0 < dag < 2 ^ 38 /\ dag mod 128 = 0 /\
  ethash_get_cachesize bn = Some cs /\ 0 < cs < 2 ^ 38 /\ cs mod 64 = 0.
Proof.
  intros B. pose proof (epoch_range _ bn epoch_length_pos B) as E.
  destruct (sizes_lookup _ E) as (d & c & Hd & D1 & D2 & Hc & C1 & C2). exists d, c.
  unfold ethash_get_datasize, ethash_get_cachesize. rewrite (proj2 (Z.ltb_lt _ 2048)) by apply E. cbn [c_assert bind].
  split; [exact Hd|]. split; [lia|]. split; [exact D1|]. split; [exact Hc|]. split; [lia | exact C1].
Qed.

Lemma ethash_light_new_ok bn : 0 <= bn < 2048 * ETHASH_EPOCH_LENGTH ->
  exists light, ethash_light_new true true bn = Some light /\ light_ok light /\ block_number light = bn.
Proof.
  intros B. destruct (get_sizes_ok bn B) as (_ & cs & _ & _ & _ & Hc & Bc & Mc). unfold ethash_light_new.
  pose proof (epoch_range _ bn epoch_length_pos B) as Er. destruct (seedhash_ok bn ltac:(lia)) as [Ds _].
  rewrite seedhash_covered by lia. cbn [bind]. rewrite Hc. cbn [bind].
  destruct (light_new_internal_ok cs _ Bc Mc Ds) as (light & -> & _ & O). cbn [bind].
  eexists. split; [reflexivity|]. split; [apply O | reflexivity].
Qed.

(** The path of a share. *)
Lemma light_share_ok bn : 0 <= bn < 2048 * ETHASH_EPOCH_LENGTH ->
  exists light, ethash_light_new true true bn = Some light /\
    forall header nonce, dom (header ++ le_bytes 8 nonce) -> exists mh, length mh = 32%nat /\ Forall is_byte mh /\
      let res := result_256 (mix_512 (header ++ le_bytes 8 nonce) ++ mh) in
      ethash_light_compute light header nonce = Some (mkret (Some res) (Some mh) true) /\ length res = 32%nat /\ Forall is_byte res.
Proof.
  intros B. destruct (ethash_light_new_ok bn B) as (light & E & Lk & Bn). exists light. split; [exact E|].
  intros header nonce Dm. destruct (get_sizes_ok bn B) as (dag & _ & Hd & Bd & Md & _).
  unfold ethash_light_compute. rewrite Bn, Hd. cbn [bind]. now apply light_compute_ok.
Qed.
End Laws.

(** The cache depends on its hash at the bytes of nodes and of the seed only. *)
Lemma cache_nodes_ext (P Q : EthashParams) size seed :
  (forall m, Forall is_byte m -> cache_512 (EthashParams := P) m = cache_512 (EthashParams := Q) m) -> Forall is_byte seed ->
  ethash_compute_cache_nodes (P := P) size seed = ethash_compute_cache_nodes (P := Q) size seed.
Proof.
  intros E F.
  assert (N : forall n, cache_node (P := P) n = cache_node (P := Q) n).
  { intros n. unfold cache_node. now rewrite E by apply node_bytes_byte. }
  assert (C : forall k prev, cache_fill (P := P) k prev = cache_fill (P := Q) k prev).
  { induction k as [|k IH]; intros prev; [reflexivity|]. cbn [cache_fill]. now rewrite N, IH. }
  assert (R : forall num nodes j, cache_round (P := P) num nodes j = cache_round (P := Q) num nodes j).
  { intros num nodes j. apply (foldM_ext_eq (cache_mix num) (cache_mix num)). intros ns i. unfold cache_mix.
    destruct (ns !! i) as [ni|]; [cbn [bind] | reflexivity]. destruct (ni !! 0%nat) as [w|]; [cbn [bind] | reflexivity].
    destruct (ns !! _) as [data|]; [cbn [bind] | reflexivity]. destruct (ns !! _) as [other|]; [cbn [bind] | reflexivity].
    now rewrite N. }
  unfold ethash_compute_cache_nodes. rewrite E, C by exact F. destruct (negb _); [reflexivity|]. destruct (_ =? 0); [reflexivity|].
  now rewrite (foldM_ext_eq _ _ (R _)).
Qed.

(** ** Big-endian comparison *)

Lemma be_val_cons x b : be_val (x :: b) = x * 2 ^ (8 * Z.of_nat (length b)) + be_val b.
Proof. unfold be_val. cbn [rev]. rewrite le_val_app, length_rev. cbn [le_val]. lia. Qed.

Lemma ethash_check_difficulty_ok h : forall b, length h = length b -> Forall is_byte h -> Forall is_byte b ->
  ethash_check_difficulty h b = (be_val h <=? be_val b).
Proof.
  induction h as [|x h IH]; intros [|y b] L Fh Fb; cbn in L; try lia; [reflexivity|].
  inversion Fh as [|? ? _ Fh']; inversion Fb as [|? ? _ Fb']; subst. cbn [ethash_check_difficulty].
  rewrite !be_val_cons. replace (length b) with (length h) by lia.
  pose proof (be_val_bound h Fh'). pose proof (be_val_bound b Fb') as Bb. replace (length b) with (length h) in Bb by lia.
  set (w := 2 ^ (8 * Z.of_nat (length h))) in *.
  destruct (Z.eqb_spec x y) as [->|N].
  - rewrite IH by (assumption || lia). destruct (Z.leb_spec (be_val h) (be_val b)); symmetry;
      [apply Z.leb_le | apply Z.leb_gt]; lia.
  - destruct (Z.ltb_spec x y); symmetry; [apply Z.leb_le | apply Z.leb_gt]; nia.
Qed.

