(* ===== verification/Ethash.v ===== *)
(** libethhash: the instance of EthashCore with Keccak everywhere and epochs of 30,000
    blocks, and the properties of the proof of work of Ethereum. *)
From Stdlib Require Import ZArith Lia List Bool.
From stdpp Require Import base list.
From S2P Require Import Prelude CInt Keccak SpongeSpec Sponge EthashData EthashCore.
Import ListNotations.
Local Open Scope Z_scope.

(** ethash.h and the calls of internal.c. *)
Definition libethhash : EthashParams :=
  {| ETHASH_EPOCH_LENGTH := 30000; cache_512 := SHA3_512; mix_512 := SHA3_512; result_256 := SHA3_256 |}.

#[local] Existing Instance libethhash.

#[export] Instance libethhash_laws : ParamsLaws libethhash (fun _ => True).
Proof.
  split.
  - reflexivity.
  - intros m _. exact (SHA3_512_length m).
  - intros m _. exact (SHA3_512_length m).
  - intros m _. exact (SHA3_512_bytes m).
  - intros m _. apply SHA3_256_ok.
  - intros m _. apply SHA3_256_ok.
  - intros m _ _. exact I.
Qed.

(** ** Properties *)

(** C9.  A full client and a light client agree: for a dataset of [pages] pages,
    ethash_compute_full_data (with no callback, or one that never stops it and at
    least 100 nodes to report on) fills 2 * pages nodes, and for every header and
    nonce ethash_full_compute over them returns what ethash_light_compute_internal
    returns from the cache alone, with success set. *)
Theorem ethash_full_light_agree light pages callback : light_ok light -> 0 < pages < 2 ^ 31 ->
  (forall cb, callback = Some cb -> 50 <= pages /\ forall n, cb n = false) ->
  exists data, ethash_compute_full_data (128 * pages) light callback = Some (Some data) /\
    Z.of_nat (length data) = 2 * pages /\
    forall header nonce, exists ret,
      ethash_full_compute data (128 * pages) header nonce = Some ret /\
      ethash_light_compute_internal light (128 * pages) header nonce = Some ret /\ success ret = true.
Proof.
  intros Lk P C. destruct (full_light_ok (dom := fun _ => True) light pages callback Lk P C) as (data & E & L & A).
  exists data. auto.
Qed.

Lemma ethash_full_light_agree_witness :
  let light := mklight [repeat 1 16%nat; repeat 2 16%nat] 128 0 in
  exists data, ethash_compute_full_data (128 * 2) light None = Some (Some data) /\
    ethash_full_compute data (128 * 2) [] 7 = ethash_light_compute_internal light (128 * 2) [] 7.
Proof.
  assert (O : light_ok (mklight [repeat 1 16%nat; repeat 2 16%nat] 128 0)).
  { split; [cbn; lia|]. split; [reflexivity|]. split; [reflexivity | repeat constructor]. }
  destruct (ethash_full_light_agree _ 2 None O ltac:(lia) ltac:(discriminate)) as (data & E & _ & A).
  exists data. split; [exact E|]. destruct (A [] 7) as (r & F & L & _).
  exact (eq_trans F (eq_sym L)).
Defined.

(** C8.  The path of a share: for every block below 61,440,000, ethash_light_new
    makes a client (if memory lasts), ethash_light_compute with it succeeds for
    every header and nonce, its result is the ethash_quick_hash of its mix hash, and
    ethash_quick_check_difficulty accepts that mix hash exactly when the result, as
    a big-endian number, is at most the boundary. *)
Theorem ethash_light_share bn : 0 <= bn < 2048 * ETHASH_EPOCH_LENGTH ->
  exists light, ethash_light_new true true bn = Some light /\
    forall header nonce, exists res mh,
      ethash_light_compute light header nonce = Some (mkret (Some res) (Some mh) true) /\
      length mh = 32%nat /\ ethash_quick_hash header nonce mh = res /\
      forall boundary, length boundary = 32%nat -> Forall is_byte boundary ->
        ethash_quick_check_difficulty header nonce mh boundary = (be_val res <=? be_val boundary).
Proof.
  intros B. destruct (light_share_ok (dom := fun _ => True) bn B) as (light & E & A). exists light. split; [exact E|].
  intros header nonce. destruct (A header nonce I) as (mh & Lm & _ & C & Lr & Fr). eexists. exists mh.
  split; [exact C|]. split; [exact Lm|]. split; [reflexivity|]. intros boundary Lb Fb.
  apply ethash_check_difficulty_ok; [now rewrite Lb | exact Fr | exact Fb].
Qed.

Lemma ethash_light_share_witness : exists light, ethash_light_new true true 12345678 = Some light.
Proof.
  destruct (ethash_light_share 12345678 ltac:(cbn; lia)) as (light & E & _).
  exists light. exact E.
Defined.

(** The size tables: for every epoch they cover, the dataset size is a multiple
    of the 128-byte page and at most 13952 bytes below 2^30 + 2^23 * epoch, the cache
    size a multiple of the 64-byte node and at most 6336 bytes below 2^24 + 2^17 *
    epoch; above them the assertions fail. *)
Theorem ethash_sizes_correct bn : 0 <= bn ->
  let epoch := bn / ETHASH_EPOCH_LENGTH in
  if epoch <? 2048 then
    exists dag cs, ethash_get_datasize bn = Some dag /\ ethash_get_cachesize bn = Some cs /\
      dag mod 128 = 0 /\ 2 ^ 30 + 2 ^ 23 * epoch - 13952 <= dag < 2 ^ 30 + 2 ^ 23 * epoch /\
      cs mod 64 = 0 /\ 2 ^ 24 + 2 ^ 17 * epoch - 6336 <= cs < 2 ^ 24 + 2 ^ 17 * epoch
  else ethash_get_datasize bn = None /\ ethash_get_cachesize bn = None.
Proof.
  cbv zeta. intros B. unfold ethash_get_datasize, ethash_get_cachesize.
  destruct (Z.ltb_spec (bn / ETHASH_EPOCH_LENGTH) 2048) as [L|L]; [|split; reflexivity].
  assert (E : 0 <= bn / ETHASH_EPOCH_LENGTH < 2048) by (split; [apply Z.div_pos; [exact B | reflexivity] | exact L]).
  destruct (sizes_lookup _ E) as (d & c & Hd & D1 & D2 & Hc & C1 & C2). exists d, c. cbn [c_assert bind]. auto 10.
Qed.

Lemma ethash_sizes_correct_witness : ethash_get_datasize 61440000 = None /\
  exists dag, ethash_get_datasize 30000 = Some dag /\ dag mod 128 = 0.
Proof.
  split; [exact (proj1 (ethash_sizes_correct 61440000 ltac:(lia)))|].
  destruct (ethash_sizes_correct 30000 ltac:(lia)) as (d & c & D & _ & M & _). exists d. auto.
Defined.

(** Building a cache: ethash_compute_cache_nodes returns false exactly for a
    size that is not a whole number of nodes and otherwise fills every node;
    ethash_light_new_internal returns NULL when that or an allocation fails, and
    ethash_light_new then writes through the null pointer. *)
Theorem ethash_light_new_errors calloc_ok malloc_ok size seed : 0 < size < 2 ^ 38 ->
  match ethash_light_new_internal calloc_ok malloc_ok size seed with
  | Some (Some light) => calloc_ok = true /\ malloc_ok = true /\ size mod 64 = 0 /\ cache_size light = size /\
      nodes_ok (size / 64) (cache light)
  | Some None => calloc_ok = false \/ malloc_ok = false \/ size mod 64 <> 0
  | None => False
  end /\
  (calloc_ok && malloc_ok = false -> forall bn, ethash_light_new calloc_ok malloc_ok bn = None).
Proof.
  intros S. split.
  - unfold ethash_light_new_internal. destruct calloc_ok, malloc_ok; cbn [negb orb]; auto.
    pose proof (ethash_compute_cache_nodes_ok (dom := fun _ => True) size seed S I) as C. destruct (Z.eqb_spec (size mod 64) 0) as [E|E].
    + destruct C as (nodes & -> & O). cbn [bind option_map]. auto 10.
    + rewrite C. cbn [bind option_map]. auto.
  - intros A bn. unfold ethash_light_new, ethash_light_new_internal.
    destruct (ethash_get_seedhash bn); [|reflexivity]. cbn [bind].
    destruct (ethash_get_cachesize bn); [|reflexivity]. cbn [bind]. now destruct calloc_ok, malloc_ok.
Qed.

Lemma ethash_light_new_errors_witness :
  ethash_light_new true false 0 = None /\ ethash_light_new_internal true true 100 [] = Some None.
Proof.
  split; [|reflexivity].
  exact (proj2 (ethash_light_new_errors true false 64 [] ltac:(lia)) eq_refl 0).
Defined.
