(* ===== verification/EthashVariants.v ===== *)
(** The other Ethash libraries: libetchash (epochs that double at a fork block),
    libubqhash (BLAKE2b in the cache from an epoch on) and libethhashb3 (BLAKE3 for the
    header and the result).  What they share with libethhash is EthashCore at other
    parameters; what they change is modelled here. *)
From Stdlib Require Import ZArith Lia List Bool.
From stdpp Require Import base list.
From S2P Require Import Prelude CInt Keccak SpongeSpec Sponge EthashData Blake2b Blake3 Blake3Tree EthashCore.
Import ListNotations.
Local Open Scope Z_scope.

(** ** libetchash *)

Module Etchash.

Definition ETHASH_EPOCH_LENGTH_NEW : Z := 60000.

#[local] Instance libetchash : EthashParams :=
  {| ETHASH_EPOCH_LENGTH := 30000; cache_512 := SHA3_512; mix_512 := SHA3_512; result_256 := SHA3_256 |}.

Definition etchash_calc_epoch (block_number fork_block : Z) : Z :=
  let epochLen := if fork_block <=? block_number then ETHASH_EPOCH_LENGTH_NEW else ETHASH_EPOCH_LENGTH in
  block_number / epochLen.

(** No assertion: past the table, the read is out of bounds. *)
Definition ethash_get_datasize (block_number fork_block : Z) : option Z :=
  dag_sizes !! Z.to_nat (etchash_calc_epoch block_number fork_block).

Definition ethash_get_cachesize (block_number fork_block : Z) : option Z :=
  cache_sizes !! Z.to_nat (etchash_calc_epoch block_number fork_block).

(** The code these share with libethhash. *)
Definition ethash_compute_cache_nodes : Z -> list Z -> option (option (list node)) := EthashCore.ethash_compute_cache_nodes.
Definition ethash_calculate_dag_item : Z -> ethash_light -> option node := EthashCore.ethash_calculate_dag_item.
Definition ethash_compute_full_data : Z -> ethash_light -> option (Z -> bool) -> option (option (list node)) :=
  EthashCore.ethash_compute_full_data.
Definition ethash_hash : option (list node) -> option ethash_light -> Z -> list Z -> Z -> option (option (list Z * list Z)) :=
  EthashCore.ethash_hash.
Definition ethash_quick_hash : list Z -> Z -> list Z -> list Z := EthashCore.ethash_quick_hash.
Definition ethash_get_seedhash : Z -> option (list Z) := EthashCore.ethash_get_seedhash.
Definition ethash_quick_check_difficulty : list Z -> Z -> list Z -> list Z -> bool := EthashCore.ethash_quick_check_difficulty.
Definition ethash_light_new_internal : bool -> bool -> Z -> list Z -> option (option ethash_light) :=
  EthashCore.ethash_light_new_internal.
Definition ethash_light_compute_internal : ethash_light -> Z -> list Z -> Z -> option ethash_return_value :=
  EthashCore.ethash_light_compute_internal.

Definition ethash_light_new (calloc_ok malloc_ok : bool) (block_number fork_block : Z) : option ethash_light :=
  let! seedhash := ethash_get_seedhash block_number in
  let! size := ethash_get_cachesize block_number fork_block in
  let! ret := ethash_light_new_internal calloc_ok malloc_ok size seedhash in
  let! light := ret in
  Some (mklight (cache light) (cache_size light) block_number).

Definition ethash_light_compute (light : ethash_light) (header_hash : list Z) (nonce fork_block : Z)
    : option ethash_return_value :=
  let! full_size := ethash_get_datasize (block_number light) fork_block in
  ethash_light_compute_internal light full_size header_hash nonce.

Lemma libetchash_laws : ParamsLaws libetchash (fun _ => True).
Proof.
  split; [reflexivity | intros m _.. | intros m _ _; exact I].
  - exact (SHA3_512_length m).
  - exact (SHA3_512_length m).
  - exact (SHA3_512_bytes m).
  - apply SHA3_256_ok.
  - apply SHA3_256_ok.
Qed.
#[local] Existing Instance libetchash_laws.

(** The block a pool asks a client for: the first of the epoch. *)
Definition epoch_start (block_number fork_block : Z) : Z :=
  etchash_calc_epoch block_number fork_block *
  (if fork_block <=? block_number then ETHASH_EPOCH_LENGTH_NEW else ETHASH_EPOCH_LENGTH).

Lemma epoch_start_epoch bn fork : 0 <= bn -> 0 <= fork -> fork mod ETHASH_EPOCH_LENGTH_NEW = 0 ->
  0 <= epoch_start bn fork <= bn /\ etchash_calc_epoch (epoch_start bn fork) fork = etchash_calc_epoch bn fork.
Proof.
  intros B F M. unfold epoch_start, etchash_calc_epoch, ETHASH_EPOCH_LENGTH_NEW in *. cbn [ETHASH_EPOCH_LENGTH libetchash].
  destruct (Z.leb_spec fork bn) as [L|L].
  - assert (fork <= bn / 60000 * 60000).
    { apply Z.div_exact in M; [|lia]. rewrite M, Z.mul_comm. apply Z.mul_le_mono_nonneg_r; [lia|].
      apply Z.div_le_mono; lia. }
    rewrite (proj2 (Z.leb_le _ _)), Z.div_mul by lia. pose proof (Z.mul_div_le bn 60000). split; [|reflexivity].
    split; [apply Z.mul_nonneg_nonneg; [apply Z.div_pos|]|]; lia.
  - pose proof (Z.mul_div_le bn 30000). rewrite (proj2 (Z.leb_gt _ _)), Z.div_mul by lia. split; [|reflexivity].
    split; [apply Z.mul_nonneg_nonneg; [apply Z.div_pos|]|]; lia.
Qed.

(** C15.  For every block and fork block, a client of libetchash either computes a share
    (epoch below 2048) whose result is the quick hash of its mix hash, or reads past
    the size tables, which the code does not check.  The seed of every block is that of
    the epoch of 30,000 blocks it is in, whatever the fork, and from 2^32 such epochs on
    its loop does not end.  With a fork on a multiple of 60,000, the first block of an
    epoch is in that epoch, has the sizes of all its blocks, and its seed is the seed of
    the epoch's number before the fork and of twice the number from the fork on (the
    second half of an epoch's blocks, from the fork on, have the next seed). *)
Theorem etchash_share bn fork : 0 <= bn < 2 ^ 64 -> 0 <= fork < 2 ^ 64 ->
  let epoch := etchash_calc_epoch bn fork in
  (if epoch <? 2048 then
     exists light, ethash_light_new true true bn fork = Some light /\ forall header nonce, exists res mh,
       ethash_light_compute light header nonce fork = Some (mkret (Some res) (Some mh) true) /\
       length mh = 32%nat /\ ethash_quick_hash header nonce mh = res
   else ethash_get_datasize bn fork = None /\ ethash_light_new true true bn fork = None) /\
  ethash_get_seedhash bn = (if bn / 30000 <? 2 ^ 32 then Some (seed_of_epoch (bn / 30000)) else None) /\
  (fork mod ETHASH_EPOCH_LENGTH_NEW = 0 ->
     let start := epoch_start bn fork in
     start <= bn /\ etchash_calc_epoch start fork = epoch /\
     ethash_get_datasize start fork = ethash_get_datasize bn fork /\
     ethash_get_cachesize start fork = ethash_get_cachesize bn fork /\
     (bn / 30000 < 2 ^ 32 ->
      ethash_get_seedhash start = Some (seed_of_epoch (if fork <=? bn then 2 * epoch else epoch)) /\
      bn / 30000 = if fork <=? bn then 2 * epoch + bn mod 60000 / 30000 else epoch)).
Proof.
  intros [B Bu] [F Fu]. cbv zeta. assert (E0 : 0 <= etchash_calc_epoch bn fork).
  { unfold etchash_calc_epoch, ETHASH_EPOCH_LENGTH_NEW. apply Z.div_pos; [exact B|]. now destruct (fork <=? bn). }
  split; [destruct (Z.ltb_spec (etchash_calc_epoch bn fork) 2048) as [L|L] | split].
  - destruct (sizes_lookup _ (conj E0 L)) as (d & c & Hd & D1 & D2 & Hc & C1 & C2).
    assert (Sm : bn / 30000 < 2 ^ 32).
    { unfold etchash_calc_epoch, ETHASH_EPOCH_LENGTH_NEW in L. cbn [ETHASH_EPOCH_LENGTH libetchash] in L.
      apply Z.div_lt_upper_bound; [lia|]. pose proof (Z.div_mod bn 60000). pose proof (Z.mod_pos_bound bn 60000).
      pose proof (Z.div_mod bn 30000). pose proof (Z.mod_pos_bound bn 30000). destruct (fork <=? bn); lia. }
    destruct (seedhash_ok (dom := fun _ => True) bn B) as [_ Es]. cbn [ETHASH_EPOCH_LENGTH libetchash] in Es.
    rewrite (proj2 (Z.ltb_lt _ _) Sm) in Es. unfold ethash_light_new, ethash_get_seedhash. rewrite Es. cbn [bind].
    unfold ethash_get_cachesize, ethash_light_compute, ethash_get_datasize. rewrite Hc. cbn [bind].
    destruct (light_new_internal_ok (dom := fun _ => True) c (seed_of_epoch (bn / 30000)) ltac:(lia) C1 I) as (light & E & _ & O).
    unfold ethash_light_new_internal. rewrite E. cbn [bind]. eexists. split; [reflexivity|]. intros header nonce.
    cbn [block_number]. rewrite Hd. cbn [bind].
    destruct (light_compute_ok (dom := fun _ => True) _ d header nonce (O bn) ltac:(lia) D1 I) as (mh & Lm & _ & C & _).
    eexists. exists mh. split; [exact C|]. split; [exact Lm | reflexivity].
  - assert (N : forall l : list Z, length l = 2048%nat -> l !! Z.to_nat (etchash_calc_epoch bn fork) = None)
      by (intros l Ll; apply lookup_ge_None_2; lia).
    unfold ethash_light_new, ethash_get_datasize, ethash_get_cachesize. rewrite !N by reflexivity. split; [reflexivity|].
    now destruct (ethash_get_seedhash bn).
  - exact (proj2 (seedhash_ok (dom := fun _ => True) bn B)).
  - intros M. destruct (epoch_start_epoch bn fork B F M) as [[S0 Sb] Ee].
    unfold ethash_get_datasize, ethash_get_cachesize. rewrite Ee. do 4 (split; [easy|]). intros Sm.
    assert (Sx : epoch_start bn fork / 30000 = if fork <=? bn then 2 * etchash_calc_epoch bn fork else etchash_calc_epoch bn fork).
    { unfold epoch_start, ETHASH_EPOCH_LENGTH_NEW. cbn [ETHASH_EPOCH_LENGTH libetchash]. destruct (fork <=? bn).
      - replace (etchash_calc_epoch bn fork * 60000) with (2 * etchash_calc_epoch bn fork * 30000) by lia. apply Z.div_mul. lia.
      - apply Z.div_mul. lia. }
    split.
    + unfold ethash_get_seedhash. rewrite (seedhash_covered (dom := fun _ => True)) by
        (try exact S0; cbn [ETHASH_EPOCH_LENGTH libetchash]; pose proof (Z.div_le_mono (epoch_start bn fork) bn 30000); lia).
      cbn [ETHASH_EPOCH_LENGTH libetchash]. now rewrite Sx.
    + unfold etchash_calc_epoch, ETHASH_EPOCH_LENGTH_NEW. cbn [ETHASH_EPOCH_LENGTH libetchash].
      destruct (fork <=? bn); [|reflexivity]. Z.div_mod_to_equations. lia.
Qed.

Lemma etchash_share_witness :
  ethash_get_datasize 122880000 11700000 = None /\ ethash_get_datasize 12345678 11700000 = ethash_get_datasize 12300000 11700000.
Proof.
  split.
  - exact (proj1 (proj1 (etchash_share 122880000 11700000 ltac:(lia) ltac:(lia)))).
  - symmetry. destruct (etchash_share 12345678 11700000 ltac:(lia) ltac:(lia)) as (_ & _ & S).
    destruct (S eq_refl) as (_ & _ & D & _). exact D.
Defined.
End Etchash.


(** ** libubqhash *)

Module Ubqhash.

Definition UBQHASH_UIP1_EPOCH : Z := 22.

(** BLAKE2B_512 into the bytes of a node, whatever they were. *)
Definition BLAKE2B_512_node (data : list Z) : list Z := default [] (BLAKE2B_512 (repeat 0 64%nat) data).

Definition libubqhash : EthashParams :=
  {| ETHASH_EPOCH_LENGTH := 30000; cache_512 := SHA3_512; mix_512 := SHA3_512; result_256 := SHA3_256 |}.

(** The hashes of ethash_compute_cache_nodes_uip1. *)
Definition libubqhash_uip1 : EthashParams :=
  {| ETHASH_EPOCH_LENGTH := 30000; cache_512 := BLAKE2B_512_node; mix_512 := SHA3_512; result_256 := SHA3_256 |}.

Definition ethash_compute_cache_nodes : Z -> list Z -> option (option (list node)) :=
  EthashCore.ethash_compute_cache_nodes (P := libubqhash).
Definition ethash_compute_cache_nodes_uip1 : Z -> list Z -> option (option (list node)) :=
  EthashCore.ethash_compute_cache_nodes (P := libubqhash_uip1).

(** The code these share with libethhash. *)
Definition ethash_get_datasize : Z -> option Z := EthashCore.ethash_get_datasize (P := libubqhash).
Definition ethash_get_cachesize : Z -> option Z := EthashCore.ethash_get_cachesize (P := libubqhash).
Definition ethash_calculate_dag_item : Z -> ethash_light -> option node := EthashCore.ethash_calculate_dag_item.
Definition ethash_compute_full_data : Z -> ethash_light -> option (Z -> bool) -> option (option (list node)) :=
  EthashCore.ethash_compute_full_data.
Definition ethash_hash : option (list node) -> option ethash_light -> Z -> list Z -> Z -> option (option (list Z * list Z)) :=
  EthashCore.ethash_hash (P := libubqhash).
Definition ethash_quick_hash : list Z -> Z -> list Z -> list Z := EthashCore.ethash_quick_hash.
Definition ethash_get_seedhash : Z -> option (list Z) := EthashCore.ethash_get_seedhash (P := libubqhash).
Definition ethash_quick_check_difficulty : list Z -> Z -> list Z -> list Z -> bool := EthashCore.ethash_quick_check_difficulty.
Definition ethash_light_compute_internal : ethash_light -> Z -> list Z -> Z -> option ethash_return_value :=
  EthashCore.ethash_light_compute_internal (P := libubqhash).
Definition ethash_light_compute : ethash_light -> list Z -> Z -> option ethash_return_value :=
  EthashCore.ethash_light_compute (P := libubqhash).

Definition ethash_light_new_internal (calloc_ok malloc_ok : bool) (cache_size : Z) (seed : list Z) (uip1 : bool)
    : option (option ethash_light) :=
  if negb calloc_ok || negb malloc_ok then Some None
  else
    let! nodes := if uip1 then ethash_compute_cache_nodes_uip1 cache_size seed else ethash_compute_cache_nodes cache_size seed in
    Some (option_map (fun nodes => mklight nodes cache_size 0) nodes).

Definition ethash_light_new (calloc_ok malloc_ok : bool) (block_number : Z) : option ethash_light :=
  let! seedhash := ethash_get_seedhash block_number in
  let! size := ethash_get_cachesize block_number in
  let! ret := if 30000 * UBQHASH_UIP1_EPOCH <=? block_number
              then ethash_light_new_internal calloc_ok malloc_ok size seedhash true
              else ethash_light_new_internal calloc_ok malloc_ok size seedhash false in
  let! light := ret in
  Some (mklight (cache light) (cache_size light) block_number).

#[local] Existing Instance libubqhash.

Lemma libubqhash_laws : ParamsLaws libubqhash (fun _ => True).
Proof.
  split; [reflexivity | intros m _.. | intros m _ _; exact I].
  - exact (SHA3_512_length m).
  - exact (SHA3_512_length m).
  - exact (SHA3_512_bytes m).
  - apply SHA3_256_ok.
  - apply SHA3_256_ok.
Qed.
#[local] Existing Instance libubqhash_laws.

(** The hashes of the uip1 cache, with the function of RFC 7693. *)
Definition rfc7693 : EthashParams :=
  {| ETHASH_EPOCH_LENGTH := 30000; cache_512 := blake2b_spec 64 []; mix_512 := SHA3_512; result_256 := SHA3_256 |}.

Lemma BLAKE2B_512_spec m : Forall is_byte m -> BLAKE2B_512_node m = blake2b_spec 64 [] m.
Proof. intros F. unfold BLAKE2B_512_node. now rewrite BLAKE2B_512_ok. Qed.

Lemma rfc7693_laws : ParamsLaws rfc7693 (Forall is_byte).
Proof.
  split; [reflexivity | intros m _.. | intros m _ F; exact F].
  - now apply blake2b_spec_length.
  - exact (SHA3_512_length m).
  - exact (SHA3_512_bytes m).
  - apply SHA3_256_ok.
  - apply SHA3_256_ok.
Qed.

Lemma uip1_nodes_ok size seed : 0 < size < 2 ^ 38 -> size mod 64 = 0 -> Forall is_byte seed ->
  exists nodes, ethash_compute_cache_nodes_uip1 size seed = Some (Some nodes) /\ nodes_ok (size / 64) nodes /\
    EthashCore.ethash_compute_cache_nodes (P := rfc7693) size seed = Some (Some nodes).
Proof.
  intros S M F. unfold ethash_compute_cache_nodes_uip1.
  rewrite (cache_nodes_ext libubqhash_uip1 rfc7693 size seed BLAKE2B_512_spec F).
  pose proof (ethash_compute_cache_nodes_ok (PL := rfc7693_laws) size seed S F) as C. rewrite M in C. cbn [Z.eqb] in C.
  destruct C as (nodes & E & O). eauto.
Qed.

(** C16.  The path of a share of Ubiq: for every block below 61,440,000, ethash_light_new
    makes a client (if memory lasts) whose cache is the one of libethhash before block
    660,000 and the one built with BLAKE2b as RFC 7693 defines it from that block on;
    with it, ethash_light_compute succeeds for every header and nonce and its result is
    the quick hash of its mix hash. *)
Theorem ubqhash_share bn : 0 <= bn < 2048 * 30000 -> exists size seed light,
  ethash_get_cachesize bn = Some size /\ ethash_get_seedhash bn = Some seed /\ ethash_light_new true true bn = Some light /\
  EthashCore.ethash_compute_cache_nodes (P := if 660000 <=? bn then rfc7693 else libubqhash) size seed =
    Some (Some (cache light)) /\
  forall header nonce, exists res mh,
    ethash_light_compute light header nonce = Some (mkret (Some res) (Some mh) true) /\
    length mh = 32%nat /\ ethash_quick_hash header nonce mh = res.
Proof.
  intros B. destruct (get_sizes_ok (PL := libubqhash_laws) bn B) as (dag & cs & Hd & Bd & Md & Hc & Bc & Mc).
  set (seed := seed_of_epoch (bn / 30000)). exists cs, seed.
  assert (Es : ethash_get_seedhash bn = Some seed).
  { pose proof (epoch_range 30000 bn eq_refl B). apply (seedhash_covered (PL := libubqhash_laws)); [lia|].
    cbn [ETHASH_EPOCH_LENGTH libubqhash]. lia. }
  assert (N : exists nodes, ethash_light_new true true bn = Some (mklight nodes cs bn) /\ nodes_ok (cs / 64) nodes /\
    EthashCore.ethash_compute_cache_nodes (P := if 660000 <=? bn then rfc7693 else libubqhash) cs seed = Some (Some nodes)).
  { unfold ethash_light_new, ethash_get_cachesize. rewrite Es. cbn [bind]. rewrite Hc. cbn [bind].
    change (30000 * UBQHASH_UIP1_EPOCH) with 660000. unfold ethash_light_new_internal. cbn [negb orb].
    destruct (660000 <=? bn).
    - destruct (uip1_nodes_ok cs seed Bc Mc (proj2 (seed_of_epoch_bytes _))) as (nodes & E & O & R).
      exists nodes. split; [|auto]. now rewrite E.
    - pose proof (ethash_compute_cache_nodes_ok (dom := fun _ => True) cs seed Bc I) as C.
      rewrite Mc in C. cbn [Z.eqb] in C. destruct C as (nodes & E & O). exists nodes. split; [|auto].
      unfold ethash_compute_cache_nodes. now rewrite E. }
  destruct N as (nodes & E & O & R). exists (mklight nodes cs bn). split; [exact Hc|]. split; [exact Es|].
  split; [exact E|].
  split; [exact R|]. intros header nonce.
  unfold ethash_light_compute, EthashCore.ethash_light_compute. cbn [block_number]. rewrite Hd. cbn [bind].
  destruct (light_compute_ok (dom := fun _ => True) (mklight nodes cs bn) dag header nonce) as (mh & Lm & _ & C & _).
  - split; [exact Bc|]. split; [exact Mc | exact O].
  - exact Bd.
  - exact Md.
  - exact I.
  - eexists. exists mh. split; [exact C|]. split; [exact Lm | reflexivity].
Qed.

Lemma ubqhash_share_witness : exists light, ethash_light_new true true 12345678 = Some light.
Proof.
  destruct (ubqhash_share 12345678 ltac:(lia)) as (size & seed & light & _ & _ & E & _). exists light. exact E.
Defined.
End Ubqhash.

(** ** libethhashb3 *)

Module Ethashb3.

Section Ethashb3.
(** [stack]: what the hashers' uninitialised cv_stack holds. *)
Variable stack : list Z.

#[local] Instance libethhashb3 : EthashParams :=
  {| ETHASH_EPOCH_LENGTH := 32000;
     cache_512 := SHA3_512;
     mix_512 := fun m => default [] (blake3_hash_512 stack m);
     result_256 := fun m => default [] (blake3_hash_256 stack m) |}.

(** The code these share with libethhash. *)
Definition ethash_get_datasize : Z -> option Z := EthashCore.ethash_get_datasize.
Definition ethash_get_cachesize : Z -> option Z := EthashCore.ethash_get_cachesize.
Definition ethash_compute_cache_nodes : Z -> list Z -> option (option (list node)) :=
  EthashCore.ethash_compute_cache_nodes.
Definition ethash_calculate_dag_item : Z -> ethash_light -> option node := EthashCore.ethash_calculate_dag_item.
Definition ethash_compute_full_data : Z -> ethash_light -> option (Z -> bool) -> option (option (list node)) :=
  EthashCore.ethash_compute_full_data.
Definition ethash_hash :
  option (list node) -> option ethash_light -> Z -> list Z -> Z -> option (option (list Z * list Z)) := EthashCore.ethash_hash.
Definition ethash_quick_hash : list Z -> Z -> list Z -> list Z := EthashCore.ethash_quick_hash.
Definition ethash_get_seedhash : Z -> option (list Z) := EthashCore.ethash_get_seedhash.
Definition ethash_quick_check_difficulty : list Z -> Z -> list Z -> list Z -> bool := EthashCore.ethash_quick_check_difficulty.
Definition ethash_light_new_internal : bool -> bool -> Z -> list Z -> option (option ethash_light) :=
  EthashCore.ethash_light_new_internal.
Definition ethash_light_new : bool -> bool -> Z -> option ethash_light := EthashCore.ethash_light_new.
Definition ethash_light_compute_internal : ethash_light -> Z -> list Z -> Z -> option ethash_return_value :=
  EthashCore.ethash_light_compute_internal.
Definition ethash_light_compute : ethash_light -> list Z -> Z -> option ethash_return_value :=
  EthashCore.ethash_light_compute.
Definition ethash_full_compute : list node -> Z -> list Z -> Z -> option ethash_return_value :=
  EthashCore.ethash_full_compute.
End Ethashb3.

Definition blake3_256 (m : list Z) : list Z := blake3_spec IV 0 m 32.
Definition blake3_512 (m : list Z) : list Z := blake3_spec IV 0 m 64.

Lemma blake3_256_ok m : length (blake3_256 m) = 32%nat /\ Forall is_byte (blake3_256 m).
Proof. exact (blake3_spec_bytes IV 0 m 32). Qed.

Lemma blake3_512_ok m : length (blake3_512 m) = 64%nat /\ Forall is_byte (blake3_512 m).
Proof. exact (blake3_spec_bytes IV 0 m 64). Qed.

Lemma mix_512_spec (stack m : list Z) : length stack = 432%nat -> message_ok m ->
  mix_512 (EthashParams := libethhashb3 stack) m = blake3_512 m.
Proof. intros L M. cbn [mix_512 libethhashb3]. unfold blake3_hash_512. now rewrite blake3_hash_ok. Qed.

Lemma result_256_spec (stack m : list Z) : length stack = 432%nat -> message_ok m ->
  result_256 (EthashParams := libethhashb3 stack) m = blake3_256 m.
Proof. intros L M. cbn [result_256 libethhashb3]. unfold blake3_hash_256. now rewrite blake3_hash_ok. Qed.

Lemma libethhashb3_laws (stack : list Z) : length stack = 432%nat -> ParamsLaws (libethhashb3 stack) message_ok.
Proof.
  intros L. split; [reflexivity | intros m M.. | intros m Lm F; split; [exact F | lia]].
  - exact (SHA3_512_length m).
  - rewrite mix_512_spec by assumption. exact (proj1 (blake3_512_ok m)).
  - rewrite mix_512_spec by assumption. exact (proj2 (blake3_512_ok m)).
  - rewrite result_256_spec by assumption. exact (proj1 (blake3_256_ok m)).
  - rewrite result_256_spec by assumption. exact (proj2 (blake3_256_ok m)).
Qed.

(** A dataset of one page, and a quick check refusing the hash found in it. *)
Definition one_page : list node := [repeat 1 16%nat; repeat 2 16%nat].

Definition refused_by_quick_check (header : list Z) (nonce : Z) (r : option ethash_return_value) : Prop :=
  exists res mh, r = Some (mkret (Some res) (Some mh) true) /\
    ethash_quick_check_difficulty header nonce mh res = false.

Lemma one_page_refused :
  refused_by_quick_check (repeat 0 32%nat) 0 (ethash_full_compute (repeat 0 432%nat) one_page 128 (repeat 0 32%nat) 0).
Proof.
  destruct (ethash_full_compute (repeat 0 432%nat) one_page 128 (repeat 0 32%nat) 0) as [[[res|] [mh|] [|]]|] eqn:E;
    try (exfalso; vm_compute in E; discriminate).
  exists res, mh. split; [reflexivity|]. vm_compute in E. injection E as <- <-. vm_compute. reflexivity.
Qed.

(** C17.  The path of a share of libethhashb3, whatever its hashers' uninitialised stacks
    hold: for every block below 65,536,000, ethash_light_new makes a client (if memory
    lasts), and ethash_light_compute with it succeeds for every header and nonce, its
    result the BLAKE3 hash of the mix hash after the 512-bit BLAKE3 hash of the header
    and the nonce.  But ethash_quick_hash was left with SHA-3: there is a dataset with a
    header and a nonce whose successful result ethash_quick_check_difficulty does not
    accept against a boundary equal to it. *)
Theorem ethashb3_share (stack : list Z) bn : length stack = 432%nat -> 0 <= bn < 2048 * 32000 ->
  (exists light, ethash_light_new stack true true bn = Some light /\
     forall header nonce, length header = 32%nat -> Forall is_byte header -> exists mh, length mh = 32%nat /\
       ethash_light_compute stack light header nonce =
         Some (mkret (Some (blake3_256 (blake3_512 (header ++ le_bytes 8 nonce) ++ mh))) (Some mh) true)) /\
  exists data header nonce, refused_by_quick_check header nonce (ethash_full_compute (repeat 0 432%nat) data 128 header nonce).
Proof.
  intros L B. split; [|exists one_page, (repeat 0 32%nat), 0; exact one_page_refused].
  destruct (light_share_ok (PL := libethhashb3_laws stack L) bn B) as (light & E & A).
  exists light. split; [exact E|]. intros header nonce Lh Fh.
  assert (M : message_ok (header ++ le_bytes 8 nonce)).
  { split; [apply Forall_app; split; [exact Fh | apply le_bytes_byte]|]. rewrite length_app, length_le_bytes, Lh. cbn. lia. }
  destruct (A header nonce M) as (mh & Lm & Fm & C & _). exists mh. split; [exact Lm|].
  rewrite <- (mix_512_spec stack) by assumption. rewrite <- (result_256_spec stack); [exact C | exact L|].
  rewrite mix_512_spec by assumption. destruct (blake3_512_ok (header ++ le_bytes 8 nonce)) as [L5 F5].
  split; [apply Forall_app; split; assumption|]. rewrite length_app, L5, Lm. cbn. lia.
Qed.

Lemma ethashb3_share_witness : exists light, ethash_light_new (repeat 0 432%nat) true true 12345678 = Some light.
Proof.
  destruct (ethashb3_share (repeat 0 432%nat) 12345678 (repeat_length 0 432) ltac:(lia)) as ((light & E & _) & _).
  exists light. exact E.
Defined.
End Ethashb3.
