(* ===== verification/Primes.v ===== *)
(** libkawpow/ethash/primes.c: ethash_find_largest_prime, from which ethash.cpp
    derives the sizes of its caches and datasets. *)
From Stdlib Require Import ZArith Lia List Bool Znumtheory.
From S2P Require Import Prelude CInt Prime25519.
Local Open Scope Z_scope.

(** ** Definitions; [number % d] on positive ints *)

(** [for (d = 3; d * d <= number; d += 2)], the product in int64_t. *)
Fixpoint is_odd_prime_loop (fuel : nat) (number d : Z) : option bool :=
  let! dd := ck I64 (d * d) in
  if dd <=? number then
    if number mod d =? 0 then Some false
    else match fuel with
         | O => None
         | S fuel => let! d := ck I32 (d + 2) in is_odd_prime_loop fuel number d
         end
  else Some true.

(** Below the square root of number there are not more values of d than this. *)
Definition is_odd_prime (number : Z) : option bool := is_odd_prime_loop (Z.to_nat (Z.sqrt number)) number 3.

(** [while (!is_odd_prime(n)) n -= 2;] *)
Fixpoint find_down (fuel : nat) (n : Z) : option Z :=
  let! p := is_odd_prime n in
  if p : bool then Some n
  else match fuel with
       | O => None
       | S fuel => let! n := ck I32 (n - 2) in find_down fuel n
       end.

Definition ethash_find_largest_prime (upper_bound : Z) : option Z :=
  let n := upper_bound in
  if n <? 2 then Some 0
  else if n =? 2 then Some 2
  else
    let n := if n mod 2 =? 0 then n - 1 else n in
    find_down (Z.to_nat n) n.

(** ** Lemmas *)

Lemma odd_divisor n a : Z.odd n = true -> (a | n) -> Z.odd a = true.
Proof. intros O [b ->]. rewrite Z.odd_mul in O. now apply andb_true_iff in O. Qed.

(** [p] is the largest prime up to [b]. *)
Definition largest_prime (b p : Z) : Prop := Z.prime p /\ p <= b /\ forall q, Z.prime q -> q <= b -> q <= p.

Lemma largest_prime_unique b p q : largest_prime b p -> largest_prime b q -> p = q.
Proof. intros (P & Lp & Mp) (Q & Lq & Mq). pose proof (Mp q Q Lq). pose proof (Mq p P Lp). lia. Qed.

Lemma even_not_prime n : Z.prime n -> Z.odd n = false -> n = 2.
Proof.
  intros P O. pose proof (Z.prime_ge_2 n P).
  assert (Dv : (2 | n)) by (apply Z.mod_divide; [lia|]; rewrite Zmod_odd, O; reflexivity).
  destruct (Z.divide_prime_r 2 n P Dv) as [?|[?|[?|?]]]; lia.
Qed.

(** No odd number from 3 to below [d] divides [n]. *)
Definition sieved (n d : Z) : Prop := forall a, 3 <= a < d -> Z.odd a = true -> ~ (a | n).

Lemma is_odd_prime_loop_ok number fuel : 3 <= number <= imax I32 -> Z.odd number = true -> forall d,
  3 <= d -> Z.odd d = true -> sieved number d -> Z.sqrt number - d < 2 * Z.of_nat fuel -> d <= 46343 ->
  exists r, is_odd_prime_loop fuel number d = Some r /\ (r = true <-> Z.prime number).
Proof.
  intros N O. induction fuel as [|fuel IH]; intros d D Od Sv F M; cbn [is_odd_prime_loop];
    (assert (C : ck I64 (d * d) = Some (d * d)) by (unfold ck, imin, imax;
       rewrite !(proj2 (Z.leb_le _ _)) by nia; reflexivity)); rewrite C; cbn [bind]; clear C;
    (destruct (Z.leb_spec (d * d) number) as [L|L]; [|
      exists true; split; [reflexivity|]; split; [intros _ | reflexivity];
      destruct (prime_dec number) as [P|NP]; [now apply prime_alt|];
      destruct (prime_divisor number ltac:(lia)) as (a & A & Dv & AA); [intros Q; now apply NP, prime_alt|];
      apply Z.prime_ge_2 in A;
      pose proof (odd_divisor number a O Dv) as Oa;
      assert (a <> 2) by (intros ->; discriminate); exfalso; apply (Sv a); [nia | exact Oa | exact Dv]]);
    (destruct (Z.eqb_spec (number mod d) 0) as [Z0'|Nz]; [
      exists false; split; [reflexivity|]; split; [discriminate|]; intros P;
      apply Z.mod_divide in Z0'; [|lia]; destruct (Z.divide_prime_r d number P Z0') as [?|[?|[?|?]]]; nia|]).
  - assert (d <= Z.sqrt number) by (apply Z.sqrt_le_square; lia). lia.
  - assert (Dr : d <= Z.sqrt number) by (apply Z.sqrt_le_square; lia).
    assert (M2 : d <= 46340) by (unfold imax in N; nia).
    unfold ck, imin, imax. rewrite !(proj2 (Z.leb_le _ _)) by lia. cbn [andb bind]. apply IH; try lia.
    + rewrite Z.odd_add, Od. reflexivity.
    + intros a A Oa. destruct (Z.lt_ge_cases a d) as [?|G]; [now apply Sv|].
      assert (a = d \/ a = d + 1) as [->| ->] by lia.
      * intros Dv. apply Nz. apply Z.mod_divide; [lia | exact Dv].
      * rewrite Z.odd_add, Od in Oa. discriminate.
Qed.

Lemma is_odd_prime_ok number : 3 <= number <= imax I32 -> Z.odd number = true ->
  exists r, is_odd_prime number = Some r /\ (r = true <-> Z.prime number).
Proof.
  intros N O. apply is_odd_prime_loop_ok; try assumption; try lia; try reflexivity.
  intros a A. lia.
Qed.

Lemma find_down_ok fuel : forall n, 3 <= n <= imax I32 -> Z.odd n = true -> n < 2 * Z.of_nat fuel + 4 ->
  exists r, find_down fuel n = Some r /\ Z.prime r /\ r <= n /\ forall q, Z.prime q -> q <= n -> q <= r.
Proof.
  induction fuel as [|fuel IH]; intros n N O F; cbn [find_down];
    destruct (is_odd_prime_ok n N O) as (r & E & P); rewrite E; cbn [bind]; destruct r.
  - exists n. split; [reflexivity|]. split; [now apply P|]. split; [lia | auto].
  - assert (n = 3) by lia. subst n. discriminate (proj2 P Z.prime_3).
  - exists n. split; [reflexivity|]. split; [now apply P|]. split; [lia | auto].
  - assert (N5 : 5 <= n).
    { assert (n <> 3) by (intros ->; discriminate (proj2 P Z.prime_3)).
      assert (n <> 4) by (intros ->; discriminate). lia. }
    unfold ck, imin. rewrite !(proj2 (Z.leb_le _ _)) by lia. cbn [andb bind].
    destruct (IH (n - 2)) as (r & -> & Pr & L & Mx); [lia | now rewrite Z.odd_sub, O | lia|].
    exists r. split; [reflexivity|]. split; [exact Pr|]. split; [lia|]. intros q Pq Q.
    destruct (Z.eq_dec q n) as [->|N1]; [discriminate (proj2 P Pq)|].
    destruct (Z.eq_dec q (n - 1)) as [->|N2]; [|apply Mx; [exact Pq | lia]].
    assert (Dv : (2 | n - 1)) by (apply Z.mod_divide; [lia|]; rewrite Zmod_odd, Z.odd_sub, O; reflexivity).
    destruct (Z.divide_prime_r 2 (n - 1) Pq Dv) as [?|[?|[?|?]]]; lia.
Qed.

(** A bound from 2 on. *)
Lemma find_largest_prime_ok upper_bound : 2 <= upper_bound <= imax I32 ->
  exists r, ethash_find_largest_prime upper_bound = Some r /\ Z.prime r /\ r <= upper_bound /\
    forall q, Z.prime q -> q <= upper_bound -> q <= r.
Proof.
  intros B. unfold ethash_find_largest_prime. rewrite (proj2 (Z.ltb_ge _ 2)) by lia.
  destruct (Z.eqb_spec upper_bound 2) as [->|N2].
  { exists 2. split; [reflexivity|]. split; [exact Z.prime_2|]. split; [lia | auto]. }
  rewrite Zmod_odd. destruct (Z.odd upper_bound) eqn:O.
  - cbn [Z.eqb]. apply find_down_ok; [lia | exact O | lia].
  - cbn [Z.eqb]. assert (N4 : 4 <= upper_bound) by (assert (upper_bound <> 3) by (intros ->; discriminate); lia).
    destruct (find_down_ok (Z.to_nat (upper_bound - 1)) (upper_bound - 1)) as (r & -> & P & Lr & Mx);
      [lia | now rewrite Z.odd_sub, O | lia|].
    exists r. split; [reflexivity|]. split; [exact P|]. split; [lia|]. intros q Pq Q.
    destruct (Z.eq_dec q upper_bound) as [->|N]; [|apply Mx; [exact Pq | lia]].
    assert (Dv : (2 | upper_bound)) by (apply Z.mod_divide; [lia|]; now rewrite Zmod_odd, O).
    destruct (Z.divide_prime_r 2 upper_bound Pq Dv) as [?|[?|[?|?]]]; lia.
Qed.

(** ** Properties *)

(** C35.  ethash_find_largest_prime terminates without overflow for every int, and
    returns the largest prime not above its bound, or 0 when the bound is below 2,
    as its header documents. *)
Theorem ethash_find_largest_prime_correct upper_bound : imin I32 <= upper_bound <= imax I32 ->
  exists r, ethash_find_largest_prime upper_bound = Some r /\
    if upper_bound <? 2 then r = 0
    else Z.prime r /\ r <= upper_bound /\ forall q, Z.prime q -> q <= upper_bound -> q <= r.
Proof.
  intros B. destruct (Z.ltb_spec upper_bound 2) as [L|L]; [|apply find_largest_prime_ok; lia].
  exists 0. split; [|reflexivity]. unfold ethash_find_largest_prime. now rewrite (proj2 (Z.ltb_lt _ _) L).
Qed.

Lemma ethash_find_largest_prime_correct_witness :
  Z.prime 997 /\ ethash_find_largest_prime 1000 = Some 997 /\ ethash_find_largest_prime 1 = Some 0.
Proof.
  destruct (ethash_find_largest_prime_correct 1000) as (r & E & P & _); [unfold imin, imax; lia|].
  vm_compute in E. injection E as <-. split; [exact P|]. split; vm_compute; reflexivity.
Defined.
