(* ===== verification/EthashSizes.v ===== *)
(** The tables of libethhash/data_sizes.h are what libkawpow's ethash.cpp computes: the
    entry of every epoch is the largest prime number of items below the linear bound
    of the epoch.  The primes of the tables are found by trial division on the
    kernel's 63-bit integers, whose result is carried over to [Z.prime]. *)
From Stdlib Require Import ZArith Lia List Bool Znumtheory Uint63.
From stdpp Require Import base list.
From S2P Require Import Prelude Prime25519 Primes EthashData.
Import ListNotations.
Local Open Scope Z_scope.

(** ** Trial division *)

(** Whether no odd number from [d] on up to the square root of [n] divides it. *)
Fixpoint trial63 (fuel : nat) (d n : int) : option bool :=
  if (n <? d * d)%uint63 then Some true
  else match fuel with
       | O => None
       | S fuel => if (n mod d =? 0)%uint63 then Some false else trial63 fuel (d + 2)%uint63 n
       end.

Definition trial_fuel : nat := Z.to_nat 6000.
Definition odd_prime63 (n : Z) : option bool := trial63 trial_fuel 3%uint63 (Uint63.of_Z n).

(** The largest odd prime of [n], [n - 2], ... *)
Fixpoint down63 (k : nat) (n : Z) : option Z :=
  let! p := odd_prime63 n in
  if p : bool then Some n
  else match k with
       | O => None
       | S k => down63 k (n - 2)
       end.

(** An entry of a table of sizes, in items of [unit] bytes, [init] of them at first and
    [growth] more for every epoch. *)
Definition row63 (unit init growth : Z) '((epoch, size) : nat * Z) : bool :=
  match down63 60 (init + growth * Z.of_nat epoch - 1) with
  | Some p => size =? unit * p
  | None => false
  end.

Definition rows63 (unit init growth : Z) (sizes : list Z) : bool :=
  forallb (row63 unit init growth) (combine (seq 0 (length sizes)) sizes).

(** ** What it shows *)

Lemma trial63_ok n fuel : to_Z n < 2 ^ 31 -> 3 <= to_Z n -> Z.odd (to_Z n) = true -> forall d r,
  3 <= to_Z d < 2 ^ 17 -> Z.odd (to_Z d) = true -> sieved (to_Z n) (to_Z d) -> trial63 fuel d n = Some r ->
  (r = true <-> Z.prime (to_Z n)).
Proof.
  intros N N3 O. set (nz := to_Z n) in *. induction fuel as [|fuel IH]; intros d r D Od Sv E; cbn [trial63] in E;
    (assert (W : 2 ^ 62 < wB) by reflexivity); set (dz := to_Z d) in *;
    (assert (Dd : to_Z (d * d)%uint63 = dz * dz) by (rewrite mul_spec; fold dz; apply Z.mod_small; nia));
    (destruct (n <? d * d)%uint63 eqn:L;
      [injection E as <-; apply ltb_spec in L; rewrite Dd in L; fold nz in L; split; [intros _ | reflexivity];
       destruct (prime_dec nz) as [P|NP]; [now apply prime_alt|];
       destruct (prime_divisor nz ltac:(lia)) as (a & A & Dv & AA); [intros Q; now apply NP, prime_alt|];
       apply Z.prime_ge_2 in A; pose proof (odd_divisor nz a O Dv) as Oa;
       assert (a <> 2) by (intros ->; discriminate); exfalso; apply (Sv a); [nia | exact Oa | exact Dv]|]).
  - discriminate E.
  - assert (L' : dz * dz <= nz) by (apply Z.le_ngt; intros X; apply Bool.not_true_iff_false in L; apply L, ltb_spec; now rewrite Dd).
    destruct (n mod d =? 0)%uint63 eqn:M.
    + injection E as <-. split; [discriminate|]. intros P. apply Uint63.eqb_spec in M.
      assert (Mz : nz mod dz = 0) by (unfold nz, dz; rewrite <- mod_spec, M; reflexivity).
      apply Z.mod_divide in Mz; [|lia]. destruct (Z.divide_prime_r dz nz P Mz) as [?|[?|[?|?]]]; nia.
    + assert (Nz : ~ (dz | nz)).
      { intros Dv. apply Z.mod_divide in Dv; [|lia]. apply Bool.not_true_iff_false in M. apply M, Uint63.eqb_spec, to_Z_inj.
        rewrite mod_spec. exact Dv. }
      assert (D2 : to_Z (d + 2)%uint63 = dz + 2) by (rewrite add_spec; fold dz; change (to_Z 2) with 2; apply Z.mod_small; lia).
      apply (IH (d + 2)%uint63 r); try exact E; rewrite D2; [nia | now rewrite Z.odd_add, Od|].
      intros a A Oa. destruct (Z.lt_ge_cases a dz) as [?|G]; [now apply Sv|].
      assert (a = dz \/ a = dz + 1) as [->| ->] by lia; [exact Nz | rewrite Z.odd_add, Od in Oa; discriminate].
Qed.

Lemma odd_prime63_ok n r : 3 <= n < 2 ^ 31 -> Z.odd n = true -> odd_prime63 n = Some r -> (r = true <-> Z.prime n).
Proof.
  intros N O E. assert (Z1 : to_Z (Uint63.of_Z n) = n).
  { rewrite of_Z_spec. apply Z.mod_small. assert (2 ^ 62 < wB) by reflexivity. lia. }
  unfold odd_prime63 in E. rewrite <- Z1 in O |- *.
  refine (trial63_ok _ trial_fuel _ _ O 3%uint63 r _ eq_refl _ E); rewrite ?Z1; try lia; try (split; reflexivity || discriminate).
  intros a A. change (to_Z 3) with 3 in A. lia.
Qed.

Lemma down63_ok k : forall n r, 3 <= n < 2 ^ 31 -> Z.odd n = true -> down63 k n = Some r -> largest_prime n r.
Proof.
  induction k as [|k IH]; intros n r N O E; cbn [down63] in E;
    (destruct (odd_prime63 n) as [p|] eqn:T; [|discriminate E]); cbn [bind] in E;
    pose proof (odd_prime63_ok n p N O T) as P; (destruct p;
      [injection E as <-; split; [now apply P|]; split; [lia | auto]|]); [discriminate E|].
  assert (NP : ~ Z.prime n) by (intros Q; discriminate (proj2 P Q)).
  assert (N5 : 5 <= n).
  { assert (n <> 3) by (intros ->; exact (NP Z.prime_3)). assert (n <> 4) by (intros ->; discriminate). lia. }
  destruct (IH (n - 2) r) as (Pr & L & Mx); [lia | now rewrite Z.odd_sub, O | exact E|].
  split; [exact Pr|]. split; [lia|]. intros q Pq Q.
  destruct (Z.eq_dec q n) as [->|N1]; [contradiction|]. destruct (Z.eq_dec q (n - 1)) as [->|N2]; [|apply Mx; [exact Pq | lia]].
  assert (Ev : Z.odd (n - 1) = false) by (rewrite Z.odd_sub, O; reflexivity).
  pose proof (even_not_prime _ Pq Ev). lia.
Qed.

Lemma row63_ok unit init growth sizes e : rows63 unit init growth sizes = true -> length sizes = 2048%nat ->
  0 <= e < 2048 -> Z.even init = true -> Z.even growth = true -> 4 <= init -> 0 <= growth -> init + growth * 2048 <= 2 ^ 31 ->
  exists p, sizes !! Z.to_nat e = Some (unit * p) /\ largest_prime (init + growth * e) p.
Proof.
  intros R L E Ei Eg I G B. destruct (lookup_lt_is_Some_2 sizes (Z.to_nat e) ltac:(lia)) as [s Hs].
  unfold rows63 in R. rewrite forallb_forall in R. specialize (R (Z.to_nat e, s)). unfold row63 in R. rewrite Z2Nat.id in R by lia.
  assert (H : In (Z.to_nat e, s) (combine (seq 0 (length sizes)) sizes)).
  { apply list_elem_of_In. apply (list_elem_of_lookup_2 _ (Z.to_nat e)).
    change (combine (seq 0 (length sizes)) sizes) with (zip (seq 0 (length sizes)) sizes).
    rewrite lookup_zip_with, lookup_seq_lt, Hs by lia. reflexivity. }
  specialize (R H). destruct (down63 60 (init + growth * e - 1)) as [p|] eqn:D; [|discriminate R]. apply Z.eqb_eq in R. subst s.
  assert (Ev : Z.odd (init + growth * e) = false)
    by (rewrite Z.odd_add, Z.odd_mul, <- !Z.negb_even, Ei, Eg; reflexivity).
  apply down63_ok in D; [|nia | now rewrite Z.odd_sub, Ev].
  exists p. split; [exact Hs|]. destruct D as (P & Lp & M). split; [exact P|]. split; [lia|]. intros q Q Lq.
  destruct (Z.eq_dec q (init + growth * e)) as [->|N]; [|apply M; [exact Q | lia]].
  pose proof (even_not_prime _ Q Ev). nia.
Qed.

(** ** The tables *)

Lemma dag_sizes_prime : rows63 128 (2 ^ 23) (2 ^ 16) dag_sizes = true.
Proof. vm_compute. reflexivity. Qed.

Lemma cache_sizes_prime : rows63 64 (2 ^ 18) (2 ^ 11) cache_sizes = true.
Proof. vm_compute. reflexivity. Qed.

Lemma dag_sizes_largest e : 0 <= e < 2048 -> exists p, dag_sizes !! Z.to_nat e = Some (128 * p) /\
  largest_prime (2 ^ 23 + 2 ^ 16 * e) p.
Proof. intros E. apply (row63_ok 128 (2 ^ 23) (2 ^ 16) _ e dag_sizes_prime); (reflexivity || lia). Qed.

Lemma cache_sizes_largest e : 0 <= e < 2048 -> exists p, cache_sizes !! Z.to_nat e = Some (64 * p) /\
  largest_prime (2 ^ 18 + 2 ^ 11 * e) p.
Proof. intros E. apply (row63_ok 64 (2 ^ 18) (2 ^ 11) _ e cache_sizes_prime); (reflexivity || lia). Qed.
