(* ===== verification/Chains.v ===== *)
(** The chained hashes of libmultihash whose order depends on the input: x16r.c,
    x16rv2.c, x16s.c, x21s.c and minotaur/minotaurx.c.  The hash functions they
    call (the vendored sphlib, Lyra2, yespower) are a class of functions on byte
    strings; only the lengths of their outputs are assumed.  What is modelled is
    the programs' own part: the order, the switch, the int length, the shared output
    buffer with its partial overwrites, and the garden of minotaurx.  [None] is a read
    past the input. *)
From Stdlib Require Import ZArith Lia List Bool.
From stdpp Require Import base list.
From S2P Require Import Prelude CInt Keccak SpongeSpec Blocks.
Import ListNotations.
Local Open Scope Z_scope.

(** enum Algo. *)
Inductive Algo : Set :=
  BLAKE | BMW | GROESTL | JH | KECCAK | SKEIN | LUFFA | CUBEHASH | SHAVITE | SIMD | ECHO | HAMSI | FUGUE
| SHABAL | WHIRLPOOL | SHA512.

Definition algos : list Algo :=
  [BLAKE; BMW; GROESTL; JH; KECCAK; SKEIN; LUFFA; CUBEHASH; SHAVITE; SIMD; ECHO; HAMSI; FUGUE; SHABAL; WHIRLPOOL; SHA512].

(** sph_X512_init, sph_X512 and sph_X512_close on one string, and the others. *)
Class HashLib : Type := {
  sph512 : Algo -> list Z -> list Z;
  tiger : list Z -> list Z;
  haval256_5 : list Z -> list Z;
  gost512 : list Z -> list Z;
  sha256 : list Z -> list Z;
  lyra2 : list Z -> list Z;
  yespower : list Z -> list Z
}.

(** The sizes of their digests. *)
Class HashLaws (L : HashLib) : Prop := {
  sph512_length a m : length (sph512 a m) = 64%nat;
  tiger_length m : length (tiger m) = 24%nat;
  haval_length m : length (haval256_5 m) = 32%nat;
  gost_length m : length (gost512 m) = 64%nat;
  sha256_length m : length (sha256 m) = 32%nat;
  lyra2_length m : length (lyra2 m) = 32%nat;
  yespower_length m : length (yespower m) = 32%nat
}.

(** A digest written to the front of a buffer. *)
Definition put_digest (hash out : list Z) : list Z := out ++ drop (length out) hash.

(** ** The order *)

(** algoDigit for the i-th of 16 hex digits of prevblock. *)
Definition algoDigit (prevblock : list Z) (i : nat) : Z :=
  let b := Nat.shiftr (15 - i) 1 in
  if Nat.odd i then Z.land (lane prevblock b) 15 else Z.shiftr (lane prevblock b) 4.

(** The character sprintf writes, and how the loop reads it back. *)
Definition digit_char (d : Z) : Z := if 10 <=? d then 65 + (d - 10) else 48 + d.
Definition char_algo (elem : Z) : Z := u32 (if 65 <=? elem then elem - 65 + 10 else elem - 48) mod 256.

(** x16r.c and x16rv2.c. *)
Definition x16r_getAlgoString (prevblock : list Z) : list Z :=
  map (fun j => digit_char (algoDigit prevblock j)) (seq 0 16).

(** The characters of 0123456789ABCDEF. *)
Definition hex_string : list Z := map digit_char (seqZ 0 16).

(** [for (int j = offset; j-- > 0;) output[j + 1] = output[j];] *)
Fixpoint shift_right (offset : nat) (output : list Z) : list Z :=
  match offset with
  | O => output
  | S j => shift_right j (<[S j := lane output j]> output)
  end.

(** x16s.c and x21s.c: the digit's entry moves to the front. *)
Definition move_to_front (output : list Z) (offset : nat) : list Z :=
  let oldVal := lane output offset in
  <[0%nat := oldVal]> (shift_right offset output).

Definition x16s_getAlgoString (prevblock : list Z) : list Z :=
  fold_left (fun output i => move_to_front output (Z.to_nat (algoDigit prevblock i))) (seq 0 16) hex_string.

Section Chains.
Context {L : HashLib}.

(** ** The switch and the loop *)

(** The switch of x16r.c, x16s.c and x21s.c on [size] bytes of [inp]; no case matches
    above 15. *)
Definition x16_switch (algo : Z) (inp : list Z) (size : Z) (hash : list Z) : option (list Z) :=
  match nth_error algos (Z.to_nat algo) with
  | Some a => let! data := read_bytes inp size in Some (put_digest hash (sph512 a data))
  | None => Some hash
  end.

(** tiger into hash, and the 24 bytes padded with zeros. *)
Definition tiger_pad (data hash : list Z) : list Z :=
  let hash := put_digest hash (tiger data) in
  take 24 hash ++ repeat 0 40%nat ++ drop 64 hash.

(** The switch of x16rv2.c. *)
Definition x16rv2_switch (algo : Z) (inp : list Z) (size : Z) (hash : list Z) : option (list Z) :=
  match nth_error algos (Z.to_nat algo) with
  | Some ((KECCAK | LUFFA | SHA512) as a) =>
      let! data := read_bytes inp size in
      let hash := tiger_pad data hash in
      let! data := read_bytes hash 64 in
      Some (put_digest hash (sph512 a data))
  | Some a => let! data := read_bytes inp size in Some (put_digest hash (sph512 a data))
  | None => Some hash
  end.

(** The loop over hashOrder: [inp] is the input first, then hash, and [size] an int. *)
Fixpoint chain_loop (switch : Z -> list Z -> Z -> list Z -> option (list Z)) (hashOrder inp : list Z) (size : Z)
  (hash : list Z) : option (list Z) :=
  match hashOrder with
  | [] => Some hash
  | elem :: hashOrder =>
      let! hash := switch (char_algo elem) inp size hash in
      chain_loop switch hashOrder hash 64 hash
  end.

(** &input[4], of which getAlgoString reads eight bytes. *)
Definition prevblock (input : list Z) : option (list Z) :=
  let! _ := c_assert (12 <=? length input)%nat in
  Some (drop 4 input).

(** [hash]: the buffer's content before the call, which is uninitialised; [len]: a
    uint32_t, which becomes an int. *)
Definition x16r_hash (hash input : list Z) (len : Z) : option (list Z) :=
  let! prev := prevblock input in
  let size := to_i32 len in
  let! hash := chain_loop x16_switch (x16r_getAlgoString prev) input size hash in
  Some (take 32 hash).

Definition x16rv2_hash (hash input : list Z) (len : Z) : option (list Z) :=
  let! prev := prevblock input in
  let size := to_i32 len in
  let! hash := chain_loop x16rv2_switch (x16r_getAlgoString prev) input size hash in
  Some (take 32 hash).

Definition x16s_hash (hash input : list Z) (len : Z) : option (list Z) :=
  let! prev := prevblock input in
  let size := to_i32 len in
  let! hash := chain_loop x16_switch (x16s_getAlgoString prev) input size hash in
  Some (take 32 hash).

Definition x21s_hash (hash input : list Z) (len : Z) : option (list Z) :=
  let! prev := prevblock input in
  let size := to_i32 len in
  let! hash := chain_loop x16_switch (x16s_getAlgoString prev) input size hash in
  let hash := put_digest hash (haval256_5 (take 64 hash)) in
  let hash := put_digest hash (tiger (take 64 hash)) in
  let hash := put_digest hash (lyra2 (take 32 hash)) in
  let hash := put_digest hash (gost512 (take 64 hash)) in
  let hash := put_digest hash (sha256 (take 64 hash)) in
  Some (take 32 hash).

(** ** minotaurx *)

Record TortureNode : Type := mknode { algo : Z; childLeft : option nat; childRight : option nat }.

(** The case labels of get_hash; 16 is the yespower gate. *)
Definition minotaur_algos : list Algo :=
  [BLAKE; BMW; CUBEHASH; ECHO; FUGUE; GROESTL; HAMSI; SHA512; JH; KECCAK; LUFFA; SHABAL; SHAVITE; SIMD; SKEIN; WHIRLPOOL].

Definition get_hash (input : list Z) (algo : Z) : list Z :=
  let hash := repeat 0 64%nat in
  match nth_error minotaur_algos (Z.to_nat algo) with
  | Some a => put_digest hash (sph512 a input)
  | None => if algo =? 16 then put_digest hash (yespower input) else hash
  end.

(** [None] is a call that does not return within [fuel] nodes. *)
Fixpoint traverse_garden (fuel : nat) (nodes : list TortureNode) (hash : list Z) (node : nat) : option (list Z) :=
  match fuel with
  | O => None
  | S fuel =>
      let! n := nodes !! node in
      let partialHash := get_hash hash (algo n) in
      let child := if lane partialHash 63 mod 2 =? 0 then childLeft n else childRight n in
      match child with
      | Some c => traverse_garden fuel nodes partialHash c
      | None => Some partialHash
      end
  end.

Definition link_nodes (nodes : list TortureNode) '((parent, l, r) : nat * nat * nat) : list TortureNode :=
  alter (fun n => mknode (algo n) (Some l) (Some r)) parent nodes.

(** The calls of link_nodes in minotaurx_hash. *)
Definition garden_links : list (nat * nat * nat) :=
  [(0, 1, 2); (1, 3, 4); (2, 5, 6); (3, 7, 8); (4, 9, 10); (5, 11, 12); (6, 13, 14); (7, 15, 16); (8, 15, 16);
   (9, 15, 16); (10, 15, 16); (11, 17, 18); (12, 17, 18); (13, 17, 18); (14, 17, 18); (15, 19, 20); (16, 19, 20);
   (17, 19, 20); (18, 19, 20); (19, 21, 21); (20, 21, 21)]%nat.

Definition set_algo (n : TortureNode) (a : Z) : TortureNode := mknode a (childLeft n) (childRight n).

(** [garden]: the local's content before the calls. *)
Definition make_garden (garden : list TortureNode) (hash : list Z) : list TortureNode :=
  let nodes := fold_left link_nodes garden_links garden in
  let nodes := alter (fun n => mknode (algo n) None None) 21%nat nodes in
  let nodes := fold_left (fun nodes i => alter (fun n => set_algo n (lane hash i mod 16)) i nodes) (seq 0 22) nodes in
  alter (fun n => set_algo n 16) 21%nat nodes.

Definition minotaurx_hash (garden : list TortureNode) (input : list Z) : option (list Z) :=
  let hash := sph512 SHA512 (take 80 input) in
  let! hash := traverse_garden 22 (make_garden garden hash) hash 0 in
  Some (take 32 hash).
End Chains.

(** ** The order is the hex digits, or a permutation *)

Lemma char_digit d : 0 <= d < 16 -> char_algo (digit_char d) = d.
Proof.
  intros D. assert (In d (seqZ 0 16)) as I by (apply list_elem_of_In, elem_of_seqZ; lia).
  assert (F : List.Forall (fun d => char_algo (digit_char d) = d) (seqZ 0 16)) by (repeat constructor).
  exact (proj1 (List.Forall_forall _ _) F d I).
Qed.

Lemma algoDigit_range prev i : (i < 16)%nat -> Forall is_byte prev -> 0 <= algoDigit prev i < 16.
Proof.
  intros I F. unfold algoDigit.
  assert (B : is_byte (lane prev (Nat.shiftr (15 - i) 1))).
  { unfold lane. destruct (nth_in_or_default (Nat.shiftr (15 - i) 1) prev 0) as [H | ->]; [|unfold is_byte; lia].
    exact (proj1 (List.Forall_forall _ _) F _ H). }
  unfold is_byte in B. destruct (Nat.odd i).
  - change 15 with (Z.ones 4). rewrite Z.land_ones by lia. apply Z.mod_pos_bound. reflexivity.
  - rewrite Z.shiftr_div_pow2 by lia. split; [apply Z.div_pos; lia | apply Z.div_lt_upper_bound; lia].
Qed.

(** Byte [k] of a little-endian number, and its two hex digits. *)
Lemma byte_of_le b k : Forall is_byte b -> lane b k = (le_val b / 2 ^ (8 * Z.of_nat k)) mod 256.
Proof.
  intros F. revert k. induction F as [|x b X F IH]; intros k.
  - unfold lane. cbn [le_val]. rewrite Z.div_0_l by (apply Z.pow_nonzero; lia). now destruct k.
  - unfold is_byte in X. destruct k as [|k].
    + cbn [le_val]. rewrite Z.mul_0_r, Z.pow_0_r, Z.div_1_r, (Z.mul_comm 256), Z_mod_plus_full.
      symmetry. apply Z.mod_small. exact X.
    + change (lane (x :: b) (S k)) with (lane b k). rewrite IH.
      replace (8 * Z.of_nat (S k)) with (8 + 8 * Z.of_nat k) by lia. rewrite Z.pow_add_r by lia.
      rewrite <- Z.div_div by (try apply Z.pow_nonzero; try apply Z.pow_pos_nonneg; lia).
      change (2 ^ 8) with 256. cbn [le_val]. rewrite (Z.mul_comm 256), Z.div_add, (Z.div_small x) by lia.
      reflexivity.
Qed.

Lemma algoDigit_hex prev i : (i < 16)%nat -> Forall is_byte prev ->
  algoDigit prev i = (le_val prev / 2 ^ (4 * (15 - Z.of_nat i))) mod 16.
Proof.
  intros I F. unfold algoDigit. rewrite byte_of_le by exact F. set (v := le_val prev).
  change 15 with (Z.ones 4) at 1. rewrite Z.land_ones, Z.shiftr_div_pow2 by lia. change (2 ^ 4) with 16.
  destruct (nibbles v (8 * Z.of_nat (Nat.shiftr (15 - i) 1)) ltac:(lia)) as [Hh Hl]. rewrite Hh, Hl.
  do 16 (destruct i as [|i]; [reflexivity|]). lia.
Qed.

(** Moving an entry to the front. *)
Definition mtf {A} (l : list A) (k : nat) : list A :=
  match l !! k with
  | Some x => x :: take k l ++ drop (S k) l
  | None => l
  end.

Lemma mtf_perm {A} (l : list A) k : Permutation (mtf l k) l.
Proof.
  unfold mtf. destruct (l !! k) as [x|] eqn:E; [|reflexivity].
  rewrite <- (take_drop_middle l k x E) at 3. apply Permutation_middle.
Qed.

Lemma mtf_map {A B} (f : A -> B) l k : mtf (map f l) k = map f (mtf l k).
Proof.
  unfold mtf. assert (E : map f l !! k = option_map f (l !! k)).
  { revert k. induction l as [|x l IH]; intros [|k]; try reflexivity. apply IH. }
  rewrite E. destruct (l !! k); [|reflexivity]. cbn [option_map map]. now rewrite map_app, firstn_map, skipn_map.
Qed.

Lemma shift_right_ok k : forall l x y, l !! 0%nat = Some x -> l !! k = Some y ->
  shift_right k l = x :: take k l ++ drop (S k) l.
Proof.
  induction k as [|k IH]; intros l x y X Y.
  - destruct l as [|z l]; [discriminate|]. injection X as ->. cbn. now rewrite drop_0.
  - cbn [shift_right]. apply lookup_lt_Some in Y as L. destruct (lookup_lt_is_Some_2 l k ltac:(lia)) as [z Z1].
    assert (E : lane l k = z) by (unfold lane; now apply nth_lookup_Some). rewrite E.
    rewrite (IH _ x z).
    + rewrite take_insert_ge, (take_S_r l k z Z1), <- app_assoc by lia. do 2 f_equal.
      rewrite drop_insert_ge, Nat.sub_diag by lia. cbn [app].
      assert (D : drop (S k) l = y :: drop (S (S k)) l) by (now apply drop_S). now rewrite D.
    + now rewrite list_lookup_insert_ne by lia.
    + now rewrite list_lookup_insert_ne by lia.
Qed.

Lemma move_to_front_mtf l k : (k < length l)%nat -> move_to_front l k = mtf l k.
Proof.
  intros K. unfold move_to_front, mtf. destruct (lookup_lt_is_Some_2 l k K) as [y Y]. rewrite Y.
  destruct (lookup_lt_is_Some_2 l 0 ltac:(lia)) as [x X].
  rewrite (shift_right_ok k l x y X Y). cbn [insert list_insert]. f_equal.
  unfold lane. now apply nth_lookup_Some.
Qed.

(** The digits of x16s's order: the sixteen moves to the front. *)
Definition mtf_digits (prev : list Z) : list Z :=
  fold_left (fun ds i => mtf ds (Z.to_nat (algoDigit prev i))) (seq 0 16) (seqZ 0 16).

Lemma fold_mtf {A} (ks : list nat) (g : nat -> nat) : forall l : list A,
  Permutation (fold_left (fun l i => mtf l (g i)) ks l) l.
Proof.
  induction ks as [|k ks IH]; intros l; [reflexivity|]. cbn [fold_left]. rewrite IH. apply mtf_perm.
Qed.

Lemma mtf_digits_perm prev : Permutation (mtf_digits prev) (seqZ 0 16).
Proof. apply fold_mtf. Qed.

Lemma x16s_getAlgoString_mtf prev : Forall is_byte prev -> x16s_getAlgoString prev = map digit_char (mtf_digits prev).
Proof.
  intros F. unfold x16s_getAlgoString, mtf_digits, hex_string.
  assert (R : forall i, In i (seq 0 16) -> (Z.to_nat (algoDigit prev i) < 16)%nat).
  { intros i I. apply in_seq in I. pose proof (algoDigit_range prev i ltac:(lia) F). lia. }
  assert (L : length (seqZ 0 16) = 16%nat) by reflexivity.
  revert R L. generalize (seq 0 16) as ks, (seqZ 0 16) as ds. induction ks as [|k ks IH]; intros ds R L; [reflexivity|].
  cbn [fold_left]. rewrite move_to_front_mtf, mtf_map by (rewrite length_map, L; apply R; now left).
  apply IH; [intros i I; apply R; now right|]. now rewrite (Permutation_length (mtf_perm ds _)).
Qed.

(** ** The chains *)

Definition algo_at (d : Z) : Algo := nth (Z.to_nat d) algos BLAKE.

Lemma nth_error_algos d : 0 <= d < 16 -> nth_error algos (Z.to_nat d) = Some (algo_at d).
Proof. intros D. apply nth_error_nth'. cbn. lia. Qed.

Lemma map_algo_at : map algo_at (seqZ 0 16) = algos.
Proof. reflexivity. Qed.

Section ChainLemmas.
Context {L : HashLib} {LL : HashLaws L}.

Lemma put_digest_full hash out : (length hash <= length out)%nat -> put_digest hash out = out.
Proof. intros N. unfold put_digest. now rewrite drop_ge, app_nil_r. Qed.

Lemma length_put_digest hash out : (length out <= length hash)%nat -> length (put_digest hash out) = length hash.
Proof. intros N. unfold put_digest. rewrite length_app, length_drop. lia. Qed.

Lemma take_put_digest n hash out : length out = n -> take n (put_digest hash out) = out.
Proof. intros <-. apply take_app_length. Qed.

Lemma read_64 (buf : list Z) : length buf = 64%nat -> read_bytes buf 64 = Some buf.
Proof. intros N. change 64 with (Z.of_nat 64). rewrite <- N. apply read_bytes_all. rewrite N. reflexivity. Qed.

(** What a switch does to a hash buffer of 64 bytes. *)
Definition runs (switch : Z -> list Z -> Z -> list Z -> option (list Z)) (f : Algo -> list Z -> list Z) : Prop :=
  forall d inp size hash, 0 <= d < 16 -> length hash = 64%nat ->
  switch d inp size hash = let! data := read_bytes inp size in Some (f (algo_at d) data).

Lemma x16_switch_ok : runs x16_switch sph512.
Proof.
  intros d inp size hash D H. unfold x16_switch. rewrite nth_error_algos by exact D.
  destruct (read_bytes inp size) as [data|]; [|reflexivity]. cbn [bind]. rewrite put_digest_full; [reflexivity|].
  rewrite sph512_length. lia.
Qed.

(** What x16rv2 runs for an algorithm: three of them hash the padded tiger digest. *)
Definition rv2_step (a : Algo) (data : list Z) : list Z :=
  match a with
  | KECCAK | LUFFA | SHA512 => sph512 a (tiger data ++ repeat 0 40%nat)
  | _ => sph512 a data
  end.

Lemma tiger_pad_ok data hash : length hash = 64%nat -> tiger_pad data hash = tiger data ++ repeat 0 40%nat.
Proof.
  intros H. unfold tiger_pad. rewrite (take_put_digest 24) by apply tiger_length.
  rewrite drop_ge by (rewrite length_put_digest; rewrite ?tiger_length; lia). now rewrite app_nil_r.
Qed.

Lemma x16rv2_switch_ok : runs x16rv2_switch rv2_step.
Proof.
  intros d inp size hash D H. unfold x16rv2_switch. rewrite nth_error_algos by exact D.
  assert (T : forall data, read_bytes (tiger data ++ repeat 0 40%nat) 64 = Some (tiger data ++ repeat 0 40%nat))
    by (intros data; apply read_64; rewrite length_app, tiger_length, repeat_length; reflexivity).
  destruct (algo_at d); (destruct (read_bytes inp size) as [data|]; [|reflexivity]); cbn [bind rv2_step];
    rewrite ?tiger_pad_ok, ?T by exact H; cbn [bind]; (rewrite put_digest_full; [reflexivity|]);
    rewrite sph512_length, ?length_app, ?tiger_length, ?repeat_length, ?H; lia.
Qed.

Lemma rv2_step_length a data : length (rv2_step a data) = 64%nat.
Proof. destruct a; apply sph512_length. Qed.

Definition digit_ok (d : Z) : Prop := 0 <= d < 16.

(** The loop over a non-empty order: the first algorithm reads the input. *)
Lemma chain_loop_ok switch (f : Algo -> list Z -> list Z) : runs switch f ->
  (forall a data, length (f a data) = 64%nat) ->
  forall d ds inp size hash, Forall digit_ok (d :: ds) -> length hash = 64%nat ->
  chain_loop switch (map digit_char (d :: ds)) inp size hash =
  (let! data := read_bytes inp size in Some (fold_left (fun data a => f a data) (map algo_at (d :: ds)) data)) /\
  forall data, length (fold_left (fun data a => f a data) (map algo_at (d :: ds)) data) = 64%nat.
Proof.
  intros St Len d ds. revert d. induction ds as [|d' ds IH]; intros d inp size hash F H;
    inversion F as [|? ? Hd F']; subst; cbn [map chain_loop]; rewrite (char_digit d Hd), (St d inp size hash Hd H).
  - split; [destruct (read_bytes inp size); reflexivity | intros data; apply Len].
  - split; [|intros data; apply (IH d' [] 0 (f (algo_at d) data) F' (Len _ _))].
    destruct (read_bytes inp size) as [data|]; [|reflexivity]. cbn [bind].
    destruct (IH d' (f (algo_at d) data) 64 (f (algo_at d) data) F' (Len _ _)) as [E _]. cbn [map chain_loop] in E. rewrite E.
    rewrite read_64 by apply Len. reflexivity.
Qed.

(** The order of x16r: the hex digits of the eight bytes after the version. *)
Definition hex_order (input : list Z) : list Algo :=
  map (fun i => algo_at ((le_val (drop 4 input) / 2 ^ (4 * (15 - Z.of_nat i))) mod 16)) (seq 0 16).

Lemma x16r_order input : Forall is_byte input ->
  exists d ds, x16r_getAlgoString (drop 4 input) = map digit_char (d :: ds) /\ Forall digit_ok (d :: ds) /\
    map algo_at (d :: ds) = hex_order input.
Proof.
  intros F. apply (Forall_drop _ 4) in F. set (prev := drop 4 input) in *.
  exists (algoDigit prev 0), (map (algoDigit prev) (seq 1 15)).
  change (algoDigit prev 0 :: map (algoDigit prev) (seq 1 15)) with (map (algoDigit prev) (seq 0 16)).
  split; [unfold x16r_getAlgoString; now rewrite map_map|]. split.
  - apply List.Forall_map, List.Forall_forall. intros i I. apply in_seq in I. apply algoDigit_range; [lia | exact F].
  - rewrite map_map. apply map_ext_in. intros i I. apply in_seq in I. f_equal. apply algoDigit_hex; [lia | exact F].
Qed.

(** The order of x16s. *)
Definition mtf_order (input : list Z) : list Algo := map algo_at (mtf_digits (drop 4 input)).

Lemma mtf_order_perm input : Permutation (mtf_order input) algos.
Proof. unfold mtf_order. rewrite <- map_algo_at. apply Permutation_map, mtf_digits_perm. Qed.

Lemma x16s_order input : Forall is_byte input ->
  exists d ds, x16s_getAlgoString (drop 4 input) = map digit_char (d :: ds) /\ Forall digit_ok (d :: ds) /\
    map algo_at (d :: ds) = mtf_order input.
Proof.
  intros F. apply (Forall_drop _ 4) in F. rewrite x16s_getAlgoString_mtf by exact F. unfold mtf_order.
  pose proof (mtf_digits_perm (drop 4 input)) as P. destruct (mtf_digits (drop 4 input)) as [|d ds].
  - apply Permutation_length in P. discriminate.
  - exists d, ds. split; [reflexivity|]. split; [|reflexivity]. rewrite P.
    apply List.Forall_forall. intros x X. apply list_elem_of_In, elem_of_seqZ in X. unfold digit_ok. lia.
Qed.

(** The bytes a uint32_t length makes the chain read. *)
Lemma input_read (input : list Z) : (Z.of_nat (length input) < 2 ^ 31 ->
    read_bytes input (to_i32 (Z.of_nat (length input))) = Some input) /\
  (2 ^ 31 <= Z.of_nat (length input) < 2 ^ 32 -> read_bytes input (to_i32 (Z.of_nat (length input))) = None).
Proof.
  split; intros N.
  - rewrite to_i32_id by (unfold imin, imax; lia). apply read_bytes_all. lia.
  - rewrite to_i32_negative by lia. apply read_bytes_negative; lia.
Qed.

Lemma prevblock_ok (input : list Z) : (12 <= length input)%nat -> prevblock input = Some (drop 4 input).
Proof. intros N. unfold prevblock. now rewrite (proj2 (Nat.leb_le _ _) N). Qed.

(** The five digests that x21s adds in the buffer. *)
Lemma x21s_tail_ok h : length h = 64%nat ->
  let hash := put_digest h (haval256_5 (take 64 h)) in
  let hash := put_digest hash (tiger (take 64 hash)) in
  let hash := put_digest hash (lyra2 (take 32 hash)) in
  let hash := put_digest hash (gost512 (take 64 hash)) in
  let hash := put_digest hash (sha256 (take 64 hash)) in
  let v := haval256_5 h in
  let t := tiger (v ++ drop 32 h) in
  take 32 hash = sha256 (gost512 (lyra2 (t ++ drop 24 v) ++ drop 32 h)).
Proof.
  intros Lh. cbv zeta.
  pose proof (haval_length h) as Lv. rewrite (take_ge h) by lia.
  rewrite (take_ge (put_digest h _)) by (rewrite length_put_digest; lia).
  set (v := haval256_5 h) in *. assert (H1 : put_digest h v = v ++ drop 32 h) by (unfold put_digest; now rewrite Lv).
  rewrite H1. set (t := tiger _). assert (Lt : length t = 24%nat) by apply tiger_length.
  assert (H2 : put_digest (v ++ drop 32 h) t = (t ++ drop 24 v) ++ drop 32 h).
  { unfold put_digest. now rewrite Lt, drop_app_le, app_assoc by lia. }
  rewrite H2. assert (L2 : length (t ++ drop 24 v) = 32%nat) by (rewrite length_app, length_drop; lia).
  rewrite (take_app_length' (t ++ drop 24 v)) by (symmetry; exact L2).
  set (y := lyra2 _). assert (Ly : length y = 32%nat) by apply lyra2_length.
  assert (H3 : put_digest ((t ++ drop 24 v) ++ drop 32 h) y = y ++ drop 32 h).
  { unfold put_digest. rewrite Ly, <- L2. now rewrite drop_app_length. }
  rewrite H3. assert (L3 : length (y ++ drop 32 h) = 64%nat) by (rewrite length_app, length_drop; lia).
  rewrite (take_ge (y ++ _)) by lia.
  rewrite (put_digest_full _ (gost512 _)) by (rewrite gost_length; lia).
  rewrite (take_ge (gost512 _)) by (rewrite gost_length; lia).
  apply take_put_digest, sha256_length.
Qed.

Definition run_chain (f : Algo -> list Z -> list Z) (order : list Algo) (input : list Z) : list Z :=
  fold_left (fun data a => f a data) order input.
End ChainLemmas.

(** ** The garden *)

Section Garden.
Context {L : HashLib} {LL : HashLaws L}.

(** The child on the side of parity [b], and the depth of a node: two binary trees of
    depth 2 under node 0, then pairs. *)
Definition garden_next (n b : nat) : nat :=
  (if n <? 7 then 2 * n + 1 + b else if n <? 11 then 15 + b else if n <? 15 then 17 + b
   else if n <? 19 then 19 + b else 21)%nat.

Definition garden_depth (n : nat) : nat :=
  (if n <? 1 then 0 else if n <? 3 then 1 else if n <? 7 then 2 else if n <? 15 then 3 else if n <? 19 then 4
   else if n <? 21 then 5 else 6)%nat.

Definition minotaur_algo (hash : list Z) (n : nat) : Algo := nth (Z.to_nat (lane hash n mod 16)) minotaur_algos BLAKE.

(** The nodes visited in [k] steps from node [n] with the value [d]; [hash] selects
    the algorithms. *)
Fixpoint garden_walk (hash : list Z) (k n : nat) (d : list Z) : list nat :=
  match k with
  | O => []
  | S k =>
      let d' := sph512 (minotaur_algo hash n) d in
      n :: garden_walk hash k (garden_next n (if lane d' 63 mod 2 =? 0 then 0 else 1)) d'
  end.

Lemma make_garden_ok garden hash : length garden = 22%nat ->
  make_garden garden hash !! 21%nat = Some (mknode 16 None None) /\
  forall n, (n < 21)%nat -> make_garden garden hash !! n =
    Some (mknode (lane hash n mod 16) (Some (garden_next n 0)) (Some (garden_next n 1))).
Proof.
  intros G. do 22 (destruct garden as [|? garden]; [discriminate G|]). destruct garden; [|discriminate G].
  split; [reflexivity|]. intros n N. do 21 (destruct n as [|n]; [reflexivity|]). lia.
Qed.

Lemma garden_depth_next n b : (n < 21)%nat -> (b <= 1)%nat ->
  garden_depth (garden_next n b) = S (garden_depth n) /\ (garden_next n b <= 21)%nat.
Proof.
  intros N B. assert (C : b = 0%nat \/ b = 1%nat) by lia.
  do 21 (destruct n as [|n]; [destruct C as [-> | ->]; cbn; lia|]). lia.
Qed.

Lemma garden_depth_last n : (n <= 21)%nat -> garden_depth n = 6%nat <-> n = 21%nat.
Proof. intros N. do 21 (destruct n as [|n]; [split; [discriminate | lia]|]). split; [lia | intros ->; reflexivity]. Qed.

Lemma get_hash_sph data hash n : get_hash data (lane hash n mod 16) = sph512 (minotaur_algo hash n) data.
Proof.
  unfold get_hash, minotaur_algo. pose proof (Z.mod_pos_bound (lane hash n) 16 ltac:(lia)) as B.
  rewrite (nth_error_nth' minotaur_algos BLAKE) by (cbn; lia). apply put_digest_full. rewrite sph512_length. reflexivity.
Qed.

Lemma traverse_walk garden hash : length garden = 22%nat -> forall k fuel data n, (k < fuel)%nat ->
  (n <= 21)%nat -> (garden_depth n + k = 6)%nat ->
  traverse_garden fuel (make_garden garden hash) data n =
  Some (get_hash (fold_left (fun d m => sph512 (minotaur_algo hash m) d) (garden_walk hash k n data) data) 16).
Proof.
  intros G. destruct (make_garden_ok garden hash G) as [Last Nd].
  induction k as [|k IH]; intros fuel data n F N D; (destruct fuel as [|fuel]; [lia|]); cbn [traverse_garden].
  - rewrite (proj1 (garden_depth_last n N)) by lia. rewrite Last. cbn [bind algo childLeft childRight garden_walk fold_left].
    now destruct (_ =? 0).
  - assert (N21 : (n < 21)%nat) by (pose proof (proj2 (garden_depth_last n N)); lia).
    rewrite Nd by exact N21. cbn [bind algo childLeft childRight garden_walk fold_left]. rewrite get_hash_sph.
    set (data' := sph512 _ data). set (b := if lane data' 63 mod 2 =? 0 then 0%nat else 1%nat).
    assert (B : (b <= 1)%nat) by (unfold b; destruct (_ =? 0); lia).
    destruct (garden_depth_next n b N21 B) as [Dn Ln].
    rewrite <- (IH fuel data' (garden_next n b)) by lia. unfold b. now destruct (_ =? 0).
Qed.
End Garden.

(** A library of checksums, to evaluate the chains on. *)
Definition toy (n : nat) (m : list Z) : list Z := map (fun i => (fold_left Z.add m 0 + Z.of_nat i) mod 256) (seq 0 n).

Definition toy_lib : HashLib :=
  {| sph512 := fun _ => toy 64; tiger := toy 24; haval256_5 := toy 32; gost512 := toy 64; sha256 := toy 32;
     lyra2 := toy 32; yespower := toy 32 |}.

Lemma toy_length n m : length (toy n m) = n.
Proof. unfold toy. now rewrite length_map, length_seq. Qed.

Lemma toy_laws : HashLaws toy_lib.
Proof. constructor; intros; apply toy_length. Qed.

(** ** Properties *)

(** x16r_hash and x16rv2_hash run the sixteen algorithms that the hex digits of
    the 64-bit little-endian word after the version name, most significant digit
    first, each on the 64 bytes of the one before (x16rv2 putting the padded tiger
    digest before KECCAK, LUFFA and SHA512), and return the first 32 bytes; the
    uninitialised content of the buffer plays no role. *)
Theorem x16r_chain {L : HashLib} {LL : HashLaws L} hash input :
  length hash = 64%nat -> Forall is_byte input -> (12 <= length input)%nat -> Z.of_nat (length input) < 2 ^ 31 ->
  x16r_hash hash input (Z.of_nat (length input)) = Some (take 32 (run_chain sph512 (hex_order input) input)) /\
  x16rv2_hash hash input (Z.of_nat (length input)) = Some (take 32 (run_chain rv2_step (hex_order input) input)).
Proof.
  intros H F P N. destruct (x16r_order input F) as (d & ds & E & D & O).
  unfold x16r_hash, x16rv2_hash, run_chain. rewrite (prevblock_ok input P), <- O. cbn [bind]. rewrite E.
  destruct (chain_loop_ok x16_switch sph512 x16_switch_ok sph512_length d ds input (to_i32 (Z.of_nat (length input))) hash D H)
    as [-> _].
  destruct (chain_loop_ok x16rv2_switch rv2_step x16rv2_switch_ok rv2_step_length d ds input
              (to_i32 (Z.of_nat (length input))) hash D H) as [-> _].
  rewrite (proj1 (input_read input) N). cbn [bind]. auto.
Qed.

Lemma x16r_chain_witness :
  x16r_hash (L := toy_lib) (repeat 9 64%nat) (seqZ 0 80) 80 =
  Some (take 32 (run_chain (sph512 (HashLib := toy_lib)) (hex_order (seqZ 0 80)) (seqZ 0 80))) /\
  hex_order (seqZ 0 80) = [BLAKE; HAMSI; BLAKE; ECHO; BLAKE; SIMD; BLAKE; SHAVITE; BLAKE; CUBEHASH; BLAKE; LUFFA;
                           BLAKE; SKEIN; BLAKE; KECCAK].
Proof.
  split; [|vm_compute; reflexivity].
  exact (proj1 (x16r_chain (LL := toy_laws) (repeat 9 64%nat) (seqZ 0 80) eq_refl
    ltac:(repeat (constructor; [unfold is_byte; lia|]); constructor) ltac:(apply Nat.leb_le; reflexivity) eq_refl)).
Defined.

(** C37.  x16s_hash and x21s_hash, called with the length of the input.  Below 2^31 bytes
    they run each of the sixteen algorithms exactly once: the order is the list of
    algorithms after sixteen moves to the front. x21s goes on with haval, tiger, Lyra2,
    gost and SHA-256 on the shared 64-byte buffer, where the shorter digests leave the
    rest of the buffer as it was.  From 2^31 bytes on the length becomes a negative int
    and the first algorithm reads past the input. *)
Theorem x16s_chain {L : HashLib} {LL : HashLaws L} hash input :
  length hash = 64%nat -> Forall is_byte input -> (12 <= length input)%nat -> Z.of_nat (length input) < 2 ^ 32 ->
  Permutation (mtf_order input) algos /\
  let h := run_chain sph512 (mtf_order input) input in
  let v := haval256_5 h in
  let t := tiger (v ++ drop 32 h) in
  let len := Z.of_nat (length input) in
  x16s_hash hash input len = (if len <? 2 ^ 31 then Some (take 32 h) else None) /\
  x21s_hash hash input len =
    if len <? 2 ^ 31 then Some (sha256 (gost512 (lyra2 (t ++ drop 24 v) ++ drop 32 h))) else None.
Proof.
  intros H F P N. split; [apply mtf_order_perm|]. destruct (x16s_order input F) as (d & ds & E & D & O).
  unfold x16s_hash, x21s_hash, run_chain. rewrite (prevblock_ok input P), <- O. cbn [bind]. rewrite E.
  destruct (chain_loop_ok x16_switch sph512 x16_switch_ok sph512_length d ds input (to_i32 (Z.of_nat (length input))) hash D H)
    as [-> Lh]. specialize (Lh input). cbv zeta. set (h := fold_left _ _ input) in *.
  destruct (Z.ltb_spec (Z.of_nat (length input)) (2 ^ 31)) as [S|S];
    [rewrite (proj1 (input_read input) S) | rewrite (proj2 (input_read input)) by lia; auto].
  cbn [bind]. fold h. split; [reflexivity|]. clearbody h. f_equal. now apply x21s_tail_ok.
Qed.

Lemma x16s_chain_witness :
  (Permutation (mtf_order (seqZ 3 80)) algos /\
   x16s_hash (L := toy_lib) (repeat 9 64%nat) (seqZ 3 80) 80 =
   Some (take 32 (run_chain (sph512 (HashLib := toy_lib)) (mtf_order (seqZ 3 80)) (seqZ 3 80)))) /\
  mtf_order (seqZ 0 80) = [CUBEHASH; HAMSI; BMW; JH; SKEIN; SIMD; BLAKE; GROESTL; KECCAK; LUFFA; SHAVITE; ECHO;
                           FUGUE; SHABAL; WHIRLPOOL; SHA512].
Proof.
  split; [|vm_compute; reflexivity].
  destruct (x16s_chain (L := toy_lib) (LL := toy_laws) (repeat 9 64%nat) (seqZ 3 80) eq_refl
    ltac:(repeat (constructor; [unfold is_byte; lia|]); constructor) ltac:(apply Nat.leb_le; reflexivity) eq_refl) as (A & B & _).
  split; [exact A | exact B].
Defined.

(** C39.  minotaurx_hash always returns, after a walk through seven nodes of the
    garden as its comment says: six whose algorithms the initial SHA-512 selects, each
    digest's last bit choosing the next node, then always the yespower gate, whose
    digest is the result; the uninitialised garden plays no role. *)
Theorem minotaurx_walk {L : HashLib} {LL : HashLaws L} garden input :
  length garden = 22%nat -> (80 <= length input)%nat ->
  let h0 := sph512 SHA512 (take 80 input) in
  let walk := garden_walk h0 6 0 h0 in
  length walk = 6%nat /\
  minotaurx_hash garden input = Some (yespower (fold_left (fun d m => sph512 (minotaur_algo h0 m) d) walk h0)).
Proof.
  intros G _. cbv zeta. split; [reflexivity|]. unfold minotaurx_hash. set (h0 := sph512 SHA512 (take 80 input)).
  rewrite (traverse_walk garden h0 G 6) by (cbn; lia). cbn [bind]. f_equal.
  apply take_put_digest, yespower_length.
Qed.

Lemma minotaurx_walk_witness :
  minotaurx_hash (L := toy_lib) (repeat (mknode 3 None None) 22%nat) (repeat 5 80%nat) =
  minotaurx_hash (L := toy_lib) (repeat (mknode 7 None (Some 3%nat)) 22%nat) (repeat 5 80%nat).
Proof.
  rewrite (proj2 (minotaurx_walk (LL := toy_laws) (repeat (mknode 3 None None) 22%nat) (repeat 5 80%nat) eq_refl (le_n 80))).
  now rewrite (proj2 (minotaurx_walk (LL := toy_laws) (repeat (mknode 7 None (Some 3%nat)) 22%nat) (repeat 5 80%nat)
    eq_refl (le_n 80))).
Defined.
