(* ===== verification/Dcrypt.v ===== *)
(** dcrypt (libmultihash/dcrypt.c): its own SHA-256, which pads in the caller's buffer
    and writes hex digits, and the walk over the digits that builds the string hashed at
    the end.  [None] is an access outside a buffer or a table, or through a null pointer.
    malloc is a parameter, of which only its contract is used: it returns a null pointer
    or a block with room for at least what was asked (malloc_usable_size), of any
    content. *)
From Stdlib Require Import ZArith Lia List Bool.
From stdpp Require Import base list.
From S2P Require Import Prelude CInt Bytes Keccak SpongeSpec Blocks Arx Sha2.
Import ListNotations.
Local Open Scope Z_scope.

(** ** SHA-256 *)

Definition Ch (x y z : Z) : Z := Z.lxor (Z.land x (Z.lxor y z)) z.
Definition Maj (x y z : Z) : Z := Z.lor (Z.land x (Z.lor y z)) (Z.land y z).
Definition ROTR (x n : Z) : Z := Z.lor (Z.shiftr x n) (u32 (Z.shiftl x (32 - n))).
Definition S0 (x : Z) : Z := Z.lxor (Z.lxor (ROTR x 2) (ROTR x 13)) (ROTR x 22).
Definition S1 (x : Z) : Z := Z.lxor (Z.lxor (ROTR x 6) (ROTR x 11)) (ROTR x 25).
Definition s0 (x : Z) : Z := Z.lxor (Z.lxor (ROTR x 7) (ROTR x 18)) (Z.shiftr x 3).
Definition s1 (x : Z) : Z := Z.lxor (Z.lxor (ROTR x 17) (ROTR x 19)) (Z.shiftr x 10).

(** '0' to '9' and 'a' to 'f'. *)
Definition hexmap : list Z := [48; 49; 50; 51; 52; 53; 54; 55; 56; 57; 97; 98; 99; 100; 101; 102].

Definition K : list Z := concat
  [[0x428a2f98; 0x71374491; 0xb5c0fbcf; 0xe9b5dba5]; [0x3956c25b; 0x59f111f1; 0x923f82a4; 0xab1c5ed5];
   [0xd807aa98; 0x12835b01; 0x243185be; 0x550c7dc3]; [0x72be5d74; 0x80deb1fe; 0x9bdc06a7; 0xc19bf174];
   [0xe49b69c1; 0xefbe4786; 0x0fc19dc6; 0x240ca1cc]; [0x2de92c6f; 0x4a7484aa; 0x5cb0a9dc; 0x76f988da];
   [0x983e5152; 0xa831c66d; 0xb00327c8; 0xbf597fc7]; [0xc6e00bf3; 0xd5a79147; 0x06ca6351; 0x14292967];
   [0x27b70a85; 0x2e1b2138; 0x4d2c6dfc; 0x53380d13]; [0x650a7354; 0x766a0abb; 0x81c2c92e; 0x92722c85];
   [0xa2bfe8a1; 0xa81a664b; 0xc24b8b70; 0xc76c51a3]; [0xd192e819; 0xd6990624; 0xf40e3585; 0x106aa070];
   [0x19a4c116; 0x1e376c08; 0x2748774c; 0x34b0bcb5]; [0x391c0cb3; 0x4ed8aa4a; 0x5b9cca4f; 0x682e6ff3];
   [0x748f82ee; 0x78a5636f; 0x84c87814; 0x8cc70208]; [0x90befffa; 0xa4506ceb; 0xbef9a3f7; 0xc67178f2]].

Definition initial_H : list Z :=
  [0x6a09e667; 0xbb67ae85; 0x3c6ef372; 0xa54ff53a; 0x510e527f; 0x9b05688c; 0x1f83d9ab; 0x5be0cd19].

(** The word at [off], its bytes promoted to int and shifted. *)
Definition load_word (instr : list Z) (off : nat) : Z :=
  u32 (Z.shiftl (lane instr off) 24 + Z.shiftl (lane instr (off + 1)) 16 + Z.shiftl (lane instr (off + 2)) 8 +
       lane instr (off + 3)).

(** The three loops and the length that fill W. *)
Definition fill_W (instr W : list Z) (len N : Z) (curBlock : nat) : list Z :=
  let W := fold_left (fun W t => <[t := load_word instr (curBlock * 64 + t * 4)]> W) (seq 0 16) W in
  let W := if Z.of_nat curBlock =? u32 (N - 1) then <[15%nat := u32 (len * 8)]> W else W in
  fold_left (fun W t => <[t := u32 (s1 (lane W (t - 2)) + lane W (t - 7) + s0 (lane W (t - 15)) + lane W (t - 16))]> W)
    (seq 16 48) W.

(** The locals a to h through one round. *)
Definition sha256_round (W : list Z) (v : list Z) (t : nat) : list Z :=
  match v with
  | [a; b; c; d; e; f; g; h] =>
      let T1 := u32 (h + S1 e + Ch e f g + lane K t + lane W t) in
      let T2 := u32 (S0 a + Maj a b c) in
      let h := g in
      let g := f in
      let f := e in
      let e := u32 (d + T1) in
      let d := c in
      let c := b in
      let b := a in
      let a := u32 (T1 + T2) in
      [a; b; c; d; e; f; g; h]
  | _ => v
  end.

Definition sha256_block (instr : list Z) (len N : Z) '((W, H) : list Z * list Z) (curBlock : nat) : list Z * list Z :=
  let W := fill_W instr W len N curBlock in
  let v := fold_left (sha256_round W) (seq 0 64) H in
  (W, zip_with (fun x y => u32 (x + y)) H v).

(** A word of H as eight entries of hash. *)
Definition hex_digits (i : Z) : list Z :=
  [Z.land (Z.shiftr i 28) 15; Z.land (Z.shiftr i 24) 15; Z.land (Z.shiftr i 20) 15; Z.land (Z.shiftr i 16) 15;
   Z.land (Z.shiftr i 12) 15; Z.land (Z.shiftr i 8) 15; Z.land (Z.shiftr i 4) 15; Z.land i 15].

(** instr after the padding, and the 64 entries written to hash, which may be the same
    buffer. *)
Definition sha256 (instr : list Z) (len : Z) : option (list Z * list Z) :=
  let l := u32 (u32 (len + 1) / 4 + 2) in
  let N := u32 (l + 15) / 16 in
  let! instr := memcpy instr (Z.to_nat len) [128] in
  let! instr := memcpy instr (Z.to_nat (len + 1)) (repeat 0 (Z.to_nat (N * 64 - (len + 1)))) in
  let '(W, H) := fold_left (sha256_block instr len N) (seq 0 (Z.to_nat N)) (repeat 0 64%nat, initial_H) in
  Some (instr, concat (map hex_digits H)).

(** ** The walk *)

Definition hexToAsc (tmp_list : list Z) (len : nat) : option (list Z) :=
  foldM (fun tmp_list i =>
           let! x := tmp_list !! i in
           let! c := hexmap !! Z.to_nat x in
           Some (<[i := c]> tmp_list)) tmp_list (seq 0 len).

(** sha256 with hash = instr. *)
Definition sha256_inplace (buf : list Z) (len : Z) : option (list Z) :=
  let! (buf, digits) := sha256 buf len in
  memcpy buf 0 digits.

(** The index goes on by the digit it is at; past the end the digits are hashed. *)
Definition advance (hashedData : list Z) (index : Z) : option (list Z * Z) :=
  let! d := hashedData !! Z.to_nat index in
  let index := u32 (index + (d + 1)) in
  if 64 <=? index then
    let! hashedData := hexToAsc hashedData 64 in
    let! hashedData := sha256_inplace hashedData 64 in
    Some (hashedData, index mod 64)
  else Some (hashedData, index).

(** tmp_list hashed with one more character. *)
Definition extend_tmp (tmp_list : list Z) (tmp_val : Z) : option (list Z) :=
  let! tmp_list := memcpy tmp_list 64 [tmp_val] in
  let! tmp_list := sha256_inplace tmp_list 65 in
  hexToAsc tmp_list 64.

(** The room in mixedHash. *)
Definition ret_room : nat := Z.to_nat (1048576 + 1024).

(** The while loop: the returned flag, and the bytes written to ret_list. *)
Fixpoint mix_loop (fuel : nat) (hashedData tmp_list ret_list : list Z) (index : Z) : option (bool * list Z) :=
  match fuel with
  | O => None
  | S fuel =>
      let! (hashedData, index) := advance hashedData index in
      let! x := hashedData !! Z.to_nat index in
      let! tmp_val := hexmap !! Z.to_nat x in
      let! tmp_list := extend_tmp tmp_list tmp_val in
      let! last := tmp_list !! 63%nat in
      let hashed_end := (index =? 63) && (tmp_val =? last) in
      let! _ := c_assert (length ret_list + 64 <=? ret_room)%nat in
      let ret_list := ret_list ++ take 64 tmp_list in
      if 1048576 <? Z.of_nat (length ret_list) then Some (false, ret_list)
      else if hashed_end then Some (true, ret_list)
      else mix_loop fuel hashedData tmp_list ret_list index
  end.

Definition mix_fuel : nat := Z.to_nat 16385.

(** [malloc k n]: what the k-th call of malloc in dcrypt_hash returns for [n] bytes,
    [None] for a null pointer (every block is accessed right after). *)
Definition mix_hashed_num (malloc : nat -> nat -> option (list Z)) (hashedData : list Z) : option (bool * list Z) :=
  let! tmp_list := malloc 3%nat 128%nat in
  let! tmp_list := memcpy tmp_list 0 (repeat 255 64%nat) in
  mix_loop mix_fuel hashedData tmp_list [] 0.

(** The result is what hash receives, or [Some None] when the buffer limit is exceeded. *)
Definition dcrypt_hash (malloc : nat -> nat -> option (list Z)) (input : list Z) : option (option (list Z)) :=
  let len := length input in
  let! instr := malloc 0%nat len in
  let! instr := memcpy instr 0 input in
  let! hashed := malloc 1%nat 128%nat in
  let! _ := malloc 2%nat ret_room in
  let! (instr, digits) := sha256 instr (Z.of_nat len) in
  let! hashed := memcpy hashed 0 digits in
  let! (ok, mixedHash) := mix_hashed_num malloc hashed in
  if ok : bool then
    let lenMixedHash := length mixedHash in
    let! finalToHash := malloc 4%nat (Z.to_nat (u32 (Z.of_nat lenMixedHash + Z.of_nat len + 64))) in
    let! finalToHash := memcpy finalToHash 0 mixedHash in
    let! finalToHash := memcpy finalToHash lenMixedHash (take len instr) in
    let! (_, digits) := sha256 finalToHash (u32 (Z.of_nat len + Z.of_nat lenMixedHash)) in
    Some (Some digits)
  else Some None.

(** ** The specification *)

(** The hex digits of a SHA-256 digest, and as characters. *)
Definition digits256 (m : list Z) : list Z := concat (map (fun b => [b / 16; b mod 16]) (sha256_spec m)).
Definition hexchar (d : Z) : Z := if d <? 10 then 48 + d else 87 + d.
Definition hex (digits : list Z) : list Z := map hexchar digits.

(** The walk: [D] holds the digits, [T] the last string; at each step the index goes on
    by one more than the digit there, and when it passes the end [D] is hashed; the
    character found is appended to [T], which is hashed.  The walk ends at the last
    index when the character found is the last one of the new string. *)
Fixpoint skip_walk (n : nat) (D T : list Z) (index : Z) : option (list Z) :=
  match n with
  | O => None
  | S n =>
      let index := index + lane D (Z.to_nat index) + 1 in
      let D := if 64 <=? index then digits256 (hex D) else D in
      let index := index mod 64 in
      let c := lane (hex D) (Z.to_nat index) in
      let T := hex (digits256 (T ++ [c])) in
      if (index =? 63) && (c =? lane T 63) then Some T
      else option_map (app T) (skip_walk n D T index)
  end.

(** The walk gives up after 2^20 characters. *)
Definition max_steps : nat := Z.to_nat (2 ^ 20 / 64).

(** The walk of an input, in [n] steps. *)
Definition walk (n : nat) (m : list Z) : option (list Z) := skip_walk n (digits256 m) (repeat 255 64%nat) 0.

(** The string it builds and the input are hashed. *)
Definition dcrypt_spec (m : list Z) : option (list Z) :=
  option_map (fun mixed => digits256 (mixed ++ m)) (walk max_steps m).

(** The bytes that sha256 touches in the buffer of a message of [n] bytes. *)
Definition padded (n : nat) : nat := (64 * ((n + 5) / 64 + 1))%nat.

Definition has_room (block : option (list Z)) (n : nat) : bool :=
  match block with Some b => (n <=? length b)%nat | None => false end.

Definition non_null (block : option (list Z)) : bool := match block with Some _ => true | None => false end.

(** What dcrypt_hash needs of malloc: no null pointer, and in the copies of the input and
    of the string hashed at the end room for the padding too, which it did not ask for. *)
Definition blocks_fit (malloc : nat -> nat -> option (list Z)) (input : list Z) : bool :=
  has_room (malloc 0%nat (length input)) (padded (length input)) &&
  has_room (malloc 1%nat 128%nat) 128 && non_null (malloc 2%nat ret_room) && has_room (malloc 3%nat 128%nat) 128 &&
  match walk max_steps input with
  | Some mixed => has_room (malloc 4%nat (length mixed + length input + 64)%nat) (padded (length mixed + length input))
  | None => true
  end.

(** ** SHA-256 is FIPS 180-4's *)

#[local] Abbreviation word32 := (is_word sha2_32).

Lemma ROTR_rotr32 n x : 0 <= n <= 32 -> word32 x -> ROTR x n = rotr sha2_32 n x.
Proof. intros N X. exact (rotr_shifts 32 n x N X). Qed.

Lemma sigmas32 x : word32 x ->
  S0 x = big_sigma sha2_32 (Sigma0_rots sha2_32) x /\ S1 x = big_sigma sha2_32 (Sigma1_rots sha2_32) x /\
  s0 x = small_sigma sha2_32 (sigma0_rots sha2_32) x /\ s1 x = small_sigma sha2_32 (sigma1_rots sha2_32) x.
Proof.
  intros X. unfold S0, S1, s0, s1. rewrite !ROTR_rotr32 by (exact X || lia).
  rewrite !Z.shiftr_div_pow2 by lia. auto.
Qed.

Lemma Ch_ok x y z : word32 x -> word32 z -> Ch x y z = Sha2.Ch sha2_32 x y z.
Proof.
  intros X Hz. unfold Ch, Sha2.Ch. rewrite Ch_select. f_equal. symmetry. now apply land_complement.
Qed.

Lemma K_fips : K = fips_K sha2_32.
Proof. vm_compute. reflexivity. Qed.

Lemma initial_H_fips : initial_H = root_H sha2_32.
Proof. vm_compute. reflexivity. Qed.

Lemma sha256_round_ok W v t : state_ok sha2_32 v -> sha256_round W v t = fips_round sha2_32 v (lane K t + lane W t).
Proof.
  intros [L H]. do 8 (destruct v as [|? v]; [discriminate L|]). destruct v; [|discriminate L].
  rewrite !List.Forall_cons_iff in H. destruct H as (A & _ & _ & _ & E & _ & G & _).
  cbn [sha256_round fips_round]. destruct (sigmas32 z A) as (-> & _). destruct (sigmas32 z3 E) as (_ & -> & _).
  rewrite Ch_ok by assumption. unfold Maj. rewrite Maj_select. unfold wmod, u32. cbn [word_bits sha2_32].
  change (2 ^ 32) with 4294967296. rewrite <- Zplus_mod, Zplus_mod_idemp_r, (Z.add_assoc _ (lane K t)). reflexivity.
Qed.

Lemma bytes4 b : Forall is_byte b -> length b = 4%nat -> exists b0 b1 b2 b3, b = [b0; b1; b2; b3] /\
  is_byte b0 /\ is_byte b1 /\ is_byte b2 /\ is_byte b3.
Proof.
  intros F L. do 4 (destruct b as [|? b]; [discriminate L|]). destruct b; [|discriminate L].
  rewrite !List.Forall_cons_iff in F. destruct F as (A & B & C & D & _). eauto 10.
Qed.

Lemma lane_skipn s off i : lane s (off + i) = lane (drop off s) i.
Proof. unfold lane. now rewrite nth_skipn. Qed.

Lemma load_word_ok s off b : take 4 (drop off s) = b -> Forall is_byte b -> length b = 4%nat -> load_word s off = be_val b.
Proof.
  intros T F L. destruct (bytes4 b F L) as (b0 & b1 & b2 & b3 & -> & B0 & B1 & B2 & B3).
  assert (E : forall i, (i < 4)%nat -> lane s (off + i) = lane [b0; b1; b2; b3] i).
  { intros i I. rewrite lane_skipn, <- T. unfold lane. now rewrite nth_firstn, (proj2 (Nat.ltb_lt i 4)). }
  unfold load_word. rewrite <- (Nat.add_0_r off) at 1. rewrite !E by lia. unfold lane, be_val, is_byte in *.
  cbn [nth rev app le_val]. rewrite !Z.shiftl_mul_pow2 by lia. unfold u32. rewrite Z.mod_small; lia.
Qed.

(** ** Blocks and padding *)

Definition patched (instr : list Z) (len N : Z) (cb : nat) : list Z :=
  map (fun t => if (Z.of_nat cb =? u32 (N - 1)) && (t =? 15)%nat then u32 (len * 8) else load_word instr (cb * 64 + t * 4))
    (seq 0 16).

Lemma schedule_step w t : (16 <= t)%nat -> (t < length w)%nat -> Forall word32 (take t w) ->
  <[t := u32 (s1 (lane w (t - 2)) + lane w (t - 7) + s0 (lane w (t - 15)) + lane w (t - 16))]> w =
  <[t := next_word sha2_32 (take t w)]> w.
Proof.
  intros T L H. f_equal. unfold next_word. rewrite length_take, Nat.min_l by lia.
  rewrite !(lane_firstn w t) by lia. rewrite <- (lane_firstn w t (t - 2)), <- (lane_firstn w t (t - 15)) by lia.
  destruct (sigmas32 (lane (take t w) (t - 2)) (word_lane sha2_32 eq_refl _ _ H)) as (_ & _ & _ & <-).
  destruct (sigmas32 (lane (take t w) (t - 15)) (word_lane sha2_32 eq_refl _ _ H)) as (_ & _ & <- & _).
  reflexivity.
Qed.

Lemma fill_W_ok instr W len N cb : length W = 64%nat -> Forall word32 (patched instr len N cb) ->
  fill_W instr W len N cb = extend sha2_32 48 (patched instr len N cb).
Proof.
  intros L H. unfold fill_W. rewrite (fill_ok (fun t => load_word instr (cb * 64 + t * 4))) by lia.
  set (ws := map _ (seq 0 16)).
  assert (P : (if Z.of_nat cb =? u32 (N - 1) then <[15%nat := u32 (len * 8)]> (ws ++ drop 16 W) else ws ++ drop 16 W) =
              patched instr len N cb ++ drop 16 W).
  { unfold patched, ws. destruct (Z.of_nat cb =? u32 (N - 1)); [|reflexivity].
    rewrite insert_app_l by (rewrite length_map, length_seq; lia). reflexivity. }
  rewrite P. assert (Lp : length (patched instr len N cb) = 16%nat) by reflexivity.
  assert (T : take 16 (patched instr len N cb ++ drop 16 W) = patched instr len N cb) by now apply take_app_length'.
  rewrite (schedule_array sha2_32 eq_refl _ 48 schedule_step) by
    (rewrite ?T, ?length_app, ?length_drop; (exact H || lia)).
  now rewrite T.
Qed.

Lemma sha256_block_ok instr len N W H cb : length W = 64%nat -> state_ok sha2_32 H ->
  Forall word32 (patched instr len N cb) -> exists W', length W' = 64%nat /\
  sha256_block instr len N (W, H) cb = (W', compress_words sha2_32 H (patched instr len N cb)) /\
  state_ok sha2_32 (compress_words sha2_32 H (patched instr len N cb)).
Proof.
  intros L O Hp. unfold sha256_block. rewrite fill_W_ok by assumption. set (ws := patched instr len N cb) in *.
  destruct (extend_ok sha2_32 eq_refl 48 ws Hp) as [Le _]. set (W' := extend sha2_32 48 ws) in *.
  assert (Lw : length W' = 64%nat) by exact Le. exists W'. split; [exact Lw|].
  assert (Lk : length K = 64%nat) by reflexivity.
  destruct (rounds_array sha2_32 eq_refl (sha256_round W') K W' 64 Lk Lw
              (fun v j _ Hv => sha256_round_ok W' v j Hv) H O) as [R Ov].
  rewrite R in Ov |- *. unfold compress_words. change (rounds sha2_32 - 16)%nat with 48%nat. fold W'.
  rewrite <- K_fips. split; [reflexivity | now apply add_words_ok].
Qed.

(** The words of a padded message [P] from the buffer. *)
Lemma patched_ok instr P len N cb : 0 < N < 2 ^ 26 -> length P = Z.to_nat (N * 64) -> Forall is_byte P ->
  take (Z.to_nat (N * 64 - 4)) instr = take (Z.to_nat (N * 64 - 4)) P -> 0 <= len < 2 ^ 29 ->
  drop (Z.to_nat (N * 64 - 4)) P = be_bytes 4 (8 * len) -> (cb < Z.to_nat N)%nat ->
  patched instr len N cb = be_words sha2_32 (take 64 (drop (64 * cb) P)) /\ Forall word32 (patched instr len N cb).
Proof.
  intros Nb Lp B T Ln D C.
  assert (Lb : length (take 64 (drop (64 * cb) P)) = 64%nat) by (rewrite length_take, length_drop; lia).
  assert (E : patched instr len N cb = be_words sha2_32 (take 64 (drop (64 * cb) P))).
  { unfold be_words. change (word_bytes sha2_32) with 4%nat. rewrite Lb. change (64 / 4)%nat with 16%nat.
    assert (In_words : forall off, (off + 4 <= Z.to_nat (N * 64 - 4))%nat -> load_word instr off = be_val (take 4 (drop off P))).
    { intros off O. assert (X : take 4 (drop off instr) = take 4 (drop off P)).
      { rewrite !take_drop_commute. f_equal. replace (off + 4)%nat with (Nat.min (off + 4) (Z.to_nat (N * 64 - 4))) by lia.
        now rewrite <- !take_take, T. }
      apply load_word_ok; [exact X | now apply Forall_take, Forall_drop | rewrite length_take, length_drop; lia]. }
    unfold patched. apply map_ext_in. intros t I. apply in_seq in I.
    assert (X : take 4 (drop (4 * t) (take 64 (drop (64 * cb) P))) = take 4 (drop (cb * 64 + t * 4) P)).
    { replace 64%nat with (4 * t + (64 - 4 * t))%nat at 1 by lia.
      rewrite <- take_drop_commute, take_take, drop_drop. f_equal; [lia|]. f_equal. lia. }
    rewrite X. unfold u32 at 1. rewrite (Z.mod_small (N - 1)) by lia.
    destruct (Z.eqb_spec (Z.of_nat cb) (N - 1)) as [Eb|Eb]; cbn [andb]; [destruct (Nat.eqb_spec t 15) as [Et|Et]|].
    - replace (cb * 64 + t * 4)%nat with (Z.to_nat (N * 64 - 4)) by lia. rewrite D, take_ge by (rewrite length_be_bytes; lia).
      unfold be_val, be_bytes. rewrite rev_involutive, le_val_le_bytes. unfold u32. f_equal; lia.
    - apply In_words. lia.
    - apply In_words. lia. }
  rewrite E. split; [reflexivity|]. apply be_words_word; [reflexivity | now apply Forall_take, Forall_drop].
Qed.

(** The loop over the blocks. *)
Lemma sha256_blocks_ok instr P len N n : 0 < N < 2 ^ 26 -> length P = Z.to_nat (N * 64) -> Forall is_byte P ->
  take (Z.to_nat (N * 64 - 4)) instr = take (Z.to_nat (N * 64 - 4)) P -> 0 <= len < 2 ^ 29 ->
  drop (Z.to_nat (N * 64 - 4)) P = be_bytes 4 (8 * len) -> (n <= Z.to_nat N)%nat ->
  exists W H, fold_left (sha256_block instr len N) (seq 0 n) (repeat 0 64%nat, initial_H) = (W, H) /\
    length W = 64%nat /\ state_ok sha2_32 H /\ H = fold_left (fips_compress sha2_32) (split_blocks n 64 P) initial_H.
Proof.
  intros Nb Lp B T Ln D. induction n as [|n IH]; intros C.
  - do 2 eexists. split; [reflexivity|]. split; [reflexivity|]. split; [|reflexivity]. split; [reflexivity|].
    repeat (apply List.Forall_cons; [split; reflexivity || discriminate|]). apply List.Forall_nil.
  - destruct IH as (W & H & E & L & O & Eh); [lia|]. rewrite seq_S, fold_left_app, E. cbn [fold_left Nat.add].
    destruct (patched_ok instr P len N n Nb Lp B T Ln D ltac:(lia)) as [Ep Wp].
    destruct (sha256_block_ok instr len N W H n L O Wp) as (W' & L' & -> & O'). do 2 eexists.
    split; [reflexivity|]. split; [exact L'|]. split; [exact O'|]. rewrite Ep, Eh, !split_blocks_map, seq_S, map_app, fold_left_app.
    reflexivity.
Qed.

(** Both paddings of a message, where the code's count of blocks is right. *)
Definition residue_ok (len : nat) : Prop := ~ (56 <= len mod 64 <= 58)%nat.

Lemma padding32 m N : Z.of_nat (length m) < 2 ^ 29 -> residue_ok (length m) ->
  N = (Z.of_nat (length m + 1) / 4 + 2 + 15) / 16 ->
  exists z, m ++ padding sha2_32 (length m) = (m ++ 128 :: repeat 0 (z + 4)) ++ be_bytes 4 (8 * Z.of_nat (length m)) /\
    Z.of_nat (length m) + Z.of_nat z + 9 = N * 64 /\ N * 64 <= Z.of_nat (length m) + 69.
Proof.
  intros Ln R E. unfold residue_ok in R. unfold padding.
  change (2 * word_bytes sha2_32)%nat with (4 + 4)%nat. change (Z.of_nat (block_bytes sha2_32)) with 64.
  set (z := Z.to_nat ((- Z.of_nat (length m + 1 + (4 + 4))) mod 64)). exists z. split.
  - rewrite be_bytes_wide by lia. rewrite <- app_assoc. cbn [app]. do 2 f_equal.
    now rewrite repeat_app, <- app_assoc.
  - subst z. clear - R E Ln.
    pose proof (Nat.div_mod_eq (length m) 64). pose proof (Nat.mod_upper_bound (length m) 64 ltac:(lia)).
    set (q := (length m / 64)%nat) in *. set (r := (length m mod 64)%nat) in *.
    assert (Z.of_nat (length m) = 64 * Z.of_nat q + Z.of_nat r) by lia. clearbody q r.
    set (k := if (r <=? 55)%nat then 1 else 2).
    assert (Kr : 0 <= 64 * k - 9 - Z.of_nat r < 64 /\ 64 * k <= Z.of_nat r + 69) by (unfold k; destruct (Nat.leb_spec r 55); lia).
    assert (Ek : N = Z.of_nat q + k).
    { assert (D4 : Z.of_nat (length m + 1) / 4 = 16 * Z.of_nat q + Z.of_nat (r + 1) / 4).
      { replace (Z.of_nat (length m + 1)) with (Z.of_nat (r + 1) + 16 * Z.of_nat q * 4) by lia. rewrite Z.div_add by lia. lia. }
      rewrite E, D4. symmetry. apply (Z.div_unique _ _ _ (Z.of_nat (r + 1) / 4 + 17 - 16 * k)); [|lia].
      pose proof (Z.div_mod (Z.of_nat (r + 1)) 4 ltac:(lia)). pose proof (Z.mod_pos_bound (Z.of_nat (r + 1)) 4 ltac:(lia)).
      unfold k. destruct (Nat.leb_spec r 55); lia. }
    replace (- Z.of_nat (length m + 1 + (4 + 4))) with ((64 * k - 9 - Z.of_nat r) + (- Z.of_nat q - k) * 64) by lia.
    rewrite Z_mod_plus_full, Z.mod_small by lia. lia.
Qed.

(** The hex digits of a word are the ones of its bytes. *)
Lemma hex_digits_ok w : hex_digits w = concat (map (fun b => [b / 16; b mod 16]) (be_bytes 4 w)).
Proof.
  unfold be_bytes, le_bytes. cbn [seq map rev app concat]. unfold hex_digits.
  change 15 with (Z.ones 4). rewrite !Z.land_ones, !Z.shiftr_div_pow2 by lia. change (2 ^ 4) with 16.
  repeat match goal with |- context [(?v / 2 ^ (8 * Z.of_nat ?i)) mod 256 / 16] =>
    rewrite (proj1 (nibbles v (8 * Z.of_nat i) ltac:(lia))), (proj2 (nibbles v (8 * Z.of_nat i) ltac:(lia))) end.
  change (8 * Z.of_nat 0) with 0. rewrite Z.pow_0_r, Z.div_1_r. reflexivity.
Qed.

Lemma digits256_words m : digits256 m = concat (map hex_digits (fips_hash sha2_32 (root_H sha2_32) m)).
Proof.
  unfold digits256, sha256_spec, digest_bytes. change (word_bytes sha2_32) with 4%nat.
  generalize (fips_hash sha2_32 (root_H sha2_32) m). intros H. induction H as [|w H IH]; [reflexivity|].
  cbn [map concat]. now rewrite map_app, concat_app, IH, hex_digits_ok.
Qed.

(** The number of bytes the code computes. *)
Lemma code_blocks n : Z.of_nat n < 2 ^ 29 ->
  u32 (u32 (u32 (Z.of_nat n + 1) / 4 + 2) + 15) / 16 = (Z.of_nat (n + 1) / 4 + 2 + 15) / 16 /\
  (Z.of_nat (n + 1) / 4 + 2 + 15) / 16 * 64 = Z.of_nat (padded n).
Proof.
  intros Ln. split.
  - assert (Us : forall z, 0 <= z < 2 ^ 32 -> u32 z = z) by (intros z; apply Z.mod_small).
    rewrite Nat2Z.inj_add. change (Z.of_nat 1) with 1.
    pose proof (Z.div_le_upper_bound (Z.of_nat n + 1) 4 (2 ^ 29) ltac:(lia) ltac:(lia)).
    pose proof (Z.div_pos (Z.of_nat n + 1) 4 ltac:(lia) ltac:(lia)). now rewrite (Us (_ + 1)), (Us (_ + 2)), (Us (_ + 15)) by lia.
  - unfold padded. rewrite Nat2Z.inj_mul, !Nat2Z.inj_add, Nat2Z.inj_div, Nat2Z.inj_add.
    change (Z.of_nat 64) with 64. change (Z.of_nat 5) with 5. change (Z.of_nat 1) with 1.
    generalize (Z.of_nat n). intros z. Z.div_mod_to_equations. lia.
Qed.

Lemma padded_bounds n : (n < padded n /\ padded n <= n + 69)%nat.
Proof.
  unfold padded. pose proof (Nat.div_mod_eq (n + 5) 64). pose proof (Nat.mod_upper_bound (n + 5) 64 ltac:(lia)).
  set (q := ((n + 5) / 64)%nat) in *. lia.
Qed.

Lemma padded_118 n : (n <= 118)%nat -> (padded n <= 128)%nat.
Proof.
  intros N. unfold padded. pose proof (Nat.Div0.div_lt_upper_bound (n + 5) 64 2 ltac:(lia)). lia.
Qed.

(** Without room for the padding it is written past the buffer. *)
Lemma sha256_no_room buf n : Z.of_nat n < 2 ^ 29 -> (length buf < padded n)%nat -> sha256 buf (Z.of_nat n) = None.
Proof.
  intros Ln R. destruct (code_blocks n Ln) as [E1 E2]. unfold sha256. rewrite E1, E2, Nat2Z.id.
  unfold memcpy at 1. cbn [length]. destruct (Nat.leb_spec (n + 1) (length buf)) as [L|L]; [|reflexivity]. cbn [bind].
  unfold memcpy. rewrite repeat_length, !length_app, length_take, length_drop. cbn [length].
  pose proof (padded_bounds n). rewrite (proj2 (Nat.leb_gt _ _)) by lia. reflexivity.
Qed.

(** The 64 digits, for a message in a buffer with room for its padding. *)
Lemma sha256_ok buf m : take (length m) buf = m -> Forall is_byte m -> Z.of_nat (length m) < 2 ^ 29 ->
  residue_ok (length m) -> (padded (length m) <= length buf)%nat ->
  exists buf', sha256 buf (Z.of_nat (length m)) = Some (buf', digits256 m) /\ length buf' = length buf /\
    take (length m) buf' = m.
Proof.
  intros T B Ln R Rm. unfold sha256. destruct (code_blocks (length m) Ln) as [En E64]. rewrite En.
  set (N := (Z.of_nat (length m + 1) / 4 + 2 + 15) / 16) in *. destruct (padding32 m N Ln R eq_refl) as (z & Ep & Ez & Nl).
  assert (Nb : 0 < N < 2 ^ 26) by lia. set (n := length m) in *.
  assert (Room : (n + z + 9 <= length buf)%nat) by lia.
  rewrite Nat2Z.id. unfold memcpy at 1. cbn [length]. rewrite (proj2 (Nat.leb_le _ _)) by lia. cbn [bind].
  rewrite T. replace (Z.to_nat (Z.of_nat n + 1)) with (n + 1)%nat by lia.
  replace (Z.to_nat (N * 64 - (Z.of_nat n + 1))) with (z + 4 + 4)%nat by lia.
  assert (L1 : length (m ++ [128] ++ drop (n + 1) buf) = length buf)
    by (rewrite !length_app, length_drop; cbn [length]; fold n; lia).
  unfold memcpy. rewrite repeat_length, L1, (proj2 (Nat.leb_le _ _)) by lia. cbn [bind].
  assert (Lm : length (m ++ [128]) = (n + 1)%nat) by (rewrite length_app; reflexivity).
  assert (X : take (n + 1) (m ++ [128] ++ drop (n + 1) buf) = m ++ [128]) by (rewrite app_assoc; now apply take_app_length').
  assert (Y : drop (n + 1 + (z + 4 + 4)) (m ++ [128] ++ drop (n + 1) buf) = drop (z + 4 + 4) (drop (n + 1) buf)).
  { rewrite app_assoc, drop_app_ge by lia. f_equal. lia. }
  rewrite X, Y. clear X Y.
  set (tl := drop _ (drop (n + 1) buf)). set (front := m ++ 128 :: repeat 0 (z + 4)).
  assert (Lf : length front = (n + z + 5)%nat) by (unfold front; rewrite length_app; cbn [length]; rewrite repeat_length; fold n; lia).
  assert (Eb : (m ++ [128]) ++ repeat 0 (z + 4 + 4) ++ tl = front ++ repeat 0 4 ++ tl).
  { unfold front. rewrite repeat_app, <- !app_assoc. reflexivity. }
  rewrite Eb. set (P := m ++ padding sha2_32 n) in *. fold front in Ep.
  assert (N4 : Z.to_nat (N * 64 - 4) = length front) by lia.
  assert (BP : Forall is_byte P).
  { rewrite Ep. apply Forall_app. split; [|apply be_bytes_byte]. apply Forall_app. split; [exact B|].
    apply List.Forall_cons; [unfold is_byte; lia | apply zeros_byte]. }
  destruct (sha256_blocks_ok (front ++ repeat 0 4 ++ tl) P (Z.of_nat n) N (Z.to_nat N)) as (W & H & E & _ & _ & Eh);
    try assumption; try lia.
  - rewrite Ep, length_app, length_be_bytes. lia.
  - rewrite N4, Ep, !take_app_length. reflexivity.
  - rewrite N4, Ep, drop_app_length. reflexivity.
  - rewrite E. eexists. split; [|split].
    + f_equal. f_equal. rewrite digits256_words, Eh. unfold fips_hash. fold n P. change (block_bytes sha2_32) with 64%nat.
      do 4 f_equal. symmetry. rewrite Ep, length_app, length_be_bytes. 
      replace (length front + 4)%nat with (Z.to_nat N * 64)%nat by lia. apply Nat.div_mul. lia.
    + rewrite !length_app, repeat_length, Lf. unfold tl. rewrite !length_drop. lia.
    + unfold front. rewrite <- app_assoc. now apply take_app_length'.
Qed.

(** ** The walk *)

Definition digits_ok (D : list Z) : Prop := length D = 64%nat /\ Forall (fun d => 0 <= d < 16) D.

Lemma hex_digits_range w : Forall (fun d => 0 <= d < 16) (hex_digits w).
Proof.
  unfold hex_digits. change 15 with (Z.ones 4).
  repeat (apply List.Forall_cons; [rewrite Z.land_ones by lia; now apply Z.mod_pos_bound|]). apply List.Forall_nil.
Qed.

Lemma words_digits H : length (concat (map hex_digits H)) = (8 * length H)%nat /\
  Forall (fun d => 0 <= d < 16) (concat (map hex_digits H)).
Proof.
  induction H as [|w H [IL IF]]; [split; [reflexivity | apply List.Forall_nil]|]. cbn [map concat].
  split; [rewrite length_app, IL; cbn; lia | apply Forall_app; split; [apply hex_digits_range | exact IF]].
Qed.

Lemma digits256_ok m : digits_ok (digits256 m).
Proof.
  rewrite digits256_words. destruct (words_digits (fips_hash sha2_32 (root_H sha2_32) m)) as [L F].
  split; [|exact F]. now rewrite L, fips_hash_length, <- initial_H_fips.
Qed.

Lemma hexmap_digit d : 0 <= d < 16 -> hexmap !! Z.to_nat d = Some (hexchar d).
Proof.
  intros D. assert (C : Forall (fun d => hexmap !! Z.to_nat d = Some (hexchar d)) (seqZ 0 16))
    by (vm_compute; repeat constructor).
  rewrite List.Forall_forall in C. apply C. apply list_elem_of_In, elem_of_seqZ. lia.
Qed.

Lemma length_hex D : length (hex D) = length D.
Proof. apply length_map. Qed.

Lemma hex_bytes D : Forall (fun d => 0 <= d < 16) D -> Forall is_byte (hex D).
Proof.
  intros F. apply List.Forall_map. eapply List.Forall_impl; [|exact F]. intros d B. cbv beta in *. unfold is_byte, hexchar.
  destruct (d <? 10); lia.
Qed.

Lemma lane_hex D i : (i < length D)%nat -> lane (hex D) i = hexchar (lane D i).
Proof.
  intros I. unfold lane, hex. rewrite (nth_indep _ 0 (hexchar 0)) by now rewrite length_map. apply map_nth.
Qed.

(** The loop of hexToAsc on a buffer that starts with [D]. *)
Lemma hexToAsc_ok D tl : Forall (fun d => 0 <= d < 16) D -> hexToAsc (D ++ tl) (length D) = Some (hex D ++ tl).
Proof.
  intros F. unfold hexToAsc.
  assert (G : forall D' pre, Forall (fun d => 0 <= d < 16) D' ->
    foldM (fun t i => let! x := t !! i in let! c := hexmap !! Z.to_nat x in Some (<[i := c]> t))
      (pre ++ D' ++ tl) (seq (length pre) (length D')) = Some (pre ++ hex D' ++ tl)).
  { induction D' as [|d D' IH]; intros pre F'; [reflexivity|]. rewrite List.Forall_cons_iff in F'. destruct F' as [Hd F'].
    cbn [length seq foldM app]. rewrite list_lookup_middle by reflexivity. cbn [bind]. rewrite hexmap_digit by exact Hd. cbn [bind].
    rewrite insert_app_r_alt, Nat.sub_diag by lia. cbn [insert list_insert].
    change (hex (d :: D')) with (hexchar d :: hex D').
    specialize (IH (pre ++ [hexchar d]) F'). rewrite length_app, <- !app_assoc in IH. cbn [length app] in IH.
    rewrite Nat.add_1_r in IH. exact IH. }
  exact (G D [] F).
Qed.

Lemma sha256_inplace_ok buf m : take (length m) buf = m -> Forall is_byte m -> residue_ok (length m) ->
  (128 <= length buf /\ length m <= 118)%nat ->
  exists tl, sha256_inplace buf (Z.of_nat (length m)) = Some (digits256 m ++ tl) /\ (length tl + 64 = length buf)%nat.
Proof.
  intros T B R [L Lm]. destruct (sha256_ok buf m T B ltac:(lia) R) as (buf' & E & L' & _);
    [pose proof (padded_118 _ Lm); lia|].
  unfold sha256_inplace. rewrite E. cbn [bind]. destruct (digits256_ok m) as [Ld _].
  rewrite memcpy_0 by lia. eexists. split; [reflexivity|]. rewrite length_drop, Ld. lia.
Qed.

Lemma residue_64 : residue_ok 64.
Proof. unfold residue_ok. cbn. lia. Qed.

Lemma residue_65 : residue_ok 65.
Proof. unfold residue_ok. cbn. lia. Qed.

Lemma digit_lane D i : digits_ok D -> (i < 64)%nat -> D !! i = Some (lane D i) /\ 0 <= lane D i < 16.
Proof.
  intros [L F] I. destruct (lookup_lt_is_Some_2 D i ltac:(lia)) as [d Hd].
  assert (E : lane D i = d) by (now apply nth_lookup_Some). rewrite E. split; [exact Hd|].
  exact (Forall_lookup_1 _ _ _ _ F Hd).
Qed.

Lemma advance_ok D tl index : digits_ok D -> (64 <= length tl)%nat -> 0 <= index < 64 ->
  let next := index + lane D (Z.to_nat index) + 1 in
  exists tl', length tl' = length tl /\
    advance (D ++ tl) index = Some ((if 64 <=? next then digits256 (hex D) else D) ++ tl', next mod 64).
Proof.
  intros O L I next. destruct (digit_lane D (Z.to_nat index) O ltac:(lia)) as [Hd Rd]. destruct O as [LD FD].
  unfold advance. rewrite lookup_app_l, Hd by lia. cbn [bind].
  assert (Eu : u32 (index + (lane D (Z.to_nat index) + 1)) = next) by (unfold u32, next; rewrite Z.mod_small; lia).
  rewrite Eu. destruct (Z.leb_spec 64 next) as [P|P].
  - rewrite <- LD, hexToAsc_ok by exact FD. cbn [bind].
    assert (Lh : length (hex D) = 64%nat) by (now rewrite length_hex).
    destruct (sha256_inplace_ok (hex D ++ tl) (hex D)) as (tl' & E & L').
    + now apply take_app_length'.
    + now apply hex_bytes.
    + rewrite Lh. exact residue_64.
    + rewrite length_app. lia.
    + rewrite Lh in E. change (Z.of_nat 64) with 64 in E. rewrite E. cbn [bind]. exists tl'. rewrite length_app in L'.
      split; [lia | reflexivity].
  - exists tl. split; [reflexivity|]. now rewrite Z.mod_small by (unfold next in *; lia).
Qed.

Lemma extend_tmp_ok T tl c : length T = 64%nat -> Forall is_byte T -> is_byte c -> (64 <= length tl)%nat ->
  exists tl', length tl' = length tl /\ extend_tmp (T ++ tl) c = Some (hex (digits256 (T ++ [c])) ++ tl').
Proof.
  intros LT BT Bc L. unfold extend_tmp. destruct tl as [|x tl]; [cbn in L; lia|]. cbn [length] in L.
  assert (M : memcpy (T ++ x :: tl) 64 [c] = Some ((T ++ [c]) ++ tl)).
  { unfold memcpy. cbn [length]. rewrite length_app, (proj2 (Nat.leb_le _ _)) by (cbn [length]; lia).
    rewrite take_app_length', drop_app_ge, <- app_assoc by lia. do 3 f_equal. rewrite LT. reflexivity. }
  rewrite M. cbn [bind]. assert (Lm : length (T ++ [c]) = 65%nat) by (rewrite length_app, LT; reflexivity).
  destruct (sha256_inplace_ok ((T ++ [c]) ++ tl) (T ++ [c])) as (tl' & E & L').
  - now apply take_app_length'.
  - apply Forall_app. split; [exact BT|]. apply List.Forall_cons; [exact Bc | apply List.Forall_nil].
  - rewrite Lm. exact residue_65.
  - rewrite length_app. lia.
  - rewrite Lm in E. change (Z.of_nat 65) with 65 in E. rewrite E. cbn [bind]. exists tl'.
    destruct (digits256_ok (T ++ [c])) as [Ld Fd]. rewrite <- Ld at 1. rewrite hexToAsc_ok by exact Fd.
    split; [rewrite length_app, Lm in L'; cbn [length]; lia | reflexivity].
Qed.

(** One step of the loop. *)
Lemma mix_step k D tl T tl' ret index : digits_ok D -> (64 <= length tl)%nat -> length T = 64%nat -> Forall is_byte T ->
  (64 <= length tl')%nat -> 0 <= index < 64 -> Z.of_nat (length ret) + 64 <= 1049600 ->
  let next := index + lane D (Z.to_nat index) + 1 in
  let D' := if 64 <=? next then digits256 (hex D) else D in
  let c := lane (hex D') (Z.to_nat (next mod 64)) in
  let T' := hex (digits256 (T ++ [c])) in
  exists tl1 tl2, (64 <= length tl1)%nat /\ (64 <= length tl2)%nat /\
    mix_loop (S k) (D ++ tl) (T ++ tl') ret index =
    if 1048576 <? Z.of_nat (length (ret ++ T')) then Some (false, ret ++ T')
    else if (next mod 64 =? 63) && (c =? lane T' 63) then Some (true, ret ++ T')
    else mix_loop k (D' ++ tl1) (T' ++ tl2) (ret ++ T') (next mod 64).
Proof.
  intros O L LT BT L' I Lr next D' c T'.
  assert (O' : digits_ok D') by (unfold D'; destruct (64 <=? next); [apply digits256_ok | exact O]).
  assert (R : 0 <= next mod 64 < 64) by now apply Z.mod_pos_bound.
  destruct (digit_lane D' (Z.to_nat (next mod 64)) O' ltac:(lia)) as [Hd Rd].
  assert (Ec : c = hexchar (lane D' (Z.to_nat (next mod 64)))) by (apply lane_hex; destruct O'; lia).
  assert (Bc : is_byte c) by (rewrite Ec; unfold is_byte, hexchar; destruct (Z.ltb_spec (lane D' (Z.to_nat (next mod 64))) 10); lia).
  destruct (advance_ok D tl index O L I) as (tl1 & L1 & A). fold next in A. fold D' in A.
  destruct (extend_tmp_ok T tl' c LT BT Bc L') as (tl2 & L2 & X). fold T' in X.
  assert (LT' : length T' = 64%nat) by (unfold T'; rewrite length_hex; apply digits256_ok).
  exists tl1, tl2. split; [lia|]. split; [lia|]. cbn [mix_loop]. rewrite A. cbn [bind].
  rewrite lookup_app_l, Hd by (destruct O'; lia). cbn [bind]. rewrite hexmap_digit by exact Rd. cbn [bind]. rewrite <- Ec.
  rewrite X. cbn [bind]. rewrite lookup_app_l by lia.
  destruct (lookup_lt_is_Some_2 T' 63 ltac:(lia)) as [y Hy]. rewrite Hy. cbn [bind].
  assert (Ey : lane T' 63 = y) by (now apply nth_lookup_Some). rewrite Ey.
  rewrite (proj2 (Nat.leb_le _ ret_room)) by (unfold ret_room; lia). cbn [c_assert bind].
  now rewrite (take_app_length' T') by lia.
Qed.

(** The loop with [n] steps left before the limit. *)
Lemma mix_loop_ok n : forall D tl T tl' ret index, digits_ok D -> (64 <= length tl)%nat -> length T = 64%nat ->
  Forall is_byte T -> (64 <= length tl')%nat -> 0 <= index < 64 -> Z.of_nat (length ret) + 64 * Z.of_nat n = 1048576 ->
  exists ok ret', mix_loop (S n) (D ++ tl) (T ++ tl') ret index = Some (ok, ret') /\
    match skip_walk n D T index with
    | Some mixed => ok = true /\ ret' = ret ++ mixed
    | None => ok = false
    end.
Proof.
  induction n as [|n IH]; intros D tl T tl' ret index O L LT BT L' I Lr.
  - destruct (mix_step 0 D tl T tl' ret index O L LT BT L' I ltac:(lia)) as (tl1 & tl2 & _ & _ & ->).
    set (T' := hex _). assert (LT' : length T' = 64%nat) by (unfold T'; rewrite length_hex; apply digits256_ok).
    rewrite (proj2 (Z.ltb_lt _ _)) by (rewrite length_app; lia). do 2 eexists. split; reflexivity.
  - destruct (mix_step (S n) D tl T tl' ret index O L LT BT L' I ltac:(lia)) as (tl1 & tl2 & L1 & L2 & ->).
    cbn [skip_walk]. set (next := index + lane D (Z.to_nat index) + 1).
    set (D' := if 64 <=? next then digits256 (hex D) else D). set (c := lane (hex D') (Z.to_nat (next mod 64))).
    set (T' := hex (digits256 (T ++ [c]))). assert (LT' : length T' = 64%nat) by (unfold T'; rewrite length_hex; apply digits256_ok).
    rewrite (proj2 (Z.ltb_ge _ _)) by (rewrite length_app; lia).
    destruct ((next mod 64 =? 63) && (c =? lane T' 63)); [do 2 eexists; split; [reflexivity | split; reflexivity]|].
    assert (O' : digits_ok D') by (unfold D'; destruct (64 <=? next); [apply digits256_ok | exact O]).
    destruct (IH D' tl1 T' tl2 (ret ++ T') (next mod 64) O' L1 LT') as (ok & ret' & E & M).
    + unfold T'. apply hex_bytes, digits256_ok.
    + exact L2.
    + now apply Z.mod_pos_bound.
    + rewrite length_app. lia.
    + exists ok, ret'. split; [exact E|]. destruct (skip_walk n D' T' (next mod 64)) as [mixed|]; [|exact M].
      cbn [option_map]. destruct M as [-> ->]. now rewrite <- app_assoc.
Qed.

Lemma skip_walk_length n : forall D T index mixed, skip_walk n D T index = Some mixed ->
  exists j, (1 <= j <= n)%nat /\ length mixed = (64 * j)%nat /\ Forall is_byte mixed.
Proof.
  induction n as [|n IH]; intros D T index mixed E; [discriminate|]. cbn [skip_walk] in E.
  set (next := index + lane D (Z.to_nat index) + 1) in *.
  set (D' := if 64 <=? next then digits256 (hex D) else D) in *. set (c := lane (hex D') (Z.to_nat (next mod 64))) in *.
  set (T' := hex (digits256 (T ++ [c]))) in *.
  assert (LT' : length T' = 64%nat) by (unfold T'; rewrite length_hex; apply digits256_ok).
  assert (BT' : Forall is_byte T') by (unfold T'; apply hex_bytes, digits256_ok).
  destruct ((next mod 64 =? 63) && (c =? lane T' 63)).
  - injection E as <-. exists 1%nat. split; [lia|]. split; [lia | exact BT'].
  - destruct (skip_walk n D' T' (next mod 64)) as [rest|] eqn:R; [|discriminate]. injection E as <-.
    destruct (IH _ _ _ _ R) as (j & J & Lj & Bj). exists (S j). rewrite length_app.
    split; [lia|]. split; [lia|]. apply Forall_app. split; assumption.
Qed.

Lemma walk_length n m mixed : walk n m = Some mixed ->
  exists j, (1 <= j <= n)%nat /\ length mixed = (64 * j)%nat /\ Forall is_byte mixed.
Proof. apply skip_walk_length. Qed.

(** The last hash, of the walk's string and the input, in a block as large as asked. *)
Lemma final_hash_ok blk mixed input j : (length mixed + length input + 64 <= length blk)%nat -> length mixed = (64 * j)%nat ->
  Forall is_byte mixed -> Forall is_byte input -> Z.of_nat (length mixed + length input) < 2 ^ 29 -> residue_ok (length input) ->
  (let! f := memcpy blk 0 mixed in
   let! f := memcpy f (length mixed) input in
   let! (_, digits) := sha256 f (u32 (Z.of_nat (length input) + Z.of_nat (length mixed))) in
   Some (Some digits)) =
  if (padded (length mixed + length input) <=? length blk)%nat then Some (Some (digits256 (mixed ++ input))) else None.
Proof.
  intros L Lm Bm B N R. rewrite memcpy_0 by lia. cbn [bind].
  assert (M : memcpy (mixed ++ drop (length mixed) blk) (length mixed) input =
              Some ((mixed ++ input) ++ drop (length mixed + length input) blk)).
  { unfold memcpy. rewrite length_app, length_drop, (proj2 (Nat.leb_le _ _)) by lia.
    rewrite take_app_length, drop_app_ge by lia. rewrite drop_drop, <- app_assoc. do 3 f_equal. f_equal. lia. }
  rewrite M. cbn [bind]. rewrite <- Nat2Z.inj_add, (Nat.add_comm (length input)), <- length_app in *.
  unfold u32. rewrite Z.mod_small by lia. set (f := (mixed ++ input) ++ _).
  assert (Lf : length f = length blk) by (unfold f; rewrite length_app, length_drop; rewrite length_app in *; lia).
  destruct (Nat.leb_spec (padded (length (mixed ++ input))) (length blk)) as [P|P].
  - destruct (sha256_ok f (mixed ++ input)) as (b & E & _).
    + now apply take_app_length'.
    + apply Forall_app. split; assumption.
    + exact N.
    + unfold residue_ok. rewrite length_app, Lm, Nat.add_comm, Nat.mul_comm, Nat.Div0.mod_add. exact R.
    + now rewrite Lf.
    + now rewrite E.
  - now rewrite sha256_no_room by (rewrite ?Lf; assumption).
Qed.

(** mix_hashed_num in blocks of the sizes it asks for. *)
Lemma mix_hashed_num_ok malloc hashed input tmp : malloc 3%nat 128%nat = Some tmp -> (128 <= length tmp)%nat ->
  (128 <= length hashed)%nat -> take 64 hashed = digits256 input -> exists ret,
  mix_hashed_num malloc hashed = Some (match walk max_steps input with Some mixed => (true, mixed) | None => (false, ret) end).
Proof.
  intros E Lt Lh T. unfold mix_hashed_num. rewrite E. cbn [bind]. rewrite memcpy_0 by (rewrite repeat_length; lia).
  cbn [bind]. rewrite repeat_length, <- (take_drop 64 hashed), T.
  destruct (mix_loop_ok max_steps (digits256 input) (drop 64 hashed) (repeat 255 64%nat) (drop 64 tmp) [] 0)
    as (ok & ret & Em & M).
  - apply digits256_ok.
  - rewrite length_drop. lia.
  - apply repeat_length.
  - apply List.Forall_forall. intros x X. apply repeat_spec in X. subst x. unfold is_byte. lia.
  - rewrite length_drop. lia.
  - lia.
  - unfold max_steps. change (2 ^ 20 / 64) with 16384. cbn [length]. lia.
  - assert (Fu : mix_fuel = S max_steps) by (unfold mix_fuel, max_steps; rewrite <- Z2Nat.inj_succ; [reflexivity | discriminate]).
    rewrite Fu, Em. exists ret. unfold walk.
    destruct (skip_walk max_steps (digits256 input) (repeat 255 64%nat) 0) as [mixed|]; [destruct M as [-> ->] | rewrite M]; reflexivity.
Qed.

(** The whole call. *)
Lemma dcrypt_hash_ok malloc input : Forall is_byte input -> Z.of_nat (length input) < 2 ^ 28 -> residue_ok (length input) ->
  (forall k n b, malloc k n = Some b -> (n <= length b)%nat) ->
  dcrypt_hash malloc input = if blocks_fit malloc input then Some (dcrypt_spec input) else None.
Proof.
  intros B L R C. unfold dcrypt_hash, blocks_fit, dcrypt_spec. remember (walk max_steps input) as w eqn:W.
  destruct (malloc 0%nat (length input)) as [instr|] eqn:E0; [|reflexivity]. cbn [bind has_room andb].
  pose proof (C _ _ _ E0) as L0. rewrite memcpy_0 by exact L0. cbn [bind].
  assert (Li : length (input ++ drop (length input) instr) = length instr) by (rewrite length_app, length_drop; lia).
  destruct (malloc 1%nat 128%nat) as [hashed|] eqn:E1; [|cbn [bind has_room]; now rewrite andb_false_r]. cbn [bind has_room].
  pose proof (C _ _ _ E1) as L1. rewrite (proj2 (Nat.leb_le 128 _)) by exact L1.
  destruct (malloc 2%nat ret_room) as [mixedHash|]; [|cbn [bind non_null]; now rewrite andb_false_r]. cbn [bind non_null]. rewrite !andb_true_r.
  destruct (Nat.leb_spec (padded (length input)) (length instr)) as [P|P]; cbn [andb];
    [|rewrite sha256_no_room by (rewrite ?Li; lia); reflexivity].
  destruct (sha256_ok (input ++ drop (length input) instr) input) as (instr' & -> & _ & Ti);
    [now apply take_app_length' | exact B | lia | exact R | now rewrite Li|]. cbn [bind].
  destruct (digits256_ok input) as [Ld _]. rewrite memcpy_0 by lia. cbn [bind].
  destruct (malloc 3%nat 128%nat) as [tmp|] eqn:E3; [|unfold mix_hashed_num; now rewrite E3]. cbn [has_room].
  pose proof (C _ _ _ E3) as L3. rewrite (proj2 (Nat.leb_le 128 _)) by exact L3. cbn [andb].
  destruct (mix_hashed_num_ok malloc (digits256 input ++ drop (length (digits256 input)) hashed) input tmp E3 L3) as (ret & Em);
    [rewrite length_app, length_drop; lia | now apply take_app_length'|].
  rewrite Em, <- W. destruct w as [mixed|]; [|reflexivity]. cbn [bind option_map].
  destruct (walk_length _ _ _ (eq_sym W)) as (j & J & Lm & Bm).
  assert (Jm : Z.of_nat j <= 16384) by (unfold max_steps in J; change (2 ^ 20 / 64) with 16384 in J; lia).
  assert (Ea : Z.to_nat (u32 (Z.of_nat (length mixed) + Z.of_nat (length input) + 64)) = (length mixed + length input + 64)%nat)
    by (unfold u32; rewrite Z.mod_small; lia).
  rewrite Ea, Ti. destruct (malloc 4%nat (length mixed + length input + 64)%nat) as [blk|] eqn:E4; [|reflexivity].
  cbn [bind has_room]. rewrite (final_hash_ok blk mixed input j); try assumption; [reflexivity | exact (C _ _ _ E4) | lia].
Qed.

(** Blocks with room for one more block of SHA-256 fit. *)
Lemma blocks_fit_spare malloc input : (forall k n, exists b, malloc k n = Some b /\ (n + 69 <= length b)%nat) ->
  blocks_fit malloc input = true.
Proof.
  intros H. assert (R : forall k n m, (m <= n + 69)%nat -> has_room (malloc k n) m = true).
  { intros k n m M. destruct (H k n) as (b & -> & L). cbn. apply Nat.leb_le. lia. }
  assert (N : non_null (malloc 2%nat ret_room) = true) by (destruct (H 2%nat ret_room) as (b & -> & _); reflexivity).
  unfold blocks_fit. rewrite N. pose proof (padded_bounds (length input)). rewrite !R by lia. cbn [andb].
  destruct (walk max_steps input) as [mixed|]; [|reflexivity]. apply R. pose proof (padded_bounds (length mixed + length input)). lia.
Qed.

(** ** Properties *)

(** The SHA-256 of dcrypt.c.  In a buffer with room for the padding, it writes the
    hex digits of the SHA-256 of FIPS 180-4 (its constants taken from the roots of the
    primes), for every message below 2^29 bytes whose length is not 56, 57 or 58 modulo
    64; for these it has no block for the length, and the digest is another one, as for
    56 zero bytes. *)
Theorem sha256_correct buf m : take (length m) buf = m -> Forall is_byte m -> Z.of_nat (length m) < 2 ^ 29 ->
  (padded (length m) <= length buf)%nat ->
  (residue_ok (length m) -> exists buf', sha256 buf (Z.of_nat (length m)) = Some (buf', digits256 m)) /\
  (exists buf' digits, sha256 (repeat 0 125%nat) 56 = Some (buf', digits) /\ digits <> digits256 (repeat 0 56%nat)).
Proof.
  intros T B L R. split.
  - intros O. destruct (sha256_ok buf m T B L O R) as (buf' & E & _). eauto.
  - destruct (sha256 (repeat 0 125%nat) 56) as [[buf' digits]|] eqn:E; [|exfalso; vm_compute in E; discriminate].
    exists buf', digits. split; [reflexivity|]. intros D.
    assert (X : option_map snd (sha256 (repeat 0 125%nat) 56) = Some (digits256 (repeat 0 56%nat))) by (now rewrite E, <- D).
    vm_compute in X. discriminate X.
Qed.

Lemma sha256_correct_witness : exists buf', sha256 ([97; 98; 99] ++ repeat 7 69%nat) 3 = Some (buf', digits256 [97; 98; 99]).
Proof.
  refine (proj1 (sha256_correct ([97; 98; 99] ++ repeat 7 69%nat) [97; 98; 99] eq_refl _ _ _) _).
  - repeat (apply List.Forall_cons; [unfold is_byte; lia|]). apply List.Forall_nil.
  - reflexivity.
  - cbn. lia.
  - unfold residue_ok. cbn. lia.
Defined.

(** C13.  dcrypt_hash, for every malloc that keeps its contract and every input below
    2^28 bytes whose length is not 56, 57 or 58 modulo 64.  The walk of mix_hashed_num,
    started on the digits of the input in blocks of the sizes asked for, ends within its
    fuel without an access outside a buffer or a table, whatever the blocks hold, with
    the string of the specified walk, or none when that passes 2^20 characters.  The whole
    call returns the SHA-256 digits of that string and the input exactly when no block is
    a null pointer and the copies of the input and of the string have room for SHA-256's
    padding, and otherwise writes past a block or through a null pointer; so it never
    returns a wrong digest.  When the copy of the input has just the room that was asked
    for, every input, also of the lengths left out above, is written past it. *)
Theorem dcrypt_hash_correct malloc input : Forall is_byte input -> Z.of_nat (length input) < 2 ^ 28 ->
  (residue_ok (length input) -> (forall k n b, malloc k n = Some b -> (n <= length b)%nat) ->
   (forall hashed, is_Some (malloc 3%nat 128%nat) -> (128 <= length hashed)%nat -> take 64 hashed = digits256 input ->
      exists ret, mix_hashed_num malloc hashed =
        Some (match walk max_steps input with Some mixed => (true, mixed) | None => (false, ret) end)) /\
   dcrypt_hash malloc input = if blocks_fit malloc input then Some (dcrypt_spec input) else None) /\
  (forall b, malloc 0%nat (length input) = Some b -> length b = length input -> dcrypt_hash malloc input = None).
Proof.
  intros B L. split.
  - intros R C. assert (W : forall hashed, is_Some (malloc 3%nat 128%nat) -> (128 <= length hashed)%nat ->
      take 64 hashed = digits256 input -> exists ret, mix_hashed_num malloc hashed =
        Some (match walk max_steps input with Some mixed => (true, mixed) | None => (false, ret) end)).
    { intros hashed [tmp E] Lh T. exact (mix_hashed_num_ok malloc hashed input tmp E (C _ _ _ E) Lh T). }
    split; [exact W|]. apply (dcrypt_hash_ok malloc input B L R C).
  - intros b E Lb. unfold dcrypt_hash. rewrite E. cbn [bind]. rewrite memcpy_0 by lia. cbn [bind].
    destruct (malloc 1%nat 128%nat); [|reflexivity]. destruct (malloc 2%nat ret_room); [|reflexivity]. cbn [bind].
    rewrite sha256_no_room; [reflexivity | lia|]. pose proof (padded_bounds (length input)). rewrite length_app, length_drop. lia.
Qed.

Lemma dcrypt_hash_correct_witness :
  dcrypt_hash (fun _ n => Some (repeat 0 n)) [4] = None /\
  dcrypt_hash (fun _ n => Some (repeat 0 (n + 69)%nat)) [4] = Some (dcrypt_spec [4]).
Proof.
  assert (B : Forall is_byte [4]) by (apply List.Forall_cons; [unfold is_byte; lia | apply List.Forall_nil]).
  split.
  - apply (proj2 (dcrypt_hash_correct (fun _ n => Some (repeat 0 n)) [4] B eq_refl) [0]); reflexivity.
  - destruct (proj1 (dcrypt_hash_correct (fun _ n => Some (repeat 0 (n + 69)%nat)) [4] B eq_refl)) as [_ ->].
    + unfold residue_ok. cbn. lia.
    + intros k n b E. injection E as <-. rewrite repeat_length. lia.
    + rewrite blocks_fit_spare; [reflexivity|]. intros k n. eexists. split; [reflexivity|]. rewrite repeat_length. lia.
Defined.
