(* ===== verification/Swaps.v ===== *)
(** Swapping two entries of an array (std::swap of ProgPoW's shuffles, and swap of
    libmultihash/megabtx.c). *)
From Stdlib Require Import ZArith Lia List Permutation.
From stdpp Require Import base list.
From S2P Require Import Prelude CInt Keccak.
Import ListNotations.
Local Open Scope Z_scope.

Definition swap (p : list Z) (a b : nat) : list Z :=
  let c := lane p a in
  <[b := c]> (<[a := lane p b]> p).

Lemma lane_app_r a b i : lane (a ++ b) (length a + i) = lane b i.
Proof. unfold lane. rewrite app_nth2 by lia. f_equal. lia. Qed.

Lemma insert_middle (a : list Z) x y b : <[length a := y]> (a ++ x :: b) = a ++ y :: b.
Proof. induction a as [|z a IH]; [reflexivity | exact (f_equal (cons z) IH)]. Qed.

Lemma swap_ok a x u y b : swap (a ++ x :: u ++ y :: b) (length a) (length a + S (length u)) = a ++ y :: u ++ x :: b.
Proof.
  unfold swap. assert (X : lane (a ++ x :: u ++ y :: b) (length a) = x)
    by (rewrite <- (Nat.add_0_r (length a)), lane_app_r; reflexivity).
  assert (Y : lane (a ++ x :: u ++ y :: b) (length a + S (length u)) = y).
  { rewrite lane_app_r. change (x :: u ++ y :: b) with ((x :: u) ++ y :: b).
    replace (S (length u)) with (length (x :: u) + 0)%nat by (cbn; lia). rewrite lane_app_r. reflexivity. }
  rewrite X, Y, insert_middle.
  replace (length a + S (length u))%nat with (length (a ++ y :: u)) by (rewrite length_app; reflexivity).
  change (y :: u ++ y :: b) with ((y :: u) ++ y :: b). rewrite app_assoc, insert_middle, <- app_assoc. reflexivity.
Qed.

Lemma split_two (p : list Z) a b : (a < b < length p)%nat -> exists A x u y v,
  p = A ++ x :: u ++ y :: v /\ a = length A /\ b = (length A + S (length u))%nat.
Proof.
  intros [A B]. destruct (lookup_lt_is_Some_2 p a ltac:(lia)) as [x X]. destruct (lookup_lt_is_Some_2 p b B) as [y Y].
  pose proof (take_drop_middle p a x X) as E. set (t := drop (S a) p) in *.
  assert (Yt : t !! (b - S a)%nat = Some y) by (unfold t; rewrite lookup_drop; now replace (S a + (b - S a))%nat with b by lia).
  pose proof (take_drop_middle t _ y Yt) as Et. exists (take a p), x, (take (b - S a) t), y, (drop (S (b - S a)) t).
  rewrite Et, E. split; [reflexivity|]. unfold t. rewrite !length_take, length_drop. lia.
Qed.

Lemma swap_lt_perm p a b : (a < b < length p)%nat -> Permutation (swap p a b) p.
Proof.
  intros H. destruct (split_two p a b H) as (A & x & u & y & v & -> & -> & ->). rewrite swap_ok.
  apply Permutation_app_head. transitivity (x :: y :: u ++ v); [|apply perm_skip, Permutation_middle].
  transitivity (y :: x :: u ++ v); [apply perm_skip; symmetry; apply Permutation_middle | apply perm_swap].
Qed.

Lemma swap_comm p a b : (a < length p)%nat -> (b < length p)%nat -> swap p a b = swap p b a.
Proof.
  intros A B. unfold swap. destruct (Nat.eq_dec a b) as [->|N]; [reflexivity|].
  now rewrite list_insert_insert_ne by auto.
Qed.

(** A swap permutes the array. *)
Lemma swap_perm p a b : (a < length p)%nat -> (b < length p)%nat -> Permutation (swap p a b) p.
Proof.
  intros A B. destruct (Nat.lt_trichotomy a b) as [L|[->|L]].
  - now apply swap_lt_perm.
  - destruct (lookup_lt_is_Some_2 p b B) as [y Y]. assert (E : lane p b = y) by (now apply nth_lookup_Some).
    unfold swap. rewrite E, !(list_insert_id p) by exact Y. reflexivity.
  - rewrite swap_comm by assumption. now apply swap_lt_perm.
Qed.
