(* ===== verification/MegaBtx.v ===== *)
(** megabtx (libmultihash/megabtx.c): three groups of hash functions, each run in the
    permutation that the block's timestamp ranks; next_permutation on arrays whose
    first entries the code leaves uninitialised.  The hash functions are the class
    [HashLib] of Chains. *)
From Stdlib Require Import ZArith Lia List Bool Permutation Factorial.
From stdpp Require Import base list sorting.
From S2P Require Import Prelude CInt Keccak SpongeSpec Swaps Chains.
Import ListNotations.
Local Open Scope Z_scope.

Definition HASH_FUNC_BASE_TIMESTAMP_1 : Z := 1492973331.
Definition HASH_FUNC_COUNT_1 : nat := 8.
Definition HASH_FUNC_COUNT_2 : nat := 8.
Definition HASH_FUNC_COUNT_3 : nat := 7.
Definition HASH_FUNC_VAR_1 : Z := 3333.
Definition HASH_FUNC_VAR_2 : Z := 2100.
Definition HASH_FUNC_COUNT_PERMUTATIONS_7 : Z := 5040.
Definition HASH_FUNC_COUNT_PERMUTATIONS : Z := 40320.

(** ** next_permutation, on the ints from pbegin to pend *)

(** The two tests of the condition; [None] when pbegin passes pend. *)
Fixpoint reverse (fuel : nat) (p : list Z) (pbegin pend : nat) : option (list Z) :=
  if (pbegin =? pend)%nat then Some p
  else
    let pend := (pend - 1)%nat in
    if (pbegin =? pend)%nat then Some p
    else match fuel with
         | O => None
         | S fuel => reverse fuel (swap p pbegin pend) (S pbegin) pend
         end.

(** [while (!( *i < *--k))]; [None] is a read before the array. *)
Fixpoint find_k (p : list Z) (i k : nat) : option nat :=
  match k with
  | O => None
  | S k => if lane p i <? lane p k then Some k else find_k p i k
  end.

(** The while (1) loop. *)
Fixpoint perm_loop (p : list Z) (i : nat) : option (list Z) :=
  match i with
  | O => None
  | S i =>
      let j := S i in
      if lane p i <? lane p j then
        let! k := find_k p i (length p) in
        reverse (length p) (swap p i k) j (length p)
      else if (i =? 0)%nat then reverse (length p) p 0 (length p)
      else perm_loop p i
  end.

Definition next_permutation (p : list Z) : option (list Z) :=
  if (length p =? 0)%nat then Some p
  else if (length p =? 1)%nat then Some p
  else perm_loop p (length p - 1).

(** [n] calls. *)
Fixpoint next_permutations (n : nat) (p : list Z) : option (list Z) :=
  match n with
  | O => Some p
  | S n => let! p := next_permutation p in next_permutations n p
  end.

(** ** Permutations by rank *)

(** The permutation of [l] with rank [k] in lexicographic order. *)
Fixpoint unrank (n k : nat) (l : list Z) : list Z :=
  match n with
  | O => []
  | S n => let q := (k / fact n)%nat in lane l q :: unrank n (k mod fact n) (take q l ++ drop (S q) l)
  end.

Section MegaBtx.
Context {L : HashLib}.

(** ** The groups *)

(** A function on hash, its digest over the front of hash. *)
Definition on_hash (f : list Z -> list Z) (hash : list Z) : list Z := put_digest hash (f (take 64 hash)).
Definition sph (a : Algo) : list Z -> list Z := on_hash (sph512 a).

Definition switch_1 (p : Z) (hash : list Z) : list Z :=
  match p with
  | 1 => sph BLAKE (sph ECHO hash)
  | 2 => sph BMW (sph SIMD hash)
  | 3 => sph GROESTL hash
  | 4 => sph JH (sph WHIRLPOOL hash)
  | 5 => sph KECCAK (on_hash gost512 hash)
  | 6 => sph SKEIN (sph FUGUE hash)
  | 7 => sph LUFFA (sph SHAVITE hash)
  | _ => hash
  end.

Definition switch_2 (p : Z) (hash : list Z) : list Z :=
  match p with
  | 8 => sph CUBEHASH (sph WHIRLPOOL hash)
  | 9 => sph SHAVITE (sph JH hash)
  | 10 => sph SIMD (sph BLAKE hash)
  | 11 => sph ECHO (sph SHABAL hash)
  | 12 => sph HAMSI hash
  | 13 => sph FUGUE (sph BMW hash)
  | 14 => sph SHABAL (sph KECCAK hash)
  | 15 => sph WHIRLPOOL (sph LUFFA hash)
  | _ => hash
  end.

Definition switch_3 (p : Z) (hash : list Z) : list Z :=
  match p with
  | 16 => on_hash haval256_5 (sph SHA512 hash)
  | 17 => sph GROESTL (sph SKEIN hash)
  | 18 => sph HAMSI (sph SIMD hash)
  | 19 => on_hash haval256_5 (on_hash gost512 hash)
  | 20 => sph SHA512 (sph CUBEHASH hash)
  | 21 => sph SHAVITE (sph ECHO hash)
  | 22 => sph SHABAL (sph LUFFA hash)
  | _ => hash
  end.

(** [work_data[17]]; [None] is a read past the input. *)
Definition timestamp (input : list Z) : option Z :=
  if (72 <=? length input)%nat then Some (le_val (take 4 (drop 68 input))) else None.

Definition steps_1 (timestamp : Z) : Z := u32 (timestamp - HASH_FUNC_BASE_TIMESTAMP_1) mod HASH_FUNC_COUNT_PERMUTATIONS_7.
Definition steps_2 (timestamp : Z) : Z :=
  u32 (timestamp + HASH_FUNC_VAR_1 - HASH_FUNC_BASE_TIMESTAMP_1) mod HASH_FUNC_COUNT_PERMUTATIONS.
Definition steps_3 (timestamp : Z) : Z :=
  u32 (timestamp + HASH_FUNC_VAR_2 - HASH_FUNC_BASE_TIMESTAMP_1) mod HASH_FUNC_COUNT_PERMUTATIONS_7.

(** The entries from [first] to [last - 1] set to their index. *)
Definition init_perm (permutation : list Z) (first last : nat) : list Z :=
  fold_left (fun p i => <[i := Z.of_nat i]> p) (seq first (last - first)) permutation.

(** [n] calls of next_permutation on the array from entry [from] on. *)
Definition permute_from (from n : nat) (permutation : list Z) : option (list Z) :=
  let! p := next_permutations n (drop from permutation) in
  Some (take from permutation ++ p).

Definition run_switch (switch : Z -> list Z -> list Z) (permutation : list Z) (first last : nat) (hash : list Z)
  : list Z :=
  fold_left (fun hash i => switch (lane permutation i) hash) (seq first (last - first)) hash.

(** [permutation_1] to [hash]: the locals' contents before the calls.  The last loop
    starts at HASH_FUNC_COUNT_2. *)
Definition megabtx_hash (permutation_1 permutation_2 permutation_3 hash input : list Z) : option (list Z) :=
  let! timestamp := timestamp input in
  let permutation_1 := init_perm permutation_1 1 HASH_FUNC_COUNT_1 in
  let permutation_2 := init_perm permutation_2 HASH_FUNC_COUNT_1 (HASH_FUNC_COUNT_2 + HASH_FUNC_COUNT_1) in
  let permutation_3 := init_perm permutation_3 (HASH_FUNC_COUNT_1 + HASH_FUNC_COUNT_2)
                         (HASH_FUNC_COUNT_3 + HASH_FUNC_COUNT_2 + HASH_FUNC_COUNT_1) in
  let! permutation_1 := permute_from 0 (Z.to_nat (steps_1 timestamp)) permutation_1 in
  let! permutation_2 := permute_from HASH_FUNC_COUNT_1 (Z.to_nat (steps_2 timestamp)) permutation_2 in
  let! permutation_3 := permute_from (HASH_FUNC_COUNT_1 + HASH_FUNC_COUNT_2) (Z.to_nat (steps_3 timestamp)) permutation_3 in
  let hash := put_digest hash (sph512 BLAKE input) in
  let hash := run_switch switch_1 permutation_1 1 HASH_FUNC_COUNT_1 hash in
  let hash := run_switch switch_2 permutation_2 HASH_FUNC_COUNT_1 (HASH_FUNC_COUNT_1 + HASH_FUNC_COUNT_2) hash in
  let hash := run_switch switch_3 permutation_3 HASH_FUNC_COUNT_2
                (HASH_FUNC_COUNT_1 + HASH_FUNC_COUNT_2 + HASH_FUNC_COUNT_3) hash in
  Some (take 32 hash).

(** ** Specification *)

(** The order of rank [steps] of the [n] functions from [first] on. *)
Definition order (first n : nat) (steps : Z) : list Z :=
  unrank n (Z.to_nat steps) (map Z.of_nat (seq first n)).

Definition run_order (switch : Z -> list Z -> list Z) (ps : list Z) (hash : list Z) : list Z :=
  fold_left (fun hash p => switch p hash) ps hash.

(** The three groups in the orders of a timestamp, on the 64 bytes of the first digest;
    [stray]: what the last loop runs before its own. *)
Definition megabtx_spec (timestamp : Z) (stray input : list Z) : list Z :=
  let hash := sph512 BLAKE input in
  let hash := run_order switch_1 (order 1 7 (steps_1 timestamp)) hash in
  let hash := run_order switch_2 (order 8 8 (steps_2 timestamp)) hash in
  take 32 (run_order switch_3 (stray ++ order 16 7 (steps_3 timestamp)) hash).
End MegaBtx.

(** ** next_permutation *)

(** No entry is below one after it. *)
Definition nonincreasing (l : list Z) : Prop := forall i j, (i <= j < length l)%nat -> lane l j <= lane l i.

Lemma reverse_ok fuel : forall a s b, (length s <= 2 * fuel + 1)%nat ->
  reverse fuel (a ++ s ++ b) (length a) (length a + length s) = Some (a ++ rev s ++ b).
Proof.
  induction fuel as [|fuel IH]; intros a s b F.
  - destruct s as [|x [|y s]]; cbn [length reverse] in *; [| |lia].
    + now rewrite Nat.add_0_r, Nat.eqb_refl.
    + rewrite (proj2 (Nat.eqb_neq _ _)) by lia. replace (length a + 1 - 1)%nat with (length a) by lia. now rewrite Nat.eqb_refl.
  - cbn [reverse]. destruct s as [|x s]; [cbn [length]; now rewrite Nat.add_0_r, Nat.eqb_refl|].
    rewrite (proj2 (Nat.eqb_neq _ _)) by (cbn [length]; lia).
    destruct s as [|z s] using rev_ind;
      [cbn [length]; replace (length a + 1 - 1)%nat with (length a) by lia; now rewrite Nat.eqb_refl|].
    clear IHs. cbn [length] in *. rewrite length_app in *. cbn [length] in *.
    rewrite (proj2 (Nat.eqb_neq _ _)) by lia.
    replace (length a + S (length s + 1) - 1)%nat with (length a + S (length s))%nat by lia.
    assert (E : a ++ (x :: s ++ [z]) ++ b = a ++ x :: s ++ z :: b) by (cbn [app]; now rewrite <- app_assoc).
    rewrite E, swap_ok. clear E.
    assert (E : a ++ z :: s ++ x :: b = (a ++ [z]) ++ s ++ x :: b) by (rewrite <- app_assoc; reflexivity).
    rewrite E. specialize (IH (a ++ [z]) s (x :: b) ltac:(lia)). rewrite length_app in IH. cbn [length] in IH.
    replace (S (length a)) with (length a + 1)%nat by lia.
    replace (length a + S (length s))%nat with (length a + 1 + length s)%nat by lia. rewrite IH.
    f_equal. cbn [rev]. rewrite rev_app_distr. cbn [rev app]. rewrite <- !app_assoc. reflexivity.
Qed.

Lemma find_k_ok p i y v : forall c, (forall z, In z v -> z <= lane p i) -> lane p i < y -> p = c ++ y :: v ->
  find_k p i (length p) = Some (length c).
Proof.
  intros c V Y E. assert (Lp : length p = (length c + S (length v))%nat) by (rewrite E, length_app; reflexivity).
  rewrite Lp. assert (G : forall m, (m <= length v)%nat -> find_k p i (length c + S m) = Some (length c)).
  { induction m as [|m IH]; intros M.
    - rewrite Nat.add_1_r. cbn [find_k]. assert (X : lane p (length c) = y)
        by (rewrite E, <- (Nat.add_0_r (length c)), lane_app_r; reflexivity).
      rewrite X, (proj2 (Z.ltb_lt _ _)) by exact Y. reflexivity.
    - rewrite Nat.add_succ_r. cbn [find_k].
      assert (X : lane p (length c + S m) = lane v m) by (rewrite E, lane_app_r; reflexivity).
      rewrite X, (proj2 (Z.ltb_ge _ _)); [apply IH; lia|]. apply V. unfold lane. apply nth_In. lia. }
  now apply G.
Qed.

(** The step at an ascent: [y] is the last entry above [x]. *)
Lemma next_permutation_ascent a x u y v : nonincreasing (u ++ y :: v) -> x < y -> (forall z, In z v -> z <= x) ->
  next_permutation (a ++ x :: u ++ y :: v) = Some (a ++ y :: rev (u ++ x :: v)).
Proof.
  intros N XY V. set (p := a ++ x :: u ++ y :: v). set (t := u ++ y :: v) in *.
  assert (Lp : length p = (length a + S (length t))%nat) by (unfold p; rewrite length_app; reflexivity).
  assert (Lt : (0 < length t)%nat) by (unfold t; rewrite length_app; cbn; lia).
  assert (Pt : forall i, lane p (length a + S i) = lane t i) by (intros i; unfold p; rewrite lane_app_r; reflexivity).
  assert (Px : lane p (length a) = x) by (unfold p; rewrite <- (Nat.add_0_r (length a)), lane_app_r; reflexivity).
  unfold next_permutation. rewrite !(proj2 (Nat.eqb_neq _ _)) by lia.
  assert (G : forall i, (i < length t)%nat -> perm_loop p (length a + S i) = Some (a ++ y :: rev (u ++ x :: v))).
  { induction i as [|i IH]; intros I.
    - rewrite Nat.add_1_r. cbn [perm_loop]. rewrite Px. replace (S (length a)) with (length a + 1)%nat by lia. rewrite Pt.
      assert (Y0 : y <= lane t 0).
      { specialize (N 0%nat (length u) ltac:(unfold t; rewrite length_app; cbn [length]; lia)).
        assert (Yu : lane t (length u) = y) by (unfold t; rewrite <- (Nat.add_0_r (length u)), lane_app_r; reflexivity).
        now rewrite Yu in N. }
      rewrite (proj2 (Z.ltb_lt _ _)) by lia.
      assert (Ep : p = (a ++ x :: u) ++ y :: v) by (unfold p, t; now rewrite <- app_assoc).
      rewrite (find_k_ok p (length a) y v (a ++ x :: u)) by (rewrite ?Px; assumption). cbn [bind].
      rewrite length_app. cbn [length]. unfold p at 2, t. rewrite swap_ok.
      pose proof (reverse_ok (length p) (a ++ [y]) (u ++ x :: v) [] ) as R.
      rewrite app_nil_r, (length_app a [y]) in R. cbn [length] in R.
      replace (a ++ y :: u ++ x :: v) with ((a ++ [y]) ++ u ++ x :: v) by (now rewrite <- app_assoc).
      replace (length p) with (length a + 1 + length (u ++ x :: v))%nat at 2
        by (rewrite Lp; unfold t; rewrite !length_app; cbn [length]; lia).
      rewrite R; [now rewrite app_nil_r, <- app_assoc|]. rewrite Lp. unfold t. rewrite !length_app. cbn [length]. lia.
    - rewrite Nat.add_succ_r. cbn [perm_loop]. replace (S (length a + S i)) with (length a + S (S i))%nat by lia.
      rewrite !Pt, (proj2 (Z.ltb_ge _ _)) by (apply N; lia). rewrite (proj2 (Nat.eqb_neq _ _)) by lia. apply IH. lia. }
  replace (length p - 1)%nat with (length a + S (length t - 1))%nat by lia. apply G. lia.
Qed.

(** ** Ranks *)

Lemma fact_pos n : (0 < fact n)%nat.
Proof. pose proof (lt_O_fact n). lia. Qed.

Lemma unrank_0 n : forall l, length l = n -> unrank n 0 l = l.
Proof.
  induction n as [|n IH]; intros l E; [now destruct l|]. destruct l as [|x l]; [discriminate|]. cbn [unrank].
  rewrite Nat.Div0.div_0_l, Nat.Div0.mod_0_l. cbn. f_equal. apply IH. now injection E.
Qed.

Lemma last_rank n : (fact (S n) - 1 = n * fact n + (fact n - 1))%nat.
Proof. cbn [fact]. pose proof (fact_pos n). nia. Qed.

Lemma unrank_last n : forall l, length l = n -> unrank n (fact n - 1) l = rev l.
Proof.
  induction n as [|n IH]; intros l E; [now destruct l|]. destruct l as [|x l _] using rev_ind; [discriminate|].
  rewrite length_app, Nat.add_1_r in E. injection E as E. cbn [unrank]. rewrite last_rank.
  pose proof (fact_pos n).
  assert (Q : ((n * fact n + (fact n - 1)) / fact n = n)%nat) by (rewrite Nat.div_add_l, (Nat.div_small (fact n - 1)) by lia; lia).
  assert (R : ((n * fact n + (fact n - 1)) mod fact n = fact n - 1)%nat)
    by (rewrite Nat.add_comm, Nat.Div0.mod_add; apply Nat.mod_small; lia).
  rewrite Q, R, rev_app_distr. cbn [rev app]. clear Q R. subst n.
  f_equal.
  - rewrite <- (Nat.add_0_r (length l)), lane_app_r. reflexivity.
  - rewrite take_app_length, drop_ge, app_nil_r by (rewrite length_app; cbn; lia). now apply IH.
Qed.

Lemma unrank_perm n : forall k l, length l = n -> (k < fact n)%nat -> Permutation (unrank n k l) l.
Proof.
  induction n as [|n IH]; intros k l E K; [destruct l; [reflexivity | discriminate]|]. cbn [unrank].
  pose proof (fact_pos n). assert (Q : (k / fact n < S n)%nat) by (apply Nat.Div0.div_lt_upper_bound; cbn [fact] in K; nia).
  set (q := (k / fact n)%nat) in *. destruct (lookup_lt_is_Some_2 l q ltac:(lia)) as [x X].
  assert (Ex : lane l q = x) by (now apply nth_lookup_Some). rewrite Ex.
  rewrite IH.
  - rewrite <- (take_drop_middle l q x X) at 3. apply Permutation_middle.
  - rewrite length_app, length_take, length_drop. lia.
  - apply Nat.mod_upper_bound. lia.
Qed.

Lemma sorted_nonincreasing_rev l : StronglySorted Z.lt l -> nonincreasing (rev l).
Proof.
  intros Sl. assert (M : forall i j, (i <= j < length l)%nat -> lane l i <= lane l j).
  { induction Sl as [|x l Sl IH F]; intros i j I; [cbn in I; lia|]. cbn [length] in I.
    destruct i as [|i], j as [|j]; try lia; unfold lane in *; cbn [nth].
    - rewrite List.Forall_forall in F. assert (In (nth j l 0) l) by (apply nth_In; lia). specialize (F _ H). lia.
    - apply IH. lia. }
  intros i j I. rewrite length_rev in I. unfold lane. rewrite !rev_nth by lia. apply M. lia.
Qed.

Lemma sorted_remove A (x : Z) B : StronglySorted Z.lt (A ++ x :: B) -> StronglySorted Z.lt (A ++ B).
Proof.
  rewrite !StronglySorted_app. intros (H & SA & SB). apply StronglySorted_inv in SB. destruct SB as [SB _].
  split; [|split; assumption]. intros a b Ia Ib. apply H; [exact Ia | now right].
Qed.

(** The next rank is one step of next_permutation. *)
Lemma unrank_next n : forall k l, length l = n -> StronglySorted Z.lt l -> (k + 1 < fact n)%nat ->
  exists a x u y v, unrank n k l = a ++ x :: u ++ y :: v /\ nonincreasing (u ++ y :: v) /\ x < y /\
    (forall z, In z v -> z <= x) /\ unrank n (k + 1) l = a ++ y :: rev (u ++ x :: v).
Proof.
  induction n as [|n IH]; intros k l E Sl K; [cbn in K; lia|]. pose proof (fact_pos n).
  set (q := (k / fact n)%nat). set (r := (k mod fact n)%nat).
  assert (D : k = (q * fact n + r)%nat) by (unfold q, r; pose proof (Nat.div_mod_eq k (fact n)); lia).
  assert (R : (r < fact n)%nat) by (apply Nat.mod_upper_bound; lia).
  assert (Q : (q < S n)%nat) by (apply Nat.Div0.div_lt_upper_bound; cbn [fact] in K; nia).
  destruct (Nat.eq_dec (r + 1)%nat (fact n)) as [Er|Er].
  - assert (Q1 : (q + 1 < S n)%nat) by (cbn [fact] in K; nia).
    destruct (lookup_lt_is_Some_2 l q ltac:(lia)) as [x X]. destruct (lookup_lt_is_Some_2 l (S q) ltac:(lia)) as [y Y].
    assert (El : l = take q l ++ x :: y :: drop (S (S q)) l).
    { rewrite <- (take_drop_middle l q x X) at 1. do 2 f_equal. now apply drop_S. }
    set (A := take q l) in *. set (B := drop (S (S q)) l) in *.
    assert (LA : length A = q) by (unfold A; rewrite length_take; lia).
    exists [], x, (rev B), y, (rev A). cbn [unrank app].
    assert (Ek : (k / fact n = q)%nat) by reflexivity. assert (Rk : (k mod fact n = fact n - 1)%nat) by (fold r; lia).
    assert (Ek1 : ((k + 1) / fact n = S q)%nat) by (symmetry; apply (Nat.div_unique _ _ _ 0); lia).
    assert (Rk1 : ((k + 1) mod fact n = 0)%nat) by (symmetry; apply (Nat.mod_unique _ _ (S q)); lia).
    rewrite Ek, Rk, Ek1, Rk1.
    assert (T1 : take q l ++ drop (S q) l = A ++ y :: B) by (unfold A, B; now rewrite (drop_S l y (S q) Y)).
    assert (T2 : take (S q) l ++ drop (S (S q)) l = A ++ x :: B).
    { unfold A, B. rewrite (take_S_r l q x X), <- app_assoc. reflexivity. }
    assert (Ln : length (A ++ y :: B) = n).
    { assert (length l = length (A ++ x :: y :: B)) by (now rewrite El at 1). rewrite !length_app in *. cbn [length] in *. lia. }
    assert (Ln2 : length (A ++ x :: B) = n) by (rewrite length_app in *; exact Ln).
    rewrite T1, T2, unrank_last, unrank_0 by assumption.
    assert (X0 : lane l q = x) by (now apply nth_lookup_Some). assert (Y0 : lane l (S q) = y) by (now apply nth_lookup_Some).
    rewrite X0, Y0. split; [rewrite rev_app_distr; cbn [rev]; now rewrite <- app_assoc|].
    rewrite El in Sl. pose proof (sorted_remove _ _ _ Sl) as Sy. apply sorted_nonincreasing_rev in Sy.
    apply StronglySorted_app in Sl. destruct Sl as (SA & _ & SB). apply StronglySorted_inv in SB. destruct SB as [_ SB].
    split; [|split; [|split]].
    + rewrite rev_app_distr in Sy. cbn [rev] in Sy. now rewrite <- app_assoc in Sy.
    + rewrite List.Forall_cons_iff in SB. apply SB.
    + intros z Iz. apply in_rev in Iz. apply Z.lt_le_incl. apply SA; [now apply list_elem_of_In | left].
    + rewrite rev_app_distr. cbn [rev]. now rewrite !rev_involutive, <- app_assoc.
  - set (l' := take q l ++ drop (S q) l).
    assert (L' : length l' = n) by (unfold l'; rewrite length_app, length_take, length_drop; lia).
    assert (S' : StronglySorted Z.lt l').
    { destruct (lookup_lt_is_Some_2 l q ltac:(lia)) as [x X]. apply (sorted_remove _ x). now rewrite take_drop_middle. }
    destruct (IH r l' L' S' ltac:(lia)) as (a & x & u & y & v & E1 & N & XY & V & E2).
    exists (lane l q :: a), x, u, y, v. cbn [unrank].
    assert (Ek1 : ((k + 1) / fact n = q)%nat) by (symmetry; apply (Nat.div_unique _ _ _ (r + 1)); lia).
    assert (Rk1 : ((k + 1) mod fact n = r + 1)%nat) by (symmetry; apply (Nat.mod_unique _ _ q); lia).
    rewrite Ek1, Rk1. fold q r l'. rewrite E1, E2. cbn [app]. auto 10.
Qed.

(** The ranks from 0 on, behind whatever entries the array starts with. *)
Lemma next_permutations_ok g l n : StronglySorted Z.lt l -> forall k, (n + k < fact (length l))%nat ->
  next_permutations n (g ++ unrank (length l) k l) = Some (g ++ unrank (length l) (n + k) l).
Proof.
  intros Sl. induction n as [|n IH]; intros k K; [reflexivity|]. cbn [next_permutations].
  destruct (unrank_next (length l) k l eq_refl Sl ltac:(lia)) as (a & x & u & y & v & E1 & N & XY & V & E2).
  rewrite E1, app_assoc, next_permutation_ascent by assumption. cbn [bind]. rewrite <- app_assoc, <- E2.
  rewrite IH by lia. do 3 f_equal. lia.
Qed.

(** ** The arrays *)

Lemma init_perm_ok first n : forall permutation, length permutation = (first + n)%nat ->
  init_perm permutation first (n + first) = take first permutation ++ map Z.of_nat (seq first n).
Proof.
  unfold init_perm. rewrite Nat.add_sub. revert first. induction n as [|n IH]; intros first p E.
  - cbn [seq fold_left map]. now rewrite app_nil_r, take_ge by lia.
  - cbn [seq fold_left map]. rewrite IH by (rewrite length_insert; lia).
    rewrite (take_S_r _ first (Z.of_nat first)) by (apply list_lookup_insert_eq; lia).
    rewrite take_insert_ge by lia. now rewrite <- app_assoc.
Qed.

Lemma seq_sorted first n : StronglySorted Z.lt (map Z.of_nat (seq first n)).
Proof.
  revert first. induction n as [|n IH]; intros first; cbn [seq map]; constructor; [apply IH|].
  rewrite List.Forall_map, List.Forall_forall. intros i I. apply in_seq in I. lia.
Qed.

Lemma order_perm first n steps : 0 <= steps < Z.of_nat (fact n) ->
  Permutation (order first n steps) (map Z.of_nat (seq first n)).
Proof. intros B. apply unrank_perm; [now rewrite length_map, length_seq | lia]. Qed.

(** A group's array, initialised and permuted. *)
Lemma permute_init permutation from first n steps : (from <= first)%nat -> length permutation = (first + n)%nat ->
  0 <= steps < Z.of_nat (fact n) ->
  permute_from from (Z.to_nat steps) (init_perm permutation first (n + first)) =
  Some (take first permutation ++ order first n steps).
Proof.
  intros Fr E B. rewrite init_perm_ok by exact E. unfold permute_from.
  set (g := take first permutation). assert (Lg : length g = first) by (unfold g; rewrite length_take; lia).
  set (l := map Z.of_nat (seq first n)). assert (Ll : length l = n) by (unfold l; now rewrite length_map, length_seq).
  rewrite drop_app_le, take_app_le by lia.
  pose proof (next_permutations_ok (drop from g) l (Z.to_nat steps) (seq_sorted first n) 0) as N.
  rewrite Ll, Nat.add_0_r, unrank_0 in N by exact Ll. rewrite N by lia. cbn [bind].
  now rewrite app_assoc, take_drop.
Qed.

Lemma run_switch_app switch g ps hash :
  run_switch switch (g ++ ps) (length g) (length g + length ps) hash = run_order switch ps hash.
Proof.
  unfold run_switch, run_order. replace (length g + length ps - length g)%nat with (length ps) by lia.
  revert g hash. induction ps as [|p ps IH]; intros g hash; [reflexivity|]. cbn [length seq fold_left].
  rewrite <- (Nat.add_0_r (length g)) at 2. rewrite lane_app_r. specialize (IH (g ++ [p])).
  rewrite length_app, <- app_assoc, Nat.add_1_r in IH. apply IH.
Qed.

Lemma length_order first n steps : length (order first n steps) = n.
Proof. unfold order. generalize (map Z.of_nat (seq first n)) (Z.to_nat steps). induction n; intros; cbn; auto. Qed.

Lemma run_group_from switch permutation from first n steps hash :
  (from <= first)%nat -> (first <= length permutation)%nat ->
  run_switch switch (take first permutation ++ order first n steps) from (first + n) hash =
  run_order switch (take (first - from) (drop from permutation) ++ order first n steps) hash.
Proof.
  intros Fr E. pose proof (run_switch_app switch (take from permutation)
    (take (first - from) (drop from permutation) ++ order first n steps) hash) as R.
  rewrite length_app, !length_take, length_drop, length_order, app_assoc in R.
  rewrite <- (Nat.sub_add from first) at 1 by lia. rewrite (Nat.add_comm (first - from)), <- take_take_drop.
  rewrite !Nat.min_l in R by lia. replace (from + (first - from + n))%nat with (first + n)%nat in R by lia. exact R.
Qed.

Lemma run_group switch permutation first n steps hash : length permutation = (first + n)%nat ->
  run_switch switch (take first permutation ++ order first n steps) first (first + n) hash =
  run_order switch (order first n steps) hash.
Proof. intros E. rewrite run_group_from, Nat.sub_diag by lia. reflexivity. Qed.

Lemma fact_7 : Z.of_nat (fact 7) = 5040.
Proof. vm_compute. reflexivity. Qed.

Lemma fact_8 : Z.of_nat (fact 8) = 40320.
Proof. vm_compute. reflexivity. Qed.

Section Run.
Context {L : HashLib}.

Lemma switch_3_other p hash : ~ 16 <= p <= 22 -> switch_3 p hash = hash.
Proof.
  intros N. unfold switch_3. repeat (match goal with |- context [match ?p with _ => _ end] => destruct p end;
    try reflexivity; try (exfalso; lia)).
Qed.

Lemma run_order_stray stray ps hash : Forall (fun p => ~ 16 <= p <= 22) stray ->
  run_order switch_3 (stray ++ ps) hash = run_order switch_3 ps hash.
Proof.
  intros F. unfold run_order. rewrite fold_left_app. f_equal.
  induction F as [|p stray N F IH]; [reflexivity|]. cbn [fold_left]. now rewrite switch_3_other.
Qed.

(** The functions read and write the first 64 bytes of the buffer only. *)
Context {LL : HashLaws L}.

Definition in_place (f : list Z -> list Z) : Prop := forall x y, length x = 64%nat ->
  f (x ++ y) = f x ++ y /\ length (f x) = 64%nat.

Lemma in_place_id : in_place (fun hash => hash).
Proof. intros x y X. auto. Qed.

Lemma in_place_comp f g : in_place f -> in_place g -> in_place (fun hash => f (g hash)).
Proof. intros F G x y X. destruct (G x y X) as [-> X']. now apply F. Qed.

Lemma on_hash_in_place f n : (forall m, length (f m) = n) -> (n <= 64)%nat -> in_place (on_hash f).
Proof.
  intros Lf N x y X. unfold on_hash, put_digest. rewrite take_app_length', (take_ge x) by lia.
  rewrite drop_app_le by (rewrite Lf; lia). rewrite app_assoc. split; [reflexivity|].
  rewrite length_app, length_drop, Lf. lia.
Qed.

Lemma sph_in_place a : in_place (sph a).
Proof. apply (on_hash_in_place _ 64); [intros; apply sph512_length | lia]. Qed.

Lemma gost_in_place : in_place (on_hash gost512).
Proof. apply (on_hash_in_place _ 64); [intros; apply gost_length | lia]. Qed.

Lemma haval_in_place : in_place (on_hash haval256_5).
Proof. apply (on_hash_in_place _ 32); [intros; apply haval_length | lia]. Qed.

Lemma switches_in_place p : in_place (switch_1 p) /\ in_place (switch_2 p) /\ in_place (switch_3 p).
Proof.
  unfold switch_1, switch_2, switch_3. split; [|split];
    repeat match goal with |- context [match ?p with _ => _ end] => destruct p end;
    repeat first [apply in_place_id | apply sph_in_place | apply gost_in_place | apply haval_in_place
                 | apply (in_place_comp (sph _)) | apply (in_place_comp (on_hash _))].
Qed.

Lemma run_order_in_place switch ps : (forall p, in_place (switch p)) -> in_place (run_order switch ps).
Proof.
  intros S. unfold run_order. induction ps as [|p ps IH]; [exact in_place_id|]. cbn [fold_left].
  exact (in_place_comp (fold_left (fun hash p => switch p hash) ps) (switch p) IH (S p)).
Qed.

(** The rest of the buffer plays no role. *)
Lemma runs_first_64 ps1 ps2 ps3 x y : length x = 64%nat ->
  take 32 (run_order switch_3 ps3 (run_order switch_2 ps2 (run_order switch_1 ps1 (x ++ y)))) =
  take 32 (run_order switch_3 ps3 (run_order switch_2 ps2 (run_order switch_1 ps1 x))).
Proof.
  intros X. destruct (run_order_in_place switch_1 ps1 (fun p => proj1 (switches_in_place p)) x y X) as [-> X1].
  destruct (run_order_in_place switch_2 ps2 (fun p => proj1 (proj2 (switches_in_place p))) _ y X1) as [-> X2].
  destruct (run_order_in_place switch_3 ps3 (fun p => proj2 (proj2 (switches_in_place p))) _ y X2) as [-> X3].
  rewrite take_app_le by lia. reflexivity.
Qed.
End Run.

(** A library whose digests count the functions that ran. *)
Definition count (n : nat) (m : list Z) : list Z := repeat ((lane m 0 + 1) mod 256) n.

Definition count_lib : HashLib :=
  {| sph512 := fun _ => count 64; tiger := count 24; haval256_5 := count 32; gost512 := count 64; sha256 := count 32;
     lyra2 := count 32; yespower := count 32 |}.

Lemma count_laws : HashLaws count_lib.
Proof. constructor; intros; apply repeat_length. Qed.

(** ** Properties *)

(** C14.  megabtx_hash reads its timestamp past an input shorter than 72 bytes; for every
    other input it returns (next_permutation never leaves its array): BLAKE512 of the
    header, then the seven, eight and seven functions of the three groups, each group
    in the lexicographic permutation of the rank the timestamp gives, every function of
    a group once.  Of the uninitialised locals (the buffer hash, entry 0 of
    permutation_1, the first eight of permutation_2, the first sixteen of permutation_3)
    only entries 8 to 15 of permutation_3 can change the result, and only when one of
    them is one of 16 to 22. *)
Theorem megabtx_orders {L : HashLib} {LL : HashLaws L} permutation_1 permutation_2 permutation_3 hash input :
  length permutation_1 = 8%nat -> length permutation_2 = 16%nat -> length permutation_3 = 23%nat -> length hash = 92%nat ->
  ((length input < 72)%nat -> megabtx_hash permutation_1 permutation_2 permutation_3 hash input = None) /\
  ((72 <= length input)%nat ->
   let ts := le_val (take 4 (drop 68 input)) in
   let stray := take 8 (drop 8 permutation_3) in
   megabtx_hash permutation_1 permutation_2 permutation_3 hash input = Some (megabtx_spec ts stray input) /\
   (Forall (fun p => ~ 16 <= p <= 22) stray -> megabtx_spec ts stray input = megabtx_spec ts [] input) /\
   Permutation (order 1 7 (steps_1 ts)) [1; 2; 3; 4; 5; 6; 7] /\
   Permutation (order 8 8 (steps_2 ts)) [8; 9; 10; 11; 12; 13; 14; 15] /\
   Permutation (order 16 7 (steps_3 ts)) [16; 17; 18; 19; 20; 21; 22]).
Proof.
  intros L1 L2 L3 Lh. split; [intros Li | intros Li ts stray]; unfold megabtx_hash, timestamp.
  { rewrite (proj2 (Nat.leb_gt _ _)) by exact Li. reflexivity. }
  rewrite (proj2 (Nat.leb_le _ _)) by exact Li. fold ts. clearbody ts. cbn [bind].
  assert (B1 : 0 <= steps_1 ts < Z.of_nat (fact 7)) by (rewrite fact_7; apply Z.mod_pos_bound; reflexivity).
  assert (B2 : 0 <= steps_2 ts < Z.of_nat (fact 8)) by (rewrite fact_8; apply Z.mod_pos_bound; reflexivity).
  assert (B3 : 0 <= steps_3 ts < Z.of_nat (fact 7)) by (rewrite fact_7; apply Z.mod_pos_bound; reflexivity).
  split; [|split; [|split; [|split]; apply order_perm; assumption]].
  - rewrite (permute_init permutation_1 0 1 7), (permute_init permutation_2 8 8 8), (permute_init permutation_3 16 16 7)
      by (assumption || lia).
    cbn [bind]. unfold megabtx_spec. cbv zeta. f_equal.
    rewrite (run_group switch_1 permutation_1 1 7), (run_group switch_2 permutation_2 8 8) by (assumption || lia).
    rewrite <- (runs_first_64 _ _ _ (sph512 BLAKE input) (drop 64 hash)) by apply sph512_length.
    f_equal. unfold put_digest. rewrite (sph512_length BLAKE input). apply (run_group_from switch_3 permutation_3 8 16 7); lia.
  - intros F. unfold megabtx_spec. cbv zeta. now rewrite run_order_stray.
Qed.

Lemma megabtx_orders_witness :
  exists out, megabtx_hash (L := count_lib) (repeat 9 8%nat) (repeat 1 16%nat) (repeat 0 23%nat) (repeat 5 92%nat)
    (repeat 88 80%nat) = Some out /\
    megabtx_spec (L := count_lib) 1482184792 [] (repeat 88 80%nat) = out.
Proof.
  destruct (proj2 (megabtx_orders (LL := count_laws) (repeat 9 8%nat) (repeat 1 16%nat) (repeat 0 23%nat) (repeat 5 92%nat)
    (repeat 88 80%nat) eq_refl eq_refl eq_refl eq_refl)) as (E & S & _); [apply Nat.leb_le; reflexivity|].
  eexists. split; [exact E | symmetry; apply S]. cbn. repeat constructor; lia.
Defined.

(** The output depends on memory the function never writes: with a left-over 16 in
    permutation_3[8] (an index below the group's own sixteenth entry, where the last
    loop starts) haval runs once more. *)
Theorem megabtx_reads_uninitialised :
  exists (L : HashLib) permutation_1 permutation_2 permutation_3 permutation_3' hash input,
  HashLaws L /\ length permutation_1 = 8%nat /\ length permutation_2 = 16%nat /\
  length permutation_3 = 23%nat /\ length permutation_3' = 23%nat /\ length hash = 92%nat /\ length input = 80%nat /\
  megabtx_hash permutation_1 permutation_2 permutation_3 hash input <>
  megabtx_hash permutation_1 permutation_2 permutation_3' hash input.
Proof.
  exists count_lib, (repeat 0 8%nat), (repeat 0 16%nat), (repeat 0 23%nat), (repeat 0 8%nat ++ 16 :: repeat 0 14%nat),
    (repeat 0 92%nat), (repeat 88 80%nat).
  split; [apply count_laws|]. do 6 (split; [reflexivity|]). vm_compute. discriminate.
Qed.
