(* ===== verification/FixedChains.v ===== *)
(** The chained hashes of libmultihash with a fixed order (x11.c, c11.c, x13.c, x14.c,
    x15.c, x17.c, quark.c, hmq17.c, skydoge.c, qubit.c, nist5.c, phi.c, geek.c, s3.c,
    fresh.c, shavite3.c, groestl.c).  The functions are call sequences over one or two
    uninitialised local buffers; here they are programs over such buffers, run by an
    interpreter in which a read of an unwritten byte fails, and a static analysis,
    proved sound, recovers the chain of hash functions each of them computes.  The hash
    functions are the class of Chains and sm3. *)
From Stdlib Require Import ZArith Lia List Bool.
From stdpp Require Import base list.
From S2P Require Import Prelude CInt Keccak SpongeSpec Chains.
Import ListNotations.
Local Open Scope Z_scope.

(** ** Programs *)

(** init, update and close of a context of sphlib, or of sm3. *)
Inductive func : Set := Sph (a : Algo) | Gost | Haval | Sha256 | Sm3.

(** [First f n dst]: f of the first [n] bytes of the input (of all [len] without), closed
    into buffer [dst]; [Hash f src dst]: f of 64 bytes of [src]; [Zeros dst off n]: memset,
    or a loop of assignments. *)
Inductive simple : Set :=
| First (f : func) (n : option nat) (dst : nat)
| Hash (f : func) (src dst : nat)
| Zeros (dst off n : nat).

(** [IfMask mask src p q]: if (src[0] & mask) p else q, on the 32-bit word. *)
Inductive instr : Set :=
| Do (s : simple)
| IfMask (mask : Z) (src : nat) (p q : list simple).

(** The sizes of the local buffers, the statements, and the buffer whose first 32 bytes
    are copied to output. *)
Record program : Set := mkprogram { buffers : list nat; code : list instr; result : nat }.

Class ChainLib : Type := { chain_hashes :: HashLib; sm3 : list Z -> list Z }.

(** Buffers of bytes, [None] before they are written. *)
Abbreviation store := (list (list (option Z))).

Section Run.
Context {L : ChainLib}.

Definition apply_func (f : func) (m : list Z) : list Z :=
  match f with
  | Sph a => sph512 a m
  | Gost => gost512 m
  | Haval => haval256_5 m
  | Sha256 => sha256 m
  | Sm3 => sm3 m
  end.

Definition read (st : store) (src n : nat) : option (list Z) :=
  let! buf := st !! src in
  if (n <=? length buf)%nat then mapM id (take n buf) else None.

Definition write (st : store) (dst off : nat) (d : list Z) : option store :=
  let! buf := st !! dst in
  if (off + length d <=? length buf)%nat then
    Some (<[dst := take off buf ++ map Some d ++ drop (off + length d) buf]> st)
  else None.

Definition read_input (input : list Z) (n : option nat) : option (list Z) :=
  match n with
  | None => Some input
  | Some n => if (n <=? length input)%nat then Some (take n input) else None
  end.

Definition run_simple (input : list Z) (st : store) (s : simple) : option store :=
  match s with
  | First f n dst => let! m := read_input input n in write st dst 0 (apply_func f m)
  | Hash f src dst => let! m := read st src 64 in write st dst 0 (apply_func f m)
  | Zeros dst off n => write st dst off (repeat 0 n)
  end.

Definition run_instr (input : list Z) (st : store) (i : instr) : option store :=
  match i with
  | Do s => run_simple input st s
  | IfMask mask src p q =>
      let! word := read st src 4 in
      foldM (run_simple input) st (if Z.land (le_val word) mask =? 0 then q else p)
  end.

Definition run_program (p : program) (input : list Z) : option (list Z) :=
  let! st := foldM (run_instr input) (map (repeat None) (buffers p)) (code p) in
  read st (result p) 32.
End Run.

(** ** The functions *)


(** x11.c *)
Definition x11_hash : program :=
  mkprogram [64; 64]%nat
    [Do (First (Sph BLAKE) None 0); Do (Hash (Sph BMW) 0 1); Do (Hash (Sph GROESTL) 1 0);
     Do (Hash (Sph SKEIN) 0 1); Do (Hash (Sph JH) 1 0); Do (Hash (Sph KECCAK) 0 1);
     Do (Hash (Sph LUFFA) 1 0); Do (Hash (Sph CUBEHASH) 0 1); Do (Hash (Sph SHAVITE) 1 0);
     Do (Hash (Sph SIMD) 0 1); Do (Hash (Sph ECHO) 1 0)] 0.

(** c11.c; the comment at the head of its body has SKEIN before JH and KECCAK, which the
    calls do not. *)
Definition c11_hash : program :=
  mkprogram [64; 64]%nat
    [Do (First (Sph BLAKE) (Some 80%nat) 0); Do (Hash (Sph BMW) 0 1); Do (Hash (Sph GROESTL) 1 0);
     Do (Hash (Sph JH) 0 1); Do (Hash (Sph KECCAK) 1 0); Do (Hash (Sph SKEIN) 0 1);
     Do (Hash (Sph LUFFA) 1 0); Do (Hash (Sph CUBEHASH) 0 1); Do (Hash (Sph SHAVITE) 1 0);
     Do (Hash (Sph SIMD) 0 1); Do (Hash (Sph ECHO) 1 0)] 0.

(** x13.c *)
Definition x13_hash : program :=
  mkprogram [64; 64]%nat
    [Do (First (Sph BLAKE) None 0); Do (Hash (Sph BMW) 0 1); Do (Hash (Sph GROESTL) 1 0);
     Do (Hash (Sph SKEIN) 0 1); Do (Hash (Sph JH) 1 0); Do (Hash (Sph KECCAK) 0 1);
     Do (Hash (Sph LUFFA) 1 0); Do (Hash (Sph CUBEHASH) 0 1); Do (Hash (Sph SHAVITE) 1 0);
     Do (Hash (Sph SIMD) 0 1); Do (Hash (Sph ECHO) 1 0); Do (Hash (Sph HAMSI) 0 1); Do (Hash (Sph FUGUE) 1 0)] 0.

(** x13.c: sm3 in the place of luffa *)
Definition x13_bcd_hash : program :=
  mkprogram [64; 64]%nat
    [Do (First (Sph BLAKE) (Some 80%nat) 0); Do (Hash (Sph BMW) 0 1); Do (Hash (Sph GROESTL) 1 0);
     Do (Hash (Sph SKEIN) 0 1); Do (Hash (Sph JH) 1 0); Do (Hash (Sph KECCAK) 0 1); Do (Zeros 0 0 64);
     Do (Hash (Sm3) 1 0); Do (Hash (Sph CUBEHASH) 0 1); Do (Hash (Sph SHAVITE) 1 0);
     Do (Hash (Sph SIMD) 0 1); Do (Hash (Sph ECHO) 1 0); Do (Hash (Sph HAMSI) 0 1); Do (Hash (Sph FUGUE) 1 0)] 0.

(** x14.c *)
Definition x14_hash : program :=
  mkprogram [64; 64]%nat
    [Do (First (Sph BLAKE) (Some 80%nat) 0); Do (Hash (Sph BMW) 0 1); Do (Hash (Sph GROESTL) 1 0);
     Do (Hash (Sph SKEIN) 0 1); Do (Hash (Sph JH) 1 0); Do (Hash (Sph KECCAK) 0 1);
     Do (Hash (Sph LUFFA) 1 0); Do (Hash (Sph CUBEHASH) 0 1); Do (Hash (Sph SHAVITE) 1 0);
     Do (Hash (Sph SIMD) 0 1); Do (Hash (Sph ECHO) 1 0); Do (Hash (Sph HAMSI) 0 1);
     Do (Hash (Sph FUGUE) 1 0); Do (Hash (Sph SHABAL) 0 1)] 1.

(** x15.c *)
Definition x15_hash : program :=
  mkprogram [64; 64]%nat
    [Do (First (Sph BLAKE) None 0); Do (Hash (Sph BMW) 0 1); Do (Hash (Sph GROESTL) 1 0);
     Do (Hash (Sph SKEIN) 0 1); Do (Hash (Sph JH) 1 0); Do (Hash (Sph KECCAK) 0 1);
     Do (Hash (Sph LUFFA) 1 0); Do (Hash (Sph CUBEHASH) 0 1); Do (Hash (Sph SHAVITE) 1 0);
     Do (Hash (Sph SIMD) 0 1); Do (Hash (Sph ECHO) 1 0); Do (Hash (Sph HAMSI) 0 1);
     Do (Hash (Sph FUGUE) 1 0); Do (Hash (Sph SHABAL) 0 1); Do (Hash (Sph WHIRLPOOL) 1 0)] 0.

(** x17.c *)
Definition x17_hash : program :=
  mkprogram [64]%nat
    [Do (First (Sph BLAKE) None 0); Do (Hash (Sph BMW) 0 0); Do (Hash (Sph GROESTL) 0 0);
     Do (Hash (Sph SKEIN) 0 0); Do (Hash (Sph JH) 0 0); Do (Hash (Sph KECCAK) 0 0);
     Do (Hash (Sph LUFFA) 0 0); Do (Hash (Sph CUBEHASH) 0 0); Do (Hash (Sph SHAVITE) 0 0);
     Do (Hash (Sph SIMD) 0 0); Do (Hash (Sph ECHO) 0 0); Do (Hash (Sph HAMSI) 0 0);
     Do (Hash (Sph FUGUE) 0 0); Do (Hash (Sph SHABAL) 0 0); Do (Hash (Sph WHIRLPOOL) 0 0);
     Do (Hash (Sph SHA512) 0 0); Do (Hash (Haval) 0 0)] 0.

(** quark.c *)
Definition quark_hash : program :=
  mkprogram [64; 64]%nat
    [Do (First (Sph BLAKE) None 0); Do (Hash (Sph BMW) 0 1);
     IfMask 8 1 [Hash (Sph GROESTL) 1 0] [Hash (Sph SKEIN) 1 0]; Do (Hash (Sph GROESTL) 0 1);
     Do (Hash (Sph JH) 1 0); IfMask 8 0 [Hash (Sph BLAKE) 0 1] [Hash (Sph BMW) 0 1];
     Do (Hash (Sph KECCAK) 1 0); Do (Hash (Sph SKEIN) 0 1);
     IfMask 8 1 [Hash (Sph KECCAK) 1 0] [Hash (Sph JH) 1 0]] 0.

(** hmq17.c *)
Definition hmq17_hash : program :=
  mkprogram [128]%nat
    [Do (First (Sph BMW) None 0); Do (Hash (Sph WHIRLPOOL) 0 0);
     IfMask 24 0 [Hash (Sph GROESTL) 0 0] [Hash (Sph SKEIN) 0 0]; Do (Hash (Sph JH) 0 0);
     Do (Hash (Sph KECCAK) 0 0); IfMask 24 0 [Hash (Sph BLAKE) 0 0] [Hash (Sph BMW) 0 0];
     Do (Hash (Sph LUFFA) 0 0); Do (Hash (Sph CUBEHASH) 0 0);
     IfMask 24 0 [Hash (Sph KECCAK) 0 0] [Hash (Sph JH) 0 0]; Do (Hash (Sph SHAVITE) 0 0);
     Do (Hash (Sph SIMD) 0 0); IfMask 24 0 [Hash (Sph WHIRLPOOL) 0 0] [Hash (Haval) 0 0; Zeros 0 32 32];
     Do (Hash (Sph ECHO) 0 0); Do (Hash (Sph BLAKE) 0 0);
     IfMask 24 0 [Hash (Sph SHAVITE) 0 0] [Hash (Sph LUFFA) 0 0]; Do (Hash (Sph HAMSI) 0 0);
     Do (Hash (Sph FUGUE) 0 0); IfMask 24 0 [Hash (Sph ECHO) 0 0] [Hash (Sph SIMD) 0 0];
     Do (Hash (Sph SHABAL) 0 0); Do (Hash (Sph WHIRLPOOL) 0 0);
     IfMask 24 0 [Hash (Sph FUGUE) 0 0] [Hash (Sph SHA512) 0 0]; Do (Hash (Sph GROESTL) 0 0);
     Do (Hash (Sph SHA512) 0 0); IfMask 24 0 [Hash (Haval) 0 0; Zeros 0 32 32] [Hash (Sph WHIRLPOOL) 0 0];
     Do (Hash (Sph BMW) 0 0)] 0.

(** skydoge.c *)
Definition skydoge_hash : program :=
  mkprogram [64; 64]%nat
    [Do (First (Sph BLAKE) None 0); Do (Hash (Sph SKEIN) 0 0); Do (Hash (Sph BMW) 0 0);
     Do (Hash (Sph GROESTL) 0 0); Do (Hash (Sph JH) 0 0); Do (Hash (Sph LUFFA) 0 0);
     Do (Hash (Sph KECCAK) 0 0); Do (Hash (Sph SIMD) 0 0); Do (Hash (Sph ECHO) 0 0);
     Do (Hash (Sph CUBEHASH) 0 0); Do (Hash (Sph SHAVITE) 0 0); Do (Hash (Sph HAMSI) 0 0);
     Do (Hash (Sph FUGUE) 0 0); Do (Hash (Sph SHABAL) 0 0); Do (Hash (Sph WHIRLPOOL) 0 0);
     Do (Hash (Sph SHA512) 0 0); Do (Hash (Sph SIMD) 0 0); Do (Hash (Sph WHIRLPOOL) 0 0);
     Do (Hash (Sha256) 0 1); Do (Zeros 1 32 32); Do (Hash (Haval) 1 0)] 0.

(** qubit.c *)
Definition qubit_hash : program :=
  mkprogram [64; 64]%nat
    [Do (First (Sph LUFFA) None 0); Do (Hash (Sph CUBEHASH) 0 1); Do (Hash (Sph SHAVITE) 1 0);
     Do (Hash (Sph SIMD) 0 1); Do (Hash (Sph ECHO) 1 0)] 0.

(** nist5.c *)
Definition nist5_hash : program :=
  mkprogram [64]%nat
    [Do (First (Sph BLAKE) None 0); Do (Hash (Sph GROESTL) 0 0); Do (Hash (Sph JH) 0 0);
     Do (Hash (Sph KECCAK) 0 0); Do (Hash (Sph SKEIN) 0 0)] 0.

(** phi.c *)
Definition phi_hash : program :=
  mkprogram [64]%nat
    [Do (First (Sph SKEIN) None 0); Do (Hash (Sph JH) 0 0); Do (Hash (Sph CUBEHASH) 0 0);
     Do (Hash (Sph FUGUE) 0 0); Do (Hash (Gost) 0 0); Do (Hash (Sph ECHO) 0 0)] 0.

(** geek.c *)
Definition geek_hash : program :=
  mkprogram [64; 64]%nat
    [Do (First (Sph BLAKE) (Some 80%nat) 0); Do (Hash (Sph BMW) 0 1); Do (Hash (Sph ECHO) 1 0);
     Do (Hash (Sph SHABAL) 0 1); Do (Hash (Sph GROESTL) 1 0); Do (Hash (Sph CUBEHASH) 0 1);
     Do (Hash (Sph KECCAK) 1 0); Do (Hash (Sph HAMSI) 0 1); Do (Hash (Sph SIMD) 1 0)] 0.

(** s3.c *)
Definition s3_hash : program :=
  mkprogram [64; 64]%nat
    [Do (First (Sph SHAVITE) (Some 80%nat) 0); Do (Hash (Sph SIMD) 0 1); Do (Hash (Sph SKEIN) 1 0)] 0.

(** fresh.c *)
Definition fresh_hash : program :=
  mkprogram [64; 64]%nat
    [Do (First (Sph SHAVITE) None 0); Do (Hash (Sph SIMD) 0 1); Do (Hash (Sph SHAVITE) 1 0);
     Do (Hash (Sph SIMD) 0 1); Do (Hash (Sph ECHO) 1 0)] 0.

(** shavite3.c *)
Definition shavite3_hash : program :=
  mkprogram [64; 64]%nat
    [Do (First (Sph SHAVITE) None 0); Do (Hash (Sph SHAVITE) 0 1)] 1.

(** groestl.c *)
Definition groestl_hash : program :=
  mkprogram [64; 64]%nat
    [Do (First (Sph GROESTL) None 0); Do (Hash (Sph GROESTL) 0 1)] 1.

(** ** The analysis

    What the analysis knows of a buffer: nothing, 64 zeros, or the current value of the
    chain, either all of 64 bytes or a digest of 32 in front of unknown bytes. *)
Inductive content : Set := Junk | Zeroed | Full | Half.

(** What a statement does to the value: a hash function, or 32 zeros behind a digest. *)
Inductive act : Set := Apply (f : func) | Pad.

(** [Choice mask p q]: p where the first word of the value has a bit of [mask]. *)
Inductive stage : Set := One (a : act) | Choice (mask : Z) (p q : list act).

#[local] Instance content_eq_dec : EqDecision content.
Proof. solve_decision. Defined.

Definition digest_size (f : func) : nat :=
  match f with Sph _ | Gost => 64 | Haval | Sha256 | Sm3 => 32 end.

(** When the value changes, its copies in other buffers are of no use. *)
Definition forget (c : content) : content := match c with Zeroed => Zeroed | _ => Junk end.

Definition abs_simple (st : list content) (s : simple) : option (list content * list act) :=
  match s with
  | First _ _ _ => None
  | Hash f src dst =>
      match st !! src, st !! dst with
      | Some Full, Some c =>
          if (digest_size f =? 64)%nat then Some (<[dst := Full]> (map forget st), [Apply f])
          else match c with
               | Zeroed => Some (<[dst := Full]> (map forget st), [Apply f; Pad])
               | _ => Some (<[dst := Half]> (map forget st), [Apply f])
               end
      | _, _ => None
      end
  | Zeros dst off n =>
      match st !! dst with
      | Some c =>
          if (off =? 0)%nat && (n =? 64)%nat then Some (<[dst := Zeroed]> st, [])
          else if (off =? 32)%nat && (n =? 32)%nat && bool_decide (c = Half) then
            Some (<[dst := Full]> (map forget st), [Pad])
          else None
      | None => None
      end
  end.

Fixpoint abs_list (st : list content) (l : list simple) : option (list content * list act) :=
  match l with
  | [] => Some (st, [])
  | s :: l =>
      let! (st, a) := abs_simple st s in
      let! (st, b) := abs_list st l in
      Some (st, a ++ b)
  end.

Definition abs_instr (st : list content) (i : instr) : option (list content * list stage) :=
  match i with
  | Do s => let! (st, a) := abs_simple st s in Some (st, map One a)
  | IfMask mask src p q =>
      if bool_decide (st !! src = Some Full) then
        let! (stp, a) := abs_list st p in
        let! (stq, b) := abs_list st q in
        if bool_decide (stp = stq) then Some (stp, [Choice mask a b]) else None
      else None
  end.

Fixpoint abs_code (st : list content) (l : list instr) : option (list content * list stage) :=
  match l with
  | [] => Some (st, [])
  | i :: l =>
      let! (st, a) := abs_instr st i in
      let! (st, b) := abs_code st l in
      Some (st, a ++ b)
  end.

(** The part of the input that is read, and the chain. *)
Definition analyse (p : program) : option (option nat * list stage) :=
  match code p with
  | Do (First f n dst) :: l =>
      if forallb (Nat.leb 64) (buffers p) && (dst <? length (buffers p))%nat && (digest_size f =? 64)%nat then
        let! (st, stages) := abs_code (<[dst := Full]> (map (fun _ => Junk) (buffers p))) l in
        match st !! result p with
        | Some (Full | Half) => Some (n, One (Apply f) :: stages)
        | _ => None
        end
      else None
  | _ => None
  end.

(** ** Chains of hash functions *)

Section Chain.
Context {L : ChainLib}.

Definition run_act (v : list Z) (a : act) : list Z :=
  match a with
  | Apply f => apply_func f v
  | Pad => v ++ repeat 0 32
  end.

Definition run_stage (v : list Z) (s : stage) : list Z :=
  match s with
  | One a => run_act v a
  | Choice mask p q => fold_left run_act (if Z.land (le_val (take 4 v)) mask =? 0 then q else p) v
  end.

(** The chain of [stages] on the part of the input that it reads. *)
Definition run_stages (spec : option nat * list stage) (input : list Z) : option (list Z) :=
  let! m := read_input input (fst spec) in
  Some (take 32 (fold_left run_stage (snd spec) m)).
End Chain.

Class ChainLaws (L : ChainLib) : Prop := { chain_laws :: HashLaws chain_hashes; sm3_length m : length (sm3 m) = 32%nat }.

(** ** Soundness *)

Section Soundness.
Context {L : ChainLib} {LL : ChainLaws L}.

Lemma func_length f m : length (apply_func f m) = digest_size f.
Proof.
  destruct f; cbn; [apply sph512_length | apply gost_length | apply haval_length | apply sha256_length | apply sm3_length].
Qed.

Definition holds (v : list Z) (buf : list (option Z)) (c : content) : Prop :=
  (64 <= length buf)%nat /\
  match c with
  | Junk => True
  | Zeroed => take 64 buf = map Some (repeat 0 64%nat)
  | Full => take 64 buf = map Some v /\ length v = 64%nat
  | Half => take 32 buf = map Some v /\ length v = 32%nat
  end.

Definition represents (v : list Z) (st : list content) (m : store) : Prop := Forall2 (holds v) m st.

Lemma mapM_Some (d : list Z) : mapM (M := option) id (map Some d) = Some d.
Proof. induction d as [|x d IH]; [reflexivity|]. cbn. unfold id in *. now rewrite IH. Qed.

Lemma read_ok m src n buf d : m !! src = Some buf -> take n buf = map Some d -> length d = n -> (n <= length buf)%nat ->
  read m src n = Some d.
Proof.
  intros E T Ld Lb. unfold read. rewrite E. cbn [bind]. rewrite (proj2 (Nat.leb_le _ _)) by exact Lb. rewrite T. apply mapM_Some.
Qed.

Lemma take_half (v : list Z) (buf : list (option Z)) n : take 64 buf = map Some v -> (n <= 64)%nat -> take n buf = map Some (take n v).
Proof.
  intros T N. replace n with (Nat.min n 64) at 1 by lia. rewrite <- take_take, T. symmetry. apply fmap_take.
Qed.

Lemma holds_forget v v' buf c : holds v buf c -> holds v' buf (forget c).
Proof. destruct c; intros [Lb H]; (split; [exact Lb | first [exact I | exact H]]). Qed.

Lemma represents_forget v v' st m : represents v st m -> represents v' (map forget st) m.
Proof. induction 1; constructor; [eapply holds_forget; eassumption | assumption]. Qed.

(** Reading the value. *)
Lemma represents_read v st m src : represents v st m -> st !! src = Some Full ->
  read m src 64 = Some v /\ read m src 4 = Some (take 4 v).
Proof.
  intros R E. destruct (Forall2_lookup_r _ _ _ _ _ R E) as (buf & Em & Lb & T & Lv).
  split; [exact (read_ok m src 64 buf v Em T Lv Lb)|]. apply (read_ok m src 4 buf); [exact Em | | rewrite length_take; lia | lia].
  apply (take_half v); [exact T | lia].
Qed.

(** Writing into a buffer of which [c'] becomes known, when the others forget. *)
Lemma represents_write v v' st m dst c c' off (d : list Z) : represents v st m -> st !! dst = Some c -> (off + length d <= 64)%nat ->
  (forall buf, holds v buf c -> holds v' (take off buf ++ map Some d ++ drop (off + length d) buf) c') ->
  exists m', write m dst off d = Some m' /\ represents v' (<[dst := c']> (map forget st)) m' /\
    (v' = v -> represents v' (<[dst := c']> st) m').
Proof.
  intros R E B H. destruct (Forall2_lookup_r _ _ _ _ _ R E) as (buf & Em & Hb). unfold write. rewrite Em. cbn [bind].
  rewrite (proj2 (Nat.leb_le _ _)) by (destruct Hb; lia). eexists. split; [reflexivity|].
  split; [apply Forall2_insert; [eapply represents_forget; exact R | now apply H]|].
  intros ->. apply Forall2_insert; [exact R | now apply H].
Qed.

Lemma write_length off (d : list Z) (buf : list (option Z)) : (off + length d <= length buf)%nat ->
  length (take off buf ++ map Some d ++ drop (off + length d) buf) = length buf.
Proof. intros B. rewrite !length_app, length_take, length_map, length_drop. lia. Qed.

Lemma holds_digest v c buf (d : list Z) : holds v buf c -> length d = 64%nat -> holds d (take 0 buf ++ map Some d ++ drop (0 + length d) buf) Full.
Proof.
  intros [Lb _] Ld. split; [rewrite write_length; lia|]. rewrite take_0. cbn [app]. split; [|exact Ld].
  rewrite take_app_le by (rewrite length_map; lia). apply take_ge. rewrite length_map. lia.
Qed.

Lemma holds_half v c buf (d : list Z) : holds v buf c -> length d = 32%nat -> holds d (take 0 buf ++ map Some d ++ drop (0 + length d) buf) Half.
Proof.
  intros [Lb _] Ld. split; [rewrite write_length; lia|]. rewrite take_0. cbn [app]. split; [|exact Ld].
  rewrite take_app_le by (rewrite length_map; lia). apply take_ge. rewrite length_map. lia.
Qed.

Lemma holds_padded v buf (d : list Z) : holds v buf Zeroed -> length d = 32%nat ->
  holds (d ++ repeat 0 32) (take 0 buf ++ map Some d ++ drop (0 + length d) buf) Full.
Proof.
  intros [Lb T] Ld. split; [rewrite write_length; lia|]. rewrite take_0. cbn [app Nat.add]. split; [|rewrite length_app, repeat_length; lia].
  rewrite take_app_ge by (rewrite length_map; lia). rewrite length_map, Ld, map_app. f_equal.
  rewrite take_drop_commute. change (32 + (64 - 32))%nat with 64%nat. rewrite T. reflexivity.
Qed.

Lemma holds_zeroed v c buf : holds v buf c ->
  holds v (take 0 buf ++ map Some (repeat 0 64) ++ drop (0 + length (repeat 0 64%nat)) buf) Zeroed.
Proof.
  intros [Lb _]. split; [rewrite write_length; rewrite ?repeat_length; lia|]. rewrite take_0. cbn [app].
  rewrite take_app_le by exact (le_n 64). reflexivity.
Qed.

Lemma holds_pad v buf : holds v buf Half ->
  holds (v ++ repeat 0 32) (take 32 buf ++ map Some (repeat 0 32) ++ drop (32 + length (repeat 0 32%nat)) buf) Full.
Proof.
  intros [Lb [T Lv]]. split; [rewrite write_length; rewrite ?repeat_length; lia|]. rewrite T.
  split; [|rewrite length_app, repeat_length; lia]. rewrite app_assoc, <- map_app, take_app_le, take_ge; [reflexivity| |];
    rewrite length_map, length_app, repeat_length; lia.
Qed.

Lemma abs_simple_sound input s v st m st' acts : represents v st m -> abs_simple st s = Some (st', acts) ->
  exists m', run_simple input m s = Some m' /\ represents (fold_left run_act acts v) st' m'.
Proof.
  intros R E. destruct s as [f n dst|f src dst|dst off n]; [discriminate| |]; cbn [abs_simple] in E; cbn [run_simple].
  - destruct (st !! src) as [[]|] eqn:Es; try discriminate. destruct (st !! dst) as [c|] eqn:Ed; [|discriminate].
    destruct (represents_read v st m src R Es) as [-> _]. cbn [bind]. pose proof (func_length f v) as Lf.
    assert (W : forall c' v', (forall buf, holds v buf c ->
      holds v' (take 0 buf ++ map Some (apply_func f v) ++ drop (0 + length (apply_func f v)) buf) c') ->
      exists m', write m dst 0 (apply_func f v) = Some m' /\ represents v' (<[dst := c']> (map forget st)) m').
    { intros c' v' H. destruct (represents_write v v' st m dst c c' 0 (apply_func f v) R Ed) as (m' & Em & Rm & _);
        [rewrite Lf; destruct f; cbn; lia | exact H | eauto]. }
    destruct (Nat.eqb_spec (digest_size f) 64) as [D|D].
    + injection E as <- <-. apply W. intros buf Hb. eapply holds_digest; [exact Hb | congruence].
    + assert (D' : length (apply_func f v) = 32%nat) by (rewrite Lf; destruct f; cbn in *; congruence).
      destruct c; injection E as <- <-; apply W; intros buf Hb;
        first [apply (holds_padded v); assumption | eapply holds_half; eassumption].
  - destruct (st !! dst) as [c|] eqn:Ed; [|discriminate].
    destruct ((off =? 0)%nat && (n =? 64)%nat) eqn:C1.
    + apply andb_true_iff in C1. destruct C1 as [O N]. apply Nat.eqb_eq in O, N. subst off n. injection E as <- <-.
      destruct (represents_write v v st m dst c Zeroed 0 (repeat 0 64%nat) R Ed) as (m' & Em & _ & Rm);
        [rewrite repeat_length; lia | apply holds_zeroed | exists m'; split; [exact Em | now apply Rm]].
    + destruct ((off =? 32)%nat && (n =? 32)%nat && bool_decide (c = Half)) eqn:C2; [|discriminate].
      apply andb_true_iff in C2. destruct C2 as [C2 C]. apply andb_true_iff in C2. destruct C2 as [O N].
      apply Nat.eqb_eq in O, N. apply bool_decide_eq_true in C. subst off n c. injection E as <- <-.
      destruct (represents_write v (v ++ repeat 0 32) st m dst Half Full 32 (repeat 0 32%nat) R Ed) as (m' & Em & Rm & _);
        [rewrite repeat_length; lia | apply holds_pad | eauto].
Qed.

Lemma abs_list_sound input l : forall v st m st' acts, represents v st m -> abs_list st l = Some (st', acts) ->
  exists m', foldM (run_simple input) m l = Some m' /\ represents (fold_left run_act acts v) st' m'.
Proof.
  induction l as [|s l IH]; intros v st m st' acts R E; cbn [abs_list foldM] in *.
  - injection E as <- <-. eauto.
  - apply bind_Some in E. destruct E as ([st1 a] & E1 & E). apply bind_Some in E. destruct E as ([st2 b] & E2 & E).
    injection E as <- <-. destruct (abs_simple_sound input s v st m st1 a R E1) as (m1 & -> & R1). cbn [bind].
    rewrite fold_left_app. eauto.
Qed.

Lemma fold_one acts v : fold_left run_stage (map One acts) v = fold_left run_act acts v.
Proof. revert v. induction acts as [|a acts IH]; intros v; [reflexivity | apply IH]. Qed.

Lemma abs_instr_sound input i v st m st' stages : represents v st m -> abs_instr st i = Some (st', stages) ->
  exists m', run_instr input m i = Some m' /\ represents (fold_left run_stage stages v) st' m'.
Proof.
  intros R E. destruct i as [s|mask src p q]; cbn [abs_instr run_instr] in *.
  - apply bind_Some in E. destruct E as ([st1 a] & E1 & E). injection E as <- <-. rewrite fold_one.
    exact (abs_simple_sound input s v st m st1 a R E1).
  - case_bool_decide as Es; [|discriminate]. apply bind_Some in E. destruct E as ([stp a] & Ep & E).
    apply bind_Some in E. destruct E as ([stq b] & Eq & E). case_bool_decide as Q; [|discriminate]. injection E as <- <-.
    destruct (represents_read v st m src R Es) as [_ ->]. cbn [bind fold_left run_stage].
    destruct (Z.land _ mask =? 0); [subst stp; exact (abs_list_sound input q v st m stq b R Eq) | exact (abs_list_sound input p v st m stp a R Ep)].
Qed.

Lemma abs_code_sound input l : forall v st m st' stages, represents v st m -> abs_code st l = Some (st', stages) ->
  exists m', foldM (run_instr input) m l = Some m' /\ represents (fold_left run_stage stages v) st' m'.
Proof.
  induction l as [|i l IH]; intros v st m st' stages R E; cbn [abs_code foldM] in *.
  - injection E as <- <-. eauto.
  - apply bind_Some in E. destruct E as ([st1 a] & E1 & E). apply bind_Some in E. destruct E as ([st2 b] & E2 & E).
    injection E as <- <-. destruct (abs_instr_sound input i v st m st1 a R E1) as (m1 & -> & R1). cbn [bind].
    rewrite fold_left_app. eauto.
Qed.

Lemma junk_represents bufs : forallb (Nat.leb 64) bufs = true ->
  represents [] (map (fun _ => Junk) bufs) (map (repeat None) bufs).
Proof.
  induction bufs as [|n bufs IH]; intros F; [constructor|]. cbn [forallb] in F. apply andb_true_iff in F. destruct F as [N F].
  apply Nat.leb_le in N. constructor; [split; [now rewrite repeat_length | exact I] | now apply IH].
Qed.

(** A program that passes the analysis computes its chain, and fails only for an input
    shorter than it reads. *)
Lemma analyse_sound p spec input : analyse p = Some spec -> run_program p input = run_stages spec input.
Proof.
  unfold analyse, run_program, run_stages. destruct (code p) as [|[[f n dst| |]|] l]; try discriminate.
  destruct (forallb (Nat.leb 64) (buffers p)) eqn:F; [|discriminate]. cbn [andb].
  destruct (Nat.ltb_spec dst (length (buffers p))) as [Dst|]; [|discriminate]. cbn [andb].
  destruct (Nat.eqb_spec (digest_size f) 64) as [D|]; [|discriminate]. intros E. apply bind_Some in E.
  destruct E as ([st stages] & Ec & E). cbn [foldM run_instr run_simple].
  assert (Es : spec = (n, One (Apply f) :: stages) /\ (st !! result p = Some Full \/ st !! result p = Some Half)).
  { destruct (st !! result p) as [[]|]; try discriminate; injection E as <-; auto. }
  destruct Es as [-> Er]. cbn [fst snd fold_left run_stage run_act]. destruct (read_input input n) as [m|]; [|reflexivity]. cbn [bind].
  destruct (lookup_lt_is_Some_2 (map (fun _ => Junk) (buffers p)) dst) as [c Ec0]; [now rewrite length_map|].
  destruct (represents_write _ (apply_func f m) _ _ dst c Full 0 (apply_func f m) (junk_represents _ F) Ec0) as (m1 & -> & R1 & _).
  - rewrite func_length, D. lia.
  - intros buf Hb. eapply holds_digest; [exact Hb | rewrite func_length; exact D].
  - rewrite map_map in R1. cbn [forget] in R1. cbn [bind].
    destruct (abs_code_sound input l _ _ m1 st stages R1 Ec) as (m2 & -> & R2). cbn [bind].
    destruct Er as [Er|Er]; destruct (Forall2_lookup_r _ _ _ _ _ R2 Er) as (buf & Em & Lb & T & Lv).
    + apply (read_ok m2 (result p) 32 buf); [exact Em | apply take_half; [exact T | lia] | rewrite length_take; lia | lia].
    + rewrite (take_ge _ 32) by lia. apply (read_ok m2 (result p) 32 buf); [exact Em | exact T | exact Lv | lia].
Qed.
End Soundness.

(** ** The chains *)

Definition chain (l : list Algo) : list stage := map (fun a => One (Apply (Sph a))) l.

(** A 32-byte digest and the zeros behind it. *)
Definition padded (f : func) : list stage := [One (Apply f); One Pad].

(** [a] where the value has a bit of [mask], else [b]. *)
Definition either (mask : Z) (a b : Algo) : list stage := [Choice mask [Apply (Sph a)] [Apply (Sph b)]].

Definition x11_order : list Algo :=
  [BLAKE; BMW; GROESTL; SKEIN; JH; KECCAK; LUFFA; CUBEHASH; SHAVITE; SIMD; ECHO].
Definition x13_order : list Algo := x11_order ++ [HAMSI; FUGUE].
Definition x14_order : list Algo := x13_order ++ [SHABAL].
Definition x15_order : list Algo := x14_order ++ [WHIRLPOOL].
Definition x16_order : list Algo := x15_order ++ [SHA512].

Definition quark_chain : list stage :=
  chain [BLAKE; BMW] ++ either 8 GROESTL SKEIN ++ chain [GROESTL; JH] ++ either 8 BLAKE BMW ++
  chain [KECCAK; SKEIN] ++ either 8 KECCAK JH.

Definition hmq17_chain : list stage :=
  chain [BMW; WHIRLPOOL] ++ either 24 GROESTL SKEIN ++ chain [JH; KECCAK] ++ either 24 BLAKE BMW ++
  chain [LUFFA; CUBEHASH] ++ either 24 KECCAK JH ++ chain [SHAVITE; SIMD] ++
  [Choice 24 [Apply (Sph WHIRLPOOL)] [Apply Haval; Pad]] ++ chain [ECHO; BLAKE] ++ either 24 SHAVITE LUFFA ++
  chain [HAMSI; FUGUE] ++ either 24 ECHO SIMD ++ chain [SHABAL; WHIRLPOOL] ++ either 24 FUGUE SHA512 ++
  chain [GROESTL; SHA512] ++ [Choice 24 [Apply Haval; Pad] [Apply (Sph WHIRLPOOL)]] ++ chain [BMW].

(** Each function with the number of bytes it reads (all of [len] with [None]) and its
    chain. *)
Definition fixed_chains : list (program * (option nat * list stage)) :=
  [(x11_hash, (None, chain x11_order));
   (c11_hash, (Some 80%nat, chain [BLAKE; BMW; GROESTL; JH; KECCAK; SKEIN; LUFFA; CUBEHASH; SHAVITE; SIMD; ECHO]));
   (x13_hash, (None, chain x13_order));
   (x13_bcd_hash, (Some 80%nat, chain (take 6 x13_order) ++ padded Sm3 ++ chain (drop 7 x13_order)));
   (x14_hash, (Some 80%nat, chain x14_order));
   (x15_hash, (None, chain x15_order));
   (x17_hash, (None, chain x16_order ++ [One (Apply Haval)]));
   (quark_hash, (None, quark_chain));
   (hmq17_hash, (None, hmq17_chain));
   (skydoge_hash, (None, chain [BLAKE; SKEIN; BMW; GROESTL; JH; LUFFA; KECCAK; SIMD; ECHO; CUBEHASH; SHAVITE; HAMSI; FUGUE;
      SHABAL; WHIRLPOOL; SHA512; SIMD; WHIRLPOOL] ++ padded Sha256 ++ [One (Apply Haval)]));
   (qubit_hash, (None, chain [LUFFA; CUBEHASH; SHAVITE; SIMD; ECHO]));
   (nist5_hash, (None, chain [BLAKE; GROESTL; JH; KECCAK; SKEIN]));
   (phi_hash, (None, chain [SKEIN; JH; CUBEHASH; FUGUE] ++ [One (Apply Gost)] ++ chain [ECHO]));
   (geek_hash, (Some 80%nat, chain [BLAKE; BMW; ECHO; SHABAL; GROESTL; CUBEHASH; KECCAK; HAMSI; SIMD]));
   (s3_hash, (Some 80%nat, chain [SHAVITE; SIMD; SKEIN]));
   (fresh_hash, (None, chain [SHAVITE; SIMD; SHAVITE; SIMD; ECHO]));
   (shavite3_hash, (None, chain [SHAVITE; SHAVITE]));
   (groestl_hash, (None, chain [GROESTL; GROESTL]))].

Lemma run_program_length {L : ChainLib} p input out : run_program p input = Some out -> length out = 32%nat.
Proof.
  unfold run_program, read. intros E. apply bind_Some in E. destruct E as (st & _ & E). apply bind_Some in E.
  destruct E as (buf & _ & E). destruct (Nat.leb_spec 32 (length buf)) as [Lb|]; [|discriminate].
  apply length_mapM in E. rewrite <- E, length_take. lia.
Qed.

(** The analysis passes all of them. *)
Lemma fixed_chains_analysed : Forall (fun '(p, spec) => analyse p = Some spec) fixed_chains.
Proof. repeat (apply List.Forall_cons; [reflexivity|]). apply List.Forall_nil. Qed.

(** ** Properties *)

(** C38.  The eighteen functions compute their chains, each function on the whole digest
    before it, and return the first 32 bytes: no byte of the uninitialised buffers is
    read and none outside them written, for every input of at least 80 bytes (c11, x13_bcd,
    x14, geek and s3 read 80 bytes whatever the length, the others all of the input).
    The chain of c11 is the one its calls compute, with JH and KECCAK before SKEIN, not
    the one its comment names. *)
Theorem fixed_chains_correct {L : ChainLib} {LL : ChainLaws L} :
  Forall (fun '(p, spec) => forall input, run_program p input = run_stages spec input /\
    ((80 <= length input)%nat -> exists out, run_program p input = Some out /\ length out = 32%nat)) fixed_chains.
Proof.
  pose proof fixed_chains_analysed as A. assert (B : Forall (fun '(p, spec) => fst spec = None \/ fst spec = Some 80%nat) fixed_chains)
    by (repeat (apply List.Forall_cons; [cbn; auto|]); apply List.Forall_nil).
  revert A B. generalize fixed_chains. induction 1 as [|[p spec] l A As IH]; intros B; [apply List.Forall_nil|].
  inversion_clear B as [|? ? Bs Bl]. apply List.Forall_cons; [|auto]. intros input. pose proof (analyse_sound p spec input A) as E.
  split; [exact E|]. intros Li. assert (Q : exists out, run_stages spec input = Some out).
  { unfold run_stages, read_input. destruct Bs as [-> | ->]; [eexists; reflexivity|].
    rewrite (proj2 (Nat.leb_le _ _)) by exact Li. eexists. reflexivity. }
  destruct Q as [out Q]. exists out. rewrite E, Q. split; [reflexivity|]. eapply run_program_length. rewrite E. exact Q.
Qed.

(** The checksums of Chains with one more. *)
Definition toy_chains : ChainLib := {| chain_hashes := toy_lib; sm3 := toy 32 |}.

Lemma toy_chains_laws : ChainLaws toy_chains.
Proof. split; [exact toy_laws | intros m; apply toy_length]. Qed.

Lemma fixed_chains_correct_witness : exists out, run_program (L := toy_chains) x11_hash (repeat 1 80%nat) = Some out /\ length out = 32%nat.
Proof.
  pose proof (List.Forall_inv (fixed_chains_correct (L := toy_chains) (LL := toy_chains_laws))) as F.
  exact (proj2 (F (repeat 1 80%nat)) (le_n 80)).
Defined.
