(* ===== verification/ProgpowDag.v ===== *)
(** The epoch contexts of the ProgPoW libraries (ethash/ethash.cpp of libkawpow,
    libfiropow, libmeowpow, libprogpowz, libsccpow and libmerakipow, read in
    libkawpow): the light cache, the items of the dataset, the memory behind the cache,
    which holds the L1 cache and, in a full context, the dataset that is filled when it
    is read, and the Ethash hash over either context.  The libraries differ in the
    constants of the class [DagParams].  A hash512 is the 16 words of its union, a
    hash256 its 32 bytes; hosts are little-endian, so that the functions of
    endianness.hpp are the identity apart from be::uint64.  [None] is undefined
    behaviour (an overflow of int, a division by zero, an access outside an array). *)
From Stdlib Require Import ZArith Lia List Bool.
From stdpp Require Import base list.
From S2P Require Import Prelude CInt Keccak SpongeSpec Sponge Blocks EthashData EthashCore Ethash Primes.
Import ListNotations.
Local Open Scope Z_scope.

(** ** bit_manipulation.h *)

Definition fnv_prime : Z := 0x01000193.
Definition fnv_offset_basis : Z := 0x811c9dc5.
Definition fnv1 (u v : Z) : Z := Z.lxor (u32 (u * fnv_prime)) v.
Definition fnv1a (u v : Z) : Z := u32 (Z.lxor u v * fnv_prime).

(** ** ethash-internal.hpp *)

(** be::uint64(h.word64s[i]). *)
Definition be_word64 (h : list Z) (i : nat) : Z := be_val (take 8 (drop (8 * i) h)).

Fixpoint less_or_equal_from (n i : nat) (a b : list Z) : bool :=
  match n with
  | O => true
  | S n =>
      if be_word64 b i <? be_word64 a i then false
      else if be_word64 a i <? be_word64 b i then true
      else less_or_equal_from n (S i) a b
  end.

Definition is_less_or_equal (a b : list Z) : bool := less_or_equal_from 4 0 a b.

(** memcmp(a, b, 32) == 0. *)
Definition is_equal (a b : list Z) : bool := bool_decide (a = b).

(** ** keccak.hpp *)

Definition keccak256_bytes (m : list Z) : list Z := default [] (ethash_keccak256 m).
Definition keccak512_bytes (m : list Z) : list Z := default [] (ethash_keccak512 m).

(** keccak512 of a hash512. *)
Definition keccak512_64 (n : node) : node := bytes_node (keccak512_bytes (node_bytes n)).

(** ** Constants *)

Definition light_cache_init_size : Z := 2 ^ 24.
Definition light_cache_growth : Z := 2 ^ 17.
Definition light_cache_rounds : nat := 3.
Definition full_dataset_growth : Z := 2 ^ 23.
Definition light_cache_item_size : Z := 64.
Definition full_dataset_item_size : Z := 128.

(** progpow.hpp. *)
Definition l1_cache_size : Z := 16 * 1024.
Definition l1_cache_num_items : Z := l1_cache_size / 4.

(** What the libraries differ in: ETHASH_EPOCH_LENGTH, the size of the first dataset, the
    parents of an item, the accesses of the Ethash hash, and the epoch that the sizes are
    computed from (libmeowpow's meow_epoch). *)
Class DagParams : Type := {
  epoch_length : Z;
  full_dataset_init_size : Z;
  full_dataset_item_parents : nat;
  num_dataset_accesses : nat;
  size_epoch : Z -> option Z
}.

(** The data of a context.  [memory] is the words allocated behind the light cache:
    l1_cache points to its start, and so does full_dataset when [full]. *)
Record epoch_context : Type := mkcontext {
  epoch_number : Z;
  light_cache_num_items : Z;
  light_cache : list node;
  memory : list Z;
  full_dataset_num_items : Z;
  full : bool
}.

Definition set_memory (context : epoch_context) (memory : list Z) : epoch_context :=
  mkcontext (epoch_number context) (light_cache_num_items context) (light_cache context) memory
    (full_dataset_num_items context) (full context).

(** ** The light cache *)

(** cache[i] = hash of cache[i - 1] for the [n] items after [item]. *)
Fixpoint light_fill (n : nat) (item : node) : list node :=
  match n with
  | O => []
  | S n => let item := keccak512_64 item in item :: light_fill n item
  end.

(** The body of the loop on [i] in a round. *)
Definition light_mix (num_items : Z) (cache : list node) (i : nat) : option (list node) :=
  let index_limit := u32 num_items in
  let! item := cache !! i in
  let! t := item !! 0%nat in
  let v := t mod index_limit in
  let! s := ck I32 (num_items + (Z.of_nat i - 1)) in
  let w := u32 s mod index_limit in
  let! x := cache !! Z.to_nat v in
  let! y := cache !! Z.to_nat w in
  Some (<[i := keccak512_64 (zip_with Z.lxor x y)]> cache).

(** The cache has room for num_items items. *)
Definition build_light_cache (num_items : Z) (seed : list Z) : option (list node) :=
  if num_items <=? 0 then None
  else
    let item := bytes_node (keccak512_bytes seed) in
    let cache := item :: light_fill (Z.to_nat num_items - 1) item in
    foldM (fun cache (_ : nat) => foldM (light_mix num_items) cache (seq 0 (Z.to_nat num_items)))
      cache (seq 0 light_cache_rounds).

(** ** Dataset items *)

Record item_state : Type := mkitem { seed : Z; mix : node }.

Section Dag.
Context {P : DagParams}.

Definition item_init (context : epoch_context) (index : Z) : option item_state :=
  if light_cache_num_items context =? 0 then None
  else
    let seed := u32 index in
    let! mix := light_cache context !! Z.to_nat (index mod light_cache_num_items context) in
    let! w := mix !! 0%nat in
    Some (mkitem seed (keccak512_64 (<[0%nat := Z.lxor w seed]> mix))).

Definition item_update (context : epoch_context) (item : item_state) (round : nat) : option item_state :=
  let! w := mix item !! (round mod 16)%nat in
  let t := fnv1 (Z.lxor (seed item) (Z.of_nat round)) w in
  let! parent := light_cache context !! Z.to_nat (t mod light_cache_num_items context) in
  Some (mkitem (seed item) (zip_with fnv1 (mix item) parent)).

Definition item_final (item : item_state) : node := keccak512_64 (mix item).

Definition calculate_dataset_item_512 (context : epoch_context) (index : Z) : option node :=
  let! item0 := item_init context index in
  let! item0 := foldM (item_update context) item0 (seq 0 full_dataset_item_parents) in
  Some (item_final item0).

(** The items of [indices], every round of all of them before the next: the loops of
    calculate_dataset_item_1024 and calculate_dataset_item_2048. *)
Definition interleaved_items (context : epoch_context) (indices : list Z) : option (list Z) :=
  let! items := mapM (item_init context) indices in
  let! items := foldM (fun items j => mapM (fun item => item_update context item j) items) items
                  (seq 0 full_dataset_item_parents) in
  Some (concat (map item_final items)).

Definition calculate_dataset_item_1024 (context : epoch_context) (index : Z) : option (list Z) :=
  interleaved_items context [index * 2; index * 2 + 1].

Definition calculate_dataset_item_2048 (context : epoch_context) (index : Z) : option (list Z) :=
  interleaved_items context [index * 4; index * 4 + 1; index * 4 + 2; index * 4 + 3].

(** ** Creating a context *)

Definition ethash_calculate_epoch_seed (epoch_number : Z) : list Z :=
  Nat.iter (Z.to_nat epoch_number) keccak256_bytes (repeat 0 32%nat).

Definition ethash_calculate_light_cache_num_items (epoch_number : Z) : option Z :=
  let num_items_init := light_cache_init_size / light_cache_item_size in
  let num_items_growth := light_cache_growth / light_cache_item_size in
  let! growth := ck I32 (epoch_number * num_items_growth) in
  let! num_items_upper_bound := ck I32 (num_items_init + growth) in
  ethash_find_largest_prime num_items_upper_bound.

Definition ethash_calculate_full_dataset_num_items (epoch_number : Z) : option Z :=
  let num_items_init := full_dataset_init_size / full_dataset_item_size in
  let num_items_growth := full_dataset_growth / full_dataset_item_size in
  let! growth := ck I32 (epoch_number * num_items_growth) in
  let! num_items_upper_bound := ck I32 (num_items_init + growth) in
  ethash_find_largest_prime num_items_upper_bound.

(** full_dataset_2048[i] = item. *)
Definition store_2048 (context : epoch_context) (i : nat) (item : list Z) : option epoch_context :=
  let! m := memcpy (memory context) (64 * i) item in
  Some (set_memory context m).

(** [calloc_ok]: calloc returns memory; [Some None] is nullptr. *)
Definition create_epoch_context (calloc_ok : bool) (epoch_number : Z) (full : bool) : option (option epoch_context) :=
  let! size_epoch := size_epoch epoch_number in
  let! light_cache_num_items := ethash_calculate_light_cache_num_items size_epoch in
  let! full_dataset_num_items := ethash_calculate_full_dataset_num_items size_epoch in
  let full_dataset_size := if full then full_dataset_num_items * full_dataset_item_size else l1_cache_size in
  if negb calloc_ok then Some None
  else
    let! light_cache := build_light_cache light_cache_num_items (ethash_calculate_epoch_seed epoch_number) in
    let context := mkcontext epoch_number light_cache_num_items light_cache
                     (repeat 0 (Z.to_nat (full_dataset_size / 4))) full_dataset_num_items full in
    let! context := foldM (fun context i =>
                      let! item := calculate_dataset_item_2048 context (Z.of_nat i) in
                      store_2048 context i item) context (seq 0 (Z.to_nat (l1_cache_size / 256))) in
    Some (Some context).

(** ** The dataset of a full context *)

(** The [n] words of item [i]. *)
Definition load_item (context : epoch_context) (n : nat) (i : Z) : option (list Z) :=
  let w := (n * Z.to_nat i)%nat in
  if (w + n <=? length (memory context))%nat then Some (take n (drop w (memory context))) else None.

(** item.word64s[0] == 0. *)
Definition first_word_zero (item : list Z) : bool := (lane item 0 =? 0) && (lane item 1 =? 0).

(** The two lazy_lookup functions, on items of [n] words. *)
Definition lazy_lookup (n : nat) (calculate : epoch_context -> Z -> option (list Z)) (context : epoch_context) (index : Z)
  : option (list Z * epoch_context) :=
  let! item := load_item context n index in
  if first_word_zero item then
    let! item := calculate context index in
    let! m := memcpy (memory context) (n * Z.to_nat index) item in
    Some (item, set_memory context m)
  else Some (item, context).

Definition lazy_lookup_1024 := lazy_lookup 32 calculate_dataset_item_1024.
Definition lazy_lookup_2048 := lazy_lookup 64 calculate_dataset_item_2048.

(** A lookup_fn that leaves the context alone. *)
Definition pure_lookup (calculate : epoch_context -> Z -> option (list Z)) (context : epoch_context) (index : Z)
  : option (list Z * epoch_context) :=
  let! item := calculate context index in
  Some (item, context).

End Dag.

(** ** Hashes *)

Lemma keccak512_bytes_ok m : Forall is_byte m -> keccak512_bytes m = SpongeSpec.keccak512 m.
Proof. intros F. unfold keccak512_bytes. now rewrite ethash_keccak512_ok. Qed.

Lemma keccak256_bytes_ok m : Forall is_byte m -> keccak256_bytes m = SpongeSpec.keccak256 m.
Proof. intros F. unfold keccak256_bytes. now rewrite ethash_keccak256_ok. Qed.

(** The node hash of libethhash. *)
Lemma keccak512_64_sha3 n : keccak512_64 n = sha3_node n.
Proof.
  unfold keccak512_64, sha3_node. rewrite keccak512_bytes_ok by apply node_bytes_byte. now rewrite SHA3_512_keccak.
Qed.

Lemma keccak512_64_ok n : node_ok (keccak512_64 n).
Proof. rewrite keccak512_64_sha3. apply sha3_node_ok. Qed.

Lemma keccak512_node_ok m : Forall is_byte m -> node_ok (bytes_node (keccak512_bytes m)).
Proof.
  intros F. rewrite keccak512_bytes_ok by exact F. apply bytes_node_ok. now apply sponge_bytes; lia.
Qed.

Lemma keccak256_32 m : Forall is_byte m -> length (keccak256_bytes m) = 32%nat /\ Forall is_byte (keccak256_bytes m).
Proof. intros F. rewrite keccak256_bytes_ok by exact F. apply sponge_bytes. lia. Qed.

Lemma epoch_seed_ok e : length (ethash_calculate_epoch_seed e) = 32%nat /\ Forall is_byte (ethash_calculate_epoch_seed e).
Proof.
  unfold ethash_calculate_epoch_seed. induction (Z.to_nat e) as [|k IH]; [split; [reflexivity | apply zeros_byte]|].
  cbn [Nat.iter nat_rect]. apply keccak256_32, IH.
Qed.

(** ** Comparison *)

Lemma be_val_app a b : be_val (a ++ b) = be_val a * 2 ^ (8 * Z.of_nat (length b)) + be_val b.
Proof. unfold be_val. rewrite rev_app_distr, le_val_app, length_rev. lia. Qed.

Lemma less_or_equal_from_ok n : forall i a b, length a = (8 * (i + n))%nat -> length b = (8 * (i + n))%nat ->
  Forall is_byte a -> Forall is_byte b ->
  less_or_equal_from n i a b = (be_val (drop (8 * i) a) <=? be_val (drop (8 * i) b)).
Proof.
  induction n as [|n IH]; intros i a b La Lb Fa Fb; cbn [less_or_equal_from].
  - now rewrite !drop_ge by lia.
  - rewrite IH by (assumption || lia). unfold be_word64.
    assert (D : forall x, drop (8 * i) x = take 8 (drop (8 * i) x) ++ drop (8 * S i) x :> list Z).
    { intros x. replace (8 * S i)%nat with (8 * i + 8)%nat by lia. now rewrite <- drop_drop, take_drop. }
    rewrite (D a), (D b), !be_val_app. set (x := take 8 (drop (8 * i) a)). set (y := take 8 (drop (8 * i) b)).
    rewrite !take_app_length' by (unfold x, y; rewrite length_take, length_drop; lia).
    pose proof (be_val_bound (drop (8 * S i) a) (Forall_drop _ _ _ Fa)) as Ba.
    pose proof (be_val_bound (drop (8 * S i) b) (Forall_drop _ _ _ Fb)) as Bb.
    assert (L : length (drop (8 * S i) a) = length (drop (8 * S i) b)) by (rewrite !length_drop; lia). rewrite L in *.
    set (w := 2 ^ (8 * Z.of_nat _)) in *. set (va := be_val (drop _ a)) in *. set (vb := be_val (drop _ b)) in *.
    destruct (Z.ltb_spec (be_val y) (be_val x)) as [G|G]; [symmetry; apply Z.leb_gt; nia|].
    destruct (Z.ltb_spec (be_val x) (be_val y)) as [G'|G']; [symmetry; apply Z.leb_le; nia|].
    assert (E : be_val x = be_val y) by lia. rewrite E. destruct (Z.leb_spec va vb); symmetry; [apply Z.leb_le | apply Z.leb_gt]; lia.
Qed.

Lemma is_less_or_equal_ok a b : length a = 32%nat -> length b = 32%nat -> Forall is_byte a -> Forall is_byte b ->
  is_less_or_equal a b = (be_val a <=? be_val b).
Proof. intros. unfold is_less_or_equal. now rewrite less_or_equal_from_ok by assumption. Qed.

Lemma is_equal_ok a b : is_equal a b = true <-> a = b.
Proof. apply bool_decide_eq_true. Qed.

(** ** Dataset items *)

Section DagLemmas.
Context {P : DagParams}.

(** The cache of a context. *)
Definition cache_ok (context : epoch_context) : Prop :=
  0 < light_cache_num_items context /\ nodes_ok (light_cache_num_items context) (light_cache context).

Definition item_ok (item : item_state) : Prop := node_ok (mix item).

Lemma cache_parent context x : cache_ok context ->
  safe (light_cache context !! Z.to_nat (x mod light_cache_num_items context)) node_ok.
Proof. intros (N & L & F). apply lookup_safe; [rewrite L; now apply mod_index | exact F]. Qed.

Lemma item_init_safe context index : cache_ok context -> safe (item_init context index) item_ok.
Proof.
  intros C. unfold item_init. rewrite (proj2 (Z.eqb_neq _ 0)) by (destruct C; lia).
  eapply safe_bind; [now apply cache_parent|]. intros n N.
  eapply safe_bind; [apply node_word_safe; [exact N | lia]|]. intros w _. apply keccak512_64_ok.
Qed.

Lemma item_update_safe context item round : cache_ok context -> item_ok item ->
  safe (item_update context item round) item_ok.
Proof.
  intros C I. unfold item_update.
  eapply safe_bind; [apply node_word_safe; [exact I | apply Nat.mod_upper_bound; discriminate]|]. intros w _.
  eapply safe_bind; [now apply cache_parent|]. intros n N. now apply zip_node.
Qed.

Lemma item_512_safe context index : cache_ok context -> safe (calculate_dataset_item_512 context index) node_ok.
Proof.
  intros C. unfold calculate_dataset_item_512. eapply safe_bind; [now apply item_init_safe|]. intros item I.
  eapply safe_bind; [apply (foldM_safe item_ok); [intros; now apply item_update_safe | exact I]|].
  intros item' _. apply keccak512_64_ok.
Qed.

Definition item_512 (context : epoch_context) (index : Z) : node := default [] (calculate_dataset_item_512 context index).

Lemma item_512_some context index : cache_ok context ->
  calculate_dataset_item_512 context index = Some (item_512 context index) /\ node_ok (item_512 context index).
Proof.
  intros C. unfold item_512. pose proof (item_512_safe context index C) as S.
  destruct (calculate_dataset_item_512 context index); [split; [reflexivity | exact S] | destruct S].
Qed.

(** Loops on several states at once. *)
Lemma foldM_mapM {A B} (f : A -> B -> option A) rounds : forall ss ss',
  Forall2 (fun s s' => foldM f s rounds = Some s') ss ss' ->
  foldM (fun ss j => mapM (fun s => f s j) ss) ss rounds = Some ss'.
Proof.
  induction rounds as [|j rounds IH]; intros ss ss' H.
  - cbn [foldM]. f_equal. induction H as [|s s' ss ss' E _ IH]; [reflexivity|]. injection E as ->. now rewrite IH.
  - assert (M : exists ss1, Forall2 (fun s s1 => f s j = Some s1) ss ss1 /\
                            Forall2 (fun s1 s' => foldM f s1 rounds = Some s') ss1 ss').
    { clear IH. induction H as [|s s' ss ss' E _ (ss1 & M1 & M2)]; [exists []; split; constructor|].
      cbn [foldM] in E. apply bind_Some in E. destruct E as (s1 & E1 & E2). exists (s1 :: ss1). split; constructor; assumption. }
    destruct M as (ss1 & M1 & M2). cbn [foldM]. apply mapM_Some_2 in M1. rewrite M1. now apply IH.
Qed.

Lemma interleaved_ok context indices : cache_ok context ->
  interleaved_items context indices = Some (concat (map (item_512 context) indices)).
Proof.
  intros C. unfold interleaved_items.
  assert (I : exists ss ss', Forall2 (fun i s => item_init context i = Some s) indices ss /\
    Forall2 (fun s s' => foldM (item_update context) s (seq 0 full_dataset_item_parents) = Some s') ss ss' /\
    map item_final ss' = map (item_512 context) indices).
  { induction indices as [|i indices (ss & ss' & I1 & I2 & I3)]; [exists [], []; repeat split; constructor|].
    destruct (item_512_some context i C) as [E _]. unfold calculate_dataset_item_512 in E.
    apply bind_Some in E. destruct E as (s & E1 & E). apply bind_Some in E. destruct E as (s' & E2 & E).
    injection E as E. exists (s :: ss), (s' :: ss'). split; [now constructor|]. split; [now constructor|].
    cbn [map]. now rewrite E, I3. }
  destruct I as (ss & ss' & I1 & I2 & I3). apply mapM_Some_2 in I1. rewrite I1. cbn [bind].
  rewrite (foldM_mapM _ _ ss ss' I2). cbn [bind]. now rewrite I3.
Qed.

(** The four items of a hash2048. *)
Definition item_2048 (context : epoch_context) (i : Z) : list Z :=
  concat (map (item_512 context) [i * 4; i * 4 + 1; i * 4 + 2; i * 4 + 3]).

Definition item_1024 (context : epoch_context) (i : Z) : list Z :=
  concat (map (item_512 context) [i * 2; i * 2 + 1]).

Lemma items_length context indices : cache_ok context ->
  length (concat (map (item_512 context) indices)) = (16 * length indices)%nat.
Proof.
  intros C. induction indices as [|i indices IH]; [reflexivity|]. cbn [map concat length]. rewrite length_app, IH.
  destruct (item_512_some context i C) as [_ N]. rewrite N. unfold NODE_WORDS. lia.
Qed.

Lemma item_2048_halves context i : item_2048 context i = item_1024 context (2 * i) ++ item_1024 context (2 * i + 1).
Proof.
  unfold item_2048, item_1024. replace (2 * i * 2) with (i * 4) by lia. replace ((2 * i + 1) * 2) with (i * 4 + 2) by lia.
  replace (i * 4 + 2 + 1) with (i * 4 + 3) by lia. cbn [map concat]. rewrite !app_nil_r, <- !app_assoc. reflexivity.
Qed.

(** ** The dataset in memory *)

Definition slice (n : nat) (m : list Z) (j : nat) : list Z := take n (drop (n * j) m).

(** [memcpy] of one item. *)
Lemma slice_store n m i item : length item = n -> (n * (i + 1) <= length m)%nat ->
  exists m', memcpy m (n * i) item = Some m' /\ length m' = length m /\
    drop (n * (i + 1)) m' = drop (n * (i + 1)) m /\
    forall j, (n * (j + 1) <= length m)%nat -> slice n m' j = if (j =? i)%nat then item else slice n m j.
Proof.
  intros L B. unfold memcpy. rewrite (proj2 (Nat.leb_le _ _)) by lia. eexists. split; [reflexivity|].
  set (a := take (n * i) m). assert (La : length a = (n * i)%nat) by (unfold a; rewrite length_take; lia).
  split; [rewrite !length_app, length_drop; lia|]. split.
  { rewrite app_assoc, drop_app_length' by (rewrite length_app; lia). f_equal. lia. }
  intros j J. unfold slice.
  destruct (Nat.eqb_spec j i) as [->|N].
  - rewrite drop_app_length' by (now rewrite La). now rewrite take_app_length' by (now rewrite L).
  - destruct (Nat.lt_ge_cases j i) as [G|G].
    + rewrite drop_app_le by nia. rewrite take_app_le by (rewrite length_drop; nia). unfold a.
      rewrite <- (take_drop (n * i) m) at 2. rewrite drop_app_le by (rewrite length_take; nia).
      rewrite take_app_le by (rewrite length_drop, length_take; nia). reflexivity.
    + rewrite app_assoc, drop_app_ge by (rewrite length_app; nia). rewrite drop_drop. do 2 f_equal.
      rewrite length_app. nia.
Qed.

(** Each item of [n] words is still to be computed or the item [calc] gives. *)
Definition filled (n : nat) (calc : Z -> list Z) (m : list Z) : Prop :=
  forall j, (n * (j + 1) <= length m)%nat -> first_word_zero (slice n m j) = true \/ slice n m j = calc (Z.of_nat j).

(** What lookups do to the memory: some items get filled in. *)
Definition fills (n : nat) (calc : Z -> list Z) (m m' : list Z) : Prop :=
  length m' = length m /\
  forall j, (n * (j + 1) <= length m)%nat -> slice n m' j = slice n m j \/ slice n m' j = calc (Z.of_nat j).

Lemma fills_refl n calc m : fills n calc m m.
Proof. split; auto. Qed.

Lemma fills_trans n calc m1 m2 m3 : fills n calc m1 m2 -> fills n calc m2 m3 -> fills n calc m1 m3.
Proof.
  intros [L1 F1] [L2 F2]. split; [congruence|]. intros j J. destruct (F2 j) as [->| ->]; auto. now rewrite L1.
Qed.

Lemma fills_filled n calc m m' : fills n calc m m' -> filled n calc m -> filled n calc m'.
Proof. intros [L F] H j J. rewrite L in J. destruct (F j J) as [->| ->]; auto. Qed.

Lemma lazy_lookup_ok n calculate calc context i :
  (forall m, calculate (set_memory context m) (Z.of_nat i) = Some (calc (Z.of_nat i))) ->
  length (calc (Z.of_nat i)) = n -> (n * (i + 1) <= length (memory context))%nat -> filled n calc (memory context) ->
  exists m, lazy_lookup n calculate context (Z.of_nat i) = Some (calc (Z.of_nat i), set_memory context m) /\
    fills n calc (memory context) m.
Proof.
  intros C L B F. unfold lazy_lookup, load_item. rewrite Nat2Z.id, (proj2 (Nat.leb_le _ _)) by lia. cbn [bind].
  fold (slice n (memory context) i). assert (Cc : calculate context (Z.of_nat i) = Some (calc (Z.of_nat i))).
  { rewrite <- (C (memory context)). now destruct context. }
  destruct (first_word_zero (slice n (memory context) i)) eqn:Z0'.
  - rewrite Cc. cbn [bind]. destruct (slice_store n (memory context) i (calc (Z.of_nat i)) L B) as (m & -> & Lm & _ & Sm).
    cbn [bind]. exists m. split; [reflexivity|]. split; [exact Lm|]. intros j J. rewrite Sm by exact J.
    destruct (Nat.eqb_spec j i) as [->|]; auto.
  - destruct (F i B) as [E|E]; [congruence|]. exists (memory context). rewrite E. split; [|apply fills_refl].
    now destruct context.
Qed.
End DagLemmas.

(** ** Loops *)

(** A counted loop. *)
Lemma foldM_count {A} (Q : nat -> A -> Prop) (f : A -> nat -> option A) n :
  (forall i a, (i < n)%nat -> Q i a -> safe (f a i) (Q (S i))) -> forall a, Q 0%nat a -> safe (foldM f a (seq 0 n)) (Q n).
Proof.
  intros St. assert (G : forall k i a, (i + k = n)%nat -> Q i a -> safe (foldM f a (seq i k)) (Q n)).
  { induction k as [|k IH]; intros i a E Qa; cbn [seq foldM safe]; [now replace n with i by lia|].
    eapply safe_bind; [apply (St i a); [lia | exact Qa]|]. intros a' Qa'. apply IH; [lia | exact Qa']. }
  intros a Qa. now apply (G n 0%nat).
Qed.

(** Two loops that run in step. *)
Lemma foldM_sim {A A' B} (R : A -> A' -> Prop) (f : A -> B -> option A) (g : A' -> B -> option A') l :
  (forall a a' b, In b l -> R a a' -> exists r r', f a b = Some r /\ g a' b = Some r' /\ R r r') ->
  forall a a', R a a' -> exists r r', foldM f a l = Some r /\ foldM g a' l = Some r' /\ R r r'.
Proof.
  induction l as [|b l IH]; intros St a a' H; [exists a, a'; auto|]. cbn [foldM].
  destruct (St a a' b (or_introl eq_refl) H) as (r & r' & -> & -> & H'). cbn [bind]. apply IH; [|exact H'].
  intros c c' b' I. apply St. now right.
Qed.

(** ** The light cache *)

Lemma light_fill_ok n item : node_ok item -> length (light_fill n item) = n /\ Forall node_ok (light_fill n item).
Proof.
  revert item. induction n as [|n IH]; intros item O; [split; constructor|]. cbn [light_fill length].
  destruct (IH _ (keccak512_64_ok item)) as [L F]. split; [now rewrite L | constructor; [apply keccak512_64_ok | exact F]].
Qed.

Lemma light_index num i : 0 < num < 2 ^ 30 -> (i < Z.to_nat num)%nat ->
  ck I32 (num + (Z.of_nat i - 1)) = Some (num - 1 + Z.of_nat i) /\ u32 num = num.
Proof.
  intros N I. split; [|apply Z.mod_small; lia]. unfold ck, imin, imax. rewrite !(proj2 (Z.leb_le _ _)) by lia.
  cbn [andb]. f_equal. lia.
Qed.

Lemma zip_xor_comm (x : list Z) : forall y, zip_with Z.lxor x y = zip_with Z.lxor y x.
Proof. induction x as [|a x IH]; intros [|b y]; try reflexivity. cbn [zip_with]. now rewrite Z.lxor_comm, IH. Qed.

(** The two libraries' rounds. *)
Lemma light_mix_cache_mix num cache i : 0 < num < 2 ^ 30 -> (i < Z.to_nat num)%nat ->
  light_mix num cache i = cache_mix (P := libethhash) num cache i.
Proof.
  intros N I. unfold light_mix, cache_mix. destruct (light_index num i N I) as [-> ->].
  destruct (cache !! i) as [item|]; [|reflexivity]. cbn [bind].
  destruct (item !! 0%nat) as [t|]; [|reflexivity]. cbn [bind].
  set (v := cache !! Z.to_nat (t mod num)). set (w := cache !! Z.to_nat (u32 _ mod num)).
  destruct v as [x|]; destruct w as [y|]; try reflexivity. cbn [bind]. do 2 f_equal.
  rewrite keccak512_64_sha3. unfold cache_node, sha3_node. do 3 f_equal.
  apply zip_xor_comm.
Qed.

Lemma light_fill_cache_fill n : forall item, light_fill n item = cache_fill (P := libethhash) n item.
Proof.
  induction n as [|n IH]; intros item; [reflexivity|]. cbn [light_fill cache_fill]. rewrite <- IH, keccak512_64_sha3.
  reflexivity.
Qed.

(** build_light_cache is ethash_compute_cache_nodes of libethhash. *)
Lemma build_light_cache_ethash num seed : 0 < num < 2 ^ 30 -> Forall is_byte seed ->
  exists cache, build_light_cache num seed = Some cache /\ nodes_ok num cache /\
    ethash_compute_cache_nodes (P := libethhash) (64 * num) seed = Some (Some cache).
Proof.
  intros N F. pose proof (ethash_compute_cache_nodes_ok (EP := libethhash) (dom := fun _ => True) (64 * num) seed ltac:(lia) I) as C.
  assert (M : 64 * num mod 64 = 0) by (rewrite Z.mul_comm; apply Z.mod_mul; lia).
  assert (D : 64 * num / 64 = num) by (rewrite Z.mul_comm; apply Z.div_mul; lia).
  rewrite M, D in C. cbn [Z.eqb] in C. destruct C as (cache & E & O). exists cache. split; [|auto].
  unfold ethash_compute_cache_nodes in E. rewrite M, D in E. cbn [Z.eqb negb] in E.
  assert (U : u32 num = num) by (apply Z.mod_small; lia). rewrite U, (proj2 (Z.eqb_neq num 0)) in E by lia.
  unfold build_light_cache. rewrite (proj2 (Z.leb_gt num 0)) by lia.
  rewrite keccak512_bytes_ok, <- SHA3_512_keccak, light_fill_cache_fill by exact F.
  apply bind_Some in E. destruct E as (cache' & E & E'). injection E' as <-. rewrite <- E. clear E.
  apply foldM_ext_eq. intros nodes k. unfold cache_round.
  assert (G : forall l nodes, (forall i, In i l -> (i < Z.to_nat num)%nat) ->
    foldM (light_mix num) nodes l = foldM (cache_mix (P := libethhash) num) nodes l).
  { induction l as [|i l IH]; intros ns I; [reflexivity|]. cbn [foldM].
    rewrite light_mix_cache_mix by (exact N || (apply I; now left)).
    destruct (cache_mix num ns i) as [ns'|]; [|reflexivity]. cbn [bind]. apply IH. intros j J. apply I. now right. }
  apply G. intros i I. apply in_seq in I. lia.
Qed.

(** ** Creating a context *)

Section Create.
Context {P : DagParams} {max_epoch : Z}.

(** The first [max_epoch] epochs have sizes that fit an int. *)
Class DagLaws : Prop := {
  init_size_ok : 2 ^ 30 <= full_dataset_init_size <= 3 * 2 ^ 29;
  size_epoch_ok e : 0 <= e < max_epoch ->
    exists e', size_epoch e = Some e' /\ 0 <= e' /\ full_dataset_init_size / 128 + 65536 * e' <= imax I32
}.

Context {DL : DagLaws}.

Lemma prime_131 : Z.prime 131.
Proof.
  destruct (is_odd_prime_ok 131) as (r & E & H); [unfold imax; lia | reflexivity|]. vm_compute in E. injection E as <-. now apply H.
Qed.

Lemma sized_prime init growth e : 0 <= e -> 0 <= growth -> 131 <= init -> init + e * growth <= imax I32 ->
  exists r, (let! g := ck I32 (e * growth) in let! b := ck I32 (init + g) in ethash_find_largest_prime b) = Some r /\
    largest_prime (init + e * growth) r /\ 131 <= r <= init + e * growth.
Proof.
  intros E G In B. assert (0 <= e * growth) by nia. unfold ck, imin. rewrite (proj2 (Z.leb_le _ (e * growth))) by lia.
  rewrite (proj2 (Z.leb_le (e * growth) _)) by lia. cbn [andb bind].
  rewrite !(proj2 (Z.leb_le _ _)) by lia. cbn [andb bind].
  destruct (find_largest_prime_ok (init + e * growth)) as (r & -> & Pr & L & M); [lia|]. exists r.
  split; [reflexivity|]. split; [now split|]. split; [apply M; [exact prime_131 | lia] | exact L].
Qed.

(** A context: its cache, its sizes, and an L1 cache made of the first items. *)
Definition context_ok (context : epoch_context) : Prop :=
  cache_ok context /\ 128 <= full_dataset_num_items context <= imax I32 /\
  length (memory context) = (if full context then 32 * Z.to_nat (full_dataset_num_items context) else 4096)%nat /\
  forall j, (j < 64)%nat -> slice 64 (memory context) j = item_2048 context (Z.of_nat j).

Lemma slice_zero n k j : (0 < n)%nat -> (n * (j + 1) <= k)%nat -> slice n (repeat 0 k) j = repeat 0 n.
Proof.
  intros N B. unfold slice. rewrite drop_repeat.
  replace (k - n * j)%nat with (n + (k - n * (j + 1)))%nat by nia. rewrite repeat_app. apply take_app_length'.
  symmetry. apply repeat_length.
Qed.

Lemma zero_first_word n : (2 <= n)%nat -> first_word_zero (repeat 0 n) = true.
Proof. intros N. destruct n as [|[|n]]; [lia | lia | reflexivity]. Qed.

(** The two halves of a slice. *)
Lemma slice_halves m j : slice 64 m j = slice 32 m (2 * j) ++ slice 32 m (2 * j + 1).
Proof.
  unfold slice. replace (32 * (2 * j + 1))%nat with (64 * j + 32)%nat by lia. replace (32 * (2 * j))%nat with (64 * j)%nat by lia.
  rewrite <- drop_drop. now rewrite take_take_drop.
Qed.

(** What the initialisation leaves: [k] items, then zeros. *)
Definition inited (context0 context : epoch_context) (k : nat) : Prop :=
  exists m, context = set_memory context0 m /\ length m = length (memory context0) /\
    drop (64 * k) m = repeat 0 (length m - 64 * k)%nat /\
    forall j, (j < k)%nat -> slice 64 m j = item_2048 context0 (Z.of_nat j).

Lemma init_loop context0 n : cache_ok context0 -> memory context0 = repeat 0 n -> (4096 <= n)%nat ->
  safe (foldM (fun context i => let! item := calculate_dataset_item_2048 context (Z.of_nat i) in store_2048 context i item)
          context0 (seq 0 64)) (fun context => inited context0 context 64).
Proof.
  intros C M N. apply (foldM_count (fun k context => inited context0 context k)).
  - intros i context I (m & -> & L & Zm & Sm). unfold calculate_dataset_item_2048.
    assert (C' : cache_ok (set_memory context0 m)) by exact C. rewrite interleaved_ok by exact C'. cbn [bind].
    unfold store_2048. change (concat (map (item_512 (set_memory context0 m)) _)) with (item_2048 context0 (Z.of_nat i)).
    cbn [set_memory memory]. rewrite M, repeat_length in L.
    destruct (slice_store 64 m i (item_2048 context0 (Z.of_nat i))) as (m' & -> & L' & D' & S').
    + apply (items_length context0 [_; _; _; _] C).
    + lia.
    + exists m'. split; [reflexivity|]. split; [rewrite L', M, repeat_length; exact L|]. split.
      * replace (64 * S i)%nat with (64 * (i + 1))%nat by lia. rewrite D'.
        replace (64 * (i + 1))%nat with (64 * i + 64)%nat by lia. rewrite <- drop_drop, Zm, drop_repeat, L'. f_equal. lia.
      * intros j J. rewrite S' by lia. destruct (Nat.eqb_spec j i) as [->|Nj]; [reflexivity | apply Sm; lia].
  - exists (memory context0). split; [now destruct context0|]. split; [reflexivity|]. split; [|lia].
    rewrite M, repeat_length, drop_repeat. reflexivity.
Qed.

Lemma items_set_memory context m indices :
  map (item_512 (set_memory context m)) indices = map (item_512 context) indices.
Proof. reflexivity. Qed.

Lemma slice_tail n m k j : (0 < n)%nat -> drop (n * k) m = repeat 0 (length m - n * k)%nat -> (k <= j)%nat ->
  (n * (j + 1) <= length m)%nat -> slice n m j = repeat 0 n.
Proof.
  intros N Zm K B. unfold slice. replace (n * j)%nat with (n * k + n * (j - k))%nat by nia.
  rewrite <- drop_drop, Zm. apply (slice_zero n (length m - n * k) (j - k) N). nia.
Qed.

(** What the initialisation gives. *)
Lemma inited_ok context0 context : cache_ok context0 -> (4096 <= length (memory context0))%nat -> inited context0 context 64 ->
  length (memory context) = length (memory context0) /\
  (forall j, (j < 64)%nat -> slice 64 (memory context) j = item_2048 context0 (Z.of_nat j)) /\
  filled 64 (item_2048 context0) (memory context) /\ filled 32 (item_1024 context0) (memory context).
Proof.
  intros C B (m & -> & L & Zm & Sm). cbn [set_memory memory]. split; [exact L|]. split; [exact Sm|]. split.
  - intros j J. destruct (Nat.lt_ge_cases j 64) as [G|G]; [right; now apply Sm | left].
    rewrite (slice_tail 64 m 64) by (exact Zm || lia). reflexivity.
  - intros j J. destruct (Nat.lt_ge_cases j 128) as [G|G]; [right | left].
    + pose proof (Nat.div_mod_eq j 2) as D. pose proof (Nat.mod_upper_bound j 2 ltac:(lia)).
      specialize (Sm (j / 2)%nat ltac:(lia)). rewrite slice_halves, item_2048_halves in Sm.
      assert (Li : forall i, length (item_1024 context0 i) = 32%nat) by (intros; apply (items_length context0 [_; _] C)).
      apply app_inj_1 in Sm; [|unfold slice; rewrite length_take, length_drop, Li; lia]. destruct Sm as [S0 S1].
      destruct (Nat.eq_dec (j mod 2)%nat 0%nat) as [E|E].
      * rewrite E, Nat.add_0_r in D. rewrite D at 1. rewrite S0. f_equal. lia.
      * replace (j mod 2)%nat with 1%nat in D by lia. rewrite D at 1. rewrite S1. f_equal. lia.
    + change (64 * 64)%nat with (32 * 128)%nat in Zm. rewrite (slice_tail 32 m 128) by (exact Zm || lia). reflexivity.
Qed.
End Create.

(** ** Created contexts *)

Section Contexts.
Context {P : DagParams} {max_epoch : Z} {DL : DagLaws (max_epoch := max_epoch)}.

Lemma num_items_ok e : 0 <= e < max_epoch -> exists e' cn dn, size_epoch e = Some e' /\
  ethash_calculate_light_cache_num_items e' = Some cn /\ largest_prime (262144 + e' * 2048) cn /\ 131 <= cn < 2 ^ 30 /\
  ethash_calculate_full_dataset_num_items e' = Some dn /\
  largest_prime (full_dataset_init_size / 128 + e' * 65536) dn /\ 131 <= dn <= imax I32.
Proof.
  intros E. destruct (size_epoch_ok e E) as (e' & Se & E' & B). pose proof init_size_ok as I.
  assert (D : 2 ^ 30 / 128 <= full_dataset_init_size / 128) by (apply Z.div_le_mono; lia). change (2 ^ 30 / 128) with 8388608 in D.
  assert (U : imax I32 = 2147483647) by reflexivity. rewrite U in B.
  destruct (sized_prime 262144 2048 e') as (cn & Ec & Pc & Bc); [lia | lia | lia | rewrite U; lia|].
  destruct (sized_prime (full_dataset_init_size / 128) 65536 e') as (dn & Ed & Pd & Bd); [lia | lia | lia | rewrite U; lia|].
  exists e', cn, dn. split; [exact Se|]. split; [exact Ec|]. split; [exact Pc|]. split; [lia|]. split; [exact Ed|].
  split; [exact Pd | rewrite U; lia].
Qed.

(** The numbers of items of a context of the sizes of epoch [e']. *)
Definition num_items_of (e' : Z) (context : epoch_context) : Prop :=
  largest_prime (262144 + e' * 2048) (light_cache_num_items context) /\
  largest_prime (full_dataset_init_size / 128 + e' * 65536) (full_dataset_num_items context).

Lemma create_epoch_context_sized e fl : 0 <= e < max_epoch ->
  create_epoch_context false e fl = Some None /\
  exists e' context, size_epoch e = Some e' /\ num_items_of e' context /\ create_epoch_context true e fl = Some (Some context) /\ context_ok context /\
    epoch_number context = e /\ full context = fl /\
    Z.prime (light_cache_num_items context) /\ light_cache_num_items context < 2 ^ 30 /\ Z.prime (full_dataset_num_items context) /\
    build_light_cache (light_cache_num_items context) (ethash_calculate_epoch_seed e) = Some (light_cache context) /\
    filled 64 (item_2048 context) (memory context) /\ filled 32 (item_1024 context) (memory context).
Proof.
  intros E. destruct (num_items_ok e E) as (e' & cn & dn & Se & Ec & Pc & Bc & Ed & Pd & Bd).
  unfold create_epoch_context. rewrite Se. cbn [bind]. rewrite Ec. cbn [bind]. rewrite Ed. cbn [bind negb].
  split; [reflexivity|]. destruct (build_light_cache_ethash cn (ethash_calculate_epoch_seed e)) as (cache & Eb & Oc & _);
    [lia | apply epoch_seed_ok|]. exists e'. rewrite Eb. cbn [bind].
  set (k := Z.to_nat _). set (context0 := mkcontext _ _ _ _ _ _).
  assert (K : k = (if fl then 32 * Z.to_nat dn else 4096)%nat).
  { unfold k, full_dataset_item_size, l1_cache_size. destruct fl; [|reflexivity].
    replace (dn * 128) with (32 * dn * 4) by lia. rewrite Z.div_mul by lia. lia. }
  assert (Kb : (4096 <= k)%nat) by (rewrite K; destruct fl; lia).
  assert (C : cache_ok context0) by (split; [cbn; lia | exact Oc]).
  pose proof (init_loop context0 k C eq_refl Kb) as L. change (Z.to_nat (l1_cache_size / 256)) with 64%nat.
  apply safe_some in L. destruct L as (context & -> & In). cbn [bind]. exists context. split; [reflexivity|].
  split; [destruct In as (m & -> & _); split; [exact Pc | exact Pd]|]. split; [reflexivity|].
  assert (Lk : length (memory context0) = k) by apply repeat_length.
  destruct (inited_ok context0 context C ltac:(rewrite Lk; exact Kb) In) as (Lm & S64 & F64 & F32).
  destruct In as (m & -> & _). cbn [set_memory memory] in *.
  split; [split; [exact C|]; split; [change (128 <= dn <= imax I32); lia|]; split; [etransitivity; [exact Lm|]; rewrite Lk; exact K | exact S64]|].
  split; [reflexivity|]. split; [reflexivity|]. split; [apply Pc|]. split; [apply Bc|]. split; [apply Pd|].
  split; [exact Eb|]. split; assumption.
Qed.

Lemma create_epoch_context_ok e fl : 0 <= e < max_epoch ->
  create_epoch_context false e fl = Some None /\
  exists context, create_epoch_context true e fl = Some (Some context) /\ context_ok context /\
    epoch_number context = e /\ full context = fl /\
    Z.prime (light_cache_num_items context) /\ light_cache_num_items context < 2 ^ 30 /\ Z.prime (full_dataset_num_items context) /\
    build_light_cache (light_cache_num_items context) (ethash_calculate_epoch_seed e) = Some (light_cache context) /\
    filled 64 (item_2048 context) (memory context) /\ filled 32 (item_1024 context) (memory context).
Proof.
  intros E. destruct (create_epoch_context_sized e fl E) as [N (e' & context & _ & _ & K)]. split; [exact N|]. now exists context.
Qed.
End Contexts.

(** ** Lookups in step *)

Section Lookups.
Context {P : DagParams}.

Definition same_items (c1 c2 : epoch_context) : Prop :=
  light_cache_num_items c1 = light_cache_num_items c2 /\ light_cache c1 = light_cache c2 /\
  full_dataset_num_items c1 = full_dataset_num_items c2.

Lemma same_items_512 c1 c2 : same_items c1 c2 -> forall i, item_512 c1 i = item_512 c2 i.
Proof. destruct c1, c2. intros (A & B & C) i. cbn in A, B, C. subst. reflexivity. Qed.

Lemma same_items_map c1 c2 ix : same_items c1 c2 -> map (item_512 c1) ix = map (item_512 c2) ix.
Proof. intros S. apply map_ext. now apply same_items_512. Qed.

Lemma fills_1024_ok context m : context_ok context -> fills 32 (item_1024 context) (memory context) m ->
  context_ok (set_memory context m).
Proof.
  intros (C & N & L & S) [Lm F]. split; [exact C|]. split; [exact N|]. cbn [set_memory memory full].
  split; [now rewrite Lm|]. intros j J. change (slice 64 m j = item_2048 context (Z.of_nat j)).
  specialize (S j J). rewrite slice_halves, item_2048_halves in *.
  assert (Lm0 : (4096 <= length (memory context))%nat) by (rewrite L; destruct (full context); lia).
  assert (Li : forall i, length (item_1024 context i) = 32%nat) by (intros; apply (items_length context [_; _] C)).
  apply app_inj_1 in S; [|unfold slice; rewrite length_take, length_drop, Li; lia]. destruct S as [S0 S1].
  f_equal.
  - destruct (F (2 * j)%nat ltac:(lia)) as [->| ->]; [exact S0 | f_equal; lia].
  - destruct (F (2 * j + 1)%nat ltac:(lia)) as [->| ->]; [exact S1 | f_equal; lia].
Qed.

Lemma fills_2048_ok context m : context_ok context -> fills 64 (item_2048 context) (memory context) m ->
  context_ok (set_memory context m).
Proof.
  intros (C & N & L & S) [Lm F]. split; [exact C|]. split; [exact N|]. cbn [set_memory memory full].
  split; [now rewrite Lm|]. intros j J. change (slice 64 m j = item_2048 context (Z.of_nat j)).
  assert (Lm0 : (4096 <= length (memory context))%nat) by (rewrite L; destruct (full context); lia).
  destruct (F j ltac:(lia)) as [->| ->]; [now apply S | reflexivity].
Qed.

(** A full context whose items of [n] words, zero until they are computed, are
    computed when a lookup asks for them. *)
Definition lazy_ok (n : nat) (item : epoch_context -> Z -> list Z) (context : epoch_context) : Prop :=
  context_ok context /\ full context = true /\ filled n (item context) (memory context).

Lemma lookup_1024_ok cl cf i : cache_ok cl -> lazy_ok 32 item_1024 cf -> same_items cl cf ->
  0 <= i < full_dataset_num_items cl ->
  pure_lookup calculate_dataset_item_1024 cl i = Some (item_1024 cl i, cl) /\ length (item_1024 cl i) = 32%nat /\
  exists m, lazy_lookup_1024 cf i = Some (item_1024 cl i, set_memory cf m) /\
    fills 32 (item_1024 cf) (memory cf) m /\ lazy_ok 32 item_1024 (set_memory cf m).
Proof.
  intros C ((Cf & N & L & S) & Fu & F) Si I. assert (Li : length (item_1024 cl i) = 32%nat) by exact (items_length cl [_; _] C).
  split; [|split; [exact Li|]].
  - unfold pure_lookup, calculate_dataset_item_1024. now rewrite interleaved_ok by exact C.
  - destruct (Z_of_nat_complete i) as [k ->]; [lia|].
    assert (E : item_1024 cl (Z.of_nat k) = item_1024 cf (Z.of_nat k)) by (unfold item_1024; now rewrite (same_items_map cl cf)).
    destruct Si as (_ & _ & En). rewrite En in I. rewrite E in *.
    destruct (lazy_lookup_ok 32 calculate_dataset_item_1024 (item_1024 cf) cf k) as (m & El & Fm).
    + intros m. unfold calculate_dataset_item_1024. rewrite interleaved_ok by exact Cf. reflexivity.
    + exact Li.
    + rewrite L, Fu. lia.
    + exact F.
    + exists m. split; [exact El|]. split; [exact Fm|].
      split; [apply fills_1024_ok; [split; [exact Cf|]; split; [exact N|]; split; [exact L | exact S] | exact Fm]|]. split; [exact Fu|].
      apply (fills_filled _ _ _ _ Fm F).
Qed.

(** Dataset items of 2048 bits, of which the last 1024-bit item is no part. *)
Lemma lookup_2048_ok cl cf i : cache_ok cl -> lazy_ok 64 item_2048 cf -> same_items cl cf ->
  0 <= i < full_dataset_num_items cl / 2 ->
  pure_lookup calculate_dataset_item_2048 cl i = Some (item_2048 cl i, cl) /\ length (item_2048 cl i) = 64%nat /\
  exists m, lazy_lookup_2048 cf i = Some (item_2048 cl i, set_memory cf m) /\
    fills 64 (item_2048 cf) (memory cf) m /\ lazy_ok 64 item_2048 (set_memory cf m).
Proof.
  intros C ((Cf & N & L & S) & Fu & F) Si I. assert (Li : length (item_2048 cl i) = 64%nat) by exact (items_length cl [_; _; _; _] C).
  split; [|split; [exact Li|]].
  - unfold pure_lookup, calculate_dataset_item_2048. now rewrite interleaved_ok by exact C.
  - destruct (Z_of_nat_complete i) as [k ->]; [lia|].
    assert (E : item_2048 cl (Z.of_nat k) = item_2048 cf (Z.of_nat k)) by (unfold item_2048; now rewrite (same_items_map cl cf)).
    destruct Si as (_ & _ & En). rewrite En in I. rewrite E in *.
    pose proof (Z.div_mod (full_dataset_num_items cf) 2 ltac:(lia)). pose proof (Z.mod_pos_bound (full_dataset_num_items cf) 2 ltac:(lia)).
    destruct (lazy_lookup_ok 64 calculate_dataset_item_2048 (item_2048 cf) cf k) as (m & El & Fm).
    + intros m. unfold calculate_dataset_item_2048. rewrite interleaved_ok by exact Cf. reflexivity.
    + exact Li.
    + rewrite L, Fu. lia.
    + exact F.
    + exists m. split; [exact El|]. split; [exact Fm|].
      split; [apply fills_2048_ok; [split; [exact Cf|]; split; [exact N|]; split; [exact L | exact S] | exact Fm]|]. split; [exact Fu|].
      apply (fills_filled _ _ _ _ Fm F).
Qed.
End Lookups.
