(* ===== verification/ProgpowEthash.v ===== *)
(** The Ethash hash of the ProgPoW libraries (ethash/ethash.cpp): hash_kernel over a
    light context, which computes the dataset items it needs, and over a full one,
    which keeps them; verification, nonce search and find_epoch_number with its
    thread-local cache. *)
From Stdlib Require Import ZArith Lia List Bool.
From stdpp Require Import base list.
From S2P Require Import Prelude CInt Keccak SpongeSpec Sponge Blocks EthashData EthashCore Ethash Primes ProgpowDag.
Import ListNotations.
Local Open Scope Z_scope.

Section Hash.
Context {P : DagParams}.

(** ** The Ethash hash *)

Definition hash_seed (header_hash : list Z) (nonce : Z) : list Z := keccak512_bytes (header_hash ++ le_bytes 8 nonce).
Definition hash_final (seed mix_hash : list Z) : list Z := keccak256_bytes (seed ++ mix_hash).

(** One access of hash_kernel. *)
Definition kernel_access (lookup : epoch_context -> Z -> option (list Z * epoch_context)) (index_limit seed_init : Z)
    '((mix, context) : list Z * epoch_context) (i : nat) : option (list Z * epoch_context) :=
  let! w := mix !! (i mod 32)%nat in
  if index_limit =? 0 then None
  else
    let p := fnv1 (Z.lxor (Z.of_nat i) seed_init) w mod index_limit in
    let! (newdata, context) := lookup context p in
    Some (zip_with fnv1 mix newdata, context).

Definition kernel_reduce (mix : list Z) (i : nat) : Z :=
  let h1 := fnv1 (lane mix i) (lane mix (i + 1)) in
  let h2 := fnv1 h1 (lane mix (i + 2)) in
  fnv1 h2 (lane mix (i + 3)).

Definition hash_kernel (context : epoch_context) (seed : list Z)
    (lookup : epoch_context -> Z -> option (list Z * epoch_context)) : option (list Z * epoch_context) :=
  let index_limit := u32 (full_dataset_num_items context) in
  let words := bytes_node seed in
  let! (mix, context) := foldM (kernel_access lookup index_limit (lane words 0)) (words ++ words, context)
                           (seq 0 num_dataset_accesses) in
  Some (node_bytes (map (kernel_reduce mix) [0; 4; 8; 12; 16; 20; 24; 28]%nat), context).

(** The final hash and the mix hash. *)
Definition ethash_hash_with (lookup : epoch_context -> Z -> option (list Z * epoch_context)) (context : epoch_context)
    (header_hash : list Z) (nonce : Z) : option ((list Z * list Z) * epoch_context) :=
  let seed := hash_seed header_hash nonce in
  let! (mix_hash, context) := hash_kernel context seed lookup in
  Some ((hash_final seed mix_hash, mix_hash), context).

(** ethash_hash on a light context, and hash on a full one. *)
Definition ethash_hash := ethash_hash_with (pure_lookup calculate_dataset_item_1024).
Definition hash_full := ethash_hash_with lazy_lookup_1024.

Definition ethash_verify_final_hash (header_hash mix_hash : list Z) (nonce : Z) (boundary : list Z) : bool :=
  let seed := hash_seed header_hash nonce in
  is_less_or_equal (hash_final seed mix_hash) boundary.

Definition ethash_verify (context : epoch_context) (header_hash mix_hash : list Z) (nonce : Z) (boundary : list Z)
  : option bool :=
  let seed := hash_seed header_hash nonce in
  if negb (is_less_or_equal (hash_final seed mix_hash) boundary) then Some false
  else
    let! (expected_mix_hash, _) := hash_kernel context seed (pure_lookup calculate_dataset_item_1024) in
    Some (is_equal expected_mix_hash mix_hash).
End Hash.

(** ** Searching *)

(** The loop of search_light and search over a hash function that may fill the
    context; [None] in the result is the empty search_result. *)
Fixpoint search_loop (hash : epoch_context -> Z -> option ((list Z * list Z) * epoch_context)) (boundary : list Z)
    (n : nat) (nonce : Z) (context : epoch_context)
  : option (option ((list Z * list Z) * Z) * epoch_context) :=
  match n with
  | O => Some (None, context)
  | S n =>
      let! (r, context) := hash context nonce in
      if is_less_or_equal (fst r) boundary then Some (Some (r, nonce), context)
      else search_loop hash boundary n (u64 (nonce + 1)) context
  end.

(** [for (nonce = start_nonce; nonce < end_nonce; ++nonce)] *)
Definition search (hash : epoch_context -> Z -> option ((list Z * list Z) * epoch_context)) (boundary : list Z)
    (context : epoch_context) (start_nonce iterations : Z) : option (option ((list Z * list Z) * Z) * epoch_context) :=
  let end_nonce := u64 (start_nonce + iterations) in
  search_loop hash boundary (Z.to_nat (end_nonce - start_nonce)) start_nonce context.

(** ** find_epoch_number *)

(** The thread-local cached_epoch_number and cached_seed. *)
Record seed_cache : Type := mkcache { cached_epoch_number : Z; cached_seed : list Z }.

Definition num_tries : Z := 30000.

(** word32s[0] of a hash256. *)
Definition seed_word (s : list Z) : Z := le_val (take 4 s).

Fixpoint seed_search (n : nat) (i : Z) (s : list Z) (seed_part : Z) (st : seed_cache) : Z * seed_cache :=
  match n with
  | O => (-1, st)
  | S n =>
      if seed_word s =? seed_part then (i, mkcache i s)
      else seed_search n (i + 1) (keccak256_bytes s) seed_part st
  end.

Definition find_epoch_number (st : seed_cache) (seed : list Z) : Z * seed_cache :=
  let seed_part := seed_word seed in
  let e := cached_epoch_number st in
  let s := cached_seed st in
  if seed_word s =? seed_part then (e, st)
  else
    let s := keccak256_bytes s in
    if seed_word s =? seed_part then (e + 1, mkcache (e + 1) s)
    else seed_search (Z.to_nat num_tries) 0 (repeat 0 32%nat) seed_part st.

(** ** The hash over both kinds of contexts *)

Lemma zip_with_length_eq {A B C} (f : A -> B -> C) l k : length l = length k -> length (zip_with f l k) = length l.
Proof. intros E. rewrite length_zip_with. lia. Qed.

Section HashLemmas.
Context {P : DagParams}.

Lemma seed_words header nonce : Forall is_byte header ->
  length (hash_seed header nonce) = 64%nat /\ Forall is_byte (hash_seed header nonce) /\ node_ok (bytes_node (hash_seed header nonce)).
Proof.
  intros F. unfold hash_seed. assert (B : Forall is_byte (header ++ le_bytes 8 nonce))
    by (apply Forall_app; split; [exact F | apply le_bytes_byte]).
  split; [|split; [|now apply keccak512_node_ok]]; rewrite keccak512_bytes_ok by exact B; now apply sponge_bytes; lia.
Qed.

Lemma final_ok seed mh : Forall is_byte seed -> Forall is_byte mh ->
  length (hash_final seed mh) = 32%nat /\ Forall is_byte (hash_final seed mh).
Proof. intros S M. apply keccak256_32, Forall_app. auto. Qed.

Lemma access_index x n : 0 < n -> 0 <= x mod n < n.
Proof. apply Z.mod_pos_bound. Qed.

Lemma kernel_light cl seed : cache_ok cl -> 0 < full_dataset_num_items cl <= imax I32 -> node_ok (bytes_node seed) ->
  exists mh, hash_kernel cl seed (pure_lookup calculate_dataset_item_1024) = Some (mh, cl) /\
    length mh = 32%nat /\ Forall is_byte mh.
Proof.
  intros C N S. unfold hash_kernel. assert (U : u32 (full_dataset_num_items cl) = full_dataset_num_items cl)
    by (apply Z.mod_small; unfold imax in N; lia). rewrite U.
  assert (L : safe (foldM (kernel_access (pure_lookup calculate_dataset_item_1024) (full_dataset_num_items cl)
    (lane (bytes_node seed) 0)) (bytes_node seed ++ bytes_node seed, cl) (seq 0 num_dataset_accesses))
    (fun '(mix, c) => length mix = 32%nat /\ c = cl)).
  { apply foldM_safe; [|split; [rewrite length_app, S; reflexivity | reflexivity]].
    intros [mix c] i _ [Lm ->]. unfold kernel_access.
    destruct (lookup_lt_is_Some_2 mix (i mod 32)) as [w ->]; [rewrite Lm; now apply Nat.mod_upper_bound|]. cbn [bind].
    rewrite (proj2 (Z.eqb_neq _ 0)) by lia. unfold pure_lookup, calculate_dataset_item_1024.
    rewrite interleaved_ok by exact C. cbn [bind safe]. split; [|reflexivity]. rewrite zip_with_length_eq; [exact Lm|].
    rewrite Lm. symmetry. exact (items_length cl [_; _] C). }
  apply safe_some in L. destruct L as ([mix c] & -> & Lm & ->). cbn [bind]. eexists. split; [reflexivity|].
  split; [rewrite node_bytes_length; reflexivity | apply node_bytes_byte].
Qed.

Lemma kernel_full cl cf seed : cache_ok cl -> lazy_ok 32 item_1024 cf -> same_items cl cf -> node_ok (bytes_node seed) ->
  exists mh m, hash_kernel cl seed (pure_lookup calculate_dataset_item_1024) = Some (mh, cl) /\
    hash_kernel cf seed lazy_lookup_1024 = Some (mh, set_memory cf m) /\ lazy_ok 32 item_1024 (set_memory cf m).
Proof.
  intros C Lz Si S. pose proof Lz as ((_ & N & _) & _). pose proof Si as (_ & _ & En). unfold hash_kernel.
  assert (U : u32 (full_dataset_num_items cf) = full_dataset_num_items cf) by (apply Z.mod_small; unfold imax in N; lia).
  rewrite <- En in *. rewrite U.
  set (R := fun (a b : list Z * epoch_context) => fst a = fst b /\ length (fst a) = 32%nat /\ snd a = cl /\
    exists m, snd b = set_memory cf m /\ lazy_ok 32 item_1024 (set_memory cf m)).
  destruct (foldM_sim R (kernel_access (pure_lookup calculate_dataset_item_1024) (full_dataset_num_items cl) (lane (bytes_node seed) 0))
    (kernel_access lazy_lookup_1024 (full_dataset_num_items cl) (lane (bytes_node seed) 0)) (seq 0 num_dataset_accesses))
    with (a := (bytes_node seed ++ bytes_node seed, cl)) (a' := (bytes_node seed ++ bytes_node seed, cf))
    as ([mix c] & [mix' c'] & E & E' & H).
  - intros [mix c] [mix' c'] i _ (Em & Lm & Ec & m & Ec' & Lzm). cbn [fst snd] in *. subst mix' c c'. unfold kernel_access.
    destruct (lookup_lt_is_Some_2 mix (i mod 32)) as [w ->]; [rewrite Lm; now apply Nat.mod_upper_bound|]. cbn [bind].
    rewrite (proj2 (Z.eqb_neq _ 0)) by lia.
    set (p := fnv1 _ w mod _). assert (Pb : 0 <= p < full_dataset_num_items cl) by (apply Z.mod_pos_bound; lia).
    destruct (lookup_1024_ok cl (set_memory cf m) p C Lzm Si Pb) as (-> & Li & m' & -> & _ & Lz'). cbn [bind].
    eexists _, _. split; [reflexivity|]. split; [reflexivity|]. split; [reflexivity|]. cbn [fst snd].
    split; [rewrite zip_with_length_eq; lia|]. split; [reflexivity|]. exists m'. auto.
  - split; [reflexivity|]. split; [cbn [fst]; rewrite length_app, S; reflexivity|]. split; [reflexivity|].
    exists (memory cf). cbn [snd]. destruct cf. auto.
  - rewrite E, E'. cbn [bind]. destruct H as (Em & _ & Ec & m & Ec' & Lz'). cbn [fst snd] in *. subst mix' c c'.
    eexists _, m. auto.
Qed.

(** The hash over a light context. *)
Lemma light_hash_ok cl header nonce : cache_ok cl -> 0 < full_dataset_num_items cl <= imax I32 -> Forall is_byte header ->
  exists final mh, ethash_hash cl header nonce = Some ((final, mh), cl) /\
    hash_kernel cl (hash_seed header nonce) (pure_lookup calculate_dataset_item_1024) = Some (mh, cl) /\
    final = hash_final (hash_seed header nonce) mh /\
    length mh = 32%nat /\ length final = 32%nat /\ Forall is_byte final.
Proof.
  intros C N F. destruct (seed_words header nonce F) as (_ & Fs & S).
  destruct (kernel_light cl (hash_seed header nonce) C N S) as (mh & E & L & Fm).
  unfold ethash_hash, ethash_hash_with. rewrite E. cbn [bind]. eexists _, mh. split; [reflexivity|].
  destruct (final_ok _ mh Fs Fm). auto 10.
Qed.

(** ** Verification *)

Lemma ethash_verify_ok cl header nonce mh boundary : cache_ok cl -> 0 < full_dataset_num_items cl <= imax I32 ->
  Forall is_byte header -> Forall is_byte mh -> length boundary = 32%nat -> Forall is_byte boundary ->
  exists b, ethash_verify cl header mh nonce boundary = Some b /\
    (b = true <-> exists final, ethash_hash cl header nonce = Some ((final, mh), cl) /\ be_val final <= be_val boundary).
Proof.
  intros C N Fh Fm Lb Fb. destruct (light_hash_ok cl header nonce C N Fh) as (final & mh' & E & K & Ef & Lm & Lf & Ff).
  destruct (seed_words header nonce Fh) as (_ & Fs & _). destruct (final_ok _ mh Fs Fm) as [Lm2 Fm2].
  unfold ethash_verify. rewrite E, K. rewrite is_less_or_equal_ok by assumption. cbn [bind].
  destruct (Z.leb_spec (be_val (hash_final (hash_seed header nonce) mh)) (be_val boundary)) as [G|G]; cbn [negb].
  - eexists. split; [reflexivity|]. rewrite is_equal_ok. split.
    + intros <-. exists final. split; [reflexivity | now rewrite Ef].
    + intros (f & Q & _). now injection Q as _ <-.
  - exists false. split; [reflexivity|]. split; [discriminate|]. intros (f & Q & B). injection Q as Q1 Q2. subst. lia.
Qed.

(** ** The hash of libethhash *)

Section Ethereum.
Context (parents : full_dataset_item_parents = ETHASH_DATASET_PARENTS) (accesses : num_dataset_accesses = ETHASH_ACCESSES).

(** The light client of libethhash over the same cache. *)
Definition light_of (cl : epoch_context) (bn : Z) : ethash_light :=
  mklight (light_cache cl) (64 * light_cache_num_items cl) bn.

Lemma item_512_ethash cl bn i : cache_ok cl -> light_cache_num_items cl < 2 ^ 32 -> 0 <= i < 2 ^ 32 ->
  ethash_calculate_dag_item i (light_of cl bn) = Some (item_512 cl i).
Proof.
  intros C N I. destruct (item_512_some cl i C) as [E _]. pose proof C as [Cn _].
  unfold ethash_calculate_dag_item, light_of. cbn [cache_size cache].
  assert (U : u32 (64 * light_cache_num_items cl / 64) = light_cache_num_items cl)
    by (rewrite (Z.mul_comm 64), Z.div_mul by lia; apply Z.mod_small; lia).
  rewrite U, (proj2 (Z.eqb_neq _ 0)) by lia.
  unfold calculate_dataset_item_512, item_init in E. rewrite (proj2 (Z.eqb_neq _ 0)) in E by lia.
  assert (Ui : u32 i = i) by (apply Z.mod_small; lia). rewrite Ui in E.
  destruct (light_cache cl !! _) as [n|] eqn:En; [|discriminate]. cbn [bind] in *.
  destruct (n !! 0%nat) as [w|]; [|discriminate]. cbn [bind] in *.
  rewrite <- keccak512_64_sha3. apply bind_Some in E. destruct E as (item & E & Ef). rewrite parents in E.
  set (n0 := keccak512_64 _) in *.
  assert (G : forall l n0 item, foldM (item_update cl) (mkitem i n0) l = Some item ->
    foldM (dag_parent (light_cache_num_items cl) i (light_of cl bn)) n0 l = Some (mix item)).
  { induction l as [|j l IH]; intros n1 it H; cbn [foldM] in *; [now injection H as <-|].
    apply bind_Some in H. destruct H as (it1 & H1 & H). unfold item_update in H1. cbn [mix seed] in H1.
    unfold dag_parent, light_of. cbn [cache].
    apply bind_Some in H1. destruct H1 as (x & Hx & H1). change NODE_WORDS with 16%nat. rewrite Hx. cbn [bind].
    apply bind_Some in H1. destruct H1 as (parent & Hp & H1). injection H1 as <-.
    change (fnv_hash (Z.lxor i (Z.of_nat j)) x) with (fnv1 (Z.lxor i (Z.of_nat j)) x). rewrite Hp. cbn [bind]. now apply IH. }
  unfold light_of in G. rewrite (G _ _ _ E). cbn [bind]. rewrite <- keccak512_64_sha3. injection Ef as <-. reflexivity.
Qed.

(** compress overwrites words it has read. *)
Lemma compress_reduce mix : length mix = 32%nat ->
  take 8 (fold_left compress [0; 4; 8; 12; 16; 20; 24; 28]%nat mix) =
  map (kernel_reduce mix) [0; 4; 8; 12; 16; 20; 24; 28]%nat.
Proof.
  intros L. do 32 (destruct mix as [|? mix]; [discriminate|]). destruct mix; [|discriminate].
  unfold kernel_reduce. change fnv1 with fnv_hash. cbv -[fnv_hash]. reflexivity.
Qed.

Lemma words_twice words : node_ok words -> map (fun w => lane words (w mod NODE_WORDS)%nat) (seq 0 MIX_WORDS) = words ++ words.
Proof.
  unfold node_ok, NODE_WORDS. intros L. do 16 (destruct words as [|? words]; [discriminate|]). destruct words; [reflexivity | discriminate].
Qed.

Lemma zip_app_take {A B C} (f : A -> B -> C) (l : list A) (a b : list B) n : (n <= length l)%nat -> length a = n ->
  zip_with f l (a ++ b) = zip_with f (take n l) a ++ zip_with f (drop n l) b.
Proof. intros N La. rewrite <- (take_drop n l) at 1. apply zip_with_app. rewrite length_take. lia. Qed.

Lemma access_ethash cl bn s0 mix i mix' : cache_ok cl -> light_cache_num_items cl < 2 ^ 32 ->
  0 < full_dataset_num_items cl <= imax I32 -> length mix = 32%nat ->
  kernel_access (pure_lookup calculate_dataset_item_1024) (full_dataset_num_items cl) s0 (mix, cl) i = Some (mix', cl) ->
  access (dag_node None (Some (light_of cl bn))) (full_dataset_num_items cl) s0 mix i = Some mix'.
Proof.
  intros C Nc N L E. unfold kernel_access in E. unfold access. change MIX_WORDS with 32%nat.
  apply bind_Some in E. destruct E as (w & -> & E). cbn [bind]. rewrite (proj2 (Z.eqb_neq _ 0)) in E by lia.
  unfold pure_lookup, calculate_dataset_item_1024 in E. rewrite interleaved_ok in E by exact C. cbn [bind map concat] in E.
  injection E as <-. change (fnv_hash (Z.lxor s0 (Z.of_nat i)) w) with (fnv1 (Z.lxor s0 (Z.of_nat i)) w).
  rewrite (Z.lxor_comm s0). set (p := fnv1 _ w mod _). assert (Pb : 0 <= p < full_dataset_num_items cl) by (apply Z.mod_pos_bound; lia).
  assert (U0 : u32 (u32 (MIX_NODES * p) + 0) = p * 2)
    by (unfold u32, MIX_NODES; rewrite (Z.mod_small (2 * p)), Z.mod_small by (unfold imax in N; lia); lia).
  assert (U1 : u32 (u32 (MIX_NODES * p) + 1) = p * 2 + 1)
    by (unfold u32, MIX_NODES; rewrite (Z.mod_small (2 * p)), Z.mod_small by (unfold imax in N; lia); lia).
  rewrite U0, U1. cbn [dag_node bind]. unfold imax in N. rewrite !item_512_ethash by (exact C || lia). cbn [bind]. f_equal.
  destruct (item_512_some cl (p * 2) C) as [_ N0]. destruct (item_512_some cl (p * 2 + 1) C) as [_ N1].
  change fnv_hash with fnv1. change NODE_WORDS with 16%nat. rewrite app_nil_r.
  rewrite (zip_app_take fnv1 mix _ _ 16) by (exact N0 || lia).
  assert (La : length (zip_with fnv1 (take 16 mix) (item_512 cl (p * 2))) = 16%nat).
  { rewrite zip_with_length_eq; rewrite length_take, ?N0; change NODE_WORDS with 16%nat; lia. }
  now rewrite take_app_length', drop_app_length' by (symmetry; exact La).
Qed.

(** The light hash is the one of libethhash over a dataset of as many pages. *)
Lemma ethash_hash_ethereum cl bn header nonce : cache_ok cl -> light_cache_num_items cl < 2 ^ 32 ->
  0 < full_dataset_num_items cl <= imax I32 -> Forall is_byte header ->
  exists r, ethash_hash cl header nonce = Some (r, cl) /\
    EthashCore.ethash_hash (P := libethhash) None (Some (light_of cl bn)) (128 * full_dataset_num_items cl) header nonce = Some (Some r).
Proof.
  intros C Nc N F. destruct (light_hash_ok cl header nonce C N F) as (final & mh & E & K & Ef & _).
  destruct (seed_words header nonce F) as (Ls & Fs & S). exists (final, mh). split; [exact E|]. clear E.
  assert (Fm : Forall is_byte (header ++ le_bytes 8 nonce)) by (apply Forall_app; split; [exact F | apply le_bytes_byte]).
  assert (Es : mix_512 (EthashParams := libethhash) (header ++ le_bytes 8 nonce) = hash_seed header nonce).
  { unfold hash_seed. rewrite keccak512_bytes_ok by exact Fm. apply SHA3_512_keccak. }
  unfold EthashCore.ethash_hash. set (num := full_dataset_num_items cl) in *. unfold imax in N.
  assert (M : 128 * num mod 32 = 0) by (replace (128 * num) with (4 * num * 32) by lia; apply Z.mod_mul; lia).
  assert (U : u32 (128 * num / 128) = num) by (rewrite (Z.mul_comm 128), Z.div_mul by lia; apply Z.mod_small; lia).
  rewrite M, U, (proj2 (Z.eqb_neq num 0)) by lia. cbn [Z.eqb negb]. rewrite Es, words_twice by exact S.
  unfold hash_kernel in K. fold num in K. assert (Un : u32 num = num) by (apply Z.mod_small; lia). rewrite Un in K.
  apply bind_Some in K. destruct K as ([mix c] & K & Km). rewrite accesses in K.
  set (words := bytes_node (hash_seed header nonce)) in *.
  assert (G : forall l mix0 mix1 c1, length mix0 = 32%nat ->
    foldM (kernel_access (pure_lookup calculate_dataset_item_1024) num (lane words 0)) (mix0, cl) l = Some (mix1, c1) ->
    foldM (access (dag_node None (Some (light_of cl bn))) num (lane words 0)) mix0 l = Some mix1 /\ length mix1 = 32%nat).
  { induction l as [|i l IH]; intros mix0 mix1 c1 L H; cbn [foldM] in *; [injection H as <- <-; auto|].
    apply bind_Some in H. destruct H as ([mix2 c2] & H2 & H).
    assert (c2 = cl /\ length mix2 = 32%nat) as [-> L2].
    { unfold kernel_access in H2. apply bind_Some in H2. destruct H2 as (w & _ & H2).
      destruct (num =? 0); [discriminate|]. unfold pure_lookup, calculate_dataset_item_1024 in H2.
      rewrite interleaved_ok in H2 by exact C. cbn [bind] in H2. injection H2 as <- <-. split; [reflexivity|].
      rewrite zip_with_length_eq; [exact L|]. rewrite L. symmetry. exact (items_length cl [_; _] C). }
    rewrite (access_ethash cl bn _ _ _ mix2 C Nc) by (unfold imax; assumption || fold num; lia). cbn [bind]. now apply (IH mix2 mix1 c1). }
  assert (Lw : length (words ++ words) = 32%nat) by (rewrite length_app, S; reflexivity).
  destruct (G _ _ _ _ Lw K) as [-> Lx]. cbn [bind].
  rewrite compress_reduce by exact Lx. apply (inj Some), (f_equal fst) in Km. cbn [fst] in Km. unfold words in *.
  rewrite node_bytes_bytes_node by assumption. rewrite Km. do 3 f_equal. rewrite Ef.
  change (SHA3_256 (hash_seed header nonce ++ mh) = keccak256_bytes (hash_seed header nonce ++ mh)).
  rewrite SHA3_256_keccak, keccak256_bytes_ok; [reflexivity|]. apply Forall_app. split; [exact Fs|].
  rewrite <- Km. apply node_bytes_byte.
Qed.
End Ethereum.
End HashLemmas.

(** ** Searching *)

Section Search.
Context (hash : epoch_context -> Z -> option ((list Z * list Z) * epoch_context)).
Context (Inv : epoch_context -> Prop) (res : Z -> list Z * list Z).
Context (Hash : forall context nonce, Inv context -> exists context', hash context nonce = Some (res nonce, context') /\ Inv context').

(** What a search over the nonces from [first] to before [last] returns. *)
Definition first_solution (boundary : list Z) (first last : Z) (out : option ((list Z * list Z) * Z)) : Prop :=
  match out with
  | Some (r, nonce) => first <= nonce < last /\ r = res nonce /\ is_less_or_equal (fst r) boundary = true /\
      forall k, first <= k < nonce -> is_less_or_equal (fst (res k)) boundary = false
  | None => forall k, first <= k < last -> is_less_or_equal (fst (res k)) boundary = false
  end.

Lemma search_loop_ok boundary n : forall nonce context, Inv context -> 0 <= nonce -> nonce + Z.of_nat n < 2 ^ 64 ->
  exists out context', search_loop hash boundary n nonce context = Some (out, context') /\ Inv context' /\
    first_solution boundary nonce (nonce + Z.of_nat n) out.
Proof.
  induction n as [|n IH]; intros nonce context I N B; cbn [search_loop].
  - exists None, context. split; [reflexivity|]. split; [exact I|]. intros k K. lia.
  - destruct (Hash context nonce I) as (context' & -> & I'). cbn [bind].
    destruct (is_less_or_equal (fst (res nonce)) boundary) eqn:E.
    + exists (Some (res nonce, nonce)), context'. split; [reflexivity|]. split; [exact I'|].
      split; [lia|]. split; [reflexivity|]. split; [exact E|]. intros k K. lia.
    + assert (U : u64 (nonce + 1) = nonce + 1) by (apply Z.mod_small; lia). rewrite U.
      destruct (IH (nonce + 1) context' I' ltac:(lia) ltac:(lia)) as (out & context'' & -> & I'' & F).
      exists out, context''. split; [reflexivity|]. split; [exact I''|].
      replace (nonce + Z.of_nat (S n)) with (nonce + 1 + Z.of_nat n) by lia.
      assert (G : forall k last, (nonce + 1 <= k < last -> is_less_or_equal (fst (res k)) boundary = false) ->
        nonce <= k < last -> is_less_or_equal (fst (res k)) boundary = false).
      { intros k last H K. destruct (Z.eq_dec k nonce) as [->|]; [exact E | apply H; lia]. }
      destruct out as [[r x]|]; cbn [first_solution] in *; [|eauto].
      destruct F as (Fx & Fr & Fl & Fk). split; [lia|]. split; [exact Fr|]. split; [exact Fl|]. eauto.
Qed.

Lemma search_ok boundary context start iterations : Inv context -> 0 <= start < 2 ^ 64 -> 0 <= iterations < 2 ^ 64 ->
  exists out context', search hash boundary context start iterations = Some (out, context') /\ Inv context' /\
    (if start + iterations <? 2 ^ 64 then first_solution boundary start (start + iterations) out else out = None).
Proof.
  intros I B N. unfold search. destruct (Z.ltb_spec (start + iterations) (2 ^ 64)) as [G|G].
  - assert (U : u64 (start + iterations) = start + iterations) by (apply Z.mod_small; lia). rewrite U.
    destruct (search_loop_ok boundary (Z.to_nat (start + iterations - start)) start context I) as (out & c & -> & Ic & F); [lia | lia|].
    exists out, c. split; [reflexivity|]. split; [exact Ic|]. rewrite Z2Nat.id in F by lia.
    now replace (start + (start + iterations - start)) with (start + iterations) in F by lia.
  - assert (U : u64 (start + iterations) = start + iterations - 2 ^ 64).
    { symmetry. apply (Z.mod_unique _ (2 ^ 64) 1); [left; lia | lia]. }
    rewrite U. replace (Z.to_nat _) with 0%nat by lia. exists None, context. auto.
Qed.
End Search.

(** ** find_epoch_number *)

(** The cached seed is the one of the cached epoch. *)
Definition seed_cache_ok (st : seed_cache) : Prop :=
  0 <= cached_epoch_number st /\ cached_seed st = ethash_calculate_epoch_seed (cached_epoch_number st).

Lemma epoch_seed_next e : 0 <= e -> ethash_calculate_epoch_seed (e + 1) = keccak256_bytes (ethash_calculate_epoch_seed e).
Proof. intros E. unfold ethash_calculate_epoch_seed. now replace (Z.to_nat (e + 1)) with (S (Z.to_nat e)) by lia. Qed.

(** A found epoch, or none among [n]. *)
Definition found (seed : list Z) (n : Z) (e : Z) : Prop :=
  0 <= e /\ seed_word (ethash_calculate_epoch_seed e) = seed_word seed \/
  e = -1 /\ forall k, 0 <= k < n -> seed_word (ethash_calculate_epoch_seed k) <> seed_word seed.

Lemma seed_search_ok seed st n : seed_cache_ok st -> forall i, 0 <= i ->
  (forall k, 0 <= k < i -> seed_word (ethash_calculate_epoch_seed k) <> seed_word seed) ->
  let '(e, st') := seed_search n i (ethash_calculate_epoch_seed i) (seed_word seed) st in
  seed_cache_ok st' /\ found seed (i + Z.of_nat n) e.
Proof.
  intros C. induction n as [|n IH]; intros i I K; cbn [seed_search].
  - split; [exact C|]. right. split; [reflexivity|]. intros k B. apply K. lia.
  - destruct (Z.eqb_spec (seed_word (ethash_calculate_epoch_seed i)) (seed_word seed)) as [E|E].
    + split; [split; [exact I | reflexivity]|]. left. auto.
    + rewrite <- epoch_seed_next by exact I. specialize (IH (i + 1) ltac:(lia)).
      replace (i + Z.of_nat (S n)) with (i + 1 + Z.of_nat n) by lia. apply IH.
      intros k B. destruct (Z.eq_dec k i) as [->|]; [exact E | apply K; lia].
Qed.

Lemma find_epoch_number_ok st seed : seed_cache_ok st ->
  let '(e, st') := find_epoch_number st seed in seed_cache_ok st' /\ found seed num_tries e.
Proof.
  intros C. pose proof C as [N E]. unfold find_epoch_number. rewrite E, <- epoch_seed_next by exact N.
  destruct (Z.eqb_spec (seed_word (ethash_calculate_epoch_seed (cached_epoch_number st))) (seed_word seed)) as [S|_].
  - split; [exact C|]. left. auto.
  - destruct (Z.eqb_spec (seed_word (ethash_calculate_epoch_seed (cached_epoch_number st + 1))) (seed_word seed)) as [S|_].
    + split; [split; [cbn; lia | reflexivity]|]. left. split; [lia | exact S].
    + pose proof (seed_search_ok seed st (Z.to_nat num_tries) C 0 ltac:(lia) ltac:(lia)) as H.
      rewrite Z2Nat.id in H by (unfold num_tries; lia). exact H.
Qed.
