(* ===== verification/Progpow.v ===== *)
(** ProgPoW (ethash/progpow.cpp, kiss99.hpp and bit_manipulation.h of libkawpow,
    libfiropow, libmeowpow, libprogpowz, libsccpow and libmerakipow, read in
    libkawpow): the random program of a period, the rounds over sixteen lanes of
    registers, which read the L1 cache and the dataset, the hash over a light or a full
    context, verification and search.  What the libraries differ in is the class
    [ProgpowParams]. *)
From Stdlib Require Import ZArith Lia List Bool Permutation.
From stdpp Require Import base list.
From S2P Require Import Prelude CInt Keccak Keccak800 SpongeSpec Blocks EthashCore Swaps ProgpowDag ProgpowEthash.
Import ListNotations.
Local Open Scope Z_scope.

(** ** bit_manipulation.h *)

Definition rotl32 (n c : Z) : Z :=
  let c := Z.land c 31 in
  let neg_c := u32 (- c) in
  Z.lor (u32 (Z.shiftl n c)) (Z.shiftr n (Z.land neg_c 31)).

Definition rotr32 (n c : Z) : Z :=
  let c := Z.land c 31 in
  let neg_c := u32 (- c) in
  Z.lor (Z.shiftr n c) (u32 (Z.shiftl n (Z.land neg_c 31))).

(** __builtin_clz and __builtin_popcount on 32 bits. *)
Definition clz32 (x : Z) : Z := if x =? 0 then 32 else 31 - Z.log2 x.
Definition popcount32 (x : Z) : Z := fold_left (fun n i => n + Z.b2z (Z.testbit x (Z.of_nat i))) (seq 0 32) 0.
Definition mul_hi32 (x y : Z) : Z := u32 (Z.shiftr (x * y) 32).

(** ** kiss99.hpp *)

Record kiss99 : Type := mkkiss { z : Z; w : Z; jsr : Z; jcong : Z }.

(** operator(): the next number and the generator after it. *)
Definition kiss99_next (rng : kiss99) : Z * kiss99 :=
  let z := u32 (36969 * Z.land (z rng) 0xffff + Z.shiftr (z rng) 16) in
  let w := u32 (18000 * Z.land (w rng) 0xffff + Z.shiftr (w rng) 16) in
  let jcong := u32 (69069 * jcong rng + 1234567) in
  let jsr := Z.lxor (jsr rng) (u32 (Z.shiftl (jsr rng) 17)) in
  let jsr := Z.lxor jsr (Z.shiftr jsr 13) in
  let jsr := Z.lxor jsr (u32 (Z.shiftl jsr 5)) in
  (u32 (Z.lxor (u32 (u32 (Z.shiftl z 16) + w)) jcong + jsr), mkkiss z w jsr jcong).

(** ** Random operations *)

Definition random_math (a b selector : Z) : Z :=
  match selector mod 11 with
  | 1 => u32 (a * b)
  | 2 => mul_hi32 a b
  | 3 => Z.min a b
  | 4 => rotl32 a b
  | 5 => rotr32 a b
  | 6 => Z.land a b
  | 7 => Z.lor a b
  | 8 => Z.lxor a b
  | 9 => u32 (clz32 a + clz32 b)
  | 10 => u32 (popcount32 a + popcount32 b)
  | _ => u32 (a + b)
  end.

(** The new value of [a]. *)
Definition random_merge (a b selector : Z) : Z :=
  let x := Z.shiftr selector 16 mod 31 + 1 in
  match selector mod 4 with
  | 0 => u32 (u32 (a * 33) + b)
  | 1 => u32 (Z.lxor a b * 33)
  | 2 => Z.lxor (rotl32 a x) b
  | 3 => Z.lxor (rotr32 a x) b
  | _ => a
  end.

(** ** The parameters *)

Definition num_lanes : nat := 16.
(** sizeof(hash2048) / (sizeof(uint32_t) * num_lanes). *)
Definition num_words_per_lane : nat := 4.

(** progpow.hpp, random_math, and the two uses of Keccak-f[800]: [progpow_seed header_hash nonce],
    whose first two words seed the generators, and [progpow_final header_hash seed mix_hash]. *)
Class ProgpowParams : Type := {
  progpow_dag :: DagParams;
  period_length : Z;
  num_regs : nat;
  num_cache_accesses : nat;
  num_math_operations : nat;
  num_rounds : nat;
  progpow_math : Z -> Z -> Z -> Z;
  progpow_seed : list Z -> Z -> list Z;
  progpow_final : list Z -> list Z -> list Z -> list Z
}.

Section Progpow.
Context {PP : ProgpowParams}.

(** ** mix_rng_state *)

Record mix_rng_state : Type := mkrng {
  rng : kiss99;
  dst_counter : nat;
  dst_seq : list Z;
  src_counter : nat;
  src_seq : list Z
}.

Definition next_rng (st : mix_rng_state) : Z * mix_rng_state :=
  let (x, rng) := kiss99_next (rng st) in
  (x, mkrng rng (dst_counter st) (dst_seq st) (src_counter st) (src_seq st)).

Definition next_dst (st : mix_rng_state) : nat * mix_rng_state :=
  (Z.to_nat (lane (dst_seq st) (dst_counter st mod num_regs)),
   mkrng (rng st) (S (dst_counter st)) (dst_seq st) (src_counter st) (src_seq st)).

Definition next_src (st : mix_rng_state) : nat * mix_rng_state :=
  (Z.to_nat (lane (src_seq st) (src_counter st mod num_regs)),
   mkrng (rng st) (dst_counter st) (dst_seq st) (S (src_counter st)) (src_seq st)).

(** One pass of the shuffles, for [i]. *)
Definition shuffle_step '((rng, dst, src) : kiss99 * list Z * list Z) (i : nat) : kiss99 * list Z * list Z :=
  let (d, rng) := kiss99_next rng in
  let dst := swap dst (i - 1) (Z.to_nat (d mod Z.of_nat i)) in
  let (s, rng) := kiss99_next rng in
  let src := swap src (i - 1) (Z.to_nat (s mod Z.of_nat i)) in
  (rng, dst, src).

(** The values num_regs, ..., 2 of the loop counter. *)
Definition shuffle_counters : list nat := rev (seq 2 (num_regs - 1)).

Definition new_mix_rng_state (seed_lo seed_hi : Z) : mix_rng_state :=
  let z := fnv1a fnv_offset_basis seed_lo in
  let w := fnv1a z seed_hi in
  let jsr := fnv1a w seed_lo in
  let jcong := fnv1a jsr seed_hi in
  let identity := map Z.of_nat (seq 0 num_regs) in
  let '(rng, dst, src) := fold_left shuffle_step shuffle_counters (mkkiss z w jsr jcong, identity, identity) in
  mkrng rng 0 dst 0 src.

(** ** A round *)

(** [for (l = 0; l < num_lanes; ++l)] over the registers of each lane. *)
Definition each_lane (f : nat -> list Z -> option (list Z)) (mix : list (list Z)) : option (list (list Z)) :=
  foldM (fun mix l => let! row := mix !! l in let! row := f l row in Some (<[l := row]> mix)) mix (seq 0 num_lanes).

Definition merge_register (row : list Z) (dst : nat) (data sel : Z) : option (list Z) :=
  let! a := row !! dst in
  Some (<[dst := random_merge a data sel]> row).

Definition cache_access (l1_cache : list Z) (src dst : nat) (sel : Z) (_ : nat) (row : list Z) : option (list Z) :=
  let! x := row !! src in
  let! data := l1_cache !! Z.to_nat (x mod l1_cache_num_items) in
  merge_register row dst data sel.

Definition math_operation (src1 src2 : nat) (sel1 : Z) (dst : nat) (sel2 : Z) (_ : nat) (row : list Z) : option (list Z) :=
  let! a := row !! src1 in
  let! b := row !! src2 in
  merge_register row dst (progpow_math a b sel1) sel2.

(** src1 and src2 from a random number. *)
Definition math_sources (src_rnd : Z) : nat * nat :=
  let n := Z.of_nat num_regs in
  let src_rnd := src_rnd mod (n * (n - 1)) in
  let src1 := src_rnd mod n in
  let src2 := src_rnd / n in
  let src2 := if src1 <=? src2 then src2 + 1 else src2 in
  (Z.to_nat src1, Z.to_nat src2).

(** Pass [i] of the loop on the operations. *)
Definition operation (l1_cache : list Z) '((mix, state) : list (list Z) * mix_rng_state) (i : nat)
  : option (list (list Z) * mix_rng_state) :=
  let! (mix, state) :=
    if (i <? num_cache_accesses)%nat then
      let (src, state) := next_src state in
      let (dst, state) := next_dst state in
      let (sel, state) := next_rng state in
      let! mix := each_lane (cache_access l1_cache src dst sel) mix in
      Some (mix, state)
    else Some (mix, state) in
  if (i <? num_math_operations)%nat then
    let (src_rnd, state) := next_rng state in
    let (src1, src2) := math_sources src_rnd in
    let (sel1, state) := next_rng state in
    let (dst, state) := next_dst state in
    let (sel2, state) := next_rng state in
    let! mix := each_lane (math_operation src1 src2 sel1 dst sel2) mix in
    Some (mix, state)
  else Some (mix, state).

Definition max_operations : nat := Nat.max num_cache_accesses num_math_operations.

(** dsts[i] and sels[i] from [i] on. *)
Fixpoint dag_pattern (n i : nat) (state : mix_rng_state) : list (nat * Z) :=
  match n with
  | O => []
  | S n =>
      let (dst, state) := if (i =? 0)%nat then (0%nat, state) else next_dst state in
      let (sel, state) := next_rng state in
      (dst, sel) :: dag_pattern n (S i) state
  end.

Definition dag_access (item : list Z) (r : nat) (pattern : list (nat * Z)) (l : nat) (row : list Z) : option (list Z) :=
  let offset := (Nat.lxor l r mod num_lanes * num_words_per_lane)%nat in
  foldM (fun row '(i, (dst, sel)) =>
    let! word := item !! (offset + i)%nat in
    merge_register row dst word sel) row (combine (seq 0 num_words_per_lane) pattern).

(** What follows the lookup. *)
Definition round_lanes (l1_cache item : list Z) (r : nat) (mix : list (list Z)) (state : mix_rng_state) : option (list (list Z)) :=
  let! (mix, state) := foldM (operation l1_cache) (mix, state) (seq 0 max_operations) in
  each_lane (dag_access item r (dag_pattern num_words_per_lane 0 state)) mix.

(** [state] is passed by value. *)
Definition round (lookup : epoch_context -> Z -> option (list Z * epoch_context)) (state : mix_rng_state)
    '((mix, context) : list (list Z) * epoch_context) (r : nat) : option (list (list Z) * epoch_context) :=
  let num_items := u32 (full_dataset_num_items context / 2) in
  let! row := mix !! (r mod num_lanes)%nat in
  let! x := row !! 0%nat in
  if num_items =? 0 then None
  else
    let! (item, context) := lookup context (x mod num_items) in
    let! mix := round_lanes (memory context) item r mix state in
    Some (mix, context).

(** ** hash_mix *)

(** [n] numbers of a generator. *)
Fixpoint kiss99_row (n : nat) (rng : kiss99) : list Z :=
  match n with
  | O => []
  | S n => let (x, rng) := kiss99_next rng in x :: kiss99_row n rng
  end.

Definition init_mix (seed_lo seed_hi : Z) : list (list Z) :=
  let z := fnv1a fnv_offset_basis seed_lo in
  let w := fnv1a z seed_hi in
  map (fun l => let jsr := fnv1a w (Z.of_nat l) in
                let jcong := fnv1a jsr (Z.of_nat l) in
                kiss99_row num_regs (mkkiss z w jsr jcong)) (seq 0 num_lanes).

Definition lane_hash (row : list Z) : Z := fold_left fnv1a row fnv_offset_basis.

Definition mix_digest (mix : list (list Z)) : list Z :=
  fold_left (fun h '(l, x) => <[(l mod 8)%nat := fnv1a (lane h (l mod 8)) x]> h)
    (combine (seq 0 num_lanes) (map lane_hash mix)) (repeat fnv_offset_basis 8).

Definition hash_mix (context : epoch_context) (block_number : Z) (seed : list Z)
    (lookup : epoch_context -> Z -> option (list Z * epoch_context)) : option (list Z * epoch_context) :=
  let mix := init_mix (lane seed 0) (lane seed 1) in
  let number := u64 (block_number ÷ period_length) in
  let state := new_mix_rng_state (u32 number) (u32 (Z.shiftr number 32)) in
  let! (mix, context) := foldM (round lookup state) (mix, context) (seq 0 num_rounds) in
  Some (node_bytes (mix_digest mix), context).

(** ** The API *)

(** The final hash and the mix hash. *)
Definition hash_with (lookup : epoch_context -> Z -> option (list Z * epoch_context)) (context : epoch_context)
    (block_number : Z) (header_hash : list Z) (nonce : Z) : option ((list Z * list Z) * epoch_context) :=
  let seed := progpow_seed header_hash nonce in
  let! (mix_hash, context) := hash_mix context block_number seed lookup in
  Some ((progpow_final header_hash seed mix_hash, mix_hash), context).

(** hash on a light context and on a full one. *)
Definition hash := hash_with (pure_lookup calculate_dataset_item_2048).
Definition hash_full := hash_with lazy_lookup_2048.

(** verify of libkawpow, libmeowpow, libprogpowz and libmerakipow. *)
Definition verify (context : epoch_context) (block_number : Z) (header_hash mix_hash : list Z) (nonce : Z) (boundary : list Z)
  : option bool :=
  let seed := progpow_seed header_hash nonce in
  let output := progpow_final header_hash seed mix_hash in
  if negb (is_less_or_equal output boundary) then Some false
  else
    let! (expected_mix_hash, _) := hash_mix context block_number seed (pure_lookup calculate_dataset_item_2048) in
    Some (is_equal expected_mix_hash mix_hash).

(** verify of libfiropow and libsccpow: the mix first. *)
Definition verify_mix_first (context : epoch_context) (block_number : Z) (header_hash mix_hash : list Z) (nonce : Z)
    (boundary : list Z) : option bool :=
  let seed := progpow_seed header_hash nonce in
  let! (expected_mix_hash, _) := hash_mix context block_number seed (pure_lookup calculate_dataset_item_2048) in
  let computed_final_hash := progpow_final header_hash seed expected_mix_hash in
  if negb (is_less_or_equal computed_final_hash boundary) then Some false
  else Some (is_equal expected_mix_hash mix_hash).

(** The test of hashext that sets *retcode to 1. *)
Definition above_boundaries (output boundary1 boundary2 : list Z) : bool :=
  if negb (is_less_or_equal output boundary1) then
    if is_equal boundary1 boundary2 then true else negb (is_less_or_equal output boundary2)
  else false.

(** hashext of libkawpow and libmeowpow: the result and *retcode. *)
Definition hashext (context : epoch_context) (block_number : Z) (header_hash : list Z) (nonce : Z)
    (mix_hash boundary1 boundary2 : list Z) : option ((list Z * list Z) * Z) :=
  let seed := progpow_seed header_hash nonce in
  let output := progpow_final header_hash seed mix_hash in
  if above_boundaries output boundary1 boundary2 then Some ((output, mix_hash), 1)
  else
    let! (computed_mix_hash, _) := hash_mix context block_number seed (pure_lookup calculate_dataset_item_2048) in
    if negb (is_equal computed_mix_hash mix_hash) then Some ((output, mix_hash), 2)
    else Some ((output, computed_mix_hash), 0).

(** hashext of libfiropow and libsccpow. *)
Definition hashext_mix_first (context : epoch_context) (block_number : Z) (header_hash : list Z) (nonce : Z)
    (mix_hash boundary1 boundary2 : list Z) : option ((list Z * list Z) * Z) :=
  let seed := progpow_seed header_hash nonce in
  let! (computed_mix_hash, _) := hash_mix context block_number seed (pure_lookup calculate_dataset_item_2048) in
  let computed_final_hash := progpow_final header_hash seed computed_mix_hash in
  if above_boundaries computed_final_hash boundary1 boundary2 then Some ((computed_final_hash, mix_hash), 1)
  else if negb (is_equal computed_mix_hash mix_hash) then Some ((computed_final_hash, mix_hash), 2)
  else Some ((computed_final_hash, computed_mix_hash), 0).

(** hash_no_verify of libmerakipow. *)
Definition hash_no_verify (header_hash mix_hash : list Z) (nonce : Z) : list Z :=
  progpow_final header_hash (progpow_seed header_hash nonce) mix_hash.

Definition search_light (context : epoch_context) (block_number : Z) (header_hash boundary : list Z)
    (start_nonce iterations : Z) : option (option ((list Z * list Z) * Z) * epoch_context) :=
  search (fun context nonce => hash context block_number header_hash nonce) boundary context start_nonce iterations.

Definition search_full (context : epoch_context) (block_number : Z) (header_hash boundary : list Z)
    (start_nonce iterations : Z) : option (option ((list Z * list Z) * Z) * epoch_context) :=
  search (fun context nonce => hash_full context block_number header_hash nonce) boundary context start_nonce iterations.
End Progpow.

(** ** Laws *)

(** What the functions need of the parameters. *)
Class ProgpowLaws (PP : ProgpowParams) : Prop := {
  period_pos : 0 < period_length;
  regs_two : (2 <= num_regs)%nat;
  final_length header nonce mix : length header = 32%nat -> length mix = 32%nat ->
    length (progpow_final header (progpow_seed header nonce) mix) = 32%nat;
  final_bytes header seed mix : Forall is_byte (progpow_final header seed mix)
}.

Section Lemmas.
Context {PP : ProgpowParams} {PL : ProgpowLaws PP}.

(** ** The random program *)

Definition identity : list Z := map Z.of_nat (seq 0 num_regs).

Definition state_ok (st : mix_rng_state) : Prop := Permutation (dst_seq st) identity /\ Permutation (src_seq st) identity.

Lemma identity_length : length identity = num_regs.
Proof. unfold identity. now rewrite length_map, length_seq. Qed.

Lemma shuffle_ok rng l dst src : (forall i, In i l -> (2 <= i <= num_regs)%nat) -> Permutation dst identity -> Permutation src identity ->
  let '(_, dst', src') := fold_left shuffle_step l (rng, dst, src) in Permutation dst' identity /\ Permutation src' identity.
Proof.
  revert rng dst src. induction l as [|i l IH]; intros rng dst src I D S; [split; assumption|]. cbn [fold_left shuffle_step].
  destruct (kiss99_next rng) as [x r1]. destruct (kiss99_next r1) as [y r2].
  assert (Hi : (2 <= i <= num_regs)%nat) by (apply I; now left).
  assert (St : forall (p : list Z) v, Permutation p identity -> Permutation (swap p (i - 1) (Z.to_nat (v mod Z.of_nat i))) identity).
  { intros p v Pp. transitivity p; [|exact Pp]. pose proof (Permutation_length Pp) as Lp. rewrite identity_length in Lp.
    pose proof (Z.mod_pos_bound v (Z.of_nat i) ltac:(lia)). apply swap_perm; lia. }
  apply IH; auto. intros j J. apply I. now right.
Qed.

Lemma new_state_ok lo hi : state_ok (new_mix_rng_state lo hi).
Proof.
  unfold new_mix_rng_state. fold identity.
  pose proof (fun r => shuffle_ok r shuffle_counters identity identity) as H.
  specialize (H (mkkiss (fnv1a fnv_offset_basis lo) (fnv1a (fnv1a fnv_offset_basis lo) hi)
    (fnv1a (fnv1a (fnv1a fnv_offset_basis lo) hi) lo) (fnv1a (fnv1a (fnv1a (fnv1a fnv_offset_basis lo) hi) lo) hi))).
  destruct (fold_left shuffle_step shuffle_counters _) as [[r dst] src]. apply H; try reflexivity.
  intros i I. unfold shuffle_counters in I. rewrite <- in_rev, in_seq in I. pose proof regs_two. lia.
Qed.

(** The next register of a sequence. *)
Lemma sequence_entry (p : list Z) c : Permutation p identity -> (Z.to_nat (lane p (c mod num_regs)) < num_regs)%nat.
Proof.
  intros H. pose proof regs_two. pose proof (Permutation_length H) as L. rewrite identity_length in L.
  assert (I : In (lane p (c mod num_regs)) identity).
  { apply (Permutation_in _ H). apply nth_In. rewrite L. apply Nat.mod_upper_bound. lia. }
  apply in_map_iff in I. destruct I as (k & <- & K). apply in_seq in K. lia.
Qed.

Lemma math_sources_ok x : let '(a, b) := math_sources x in (a < num_regs)%nat /\ (b < num_regs)%nat /\ a <> b.
Proof.
  unfold math_sources. pose proof regs_two. set (n := Z.of_nat num_regs). assert (N : 2 <= n) by lia.
  set (s := x mod (n * (n - 1))). assert (S : 0 <= s < n * (n - 1)) by (apply Z.mod_pos_bound; nia).
  pose proof (Z.mod_pos_bound s n ltac:(lia)). assert (Q : 0 <= s / n < n - 1)
    by (split; [apply Z.div_pos; lia | apply Z.div_lt_upper_bound; lia]).
  destruct (Z.leb_spec (s mod n) (s / n)); lia.
Qed.

(** ** Rounds *)

Definition row_ok (row : list Z) : Prop := length row = num_regs.
Definition mix_ok (mix : list (list Z)) : Prop := length mix = num_lanes /\ Forall row_ok mix.

Lemma register_safe row i : row_ok row -> (i < num_regs)%nat -> safe (row !! i) (fun _ => True).
Proof. unfold row_ok. intros R I. apply lookup_safe; [lia|]. apply Forall_forall. auto. Qed.

Lemma merge_safe row dst data sel : row_ok row -> (dst < num_regs)%nat -> safe (merge_register row dst data sel) row_ok.
Proof.
  intros R D. unfold merge_register. eapply safe_bind; [now apply register_safe|]. intros a _.
  unfold row_ok in *. cbn [safe]. now rewrite length_insert.
Qed.

Lemma each_lane_safe f mix : (forall l row, (l < num_lanes)%nat -> row_ok row -> safe (f l row) row_ok) -> mix_ok mix ->
  safe (each_lane f mix) mix_ok.
Proof.
  intros F M. unfold each_lane. apply foldM_safe; [|exact M]. intros m l I [L R]. apply in_seq in I.
  eapply safe_bind; [apply (lookup_safe _ row_ok); [lia | exact R]|]. intros row Rr.
  eapply safe_bind; [apply F; [lia | exact Rr]|]. intros row' R'. split; [now rewrite length_insert|].
  now apply Forall_insert.
Qed.

Lemma each_lane_ext f g mix : (forall l row, f l row = g l row) -> each_lane f mix = each_lane g mix.
Proof.
  intros E. unfold each_lane. apply foldM_ext_eq. intros m l. destruct (m !! l) as [row|]; [|reflexivity].
  cbn [bind]. now rewrite E.
Qed.

Lemma l1_index x : (Z.to_nat (x mod l1_cache_num_items) < 4096)%nat.
Proof. pose proof (Z.mod_pos_bound x l1_cache_num_items eq_refl) as B. change l1_cache_num_items with 4096 in *. lia. Qed.

Lemma cache_access_safe l1 src dst sel l row : (4096 <= length l1)%nat -> (src < num_regs)%nat -> (dst < num_regs)%nat ->
  row_ok row -> safe (cache_access l1 src dst sel l row) row_ok.
Proof.
  intros L S D R. unfold cache_access. eapply safe_bind; [now apply register_safe|]. intros x _.
  eapply safe_bind; [apply (lookup_safe _ (fun _ => True)); [pose proof (l1_index x); lia | apply Forall_forall; auto]|].
  intros data _. now apply merge_safe.
Qed.

Lemma math_operation_safe s1 s2 sel1 dst sel2 l row : (s1 < num_regs)%nat -> (s2 < num_regs)%nat -> (dst < num_regs)%nat ->
  row_ok row -> safe (math_operation s1 s2 sel1 dst sel2 l row) row_ok.
Proof.
  intros A B D R. unfold math_operation. eapply safe_bind; [now apply register_safe|]. intros a _.
  eapply safe_bind; [now apply register_safe|]. intros b _. now apply merge_safe.
Qed.

Definition pass_ok '((mix, state) : list (list Z) * mix_rng_state) : Prop := mix_ok mix /\ state_ok state.

Lemma operation_safe l1 p i : (4096 <= length l1)%nat -> pass_ok p -> safe (operation l1 p i) pass_ok.
Proof.
  destruct p as [mix st]. intros L [M S]. unfold operation.
  apply (safe_bind _ _ pass_ok).
  - destruct (i <? num_cache_accesses)%nat; [|split; assumption]. unfold next_src, next_dst, next_rng. cbn [rng dst_seq src_seq src_counter dst_counter].
    destruct (kiss99_next (rng st)) as [sel r]. eapply safe_bind; [apply each_lane_safe; [|exact M]|].
    + intros l row _ R. apply cache_access_safe; [exact L | | | exact R]; apply sequence_entry; apply S.
    + intros m Mm. split; [exact Mm | exact S].
  - clear M S. intros [m s] [M S]. destruct (i <? num_math_operations)%nat; [|split; assumption].
    unfold next_rng at 1. destruct (kiss99_next (rng s)) as [x r1]. pose proof (math_sources_ok x) as Ms.
    destruct (math_sources x) as [s1 s2]. destruct Ms as (H1 & H2 & _). unfold next_dst, next_rng.
    cbn [rng dst_seq src_seq src_counter dst_counter]. destruct (kiss99_next r1) as [sel1 r2]. cbn [rng dst_seq src_seq src_counter dst_counter].
    destruct (kiss99_next r2) as [sel2 r3]. eapply safe_bind; [apply each_lane_safe; [|exact M]|].
    + intros l row _ R. apply math_operation_safe; [exact H1 | exact H2 | apply sequence_entry; apply S | exact R].
    + intros m' Mm. split; [exact Mm | exact S].
Qed.

(** The operations read the first 4096 words of the L1 cache. *)
Lemma operation_ext l1 l1' p i : take 4096 l1 = take 4096 l1' -> operation l1 p i = operation l1' p i.
Proof.
  destruct p as [mix st]. intros E. unfold operation. destruct (i <? num_cache_accesses)%nat; [|reflexivity].
  destruct (next_src st) as [src s1]. destruct (next_dst s1) as [dst s2]. destruct (next_rng s2) as [sel s3].
  rewrite (each_lane_ext _ (cache_access l1' src dst sel)); [reflexivity|]. intros l row. unfold cache_access.
  destruct (row !! src) as [x|]; [|reflexivity]. cbn [bind]. pose proof (l1_index x) as I.
  rewrite <- (lookup_take_lt l1 4096), <- (lookup_take_lt l1' 4096), E by exact I. reflexivity.
Qed.

Lemma dag_pattern_ok n : forall i st, state_ok st ->
  length (dag_pattern n i st) = n /\ Forall (fun p => (fst p < num_regs)%nat) (dag_pattern n i st).
Proof.
  induction n as [|n IH]; intros i st S; [split; constructor|]. cbn [dag_pattern]. pose proof regs_two.
  destruct (i =? 0)%nat.
  - unfold next_rng. destruct (kiss99_next (rng st)) as [sel r]. cbn [length].
    destruct (IH (Datatypes.S i) (mkrng r (dst_counter st) (dst_seq st) (src_counter st) (src_seq st)) S) as [L F].
    split; [now rewrite L | constructor; [cbn; lia | exact F]].
  - unfold next_dst, next_rng. cbn [rng dst_seq src_seq src_counter dst_counter].
    destruct (kiss99_next (rng st)) as [sel r]. cbn [length].
    destruct (IH (Datatypes.S i) (mkrng r (Datatypes.S (dst_counter st)) (dst_seq st) (src_counter st) (src_seq st)) S) as [L F].
    split; [now rewrite L | constructor; [apply sequence_entry; apply S | exact F]].
Qed.

Lemma dag_access_safe item r pattern l row : length item = 64%nat -> Forall (fun p => (fst p < num_regs)%nat) pattern ->
  row_ok row -> safe (dag_access item r pattern l row) row_ok.
Proof.
  intros L F R. unfold dag_access. apply foldM_safe; [|exact R]. intros rw [i [dst sel]] I Rw.
  pose proof (in_combine_l _ _ _ _ I) as Hi. apply in_seq in Hi. apply in_combine_r in I.
  rewrite List.Forall_forall in F. specialize (F _ I). cbn [fst] in F.
  pose proof (Nat.mod_upper_bound (Nat.lxor l r) num_lanes ltac:(discriminate)) as B. unfold num_lanes, num_words_per_lane in *.
  eapply safe_bind; [apply (lookup_safe _ (fun _ => True)); [lia | apply Forall_forall; auto]|].
  intros word _. now apply merge_safe.
Qed.

Lemma round_lanes_safe l1 item r mix st : (4096 <= length l1)%nat -> length item = 64%nat -> mix_ok mix -> state_ok st ->
  safe (round_lanes l1 item r mix st) mix_ok.
Proof.
  intros L Li M S. unfold round_lanes.
  eapply safe_bind; [apply (foldM_safe pass_ok); [intros; now apply operation_safe | split; assumption]|].
  intros [m s] [Mm Ss]. destruct (dag_pattern_ok num_words_per_lane 0 s Ss) as [_ F].
  apply each_lane_safe; [|exact Mm]. intros l row _ R. now apply dag_access_safe.
Qed.

Lemma round_lanes_ext l1 l1' item r mix st : take 4096 l1 = take 4096 l1' ->
  round_lanes l1 item r mix st = round_lanes l1' item r mix st.
Proof.
  intros E. unfold round_lanes. rewrite (foldM_ext_eq _ (operation l1')); [reflexivity|].
  intros p i. now apply operation_ext.
Qed.

Lemma init_mix_ok lo hi : mix_ok (init_mix lo hi).
Proof.
  unfold init_mix. split; [now rewrite length_map, length_seq|]. apply List.Forall_map, List.Forall_forall.
  intros l _. unfold row_ok. generalize (mkkiss (fnv1a fnv_offset_basis lo) (fnv1a (fnv1a fnv_offset_basis lo) hi)
    (fnv1a (fnv1a (fnv1a fnv_offset_basis lo) hi) (Z.of_nat l))
    (fnv1a (fnv1a (fnv1a (fnv1a fnv_offset_basis lo) hi) (Z.of_nat l)) (Z.of_nat l))).
  induction num_regs as [|n IH]; intros g; [reflexivity|]. cbn [kiss99_row]. destruct (kiss99_next g) as [x g']. cbn [length].
  now rewrite IH.
Qed.

Lemma mix_digest_length mix : length (mix_digest mix) = 8%nat.
Proof.
  unfold mix_digest. assert (G : forall c h, length (fold_left (fun h '(l, x) => <[(l mod 8)%nat := fnv1a (lane h (l mod 8)) x]> h) c h) =
    length (h : list Z)).
  { induction c as [|[l x] c IH]; intros h; [reflexivity|]. cbn [fold_left]. rewrite IH. apply length_insert. }
  now rewrite G.
Qed.
End Lemmas.

(** ** Hashes over contexts *)

Section Hashes.
Context {PP : ProgpowParams} {PL : ProgpowLaws PP}.

Lemma take_slices n m k : take (n * k) m = concat (map (slice n m) (seq 0 k)).
Proof.
  induction k as [|k IH]; [now rewrite Nat.mul_0_r|]. rewrite seq_S, map_app, concat_app, <- IH. cbn [map concat Nat.add].
  rewrite app_nil_r. unfold slice. rewrite take_take_drop. f_equal. lia.
Qed.

(** The L1 cache of a context is made of its first items. *)
Lemma context_l1 context : context_ok context -> (4096 <= length (memory context))%nat /\
  take 4096 (memory context) = concat (map (fun j => item_2048 context (Z.of_nat j)) (seq 0 64)).
Proof.
  intros (C & N & L & Sl). split; [rewrite L; destruct (full context); lia|].
  change 4096%nat with (64 * 64)%nat. rewrite take_slices. f_equal. apply map_ext_in. intros j J. apply in_seq in J.
  apply Sl. lia.
Qed.

Lemma same_l1 cl cf : context_ok cl -> context_ok cf -> same_items cl cf -> take 4096 (memory cl) = take 4096 (memory cf).
Proof.
  intros Cl Cf Si. rewrite (proj2 (context_l1 cl Cl)), (proj2 (context_l1 cf Cf)). f_equal. apply map_ext.
  intros j. unfold item_2048. now rewrite (same_items_map cl cf).
Qed.

Lemma round_index context : context_ok context ->
  u32 (full_dataset_num_items context / 2) = full_dataset_num_items context / 2 /\ 0 < full_dataset_num_items context / 2.
Proof.
  intros (_ & N & _). assert (imax I32 = 2 ^ 31 - 1) by reflexivity.
  pose proof (Z.div_mod (full_dataset_num_items context) 2 ltac:(lia)).
  pose proof (Z.mod_pos_bound (full_dataset_num_items context) 2 ltac:(lia)). split; [apply Z.mod_small|]; lia.
Qed.

Lemma first_register mix r : mix_ok mix -> exists row x, mix !! (r mod num_lanes)%nat = Some row /\ row !! 0%nat = Some x.
Proof.
  intros [L R]. pose proof regs_two. destruct (lookup_lt_is_Some_2 mix (r mod num_lanes)) as [row E];
    [rewrite L; now apply Nat.mod_upper_bound|]. pose proof (Forall_lookup_1 _ _ _ _ R E) as Rr.
  destruct (lookup_lt_is_Some_2 row 0) as [x X]; [unfold row_ok in Rr; lia|]. exists row, x. auto.
Qed.

Lemma round_light cl st mix r : context_ok cl -> state_ok st -> mix_ok mix ->
  safe (round (pure_lookup calculate_dataset_item_2048) st (mix, cl) r) (fun '(mix, c) => mix_ok mix /\ c = cl).
Proof.
  intros C S M. pose proof C as (Cc & _). destruct (round_index cl C) as [U N]. unfold round. rewrite U.
  destruct (first_register mix r M) as (row & x & -> & Hx). cbn [bind]. rewrite Hx. cbn [bind].
  rewrite (proj2 (Z.eqb_neq _ 0)) by lia. unfold pure_lookup, calculate_dataset_item_2048.
  rewrite interleaved_ok by exact Cc. cbn [bind].
  eapply safe_bind; [apply round_lanes_safe; [apply context_l1, C | exact (items_length cl [_; _; _; _] Cc) | exact M | exact S]|].
  intros mix' M'. split; [exact M' | reflexivity].
Qed.

Lemma round_full cl cf st mix r : context_ok cl -> lazy_ok 64 item_2048 cf -> same_items cl cf -> state_ok st -> mix_ok mix ->
  exists mix' m, round (pure_lookup calculate_dataset_item_2048) st (mix, cl) r = Some (mix', cl) /\
    round lazy_lookup_2048 st (mix, cf) r = Some (mix', set_memory cf m) /\ mix_ok mix' /\ lazy_ok 64 item_2048 (set_memory cf m).
Proof.
  intros C Lz Si S M. pose proof C as (Cc & _). pose proof (round_light cl st mix r C S M) as Rl. apply safe_some in Rl.
  destruct Rl as ([mix' c] & E0 & M' & ->). exists mix'. pose proof Lz as (Cf & _). destruct (round_index cf Cf) as [U N].
  pose proof Si as (_ & _ & En). destruct (first_register mix r M) as (row & x & Er & Hx).
  assert (Pb : 0 <= x mod (full_dataset_num_items cf / 2) < full_dataset_num_items cl / 2)
    by (rewrite En; apply Z.mod_pos_bound; lia).
  destruct (lookup_2048_ok cl cf _ Cc Lz Si Pb) as (El & Li & m & Ef & _ & Lz').
  exists m. split; [exact E0|]. split; [|split; assumption]. revert E0. unfold round. rewrite En, U, Er. cbn [bind].
  rewrite Hx. cbn [bind]. rewrite (proj2 (Z.eqb_neq _ 0)) by lia. rewrite El, Ef. cbn [bind]. pose proof Lz' as (Cf' & _).
  rewrite (round_lanes_ext (memory (set_memory cf m)) (memory cl)); [|symmetry; apply same_l1; [exact C | exact Cf' | exact Si]].
  intros E. apply bind_Some in E. destruct E as (mx & -> & E). injection E as ->. reflexivity.
Qed.

Lemma hash_mix_light cl bn seed : context_ok cl ->
  exists mh, hash_mix cl bn seed (pure_lookup calculate_dataset_item_2048) = Some (mh, cl) /\
    length mh = 32%nat /\ Forall is_byte mh.
Proof.
  intros C. unfold hash_mix. set (st := new_mix_rng_state _ _). assert (S : state_ok st) by apply new_state_ok.
  assert (L : safe (foldM (round (pure_lookup calculate_dataset_item_2048) st) (init_mix (lane seed 0) (lane seed 1), cl) (seq 0 num_rounds))
    (fun '(mix, c) => mix_ok mix /\ c = cl)).
  { apply foldM_safe; [|split; [apply init_mix_ok | reflexivity]]. intros [mix c] r _ [M ->]. now apply round_light. }
  apply safe_some in L. destruct L as ([mix c] & -> & _ & ->). cbn [bind]. eexists. split; [reflexivity|].
  split; [rewrite node_bytes_length, mix_digest_length; reflexivity | apply node_bytes_byte].
Qed.

Lemma hash_mix_full cl cf bn seed : context_ok cl -> lazy_ok 64 item_2048 cf -> same_items cl cf ->
  exists mh m, hash_mix cl bn seed (pure_lookup calculate_dataset_item_2048) = Some (mh, cl) /\
    hash_mix cf bn seed lazy_lookup_2048 = Some (mh, set_memory cf m) /\ lazy_ok 64 item_2048 (set_memory cf m).
Proof.
  intros C Lz Si. unfold hash_mix. set (st := new_mix_rng_state _ _). assert (S : state_ok st) by apply new_state_ok.
  set (R := fun (a b : list (list Z) * epoch_context) => fst a = fst b /\ mix_ok (fst a) /\ snd a = cl /\
    exists m, snd b = set_memory cf m /\ lazy_ok 64 item_2048 (set_memory cf m)).
  destruct (foldM_sim R (round (pure_lookup calculate_dataset_item_2048) st) (round lazy_lookup_2048 st) (seq 0 num_rounds))
    with (a := (init_mix (lane seed 0) (lane seed 1), cl)) (a' := (init_mix (lane seed 0) (lane seed 1), cf))
    as ([mix c] & [mix' c'] & E & E' & H).
  - intros [mix c] [mix' c'] r _ (Em & M & Ec & m & Ec' & Lzm). cbn [fst snd] in *. subst mix' c c'.
    destruct (round_full cl (set_memory cf m) st mix r C Lzm Si S M) as (mix' & m' & -> & -> & M' & Lz').
    eexists _, _. split; [reflexivity|]. split; [reflexivity|]. split; [reflexivity|]. split; [exact M'|].
    split; [reflexivity|]. exists m'. auto.
  - split; [reflexivity|]. split; [apply init_mix_ok|]. split; [reflexivity|]. exists (memory cf). cbn [snd]. destruct cf. auto.
  - rewrite E, E'. cbn [bind]. destruct H as (Em & _ & Ec & m & Ec' & Lz'). cbn [fst snd] in *. subst mix' c c'.
    eexists _, m. auto.
Qed.

Lemma hash_light_ok cl bn header nonce : context_ok cl -> length header = 32%nat -> exists final mh,
  hash cl bn header nonce = Some ((final, mh), cl) /\
  hash_mix cl bn (progpow_seed header nonce) (pure_lookup calculate_dataset_item_2048) = Some (mh, cl) /\
  final = progpow_final header (progpow_seed header nonce) mh /\
  length final = 32%nat /\ Forall is_byte final /\ length mh = 32%nat /\ Forall is_byte mh.
Proof.
  intros C Lh. destruct (hash_mix_light cl bn (progpow_seed header nonce) C) as (mh & E & L & F).
  unfold hash, hash_with. rewrite E. cbn [bind]. eexists _, mh. split; [reflexivity|]. split; [reflexivity|].
  split; [reflexivity|]. split; [now apply final_length|]. split; [apply final_bytes | auto].
Qed.

Lemma hash_full_ok cl cf bn header nonce : context_ok cl -> lazy_ok 64 item_2048 cf -> same_items cl cf ->
  exists r m, hash cl bn header nonce = Some (r, cl) /\ hash_full cf bn header nonce = Some (r, set_memory cf m) /\
    lazy_ok 64 item_2048 (set_memory cf m).
Proof.
  intros C Lz Si. destruct (hash_mix_full cl cf bn (progpow_seed header nonce) C Lz Si) as (mh & m & E & E' & Lz').
  unfold hash, hash_full, hash_with. rewrite E, E'. cbn [bind]. eexists _, m. auto.
Qed.

(** ** Verification *)

Lemma verify_ok cl bn header mh nonce boundary : context_ok cl -> length header = 32%nat -> length mh = 32%nat ->
  length boundary = 32%nat -> Forall is_byte boundary ->
  let accepted b := b = true <-> exists final, hash cl bn header nonce = Some ((final, mh), cl) /\ be_val final <= be_val boundary in
  exists b, verify cl bn header mh nonce boundary = Some b /\ verify_mix_first cl bn header mh nonce boundary = Some b /\ accepted b.
Proof.
  intros C Lhd Lmh Lb Fb accepted. destruct (hash_light_ok cl bn header nonce C Lhd) as (final & mh' & E & K & Ef & Lf & Ff & Lm & _).
  unfold verify, verify_mix_first, accepted. rewrite E, K. cbn [bind].
  pose proof (fun m => final_length header nonce m Lhd) as Lh. pose proof (final_bytes header (progpow_seed header nonce)) as Fh.
  rewrite !is_less_or_equal_ok by auto. destruct (bool_decide_reflect (mh' = mh)) as [->|N].
  - exists (be_val final <=? be_val boundary). rewrite Ef. unfold is_equal. rewrite bool_decide_true by reflexivity.
    destruct (Z.leb_spec (be_val (progpow_final header (progpow_seed header nonce) mh)) (be_val boundary)); cbn [negb];
      (split; [reflexivity|]; split; [reflexivity|]; split; [|]).
    + intros _. eauto.
    + reflexivity.
    + discriminate.
    + intros (f & Q & B). injection Q as Q. subst f. lia.
  - exists false. unfold is_equal. rewrite (bool_decide_false (mh' = mh)) by exact N.
    split; [now destruct (negb _)|]. split; [now destruct (negb _)|]. split; [discriminate|].
    intros (f & Q & _). injection Q as _ Q. congruence.
Qed.

Lemma above_boundaries_ok output b1 b2 : length output = 32%nat -> Forall is_byte output ->
  length b1 = 32%nat -> Forall is_byte b1 -> length b2 = 32%nat -> Forall is_byte b2 ->
  above_boundaries output b1 b2 = false <-> be_val output <= be_val b1 \/ be_val output <= be_val b2.
Proof.
  intros L F L1 F1 L2 F2. unfold above_boundaries. rewrite !is_less_or_equal_ok by assumption. unfold is_equal.
  destruct (Z.leb_spec (be_val output) (be_val b1)), (bool_decide_reflect (b1 = b2)) as [->|]; cbn [negb];
    destruct (Z.leb_spec (be_val output) (be_val b2)); cbn [negb]; split; intros; try lia; try reflexivity; try discriminate.
Qed.

(** Both versions of hashext report success for the same shares. *)
Lemma hashext_ok cl bn header nonce mh b1 b2 : context_ok cl -> length header = 32%nat -> length mh = 32%nat ->
  length b1 = 32%nat -> Forall is_byte b1 -> length b2 = 32%nat -> Forall is_byte b2 ->
  let share r := hash cl bn header nonce = Some (r, cl) /\ snd r = mh /\
    (be_val (fst r) <= be_val b1 \/ be_val (fst r) <= be_val b2) in
  exists r code r' code', hashext cl bn header nonce mh b1 b2 = Some (r, code) /\
    hashext_mix_first cl bn header nonce mh b1 b2 = Some (r', code') /\
    (code = 0 <-> share r) /\ (code' = 0 <-> share r') /\ (code = 0 <-> code' = 0) /\ 0 <= code <= 2 /\ 0 <= code' <= 2.
Proof.
  intros C Lhd Lmh L1 F1 L2 F2 share. destruct (hash_light_ok cl bn header nonce C Lhd) as (final & mh' & E & K & Ef & Lf & Ff & Lm & _).
  pose proof (fun m => final_length header nonce m Lhd) as Lh. pose proof (final_bytes header (progpow_seed header nonce)) as Fh.
  assert (A : forall m, length m = 32%nat -> above_boundaries (progpow_final header (progpow_seed header nonce) m) b1 b2 = false <->
    be_val (progpow_final header (progpow_seed header nonce) m) <= be_val b1 \/
    be_val (progpow_final header (progpow_seed header nonce) m) <= be_val b2) by (intros m Hm; apply above_boundaries_ok; auto).
  unfold hashext, hashext_mix_first, share. rewrite E, K. cbn [bind]. rewrite Ef in *. clear Ef K final Lf Ff.
  set (fin := progpow_final header (progpow_seed header nonce)) in *.
  assert (Sh : forall r, (Some (fin mh', mh', cl) = Some (r, cl) /\ snd r = mh /\
    (be_val (fst r) <= be_val b1 \/ be_val (fst r) <= be_val b2)) <->
    r = (fin mh', mh') /\ mh' = mh /\ above_boundaries (fin mh') b1 b2 = false).
  { intros r. rewrite A by exact Lm. split; [intros (Q & Q2 & B); injection Q as <-; auto | intros (-> & <- & B); auto]. }
  destruct (bool_decide_reflect (mh' = mh)) as [Q|Q].
  - subst mh. unfold is_equal. rewrite (bool_decide_true (mh' = mh')) by reflexivity. cbn [negb].
    destruct (above_boundaries (fin mh') b1 b2); do 4 eexists; (split; [reflexivity|]; split; [reflexivity|]);
      rewrite ?Sh; intuition (congruence || lia).
  - unfold is_equal. rewrite (bool_decide_false (mh' = mh)) by exact Q. cbn [negb].
    destruct (above_boundaries (fin mh) b1 b2), (above_boundaries (fin mh') b1 b2);
      do 4 eexists; (split; [reflexivity|]; split; [reflexivity|]); rewrite ?Sh; intuition (congruence || lia).
Qed.
End Hashes.
