(* ===== verification/ProgpowLibs.v ===== *)
(** The six ProgPoW libraries as instances of [ProgpowParams] (ethash/ethash.h,
    ethash.cpp, progpow.hpp and progpow.cpp of libkawpow, libmeowpow, libmerakipow,
    libfiropow, libsccpow and libprogpowz), and the properties of the family. *)
From Stdlib Require Import ZArith Lia List Bool Permutation Znumtheory.
From stdpp Require Import base list.
From S2P Require Import Prelude CInt Keccak Keccak800 SpongeSpec Sponge Blocks EthashData EthashCore Ethash Primes EthashSizes ProgpowDag ProgpowEthash Progpow.
Import ListNotations.
Local Open Scope Z_scope.

(** ** Absorbing with the words of a coin (libkawpow, libmeowpow, libmerakipow) *)

(** The first eight words of the state of the first permutation: the header, the
    nonce, and the fifteen words [tail]. *)
Definition seed_state (tail : list Z) (header_hash : list Z) (nonce : Z) : list Z :=
  take 8 (ethash_keccakf800 (bytes_node header_hash ++ [u32 nonce; u32 (Z.shiftr nonce 32)] ++ tail)).

(** The last permutation: the eight words carried over, the mix hash, nine words. *)
Definition final_state (tail : list Z) (state2 mix_hash : list Z) : list Z :=
  node_bytes (take 8 (ethash_keccakf800 (state2 ++ bytes_node mix_hash ++ tail))).

Definition ravencoin_kawpow : list Z :=
  [0x72; 0x41; 0x56; 0x45; 0x4E; 0x43; 0x4F; 0x49; 0x4E; 0x4B; 0x41; 0x57; 0x50; 0x4F; 0x57].
Definition meowcoin_kawpow : list Z :=
  [0x4D; 0x45; 0x4F; 0x57; 0x43; 0x4F; 0x49; 0x4E; 0x4D; 0x45; 0x4F; 0x57; 0x50; 0x4F; 0x57].
Definition telestaicoin_kawpow : list Z :=
  [0x72; 0x41; 0x56; 0x45; 0x4E; 0x43; 0x4F; 0x49; 0x4E; 0x4B; 0x41; 0x57; 0x50; 0x4F; 0x57].

Definition kawpow_seed (words header_hash : list Z) (nonce : Z) : list Z := seed_state words header_hash nonce.
Definition kawpow_final (words header_hash seed mix_hash : list Z) : list Z := final_state (take 9 words) seed mix_hash.

(** ** Absorbing with padding (libfiropow, libsccpow) *)

(** state[10] = 1 and state[18] = 0x80008081. *)
Definition firopow_seed (header_hash : list Z) (nonce : Z) : list Z :=
  seed_state ([1] ++ repeat 0 7 ++ [0x80008081] ++ repeat 0 6) header_hash nonce.
(** state[17] = 1 and state[24] = 0x80008081. *)
Definition firopow_final (header_hash seed mix_hash : list Z) : list Z :=
  final_state ([0; 1] ++ repeat 0 6 ++ [0x80008081]) seed mix_hash.

(** ** libprogpowz *)

Definition keccak_progpow_256 (header_hash : list Z) (nonce : Z) (mix_hash : list Z) : list Z :=
  final_state (repeat 0 7) (bytes_node header_hash ++ [u32 nonce; u32 (Z.shiftr nonce 32)]) mix_hash.

Definition keccak_progpow_64 (header_hash : list Z) (nonce : Z) : Z :=
  be_word64 (keccak_progpow_256 header_hash nonce (repeat 0 32)) 0.

(** The two words of the 64-bit seed. *)
Definition progpowz_seed (header_hash : list Z) (nonce : Z) : list Z :=
  let seed := keccak_progpow_64 header_hash nonce in
  [u32 seed; u32 (Z.shiftr seed 32)].
Definition progpowz_final (header_hash seed mix_hash : list Z) : list Z :=
  keccak_progpow_256 header_hash (lane seed 0 + 2 ^ 32 * lane seed 1) mix_hash.

(** random_math of libprogpowz: the cases are two further. *)
Definition random_math_z (a b selector : Z) : Z :=
  match selector mod 11 with
  | 3 => u32 (a * b)
  | 4 => mul_hi32 a b
  | 5 => Z.min a b
  | 6 => rotl32 a b
  | 7 => rotr32 a b
  | 8 => Z.land a b
  | 9 => Z.lor a b
  | 10 => Z.lxor a b
  | 0 => u32 (clz32 a + clz32 b)
  | 1 => u32 (popcount32 a + popcount32 b)
  | _ => u32 (a + b)
  end.

(** ** The libraries *)

Definition libkawpow_dag : DagParams :=
  {| epoch_length := 7500; full_dataset_init_size := 2 ^ 30; full_dataset_item_parents := 512;
     num_dataset_accesses := 64; size_epoch := Some |}.
Definition libkawpow : ProgpowParams :=
  {| progpow_dag := libkawpow_dag; period_length := 3; num_regs := 32; num_cache_accesses := 11;
     num_math_operations := 18; num_rounds := 64; progpow_math := random_math;
     progpow_seed := kawpow_seed ravencoin_kawpow; progpow_final := kawpow_final ravencoin_kawpow |}.

(** meowpow_dagchange_epoch, and meow_epoch of create_epoch_context. *)
Definition meowpow_dagchange_epoch : Z := 110.
Definition meow_epoch (epoch_number : Z) : option Z :=
  if meowpow_dagchange_epoch <=? epoch_number then ck I32 (epoch_number * 4) else Some epoch_number.
Definition libmeowpow_dag : DagParams :=
  {| epoch_length := 7500; full_dataset_init_size := 2 ^ 30; full_dataset_item_parents := 512;
     num_dataset_accesses := 64; size_epoch := meow_epoch |}.
Definition libmeowpow : ProgpowParams :=
  {| progpow_dag := libmeowpow_dag; period_length := 6; num_regs := 16; num_cache_accesses := 6;
     num_math_operations := 9; num_rounds := 64; progpow_math := random_math;
     progpow_seed := kawpow_seed meowcoin_kawpow; progpow_final := kawpow_final meowcoin_kawpow |}.

Definition libmerakipow_dag : DagParams :=
  {| epoch_length := 27500; full_dataset_init_size := 2 ^ 30; full_dataset_item_parents := 512;
     num_dataset_accesses := 32; size_epoch := Some |}.
Definition libmerakipow : ProgpowParams :=
  {| progpow_dag := libmerakipow_dag; period_length := 3; num_regs := 32; num_cache_accesses := 12;
     num_math_operations := 5; num_rounds := 32; progpow_math := random_math;
     progpow_seed := kawpow_seed telestaicoin_kawpow; progpow_final := kawpow_final telestaicoin_kawpow |}.

Definition libfiropow_dag : DagParams :=
  {| epoch_length := 1300; full_dataset_init_size := 2 ^ 30 + 2 ^ 29; full_dataset_item_parents := 512;
     num_dataset_accesses := 64; size_epoch := Some |}.
Definition libfiropow : ProgpowParams :=
  {| progpow_dag := libfiropow_dag; period_length := 1; num_regs := 32; num_cache_accesses := 11;
     num_math_operations := 18; num_rounds := 64; progpow_math := random_math;
     progpow_seed := firopow_seed; progpow_final := firopow_final |}.

Definition libsccpow_dag : DagParams :=
  {| epoch_length := 3240; full_dataset_init_size := 2 ^ 30 + 2 ^ 29; full_dataset_item_parents := 512;
     num_dataset_accesses := 64; size_epoch := Some |}.
Definition libsccpow : ProgpowParams :=
  {| progpow_dag := libsccpow_dag; period_length := 1; num_regs := 32; num_cache_accesses := 11;
     num_math_operations := 18; num_rounds := 64; progpow_math := random_math;
     progpow_seed := firopow_seed; progpow_final := firopow_final |}.

Definition libprogpowz_dag : DagParams :=
  {| epoch_length := 30000; full_dataset_init_size := 2 ^ 30; full_dataset_item_parents := 256;
     num_dataset_accesses := 64; size_epoch := Some |}.
Definition libprogpowz : ProgpowParams :=
  {| progpow_dag := libprogpowz_dag; period_length := 50; num_regs := 32; num_cache_accesses := 12;
     num_math_operations := 20; num_rounds := 64; progpow_math := random_math_z;
     progpow_seed := progpowz_seed; progpow_final := progpowz_final |}.

(** get_epoch_number (ethash.hpp). *)
Definition get_epoch_number {P : DagParams} (block_number : Z) : Z := block_number ÷ epoch_length.

(** ** Laws *)

Lemma keccakf800_length st : length st = 25%nat -> length (ethash_keccakf800 st) = 25%nat.
Proof.
  intros L. rewrite ethash_keccakf800_fold by exact L. revert st L.
  induction f800_constants as [|rc l IH]; intros st L; [exact L|]. cbn [fold_left]. apply IH.
  unfold round32. rewrite length_insert. reflexivity.
Qed.

Lemma words256 b : length b = 32%nat -> length (bytes_node b) = 8%nat.
Proof. intros L. unfold bytes_node. rewrite length_map, length_seq, L. reflexivity. Qed.

Lemma seed_state_length tail header nonce : length tail = 15%nat -> length header = 32%nat ->
  length (seed_state tail header nonce) = 8%nat.
Proof.
  intros T H. unfold seed_state. rewrite length_take, keccakf800_length; [reflexivity|].
  rewrite !length_app, words256 by exact H. cbn [length]. lia.
Qed.

Lemma final_state_length tail st mix : (length st + length tail = 17)%nat -> length mix = 32%nat ->
  length (final_state tail st mix) = 32%nat.
Proof.
  intros T M. unfold final_state. rewrite node_bytes_length, length_take, keccakf800_length; [reflexivity|].
  rewrite !length_app, words256 by exact M. lia.
Qed.

Lemma final_state_bytes tail st mix : Forall is_byte (final_state tail st mix).
Proof. apply node_bytes_byte. Qed.

Lemma kawpow_final_length words header nonce mix : length words = 15%nat -> length header = 32%nat -> length mix = 32%nat ->
  length (kawpow_final words header (kawpow_seed words header nonce) mix) = 32%nat.
Proof.
  intros W H M. apply final_state_length; [|exact M]. unfold kawpow_seed. now rewrite seed_state_length, length_take, W by assumption.
Qed.

Lemma firopow_final_length header nonce mix : length header = 32%nat -> length mix = 32%nat ->
  length (firopow_final header (firopow_seed header nonce) mix) = 32%nat.
Proof.
  intros H M. apply final_state_length; [|exact M]. unfold firopow_seed. now rewrite seed_state_length by (reflexivity || exact H).
Qed.

(** The laws of the six libraries. *)
Ltac absorb_laws final := split; [reflexivity | apply Nat.leb_le; reflexivity | exact final | intros; apply final_state_bytes].

#[export] Instance libkawpow_laws : ProgpowLaws libkawpow.
Proof. absorb_laws (fun h n m => kawpow_final_length ravencoin_kawpow h n m eq_refl). Qed.
#[export] Instance libmeowpow_laws : ProgpowLaws libmeowpow.
Proof. absorb_laws (fun h n m => kawpow_final_length meowcoin_kawpow h n m eq_refl). Qed.
#[export] Instance libmerakipow_laws : ProgpowLaws libmerakipow.
Proof. absorb_laws (fun h n m => kawpow_final_length telestaicoin_kawpow h n m eq_refl). Qed.
#[export] Instance libfiropow_laws : ProgpowLaws libfiropow.
Proof. absorb_laws firopow_final_length. Qed.
#[export] Instance libsccpow_laws : ProgpowLaws libsccpow.
Proof. absorb_laws firopow_final_length. Qed.
#[export] Instance libprogpowz_laws : ProgpowLaws libprogpowz.
Proof.
  split; [reflexivity | apply Nat.leb_le; reflexivity | | intros; apply final_state_bytes].
  intros header nonce mix H M. apply final_state_length; [|exact M]. rewrite length_app, words256 by exact H. reflexivity.
Qed.

(** The epochs whose sizes fit an int. *)
Lemma plain_sizes (P : DagParams) init max : size_epoch (DagParams := P) = Some -> full_dataset_init_size = init ->
  2 ^ 30 <= init <= 3 * 2 ^ 29 -> init / 128 + 65536 * (max - 1) <= imax I32 -> DagLaws (P := P) (max_epoch := max).
Proof.
  intros Se Fi B M. split; [now rewrite Fi|]. intros e E. exists e. rewrite Se, Fi. split; [reflexivity|]. split; [lia|].
  set (q := init / 128) in *. lia.
Qed.

#[export] Instance libkawpow_sizes : DagLaws (P := libkawpow_dag) (max_epoch := 32640).
Proof. apply (plain_sizes _ (2 ^ 30)); try reflexivity; [lia | apply Z.leb_le; vm_compute; reflexivity]. Qed.
#[export] Instance libmerakipow_sizes : DagLaws (P := libmerakipow_dag) (max_epoch := 32640).
Proof. apply (plain_sizes _ (2 ^ 30)); try reflexivity; [lia | apply Z.leb_le; vm_compute; reflexivity]. Qed.
#[export] Instance libprogpowz_sizes : DagLaws (P := libprogpowz_dag) (max_epoch := 32640).
Proof. apply (plain_sizes _ (2 ^ 30)); try reflexivity; [lia | apply Z.leb_le; vm_compute; reflexivity]. Qed.
#[export] Instance libfiropow_sizes : DagLaws (P := libfiropow_dag) (max_epoch := 32576).
Proof. apply (plain_sizes _ (2 ^ 30 + 2 ^ 29)); try reflexivity; [lia | apply Z.leb_le; vm_compute; reflexivity]. Qed.
#[export] Instance libsccpow_sizes : DagLaws (P := libsccpow_dag) (max_epoch := 32576).
Proof. apply (plain_sizes _ (2 ^ 30 + 2 ^ 29)); try reflexivity; [lia | apply Z.leb_le; vm_compute; reflexivity]. Qed.
#[export] Instance libmeowpow_sizes : DagLaws (P := libmeowpow_dag) (max_epoch := 8160).
Proof.
  split; [split; vm_compute; discriminate|]. intros e E. change (size_epoch e) with (meow_epoch e).
  change (full_dataset_init_size / 128) with 8388608. unfold meow_epoch, meowpow_dagchange_epoch, imax. destruct (Z.leb_spec 110 e).
  - exists (e * 4). unfold ck, imin, imax. rewrite !(proj2 (Z.leb_le _ _)) by lia. cbn [andb]. split; [reflexivity | lia].
  - exists e. split; [reflexivity | lia].
Qed.

(** ** Runs *)

(** A sequence of hashes over one full context. *)
Fixpoint hash_all {PP : ProgpowParams} (context : epoch_context) (queries : list (Z * list Z * Z))
  : option (list (list Z * list Z) * epoch_context) :=
  match queries with
  | [] => Some ([], context)
  | (block_number, header_hash, nonce) :: queries =>
      let! (r, context) := hash_full context block_number header_hash nonce in
      let! (rs, context) := hash_all context queries in
      Some (r :: rs, context)
  end.

Lemma hash_all_ok {PP : ProgpowParams} {PL : ProgpowLaws PP} cl queries : context_ok cl -> forall cf,
  lazy_ok 64 item_2048 cf -> same_items cl cf ->
  exists rs m, hash_all cf queries = Some (rs, set_memory cf m) /\
    Forall2 (fun '(bn, header, nonce) r => hash cl bn header nonce = Some (r, cl)) queries rs.
Proof.
  intros C. induction queries as [|[[bn header] nonce] queries IH]; intros cf Lz Si.
  - exists [], (memory cf). split; [now destruct cf | constructor].
  - destruct (hash_full_ok cl cf bn header nonce C Lz Si) as (r & m & E & Ef & Lz'). cbn [hash_all]. rewrite Ef. cbn [bind].
    destruct (IH (set_memory cf m) Lz' Si) as (rs & m' & -> & F). cbn [bind]. exists (r :: rs), m'. split; [reflexivity|].
    constructor; assumption.
Qed.

(** A light and a full context of one epoch. *)
Lemma contexts_of_epoch {P : DagParams} {max_epoch : Z} {DL : DagLaws (max_epoch := max_epoch)} e : 0 <= e < max_epoch ->
  exists cl cf, create_epoch_context true e false = Some (Some cl) /\ create_epoch_context true e true = Some (Some cf) /\
    context_ok cl /\ light_cache_num_items cl < 2 ^ 30 /\ lazy_ok 32 item_1024 cf /\ lazy_ok 64 item_2048 cf /\ same_items cl cf.
Proof.
  intros E. destruct (num_items_ok e E) as (e' & cn & dn & Se & Ec & _ & _ & Ed & _).
  destruct (create_epoch_context_ok e false E) as [_ (cl & El & Cl & _ & _ & _ & Bl & _ & Kl & _)].
  destruct (create_epoch_context_ok e true E) as [_ (cf & Ef & Cf & _ & Ff & _ & _ & _ & Kf & F64 & F32)].
  exists cl, cf. split; [exact El|]. split; [exact Ef|]. split; [exact Cl|]. split; [exact Bl|].
  split; [split; auto|]. split; [split; auto|].
  assert (N : forall fl c, create_epoch_context true e fl = Some (Some c) -> light_cache_num_items c = cn /\ full_dataset_num_items c = dn).
  { intros fl c H. unfold create_epoch_context in H. rewrite Se in H. cbn [bind] in H. rewrite Ec in H. cbn [bind] in H.
    rewrite Ed in H. cbn [bind negb] in H. apply bind_Some in H. destruct H as (cache & _ & H). apply bind_Some in H.
    destruct H as (c' & H & Q). injection Q as ->.
    assert (St : forall l a b, foldM (fun context i => let! item := calculate_dataset_item_2048 context (Z.of_nat i) in
      store_2048 context i item) a l = Some b -> light_cache_num_items b = light_cache_num_items a /\
      full_dataset_num_items b = full_dataset_num_items a).
    { induction l as [|i l IH]; intros a b G; [injection G as ->; auto|]. cbn [foldM] in G. apply bind_Some in G.
      destruct G as (a' & G1 & G). apply bind_Some in G1. destruct G1 as (item & _ & G1). unfold store_2048 in G1.
      apply bind_Some in G1. destruct G1 as (m & _ & G1). injection G1 as <-. exact (IH _ _ G). }
    exact (St _ _ _ H). }
  destruct (N _ _ El) as [L1 L2], (N _ _ Ef) as [F1 F2]. split; [congruence|]. split; [|congruence].
  rewrite L1 in Kl. rewrite F1 in Kf. congruence.
Qed.

(** The seeds of libethhash. *)
Lemma seed_iterations k : Nat.iter k SHA3_256 (repeat 0 32%nat) = Nat.iter k keccak256_bytes (repeat 0 32%nat).
Proof.
  assert (G : Nat.iter k SHA3_256 (repeat 0 32%nat) = Nat.iter k keccak256_bytes (repeat 0 32%nat) /\
    Forall is_byte (Nat.iter k keccak256_bytes (repeat 0 32%nat))); [|apply G].
  induction k as [|k [E F]]; [split; [reflexivity | apply zeros_byte]|].
  change (Nat.iter (S k) SHA3_256 (repeat 0 32%nat)) with (SHA3_256 (Nat.iter k SHA3_256 (repeat 0 32%nat))).
  change (Nat.iter (S k) keccak256_bytes (repeat 0 32%nat)) with (keccak256_bytes (Nat.iter k keccak256_bytes (repeat 0 32%nat))).
  rewrite E, SHA3_256_keccak, keccak256_bytes_ok by exact F. split; [reflexivity | apply sponge_bytes; lia].
Qed.

(** The sizes of a context of libprogpowz are the ones of the tables of libethhash. *)
Lemma progpowz_sizes e cl : 0 <= e < 2048 -> num_items_of (P := libprogpowz_dag) e cl ->
  dag_sizes !! Z.to_nat e = Some (128 * full_dataset_num_items cl) /\
  cache_sizes !! Z.to_nat e = Some (64 * light_cache_num_items cl).
Proof.
  intros E [Lc Ld]. change (full_dataset_init_size (DagParams := libprogpowz_dag) / 128) with 8388608 in Ld.
  destruct (dag_sizes_largest e E) as (d & -> & Dd). destruct (cache_sizes_largest e E) as (c & -> & Dc).
  change (2 ^ 23 + 2 ^ 16 * e) with (8388608 + 65536 * e) in Dd. change (2 ^ 18 + 2 ^ 11 * e) with (262144 + 2048 * e) in Dc.
  rewrite Z.mul_comm in Lc, Ld. now rewrite (largest_prime_unique _ _ _ Dd Ld), (largest_prime_unique _ _ _ Dc Lc).
Qed.

(** The client of libethhash holds the cache of the context. *)
Lemma progpowz_client bn : 0 <= bn < 2048 * 30000 -> exists cl,
  create_epoch_context (P := libprogpowz_dag) true (get_epoch_number (P := libprogpowz_dag) bn) false = Some (Some cl) /\
  ethash_light_new (P := libethhash) true true bn = Some (light_of cl bn) /\
  forall header_hash nonce, Forall is_byte header_hash -> exists res mh,
    ethash_hash (P := libprogpowz_dag) cl header_hash nonce = Some ((res, mh), cl) /\
    ethash_light_compute (P := libethhash) (light_of cl bn) header_hash nonce = Some (mkret (Some res) (Some mh) true).
Proof.
  intros B. assert (Eb : get_epoch_number (P := libprogpowz_dag) bn = bn / 30000) by (apply Z.quot_div_nonneg; lia).
  rewrite Eb. pose proof (epoch_range 30000 bn eq_refl B) as E. set (e := bn / 30000) in *.
  destruct (create_epoch_context_sized (P := libprogpowz_dag) (max_epoch := 32640) e false ltac:(lia))
    as [_ (e' & cl & Se & Sz & El & C & En & _ & _ & Bl & _ & K & _)].
  change (size_epoch (DagParams := libprogpowz_dag) e) with (Some e) in Se. injection Se as <-.
  destruct (progpowz_sizes e cl E Sz) as [Hd Hc]. pose proof C as (Cc & N & _). pose proof Cc as (Cn & _).
  destruct (build_light_cache_ethash (light_cache_num_items cl) (ethash_calculate_epoch_seed e)) as (nodes & Ek & _ & Q);
    [lia | apply epoch_seed_ok|].
  assert (Es : ethash_get_seedhash (P := libethhash) bn = Some (ethash_calculate_epoch_seed e)).
  { rewrite (seedhash_covered (PL := libethhash_laws)) by
      (try lia; change (ETHASH_EPOCH_LENGTH (EthashParams := libethhash)) with 30000; fold e; lia).
    change (ETHASH_EPOCH_LENGTH (EthashParams := libethhash)) with 30000. fold e. unfold seed_of_epoch, ethash_calculate_epoch_seed.
    now rewrite seed_iterations. }
  exists cl. split; [exact El|]. split.
  - unfold ethash_light_new, ethash_get_cachesize. rewrite Es. cbn [bind].
    change (ETHASH_EPOCH_LENGTH (EthashParams := libethhash)) with 30000. fold e. rewrite (proj2 (Z.ltb_lt e 2048)) by lia.
    cbn [c_assert bind]. rewrite Hc. cbn [bind]. unfold ethash_light_new_internal. cbn [negb orb]. rewrite Q. cbn [bind option_map cache cache_size].
    unfold light_of. congruence.
  - intros header nonce F. destruct (ethash_hash_ethereum (P := libprogpowz_dag) eq_refl eq_refl cl bn header nonce Cc ltac:(lia) ltac:(lia) F)
      as ([res mh] & E1 & E2). exists res, mh. split; [exact E1|].
    unfold ethash_light_compute, ethash_get_datasize. cbn [light_of block_number].
    change (ETHASH_EPOCH_LENGTH (EthashParams := libethhash)) with 30000. fold e. rewrite (proj2 (Z.ltb_lt e 2048)) by lia.
    cbn [c_assert bind]. rewrite Hd. cbn [bind]. unfold ethash_light_compute_internal. rewrite E2. reflexivity.
Qed.

(** ** Properties *)

(** C21.  create_epoch_context returns nullptr when calloc does and otherwise, for every
    epoch whose sizes fit an int, a context with prime numbers of items, the light cache
    that libethhash builds from the same seed, and an L1 cache of the first 64 dataset
    items; in a full context every item of either size is either computed or zero. *)
Theorem epoch_context_created {P : DagParams} {max_epoch : Z} {DL : DagLaws (max_epoch := max_epoch)} e fl : 0 <= e < max_epoch ->
  create_epoch_context false e fl = Some None /\
  exists context, create_epoch_context true e fl = Some (Some context) /\
    epoch_number context = e /\ full context = fl /\ context_ok context /\
    Z.prime (light_cache_num_items context) /\ Z.prime (full_dataset_num_items context) /\
    ethash_compute_cache_nodes (P := libethhash) (64 * light_cache_num_items context) (ethash_calculate_epoch_seed e) =
      Some (Some (light_cache context)) /\
    (fl = true -> lazy_ok 32 item_1024 context /\ lazy_ok 64 item_2048 context).
Proof.
  intros E. destruct (create_epoch_context_ok e fl E) as [N (context & Ec & C & En & Ef & P1 & B1 & P2 & K & F64 & F32)].
  split; [exact N|]. exists context. split; [exact Ec|]. split; [exact En|]. split; [exact Ef|]. split; [exact C|].
  split; [exact P1|]. split; [exact P2|]. split; [|intros ->; split; split; auto]. pose proof C as ((Cn & _) & _).
  destruct (build_light_cache_ethash (light_cache_num_items context) (ethash_calculate_epoch_seed e)) as (cache & Eb & _ & Q);
    [lia | apply epoch_seed_ok|]. congruence.
Qed.

Lemma epoch_context_created_witness : exists context,
  create_epoch_context (P := libmeowpow_dag) true 110 true = Some (Some context) /\ context_ok (P := libmeowpow_dag) context.
Proof.
  destruct (epoch_context_created (P := libmeowpow_dag) (max_epoch := 8160) 110 true ltac:(lia)) as [_ (c & E & _ & _ & C & _)]. exists c.
  split; [exact E | exact C].
Defined.

(** The interleaved computations of calculate_dataset_item_1024 and
    calculate_dataset_item_2048 give the items of calculate_dataset_item_512, two and
    four in a row, so that a 2048-bit item is two 1024-bit ones. *)
Theorem dataset_items_agree {P : DagParams} context i : cache_ok context -> exists a b c d,
  calculate_dataset_item_512 context (i * 4) = Some a /\ calculate_dataset_item_512 context (i * 4 + 1) = Some b /\
  calculate_dataset_item_512 context (i * 4 + 2) = Some c /\ calculate_dataset_item_512 context (i * 4 + 3) = Some d /\
  calculate_dataset_item_1024 context (i * 2) = Some (a ++ b) /\
  calculate_dataset_item_1024 context (i * 2 + 1) = Some (c ++ d) /\
  calculate_dataset_item_2048 context i = Some ((a ++ b) ++ (c ++ d)).
Proof.
  intros C. exists (item_512 context (i * 4)), (item_512 context (i * 4 + 1)), (item_512 context (i * 4 + 2)), (item_512 context (i * 4 + 3)).
  unfold calculate_dataset_item_1024, calculate_dataset_item_2048. rewrite !interleaved_ok by exact C.
  do 4 (split; [now apply item_512_some|]).
  replace (i * 2 * 2) with (i * 4) by lia. replace ((i * 2 + 1) * 2) with (i * 4 + 2) by lia.
  replace (i * 4 + 2 + 1) with (i * 4 + 3) by lia. cbn [map concat]. rewrite !app_nil_r, <- !app_assoc. auto.
Qed.

Lemma dataset_items_agree_witness :
  let context := mkcontext 0 2 [repeat 1 16%nat; repeat 2 16%nat] [] 4 false in
  exists a b, calculate_dataset_item_1024 (P := libkawpow_dag) context 0 = Some a /\
    calculate_dataset_item_2048 (P := libkawpow_dag) context 0 = Some (a ++ b).
Proof.
  assert (C : cache_ok (mkcontext 0 2 [repeat 1 16%nat; repeat 2 16%nat] [] 4 false))
    by (split; [reflexivity | split; [reflexivity | repeat constructor]]).
  destruct (dataset_items_agree (P := libkawpow_dag) _ 0 C) as (a & b & c & d & _ & _ & _ & _ & E1 & _ & E2).
  exists (a ++ b), (c ++ d). split; [exact E1 | exact E2].
Defined.

(** C6.  The contexts of one epoch agree: any sequence of hashes over the full context,
    which fills its dataset as it goes, succeeds with the results the light context
    gives. *)
Theorem progpow_contexts_agree {PP : ProgpowParams} {PL : ProgpowLaws PP} {max_epoch : Z} {DL : DagLaws (max_epoch := max_epoch)} e :
  0 <= e < max_epoch -> exists cl cf,
  create_epoch_context true e false = Some (Some cl) /\ create_epoch_context true e true = Some (Some cf) /\
  forall queries, exists rs cf', hash_all cf queries = Some (rs, cf') /\
    Forall2 (fun '(block_number, header_hash, nonce) r => hash cl block_number header_hash nonce = Some (r, cl)) queries rs.
Proof.
  intros E. destruct (contexts_of_epoch e E) as (cl & cf & El & Ef & Cl & _ & _ & Lz & Si). exists cl, cf.
  split; [exact El|]. split; [exact Ef|]. intros queries. destruct (hash_all_ok cl queries Cl cf Lz Si) as (rs & m & R & F).
  exists rs, (set_memory cf m). auto.
Qed.

Lemma progpow_contexts_agree_witness : exists cl cf r cf',
  create_epoch_context (P := libkawpow_dag) true 400 false = Some (Some cl) /\
  hash_all (PP := libkawpow) cf [(3000000, repeat 7 32%nat, 5)] = Some ([r], cf') /\
  hash (PP := libkawpow) cl 3000000 (repeat 7 32%nat) 5 = Some (r, cl).
Proof.
  destruct (progpow_contexts_agree (PP := libkawpow) (max_epoch := 32640) 400 ltac:(lia)) as (cl & cf & E & _ & Q).
  destruct (Q [(3000000, repeat 7 32%nat, 5)]) as (rs & cf' & R & F). inversion F as [|? r ? rs' H1 H2]; subst.
  inversion H2; subst. exists cl, cf, r, cf'. split; [exact E|]. split; [exact R | exact H1].
Defined.

(** C7.  Verification: over a context, for 32-byte strings, verify (in the order of
    either library) accepts exactly the mix hash that hash computes, with a final hash,
    as a big-endian number, at most the boundary; hashext (in either order) sets
    *retcode to 0 exactly when its result is the one of hash, has the given mix hash
    and is at most one of the boundaries. *)
Theorem progpow_verify_correct {PP : ProgpowParams} {PL : ProgpowLaws PP} cl block_number header_hash mix_hash nonce b1 b2 :
  context_ok cl -> length header_hash = 32%nat -> length mix_hash = 32%nat ->
  length b1 = 32%nat -> Forall is_byte b1 -> length b2 = 32%nat -> Forall is_byte b2 ->
  let share r := hash cl block_number header_hash nonce = Some (r, cl) /\ snd r = mix_hash /\
    (be_val (fst r) <= be_val b1 \/ be_val (fst r) <= be_val b2) in
  (exists b, verify cl block_number header_hash mix_hash nonce b1 = Some b /\
    verify_mix_first cl block_number header_hash mix_hash nonce b1 = Some b /\
    (b = true <-> exists final, hash cl block_number header_hash nonce = Some ((final, mix_hash), cl) /\ be_val final <= be_val b1)) /\
  exists r code r' code', hashext cl block_number header_hash nonce mix_hash b1 b2 = Some (r, code) /\
    hashext_mix_first cl block_number header_hash nonce mix_hash b1 b2 = Some (r', code') /\
    (code = 0 <-> share r) /\ (code' = 0 <-> share r') /\ (code = 0 <-> code' = 0) /\ 0 <= code <= 2 /\ 0 <= code' <= 2.
Proof.
  intros C Lh Lm L1 F1 L2 F2 share. split; [now apply verify_ok | now apply hashext_ok].
Qed.

Lemma progpow_verify_correct_witness : exists cl final mh,
  hash (PP := libfiropow) cl 5000 (repeat 1 32%nat) 9 = Some ((final, mh), cl) /\
  verify_mix_first (PP := libfiropow) cl 5000 (repeat 1 32%nat) mh 9 (repeat 255 32%nat) = Some true.
Proof.
  destruct (create_epoch_context_ok (P := libfiropow_dag) (max_epoch := 32576) 3 false ltac:(lia)) as [_ (cl & _ & C & _)].
  destruct (hash_light_ok (PP := libfiropow) cl 5000 (repeat 1 32%nat) 9 C eq_refl) as (final & mh & E & _ & _ & Lf & Ff & Lm & _).
  exists cl, final, mh. split; [exact E|].
  assert (Fb : Forall is_byte (repeat 255 32%nat)) by (repeat (apply List.Forall_cons; [unfold is_byte; lia|]); apply List.Forall_nil).
  destruct (progpow_verify_correct (PP := libfiropow) cl 5000 (repeat 1 32%nat) mh 9 (repeat 255 32%nat) (repeat 255 32%nat)
    C eq_refl Lm eq_refl Fb eq_refl Fb) as [(b & _ & V & A) _].
  rewrite V. f_equal. apply (proj2 A). exists final. split; [exact E|].
  pose proof (be_val_bound final Ff) as B. rewrite Lf in B. change (be_val (repeat 255 32)) with (2 ^ 256 - 1). change (8 * Z.of_nat 32) with 256 in B. lia.
Defined.

(** C23.  A search ends and, unless the range of nonces passes 2^64, finds the first nonce
    whose final hash is at most the boundary whenever there is one; a range that passes
    2^64 is not searched at all. *)
Theorem progpow_search_finds {PP : ProgpowParams} {PL : ProgpowLaws PP} cl block_number header_hash boundary start iterations :
  context_ok cl -> length header_hash = 32%nat -> length boundary = 32%nat -> Forall is_byte boundary ->
  0 <= start < 2 ^ 64 -> 0 <= iterations < 2 ^ 64 ->
  let solves nonce r := hash cl block_number header_hash nonce = Some (r, cl) /\ be_val (fst r) <= be_val boundary in
  exists out, search_light cl block_number header_hash boundary start iterations = Some (out, cl) /\
    if start + iterations <? 2 ^ 64 then
      match out with
      | Some (r, nonce) => start <= nonce < start + iterations /\ solves nonce r /\
          forall k r', start <= k < nonce -> ~ solves k r'
      | None => forall k r', start <= k < start + iterations -> ~ solves k r'
      end
    else out = None.
Proof.
  intros C Lh Lb Fb Bs Bi solves. set (res := fun nonce => match hash cl block_number header_hash nonce with Some (r, _) => r | None => ([], []) end).
  assert (H : forall nonce, hash cl block_number header_hash nonce = Some (res nonce, cl) /\
    is_less_or_equal (fst (res nonce)) boundary = (be_val (fst (res nonce)) <=? be_val boundary)).
  { intros nonce. destruct (hash_light_ok cl block_number header_hash nonce C Lh) as (final & mh & E & _ & _ & Lf & Ff & _).
    unfold res. rewrite E. split; [reflexivity | now apply is_less_or_equal_ok]. }
  destruct (search_ok (fun context nonce => hash context block_number header_hash nonce) (fun c => c = cl) res)
    with (boundary := boundary) (context := cl) (start := start) (iterations := iterations) as (out & c & E & -> & F); auto.
  { intros c nonce ->. exists cl. split; [apply H | reflexivity]. }
  exists out. split; [exact E|]. destruct (start + iterations <? 2 ^ 64); [|exact F].
  assert (No : forall k r', is_less_or_equal (fst (res k)) boundary = false -> ~ solves k r').
  { intros k r' B [S1 S2]. destruct (H k) as [H1 H2]. rewrite H1 in S1. injection S1 as <-. rewrite H2 in B. apply Z.leb_gt in B. lia. }
  destruct out as [[r nonce]|]; cbn [first_solution] in F; [|eauto]. destruct F as (Fr & -> & Fl & Fk).
  split; [exact Fr|]. split; [|eauto]. destruct (H nonce) as [H1 H2]. split; [exact H1|]. rewrite H2 in Fl. now apply Z.leb_le.
Qed.

Lemma progpow_search_finds_witness : exists cl,
  search_light (PP := libkawpow) cl 0 (repeat 0 32%nat) (repeat 255 32%nat) (2 ^ 64 - 1) 5 = Some (None, cl).
Proof.
  destruct (create_epoch_context_ok (P := libkawpow_dag) (max_epoch := 32640) 0 false ltac:(lia)) as [_ (cl & _ & C & _)].
  assert (Fb : Forall is_byte (repeat 255 32%nat)) by (repeat (apply List.Forall_cons; [unfold is_byte; lia|]); apply List.Forall_nil).
  destruct (progpow_search_finds (PP := libkawpow) cl 0 (repeat 0 32%nat) (repeat 255 32%nat) (2 ^ 64 - 1) 5 C eq_refl eq_refl Fb
    ltac:(lia) ltac:(lia)) as (out & E & ->). exists cl. exact E.
Defined.

(** C25.  The random program: from every seed the destinations and the sources are
    permutations of the registers, and the two sources of a random operation are
    different registers. *)
Theorem mix_rng_state_correct {PP : ProgpowParams} {PL : ProgpowLaws PP} seed_lo seed_hi src_rnd :
  let state := new_mix_rng_state seed_lo seed_hi in
  Permutation (dst_seq state) (map Z.of_nat (seq 0 num_regs)) /\ Permutation (src_seq state) (map Z.of_nat (seq 0 num_regs)) /\
  let (src1, src2) := math_sources src_rnd in (src1 < num_regs)%nat /\ (src2 < num_regs)%nat /\ src1 <> src2.
Proof. split; [apply new_state_ok|]. split; [apply new_state_ok | apply math_sources_ok]. Qed.

Lemma mix_rng_state_correct_witness :
  Permutation (dst_seq (new_mix_rng_state (PP := libmeowpow) 50 0)) [0; 1; 2; 3; 4; 5; 6; 7; 8; 9; 10; 11; 12; 13; 14; 15].
Proof. exact (proj1 (mix_rng_state_correct (PP := libmeowpow) 50 0 0)). Defined.

(** C22.  The Ethash of libprogpowz is Ethereum's: for every epoch that libethhash's size
    tables cover, and every block of that epoch, the light context that libprogpowz
    creates returns, for every header and nonce, the result and the mix hash that the
    client returns that libethhash makes for the block, from its own seed and with the
    sizes of its own tables. *)
Theorem progpowz_ethash_is_libethhash bn : 0 <= bn < 2048 * 30000 -> exists cl light,
  create_epoch_context (P := libprogpowz_dag) true (get_epoch_number (P := libprogpowz_dag) bn) false = Some (Some cl) /\
  ethash_light_new (P := libethhash) true true bn = Some light /\
  forall header_hash nonce, Forall is_byte header_hash -> exists res mh,
    ethash_hash (P := libprogpowz_dag) cl header_hash nonce = Some ((res, mh), cl) /\
    ethash_light_compute (P := libethhash) light header_hash nonce = Some (mkret (Some res) (Some mh) true).
Proof.
  intros B. destruct (progpowz_client bn B) as (cl & El & Ec & Eh). exists cl, (light_of cl bn).
  split; [exact El|]. split; [exact Ec|]. exact Eh.
Qed.

Lemma progpowz_ethash_is_libethhash_witness : exists cl light res mh,
  create_epoch_context (P := libprogpowz_dag) true (get_epoch_number (P := libprogpowz_dag) 12345678) false = Some (Some cl) /\
  ethash_light_compute (P := libethhash) light [] 42 = Some (mkret (Some res) (Some mh) true).
Proof.
  destruct (progpowz_ethash_is_libethhash 12345678 ltac:(lia)) as (cl & light & E & _ & H).
  destruct (H [] 42 ltac:(constructor)) as (res & mh & _ & E2). exists cl, light, res, mh. split; [exact E | exact E2].
Defined.

(** The Ethash hash of any of the libraries: the light and the full context of an
    epoch return the same result, ethash_verify accepts exactly the mix hash of that
    result when it is at most the boundary. *)
Theorem ethash_contexts_agree {P : DagParams} {max_epoch : Z} {DL : DagLaws (max_epoch := max_epoch)} e : 0 <= e < max_epoch ->
  exists cl cf, create_epoch_context true e false = Some (Some cl) /\ create_epoch_context true e true = Some (Some cf) /\
  forall header_hash nonce, Forall is_byte header_hash -> exists final mh cf',
    ethash_hash cl header_hash nonce = Some ((final, mh), cl) /\
    ProgpowEthash.hash_full cf header_hash nonce = Some ((final, mh), cf') /\ lazy_ok 32 item_1024 cf' /\
    forall mix_hash boundary, Forall is_byte mix_hash -> length boundary = 32%nat -> Forall is_byte boundary ->
      exists b, ethash_verify cl header_hash mix_hash nonce boundary = Some b /\
        (b = true <-> mix_hash = mh /\ be_val final <= be_val boundary).
Proof.
  intros E. destruct (contexts_of_epoch e E) as (cl & cf & El & Ef & Cl & _ & Lz & _ & Si). pose proof Cl as (Cc & N & _).
  exists cl, cf. split; [exact El|]. split; [exact Ef|]. intros header nonce F.
  destruct (seed_words header nonce F) as (_ & _ & S).
  destruct (kernel_full cl cf (ProgpowEthash.hash_seed header nonce) Cc Lz Si S) as (mh & m & E1 & E2 & Lz').
  exists (hash_final (ProgpowEthash.hash_seed header nonce) mh), mh, (set_memory cf m).
  assert (Eh : ethash_hash cl header nonce = Some ((hash_final (ProgpowEthash.hash_seed header nonce) mh, mh), cl))
    by (unfold ethash_hash, ethash_hash_with; now rewrite E1).
  split; [exact Eh|]. split; [unfold ProgpowEthash.hash_full, ethash_hash_with; now rewrite E2|]. split; [exact Lz'|].
  intros mix boundary Fm Lb Fb.
  destruct (ethash_verify_ok cl header nonce mix boundary Cc ltac:(lia) F Fm Lb Fb) as (b & Eb & A). exists b. split; [exact Eb|].
  rewrite A, Eh. split; [intros (f & Q & B); injection Q as Q1 Q2; subst; auto | intros [-> B]; eauto].
Qed.

Lemma ethash_contexts_agree_witness : exists cl r,
  create_epoch_context (P := libsccpow_dag) true 9 false = Some (Some cl) /\ ethash_hash (P := libsccpow_dag) cl [1; 2; 3] 4 = Some (r, cl).
Proof.
  destruct (ethash_contexts_agree (P := libsccpow_dag) (max_epoch := 32576) 9 ltac:(lia)) as (cl & cf & E & _ & H).
  destruct (H [1; 2; 3] 4) as (f & mh & _ & E1 & _); [repeat (constructor; [unfold is_byte; lia|]); constructor|].
  exists cl, (f, mh). split; [exact E | exact E1].
Defined.

(** C26.  A full context cannot serve both hashes: when neither half of a 2048-bit item has
    been computed, the lookup of the Ethash hash stores its first half, and the lookup of
    ProgPoW then takes the item for computed and returns zeros for its second half. *)
Theorem mixed_lookups {P : DagParams} context j : cache_ok context -> (64 * (j + 1) <= length (memory context))%nat ->
  slice 64 (memory context) j = repeat 0 64%nat -> first_word_zero (item_1024 context (2 * Z.of_nat j)) = false ->
  exists c1 c2, lazy_lookup_1024 context (2 * Z.of_nat j) = Some (item_1024 context (2 * Z.of_nat j), c1) /\
    lazy_lookup_2048 c1 (Z.of_nat j) = Some (item_1024 context (2 * Z.of_nat j) ++ repeat 0 32%nat, c2) /\
    (first_word_zero (item_1024 context (2 * Z.of_nat j + 1)) = false ->
     item_1024 context (2 * Z.of_nat j) ++ repeat 0 32%nat <> item_2048 context (Z.of_nat j)).
Proof.
  intros C B Sl Nz. set (a := item_1024 context (2 * Z.of_nat j)) in *.
  assert (La : length a = 32%nat) by exact (items_length context [_; _] C).
  rewrite slice_halves in Sl. change (repeat 0 64%nat) with (repeat 0 32%nat ++ repeat 0 32%nat) in Sl.
  apply app_inj_1 in Sl; [|unfold slice; rewrite length_take, length_drop, repeat_length; lia]. destruct Sl as [S0 S1].
  destruct (slice_store 32 (memory context) (2 * j) a La ltac:(lia)) as (m & Em & Lm & _ & Sm).
  exists (set_memory context m), (set_memory context m). split; [|split].
  - unfold lazy_lookup_1024, lazy_lookup, load_item. replace (Z.to_nat (2 * Z.of_nat j)) with (2 * j)%nat by lia.
    rewrite (proj2 (Nat.leb_le _ _)) by lia. cbn [bind]. fold (slice 32 (memory context) (2 * j)). rewrite S0. cbn [first_word_zero lane nth repeat Z.eqb andb].
    unfold calculate_dataset_item_1024. rewrite interleaved_ok by exact C. cbn [bind].
    change (concat (map (item_512 context) _)) with a. rewrite Em. reflexivity.
  - unfold lazy_lookup_2048, lazy_lookup, load_item. rewrite Nat2Z.id. cbn [set_memory memory].
    rewrite (proj2 (Nat.leb_le _ _)) by lia. cbn [bind]. fold (slice 64 m j). rewrite slice_halves, !Sm by lia.
    rewrite Nat.eqb_refl, (proj2 (Nat.eqb_neq (2 * j + 1) (2 * j))), S1 by lia.
    assert (Fz : first_word_zero (a ++ repeat 0 32%nat) = false).
    { destruct a as [|x [|y a]]; try discriminate. exact Nz. }
    now rewrite Fz.
  - intros Nz1 Q. rewrite item_2048_halves in Q. apply app_inv_head in Q. rewrite <- Q in Nz1. discriminate.
Qed.

(** A small context whose dataset has not been computed. *)
Definition small_context : epoch_context := mkcontext 0 1 [repeat 0 16%nat] (repeat 0 64%nat) 2 true.

Lemma mixed_lookups_witness : exists c1 c2 item,
  lazy_lookup_1024 (P := libprogpowz_dag) small_context 0 = Some (item, c1) /\
  lazy_lookup_2048 (P := libprogpowz_dag) c1 0 = Some (item ++ repeat 0 32%nat, c2).
Proof.
  assert (C : cache_ok small_context) by (split; [reflexivity | split; [reflexivity | repeat constructor]]).
  destruct (mixed_lookups (P := libprogpowz_dag) small_context 0 C (le_n 64) eq_refl) as (c1 & c2 & E1 & E2 & _);
    [vm_compute; reflexivity|].
  exists c1, c2, (item_1024 (P := libprogpowz_dag) small_context 0). split; [exact E1 | exact E2].
Defined.

(** find_epoch_number keeps its cache consistent and returns an epoch whose seed has
    the first word of the given one, or -1 when no epoch below 30000 has: the seed of such
    an epoch is always found. *)
Theorem find_epoch_number_correct st seed : seed_cache_ok st ->
  let '(e, st') := find_epoch_number st seed in
  seed_cache_ok st' /\
  (0 <= e /\ seed_word (ethash_calculate_epoch_seed e) = seed_word seed \/
   e = -1 /\ forall k, 0 <= k < 30000 -> seed <> ethash_calculate_epoch_seed k).
Proof.
  intros C. pose proof (find_epoch_number_ok st seed C) as H. destruct (find_epoch_number st seed) as [e st'].
  destruct H as [C' [F|[-> F]]]; split; auto. right. split; [reflexivity|]. intros k K ->. exact (F k K eq_refl).
Qed.

Lemma find_epoch_number_correct_witness : exists e st',
  find_epoch_number (mkcache 0 (repeat 0 32%nat)) (ethash_calculate_epoch_seed 7) = (e, st') /\ 0 <= e /\ seed_cache_ok st'.
Proof.
  pose proof (find_epoch_number_correct (mkcache 0 (repeat 0 32%nat)) (ethash_calculate_epoch_seed 7)
    (conj (Z.le_refl 0) eq_refl)) as H.
  destruct (find_epoch_number _ _) as [e st']. exists e, st'. split; [reflexivity|].
  destruct H as [C [[E _]|[_ N]]]; [split; [exact E | exact C]|]. exfalso. apply (N 7); [lia | reflexivity].
Defined.
