(* ===== verification/ProgpowManaged.v ===== *)
(** The global epoch contexts of the ProgPoW libraries (ethash/managed.cpp): a context
    shared by the process behind a mutex, one more pointer to it per thread, and the
    counts of their shared_ptrs.  A call of ethash_get_global_epoch_context is four
    steps of its thread, which interleave with the steps of the others in any order;
    between calls the threads hash over the light contexts they were given, which only
    reads them.  A hash over a shared full context is not a step of this machine: it
    checks and fills the items of the dataset without synchronisation, and two threads
    may do so at once (Progpow.v and ProgpowLibs.v treat it for one thread). *)
From Stdlib Require Import ZArith Lia List Bool.
From stdpp Require Import base list gmap fin_maps fin_map_dom fin_sets.
From S2P Require Import Prelude CInt SpongeSpec ProgpowDag ProgpowEthash Progpow ProgpowLibs.
Import ListNotations.
Local Open Scope Z_scope.

(** ** State *)

(** What a shared_ptr points to, and how many of them do. *)
Record object : Type := mkobject { pointee : epoch_context; use_count : nat }.

(** Where a thread is inside update_local_context: before the lock, behind it with the
    obsolete shared context released, or with a shared context of its epoch. *)
Inductive position : Type :=
| Waiting (epoch_number : Z)
| Building (epoch_number : Z)
| Leaving (epoch_number : Z).

(** The variables of the file; threads and addresses are numbers, and a thread without
    an entry in [thread_local_context] has a null pointer. *)
Record managed : Type := mkmanaged {
  heap : gmap nat object;
  shared_context : option nat;
  thread_local_context : gmap nat nat;
  shared_context_mutex : option nat;
  positions : gmap nat position
}.

Definition initial : managed := mkmanaged ∅ None ∅ None ∅.

(** ** std::shared_ptr *)

(** Copying a pointer. *)
Definition retain (p : option nat) (h : gmap nat object) : option (gmap nat object) :=
  match p with
  | None => Some h
  | Some p => let! o := h !! p in Some (<[p := mkobject (pointee o) (S (use_count o))]> h)
  end.

(** reset, and the end of the value a pointer had before an assignment. *)
Definition release (p : option nat) (h : gmap nat object) : option (gmap nat object) :=
  match p with
  | None => Some h
  | Some p =>
      let! o := h !! p in
      match use_count o with
      | O => None
      | S O => Some (delete p h)
      | S n => Some (<[p := mkobject (pointee o) n]> h)
      end
  end.

(** [ptr && ptr->epoch_number == epoch_number] *)
Definition holds_epoch (h : gmap nat object) (p : option nat) (e : Z) : option bool :=
  match p with
  | None => Some false
  | Some p => let! o := h !! p in Some (epoch_number (pointee o) =? e)
  end.

(** ** The steps of a call *)

Inductive event : Type :=
| Running
| Returned (thread : nat) (e : Z) (result : option nat)
| Hashed (thread : nat) (r : list Z * list Z).

Section Managed.
(** [full] selects between the two halves of the file. *)
Context {PP : ProgpowParams} (full : bool).

(** The first statement of update_local_context, before the lock. *)
Definition reset_local_context (t : nat) (e : Z) (st : managed) : option (event * managed) :=
  let! h := release (thread_local_context st !! t) (heap st) in
  Some (Running, mkmanaged h (shared_context st) (delete t (thread_local_context st)) (shared_context_mutex st)
    (<[t := Waiting e]> (positions st))).

(** The fast path of ethash_get_global_epoch_context, or that statement. *)
Definition get_global_epoch_context (t : nat) (e : Z) (st : managed) : option (event * managed) :=
  let local := thread_local_context st !! t in
  let! hit := holds_epoch (heap st) local e in
  if hit : bool then Some (Returned t e local, st) else reset_local_context t e st.

(** The lock, and the release of an obsolete shared context. *)
Definition lock_shared_context (t : nat) (e : Z) (st : managed) : option (event * managed) :=
  let! hit := holds_epoch (heap st) (shared_context st) e in
  if hit : bool then
    Some (Running, mkmanaged (heap st) (shared_context st) (thread_local_context st) (Some t)
      (<[t := Leaving e]> (positions st)))
  else
    let! h := release (shared_context st) (heap st) in
    Some (Running, mkmanaged h None (thread_local_context st) (Some t) (<[t := Building e]> (positions st))).

(** [shared_context = create_epoch_context(epoch_number)], at the address calloc
    returned, if any. *)
Definition renew_shared_context (t : nat) (e : Z) (address : option nat) (st : managed) : option (event * managed) :=
  let! created := create_epoch_context (bool_decide (is_Some address)) e full in
  let! h := release (shared_context st) (heap st) in
  match created, address with
  | Some context, Some p =>
      Some (Running, mkmanaged (<[p := mkobject context 1]> h) (Some p) (thread_local_context st)
        (shared_context_mutex st) (<[t := Leaving e]> (positions st)))
  | _, _ =>
      Some (Running, mkmanaged h None (thread_local_context st) (shared_context_mutex st) (<[t := Leaving e]> (positions st)))
  end.

(** [thread_local_context = shared_context], the end of the lock, and the pointer that
    the call returns. *)
Definition take_shared_context (t : nat) (e : Z) (st : managed) : option (event * managed) :=
  let p := shared_context st in
  let! h := retain p (heap st) in
  let! h := release (thread_local_context st !! t) h in
  Some (Returned t e p, mkmanaged h p (partial_alter (fun _ => p) t (thread_local_context st)) None (delete t (positions st))).

(** update_local_context and the whole call, when no other thread interrupts them. *)
Definition update_local_context (t : nat) (e : Z) (address : option nat) (st : managed) : option (event * managed) :=
  let! (_, st) := reset_local_context t e st in
  let! (_, st) := lock_shared_context t e st in
  let! (_, st) :=
    match positions st !! t with
    | Some (Building _) => renew_shared_context t e address st
    | _ => Some (Running, st)
    end in
  take_shared_context t e st.

Definition ethash_get_global_epoch_context (t : nat) (e : Z) (address : option nat) (st : managed)
  : option (event * managed) :=
  let local := thread_local_context st !! t in
  let! hit := holds_epoch (heap st) local e in
  if hit : bool then Some (Returned t e local, st) else update_local_context t e address st.

(** A thread hashes over the light context it was given. *)
Definition hash_global (t : nat) (block_number : Z) (header_hash : list Z) (nonce : Z) (st : managed)
  : option (event * managed) :=
  let! p := thread_local_context st !! t in
  let! o := heap st !! p in
  let! (r, context) := hash (pointee o) block_number header_hash nonce in
  Some (Hashed t r, mkmanaged (<[p := mkobject context (use_count o)]> (heap st)) (shared_context st)
    (thread_local_context st) (shared_context_mutex st) (positions st)).

(** ** Interleavings *)

Inductive action : Type :=
| Call (t : nat) (e : Z)
| Lock (t : nat)
| Renew (t : nat) (address : option nat)
| Take (t : nat)
| Hash (t : nat) (block_number : Z) (header_hash : list Z) (nonce : Z).

Definition actor (a : action) : nat :=
  match a with Call t _ | Lock t | Renew t _ | Take t | Hash t _ _ _ => t end.

(** What may happen next: a thread that is not inside a call makes one, or hashes if it
    has a light context; a free mutex is taken by any thread that waits for it; calloc returns
    a free address or none. *)
Definition enabled (a : action) (st : managed) : Prop :=
  match a with
  | Call t _ => positions st !! t = None
  | Lock t => (exists e, positions st !! t = Some (Waiting e)) /\ shared_context_mutex st = None
  | Renew t address => (exists e, positions st !! t = Some (Building e)) /\ forall p, address = Some p -> heap st !! p = None
  | Take t => exists e, positions st !! t = Some (Leaving e)
  | Hash t _ _ _ => full = false /\ positions st !! t = None /\ is_Some (thread_local_context st !! t)
  end.

Definition exec (a : action) (st : managed) : option (event * managed) :=
  match a with
  | Call t e => get_global_epoch_context t e st
  | Lock t => match positions st !! t with Some (Waiting e) => lock_shared_context t e st | _ => None end
  | Renew t address => match positions st !! t with Some (Building e) => renew_shared_context t e address st | _ => None end
  | Take t => match positions st !! t with Some (Leaving e) => take_shared_context t e st | _ => None end
  | Hash t block_number header_hash nonce => hash_global t block_number header_hash nonce st
  end.
End Managed.

(** ** Counting owners *)

Definition one (p : option nat) (q : nat) : nat := if bool_decide (p = Some q) then 1 else 0.

(** The threads whose pointer is [q]. *)
Definition threads_on (l : gmap nat nat) (q : nat) : nat := size (filter (fun '(_, p) => p = q) l).

(** The owners of an address. *)
Definition owners (st : managed) (q : nat) : nat :=
  (one (shared_context st) q + threads_on (thread_local_context st) q)%nat.

Lemma threads_delete l t q : threads_on l q = (threads_on (delete t l) q + one (l !! t) q)%nat.
Proof.
  unfold threads_on, one. rewrite map_filter_delete, map_size_delete. case_bool_decide as E.
  - assert (F : filter (fun '(_, p) => p = q) l !! t = Some q) by (apply map_lookup_filter_Some; auto).
    rewrite F. assert (size (filter (fun '(_, p) => p = q) l) <> 0)%nat; [|lia].
    apply map_size_non_empty_iff. intros Z. now rewrite Z in F.
  - assert (F : filter (fun '(_, p) => p = q) l !! t = None).
    { apply map_lookup_filter_None. right. intros x X ->. auto. }
    rewrite F. unfold id. lia.
Qed.

Lemma threads_alter l t p q : threads_on (partial_alter (fun _ => p) t l) q = (threads_on (delete t l) q + one p q)%nat.
Proof.
  rewrite (threads_delete (partial_alter _ t l) t), lookup_partial_alter_eq. do 2 f_equal.
  unfold delete, map_delete. now rewrite partial_alter_partial_alter_eq.
Qed.

Lemma threads_positive l t p : l !! t = Some p -> (0 < threads_on l p)%nat.
Proof. intros E. rewrite (threads_delete l t), E. unfold one. rewrite bool_decide_true by reflexivity. lia. Qed.

Lemma threads_owner l q : (0 < threads_on l q)%nat -> exists t, l !! t = Some q.
Proof.
  unfold threads_on. intros L. destruct (map_choose (filter (fun '(_, p) => p = q) l)) as (t & p & E).
  - intros E. rewrite E, map_size_empty in L. lia.
  - apply map_lookup_filter_Some in E. destruct E as [E ->]. eauto.
Qed.

(** ** The heap *)

Section Heap.
Context (good : epoch_context -> Prop).

(** Every object has the owners it counts, at least one, and nothing owned is freed. *)
Definition heap_ok (h : gmap nat object) (f : nat -> nat) : Prop := forall p,
  match h !! p with
  | Some o => use_count o = f p /\ (0 < f p)%nat /\ good (pointee o)
  | None => f p = 0%nat
  end.

(** Objects keep their epochs. *)
Definition same_epochs (h h' : gmap nat object) : Prop :=
  forall p o', h' !! p = Some o' -> exists o, h !! p = Some o /\ epoch_number (pointee o') = epoch_number (pointee o).

Lemma heap_ok_ext h f g : heap_ok h f -> (forall q, f q = g q) -> heap_ok h g.
Proof. intros H E p. specialize (H p). now rewrite E in H. Qed.

Lemma heap_ok_owned h f p : heap_ok h f -> (0 < f p)%nat -> exists o, h !! p = Some o /\ use_count o = f p /\ good (pointee o).
Proof. intros H F. specialize (H p). destruct (h !! p) as [o|]; [exists o; tauto | lia]. Qed.

Lemma one_eq p : one (Some p) p = 1%nat.
Proof. unfold one. now rewrite bool_decide_true. Qed.

Lemma one_ne p q : p <> q -> one (Some p) q = 0%nat.
Proof. intros N. unfold one. rewrite bool_decide_false; congruence. Qed.

(** Storing an object of a given count. *)
Lemma heap_ok_insert h f g p o : heap_ok h f -> use_count o = g p -> (0 < g p)%nat -> good (pointee o) ->
  (forall q, q <> p -> g q = f q) -> heap_ok (<[p := o]> h) g.
Proof.
  intros H U G K E q. destruct (decide (p = q)) as [<-|N]; [rewrite lookup_insert_eq; auto|].
  rewrite lookup_insert_ne by exact N. rewrite E by congruence. apply H.
Qed.

Lemma same_epochs_insert h p o c n : h !! p = Some o -> epoch_number c = epoch_number (pointee o) ->
  same_epochs h (<[p := mkobject c n]> h).
Proof.
  intros E Ee q o' L. destruct (decide (p = q)) as [<-|N]; [rewrite lookup_insert_eq in L; injection L as <-; eauto|].
  rewrite lookup_insert_ne in L by exact N. eauto.
Qed.

Lemma retain_ok h f p : heap_ok h f -> (forall q, p = Some q -> (0 < f q)%nat) ->
  exists h', retain p h = Some h' /\ heap_ok h' (fun q => f q + one p q)%nat /\ same_epochs h h'.
Proof.
  intros H F. destruct p as [p|]; cbn [retain].
  - destruct (heap_ok_owned h f p H (F p eq_refl)) as (o & E & U & G). rewrite E. cbn [bind]. eexists. split; [reflexivity|].
    split; [|exact (same_epochs_insert _ _ _ _ _ E eq_refl)]. apply (heap_ok_insert h f); cbn [use_count pointee]; rewrite ?one_eq; auto; try lia.
    intros q N. rewrite one_ne by congruence. lia.
  - exists h. split; [reflexivity|]. split; [apply (heap_ok_ext _ _ _ H); intros q; change (one None q) with 0%nat; lia|].
    intros p o' L. eauto.
Qed.

Lemma release_ok h f p : heap_ok h f -> (forall q, one p q <= f q)%nat ->
  exists h', release p h = Some h' /\ heap_ok h' (fun q => f q - one p q)%nat /\ same_epochs h h'.
Proof.
  intros H F. destruct p as [p|]; cbn [release].
  - specialize (F p). rewrite one_eq in F. destruct (heap_ok_owned h f p H F) as (o & E & U & G). rewrite E. cbn [bind].
    destruct (use_count o) as [|[|n]] eqn:C; [lia| |].
    + eexists. split; [reflexivity|]. split.
      * intros q. destruct (decide (p = q)) as [<-|N]; [rewrite lookup_delete_eq, one_eq; lia|].
        rewrite lookup_delete_ne, one_ne by exact N. rewrite Nat.sub_0_r. apply H.
      * intros q o' L. apply lookup_delete_Some in L. destruct L as [_ L]. eauto.
    + eexists. split; [reflexivity|]. split; [|exact (same_epochs_insert _ _ _ _ _ E eq_refl)].
      apply (heap_ok_insert h f); cbn [use_count pointee]; rewrite ?one_eq; auto; try lia.
      intros q N. rewrite one_ne by congruence. lia.
  - exists h. split; [reflexivity|]. split; [apply (heap_ok_ext _ _ _ H); intros q; change (one None q) with 0%nat; lia|].
    intros p o' L. eauto.
Qed.

Lemma holds_epoch_ok h f p e : heap_ok h f -> (forall q, p = Some q -> (0 < f q)%nat) ->
  exists hit, holds_epoch h p e = Some hit /\
    (hit = true -> exists q o, p = Some q /\ h !! q = Some o /\ epoch_number (pointee o) = e).
Proof.
  intros H F. destruct p as [p|]; cbn [holds_epoch]; [|exists false; split; [reflexivity | discriminate]].
  destruct (heap_ok_owned h f p H (F p eq_refl)) as (o & E & _). rewrite E. cbn [bind]. eexists. split; [reflexivity|].
  intros Hit. apply Z.eqb_eq in Hit. eauto.
Qed.

(** Every object has its own owner. *)
Lemma heap_size h s l : heap_ok h (fun q => one s q + threads_on l q)%nat -> (size h <= 1 + size l)%nat.
Proof.
  intros H. rewrite <- (length_map_to_list h), <- (length_map_to_list l), <- (length_fmap fst (map_to_list h)).
  rewrite <- (length_fmap snd (map_to_list l)).
  transitivity (length (option_list s ++ (map_to_list l).*2)); [|rewrite length_app; destruct s; cbn; lia].
  apply submseteq_length, NoDup_submseteq; [apply NoDup_fst_map_to_list|].
  intros p I. apply list_elem_of_fmap in I. destruct I as ([q o] & -> & I). apply elem_of_map_to_list in I. cbn [fst].
  specialize (H q). rewrite I in H. destruct H as (_ & P & _). apply elem_of_app.
  unfold one in P. case_bool_decide as S.
  - left. subst s. now apply list_elem_of_singleton.
  - right. destruct (threads_owner l q P) as [t T]. apply elem_of_map_to_list in T.
    change q with (snd (t, q)). now apply list_elem_of_fmap_2.
Qed.
End Heap.

(** ** The invariant *)

Section Invariant.
Context {PP : ProgpowParams} {PL : ProgpowLaws PP} {max_epoch : Z} {DL : DagLaws (max_epoch := max_epoch)} (full : bool).

(** A context as it was created for its epoch. *)
Definition good (c : epoch_context) : Prop :=
  0 <= epoch_number c < max_epoch /\ create_epoch_context true (epoch_number c) full = Some (Some c) /\ context_ok c.

(** [p] points to an object of epoch [e]. *)
Definition of_epoch (h : gmap nat object) (e : Z) (p : nat) : Prop :=
  exists o, h !! p = Some o /\ epoch_number (pointee o) = e.

Definition position_ok (st : managed) (t : nat) (pos : position) : Prop :=
  match pos with
  | Waiting e => 0 <= e < max_epoch /\ shared_context_mutex st <> Some t
  | Building e => 0 <= e < max_epoch /\ shared_context_mutex st = Some t /\ shared_context st = None
  | Leaving e => shared_context_mutex st = Some t /\ forall p, shared_context st = Some p -> of_epoch (heap st) e p
  end.

(** The counts are right; a thread inside a call has no local context, and the lock
    exactly behind the mutex, where the shared context is its own to change. *)
Definition managed_ok (st : managed) : Prop :=
  heap_ok good (heap st) (owners st) /\
  (forall t pos, positions st !! t = Some pos -> thread_local_context st !! t = None /\ position_ok st t pos) /\
  (forall t, shared_context_mutex st = Some t -> exists e, positions st !! t = Some (Building e) \/ positions st !! t = Some (Leaving e)).

Definition action_ok (a : action) : Prop :=
  match a with
  | Call _ e => 0 <= e < max_epoch
  | Hash _ _ header_hash _ => length header_hash = 32%nat
  | _ => True
  end.

(** What a step gives its thread. *)
Definition outcome (a : action) (st : managed) (ev : event) (st' : managed) : Prop :=
  match a, ev with
  | Hash t block_number header_hash nonce, Hashed t' r => t' = t /\ st' = st /\ exists p o cl,
      thread_local_context st !! t = Some p /\ heap st !! p = Some o /\
      create_epoch_context true (epoch_number (pointee o)) false = Some (Some cl) /\
      hash cl block_number header_hash nonce = Some (r, cl)
  | Call t e, Running => positions st' !! t = Some (Waiting e) /\ shared_context_mutex st' = shared_context_mutex st /\
      forall p, heap st !! p = None -> heap st' !! p = None
  | Lock t, Running => exists e, positions st !! t = Some (Waiting e) /\
      (positions st' !! t = Some (Building e) \/ positions st' !! t = Some (Leaving e) /\ is_Some (shared_context st')) /\
      forall p, heap st !! p = None -> heap st' !! p = None
  | Renew t None, Running => shared_context st' = None
  | Renew t (Some p), Running => exists e, positions st !! t = Some (Building e) /\
      positions st' !! t = Some (Leaving e) /\ shared_context st' = Some p /\ of_epoch (heap st') e p
  | Call t e, Returned t' e' (Some p) => t' = t /\ e' = e /\ thread_local_context st' !! t = Some p /\ of_epoch (heap st') e p
  | Take t, Returned t' e (Some p) => t' = t /\ positions st !! t = Some (Leaving e) /\ thread_local_context st' !! t = Some p /\ of_epoch (heap st') e p
  | Take t, Returned t' e None => t' = t /\ shared_context st = None
  | _, _ => False
  end.

Lemma created_good e : 0 <= e < max_epoch ->
  create_epoch_context false e full = Some None /\
  exists c, create_epoch_context true e full = Some (Some c) /\ epoch_number c = e /\ good c.
Proof.
  intros E. destruct (create_epoch_context_ok e full E) as [Nl (c & Ec & C & En & _)]. split; [exact Nl|]. exists c.
  split; [exact Ec|]. split; [exact En|]. unfold good. rewrite En. auto.
Qed.

Lemma of_epoch_kept h h' f' e p : heap_ok good h' f' -> (0 < f' p)%nat -> same_epochs h h' -> of_epoch h e p -> of_epoch h' e p.
Proof.
  intros H F S (o & E & Ee). destruct (heap_ok_owned good h' f' p H F) as (o' & E' & _). exists o'. split; [exact E'|].
  destruct (S p o' E') as (o2 & E2 & Q). congruence.
Qed.

Lemma same_epochs_none h h' p : same_epochs h h' -> h !! p = None -> h' !! p = None.
Proof. intros S E. destruct (h' !! p) as [o|] eqn:E'; [|reflexivity]. destruct (S p o E') as (o' & Q & _). congruence. Qed.

Lemma shared_owned st p : shared_context st = Some p -> (0 < owners st p)%nat.
Proof. intros E. unfold owners. rewrite E, one_eq. lia. Qed.

Lemma local_owned st t p : thread_local_context st !! t = Some p -> (0 < owners st p)%nat.
Proof. intros E. pose proof (threads_positive _ _ _ E). unfold owners. lia. Qed.

(** A thread outside the mutex does not touch what is behind it. *)
Lemma position_kept st h' f' locals pos' t pos : heap_ok good h' f' -> same_epochs (heap st) h' ->
  (forall p, shared_context st = Some p -> (0 < f' p)%nat) -> position_ok st t pos ->
  position_ok (mkmanaged h' (shared_context st) locals (shared_context_mutex st) pos') t pos.
Proof.
  intros H S F P. destruct pos as [e|e|e]; [exact P | exact P|]. destruct P as [M P]. split; [exact M|]. cbn.
  intros p E. eapply of_epoch_kept; eauto.
Qed.

(** Behind the mutex the other threads wait. *)
Lemma position_waits st st' t t' pos : t' <> t -> position_ok st t' pos ->
  shared_context_mutex st = None \/ shared_context_mutex st = Some t ->
  shared_context_mutex st' = None \/ shared_context_mutex st' = Some t -> position_ok st' t' pos.
Proof.
  intros N P M M'. destruct pos as [e|e|e]; cbn in *; [split; [tauto|]; destruct M' as [-> | ->]; congruence | |];
    destruct M as [M|M]; rewrite M in P; intuition congruence.
Qed.

(** ** Every step keeps it *)

Lemma insert_all {A} (Q : nat -> A -> Prop) (m : gmap nat A) t x :
  (forall t' y, t' <> t -> m !! t' = Some y -> Q t' y) -> Q t x -> forall t' y, <[t := x]> m !! t' = Some y -> Q t' y.
Proof.
  intros H X t' y L. apply lookup_insert_Some in L. destruct L as [[<- <-]|[N L]]; [exact X | apply H; auto].
Qed.

Lemma delete_all {A} (Q : nat -> A -> Prop) (m : gmap nat A) t :
  (forall t' y, t' <> t -> m !! t' = Some y -> Q t' y) -> forall t' y, delete t m !! t' = Some y -> Q t' y.
Proof. intros H t' y L. apply lookup_delete_Some in L. destruct L as [N L]. apply H; auto. Qed.

(** What a step of [a] from [st] has to do. *)
Definition steps (a : action) (st : managed) (m : option (event * managed)) : Prop :=
  exists ev st', m = Some (ev, st') /\ managed_ok st' /\ outcome a st ev st' /\
    forall t, t <> actor a -> thread_local_context st' !! t = thread_local_context st !! t.

Lemma call_steps t e st : managed_ok st -> enabled full (Call t e) st -> 0 <= e < max_epoch ->
  steps (Call t e) st (get_global_epoch_context t e st).
Proof.
  intros Ok N E. pose proof Ok as (H & P & M). cbn [enabled] in N. unfold get_global_epoch_context.
  destruct (holds_epoch_ok good _ _ (thread_local_context st !! t) e H (fun q => local_owned st t q)) as (hit & -> & Hh).
  cbn [bind]. destruct hit.
  - exists (Returned t e (thread_local_context st !! t)), st. split; [reflexivity|]. split; [exact Ok|]. split; [|auto].
    destruct (Hh eq_refl) as (q & o & Eq & Eo & Ee). cbn [outcome]. rewrite Eq. repeat split. exists o. auto.
  - unfold reset_local_context. destruct (release_ok good _ _ (thread_local_context st !! t) H) as (h & -> & H' & S).
    { intros q. unfold owners. rewrite (threads_delete _ t q). lia. }
    cbn [bind]. set (st' := mkmanaged _ _ _ _ _).
    assert (O : forall q, (owners st q - one (thread_local_context st !! t) q = owners st' q)%nat).
    { intros q. unfold owners. cbn. rewrite (threads_delete (thread_local_context st) t q). lia. }
    pose proof (heap_ok_ext good _ _ _ H' O) as Hk. exists Running, st'. split; [reflexivity|]. split; [split; [exact Hk|]; split|]; [| |split].
    + cbn. apply insert_all.
      * intros t' pos N' L. destruct (P t' pos L) as [Lo Po]. rewrite lookup_delete_ne by auto. split; [exact Lo|].
        apply (position_kept st h _ _ _ t' pos Hk S); [|exact Po]. intros p Sp. apply (shared_owned st'). exact Sp.
      * split; [apply lookup_delete_eq|]. split; [exact E|]. cbn. intros Mt. destruct (M t Mt) as [e' [X|X]]; congruence.
    + cbn. intros t' Mt. destruct (M t' Mt) as [e' X]. exists e'. rewrite lookup_insert_ne; [exact X | intros <-; destruct X; congruence].
    + cbn. split; [apply lookup_insert_eq|]. split; [reflexivity|]. intros p. now apply same_epochs_none.
    + cbn. intros t' N'. apply lookup_delete_ne. auto.
Qed.

Lemma lock_steps t e st : managed_ok st -> positions st !! t = Some (Waiting e) -> shared_context_mutex st = None ->
  steps (Lock t) st (lock_shared_context t e st).
Proof.
  intros (H & P & M) W Fr. destruct (P t _ W) as [Lo [E _]]. unfold lock_shared_context.
  destruct (holds_epoch_ok good _ _ (shared_context st) e H (shared_owned st)) as (hit & -> & Hh). cbn [bind].
  assert (K : forall st', shared_context_mutex st' = Some t -> thread_local_context st' = thread_local_context st ->
    heap_ok good (heap st') (owners st') -> (exists pos, positions st' = <[t := pos]> (positions st) /\
      position_ok st' t pos /\ (pos = Building e \/ pos = Leaving e /\ is_Some (shared_context st'))) ->
    (forall p, heap st !! p = None -> heap st' !! p = None) -> steps (Lock t) st (Some (Running, st'))).
  { intros st' M' Lo' Hk (pos & Po & Pk & Ps) Hn. exists Running, st'. split; [reflexivity|]. split; [split; [exact Hk|]; split|].
    - rewrite Po. apply insert_all.
      + intros t' y N L. rewrite Lo'. split; [now apply (P t' y)|]. apply (position_waits st st' t t' y N); auto. now apply P.
      + rewrite Lo'. auto.
    - rewrite M', Po. intros t' Q. injection Q as <-. exists e. rewrite lookup_insert_eq. destruct Ps as [-> | [-> _]]; auto.
    - split; [|intros t' _; now rewrite Lo']. exists e. rewrite Po, lookup_insert_eq. split; [exact W|].
      split; [destruct Ps as [-> | [-> Is]]; auto | exact Hn]. }
  destruct hit.
  - destruct (Hh eq_refl) as (q & o & Sq & Eo & Ee). apply K; [reflexivity | reflexivity | exact H| |auto].
    exists (Leaving e). split; [reflexivity|]. split; [|right; split; [reflexivity | exists q; exact Sq]].
    split; [reflexivity|]. cbn. intros p Sp. rewrite Sp in Sq. injection Sq as <-. exists o. auto.
  - destruct (release_ok good _ _ (shared_context st) H) as (h & -> & H' & S); [intros q; unfold owners; lia|]. cbn [bind].
    apply K; [reflexivity | reflexivity | | exists (Building e) | intros p; now apply same_epochs_none].
    + apply (heap_ok_ext good _ _ _ H'). intros q. unfold owners. cbn. change (one None q) with 0%nat. lia.
    + split; [reflexivity|]. split; [|auto]. split; [exact E|]. auto.
Qed.

Lemma renew_steps t e address st : managed_ok st -> positions st !! t = Some (Building e) ->
  (forall p, address = Some p -> heap st !! p = None) -> steps (Renew t address) st (renew_shared_context full t e address st).
Proof.
  intros (H & P & M) W Fa. destruct (P t _ W) as [Lo (E & Mt & Sh)]. unfold renew_shared_context. rewrite Sh. cbn [release].
  assert (K : forall st', shared_context_mutex st' = Some t -> thread_local_context st' = thread_local_context st ->
    heap_ok good (heap st') (owners st') -> positions st' = <[t := Leaving e]> (positions st) ->
    (forall p, shared_context st' = Some p -> of_epoch (heap st') e p) -> outcome (Renew t address) st Running st' ->
    steps (Renew t address) st (Some (Running, st'))).
  { intros st' M' Lo' Hk Po Pk Ou. exists Running, st'. split; [reflexivity|]. split; [split; [exact Hk|]; split|].
    - rewrite Po. apply insert_all.
      + intros t' y N L. rewrite Lo'. split; [now apply (P t' y)|]. apply (position_waits st st' t t' y N); auto. now apply P.
      + rewrite Lo'. split; [exact Lo | split; auto].
    - rewrite M', Po. intros t' Q. injection Q as <-. exists e. rewrite lookup_insert_eq. auto.
    - split; [exact Ou | intros t' _; now rewrite Lo']. }
  destruct (created_good e E) as [Nl (c & Ec & En & G)]. destruct address as [p|].
  - rewrite bool_decide_true by eauto. rewrite Ec. cbn [bind]. specialize (Fa p eq_refl).
    assert (Op : owners st p = 0%nat) by (specialize (H p); now rewrite Fa in H).
    apply K; cbn; try reflexivity; auto.
    + apply (heap_ok_insert good (heap st) (owners st)); auto; cbn; unfold owners in *; cbn; rewrite ?one_eq, Sh in *.
      * change (one None p) with 0%nat in Op. lia.
      * lia.
      * intros q N. rewrite one_ne by congruence. reflexivity.
    + intros q Q. injection Q as <-. exists (mkobject c 1). split; [apply lookup_insert_eq | exact En].
    + exists e. split; [exact W|]. split; [apply lookup_insert_eq|]. split; [reflexivity|]. exists (mkobject c 1). split; [apply lookup_insert_eq | exact En].
  - rewrite bool_decide_false by (intros [? ?]; discriminate). rewrite Nl. cbn [bind]. apply K; cbn; try reflexivity; auto.
    + apply (heap_ok_ext good _ _ _ H). intros q. unfold owners. now rewrite Sh.
    + discriminate.
Qed.

Lemma take_steps t e st : managed_ok st -> positions st !! t = Some (Leaving e) -> steps (Take t) st (take_shared_context t e st).
Proof.
  intros (H & P & M) W. destruct (P t _ W) as [Lo (Mt & Sh)]. unfold take_shared_context.
  destruct (retain_ok good _ _ (shared_context st) H (shared_owned st)) as (h & -> & H' & S). cbn [bind]. rewrite Lo. cbn [release bind].
  set (st' := mkmanaged _ _ _ _ _).
  assert (Hk : heap_ok good (heap st') (owners st')).
  { apply (heap_ok_ext good _ _ _ H'). intros q. unfold owners. cbn. rewrite threads_alter, (threads_delete (thread_local_context st) t q), Lo.
    change (one None q) with 0%nat. lia. }
  exists (Returned t e (shared_context st)), st'. split; [reflexivity|]. split; [split; [exact Hk|]; split|].
  - cbn. apply delete_all. intros t' pos N L. destruct (P t' pos L) as [Lo' Po]. rewrite lookup_partial_alter_ne by auto.
    split; [exact Lo'|]. apply (position_waits st st' t t' pos N Po); auto.
  - discriminate.
  - split; [|intros t' N; cbn; apply lookup_partial_alter_ne; auto].
    cbn [outcome]. destruct (shared_context st) as [p|] eqn:Sp; [|auto]. split; [reflexivity|]. split; [exact W|].
    split; [cbn; apply lookup_partial_alter_eq|]. apply (of_epoch_kept (heap st) h _ e p Hk); [|exact S | now apply Sh].
    apply (shared_owned st'). reflexivity.
Qed.

Lemma hash_steps t bn header nonce st : managed_ok st -> full = false -> is_Some (thread_local_context st !! t) ->
  length header = 32%nat -> steps (Hash t bn header nonce) st (hash_global t bn header nonce st).
Proof.
  intros Ok Fu [p Lo] L. destruct Ok as (H & PM). unfold hash_global. rewrite Lo. cbn [bind].
  destruct (heap_ok_owned good _ _ p H (local_owned st t p Lo)) as (o & Eo & U & _ & Ec & C). rewrite Eo. cbn [bind].
  destruct (hash_light_ok (pointee o) bn header nonce C L) as (final & mh & Eh & _). rewrite Eh. cbn [bind].
  rewrite Fu in Ec. destruct o as [c n]. cbn [pointee use_count] in *. rewrite insert_id by exact Eo.
  exists (Hashed t (final, mh)), st. split; [now destruct st|]. split; [exact (conj H PM)|]. split; [|auto].
  split; [reflexivity|]. split; [reflexivity|]. exists p, (mkobject c n), c. auto.
Qed.

Lemma exec_steps a st : managed_ok st -> enabled full a st -> action_ok a -> steps a st (exec full a st).
Proof.
  intros Ok En Ao. destruct a as [t e|t|t address|t|t bn header nonce]; cbn [exec].
  - now apply call_steps.
  - destruct En as [[e W] Fr]. rewrite W. now apply lock_steps.
  - destruct En as [[e W] Fa]. rewrite W. now apply renew_steps.
  - destruct En as [e W]. rewrite W. now apply take_steps.
  - destruct En as (Fu & _ & L). now apply hash_steps.
Qed.

(** The states that calls and hashes of any threads lead to, interleaved in any order. *)
Inductive reachable : managed -> Prop :=
| reach_initial : reachable initial
| reach_step a st ev st' : reachable st -> enabled full a st -> action_ok a -> exec full a st = Some (ev, st') -> reachable st'.

Lemma initial_ok : managed_ok initial.
Proof.
  split; [intros p; cbn; rewrite lookup_empty; reflexivity|]. split; [|discriminate].
  intros t pos L. cbn in L. now rewrite lookup_empty in L.
Qed.

Lemma reachable_ok st : reachable st -> managed_ok st.
Proof.
  induction 1 as [|a st ev st' R IH En Ao E]; [exact initial_ok|].
  destruct (exec_steps a st IH En Ao) as (ev2 & st2 & E2 & Ok & _). congruence.
Qed.

(** ** Progress *)

(** The steps that finish calls. *)
Definition finishing (a : action) : Prop :=
  match a with Lock _ | Renew _ _ | Take _ => True | _ => False end.

(** How far a thread is from the end of its call. *)
Definition distance (pos : position) : nat :=
  match pos with Waiting _ => 3 | Building _ => 2 | Leaving _ => 1 end.
Definition remaining (st : managed) : nat := map_fold (fun _ pos n => distance pos + n)%nat 0%nat (positions st).

Lemma fold_delete (m : gmap nat position) t pos : m !! t = Some pos ->
  map_fold (fun _ pos n => distance pos + n)%nat 0%nat m =
  (distance pos + map_fold (fun _ pos n => distance pos + n)%nat 0%nat (delete t m))%nat.
Proof. intros E. apply (map_fold_delete_L (fun _ pos n => distance pos + n)%nat 0%nat t pos m); [|exact E]. intros. lia. Qed.

Lemma fold_insert (m : gmap nat position) t pos : 
  map_fold (fun _ pos n => distance pos + n)%nat 0%nat (<[t := pos]> m) =
  (distance pos + map_fold (fun _ pos n => distance pos + n)%nat 0%nat (delete t m))%nat.
Proof. rewrite (fold_delete (<[t := pos]> m) t pos) by apply lookup_insert_eq. now rewrite delete_insert_eq. Qed.

(** Every step that finishes a call brings it closer to its end. *)
Lemma finishing_closer a st ev st' : finishing a -> exec full a st = Some (ev, st') -> (remaining st' < remaining st)%nat.
Proof.
  unfold remaining. destruct a as [t e|t|t address|t|t bn header nonce]; cbn [finishing exec]; try easy; intros _;
    destruct (positions st !! t) as [[e|e|e]|] eqn:W; try easy; rewrite (fold_delete _ t _ W).
  - unfold lock_shared_context. intros E. apply bind_Some in E. destruct E as (hit & _ & E).
    destruct hit; [|apply bind_Some in E; destruct E as (h & _ & E)];
      injection E as <- <-; cbn [positions]; rewrite fold_insert; cbn [distance]; lia.
  - unfold renew_shared_context. intros E. apply bind_Some in E. destruct E as (cr & _ & E).
    apply bind_Some in E. destruct E as (h & _ & E).
    destruct cr, address; injection E as <- <-; cbn [positions]; rewrite fold_insert; cbn [distance]; lia.
  - unfold take_shared_context. intros E. apply bind_Some in E. destruct E as (h & _ & E).
    apply bind_Some in E. destruct E as (h2 & _ & E). injection E as <- <-. cbn [positions distance]. lia.
Qed.

(** A thread inside a call can make its next step, or waits for another one, inside the
    mutex, that can. *)
Lemma finishing_enabled st t : managed_ok st -> is_Some (positions st !! t) -> exists a, finishing a /\ action_ok a /\
  enabled full a st /\ (actor a = t \/ shared_context_mutex st = Some (actor a)).
Proof.
  assert (New : forall p, Some (fresh (dom (heap st))) = Some p -> heap st !! p = None).
  { intros p E. injection E as <-. apply not_elem_of_dom, is_fresh. }
  intros (H & P & M) [pos W]. destruct (P t pos W) as [_ Po]. destruct pos as [e|e|e].
  - destruct (shared_context_mutex st) as [u|] eqn:Mu.
    + destruct (M u eq_refl) as [e' [B|L]].
      * exists (Renew u (Some (fresh (dom (heap st))))). cbn. eauto 8.
      * exists (Take u). cbn. eauto 8.
    + exists (Lock t). cbn. eauto 8.
  - exists (Renew t (Some (fresh (dom (heap st))))). cbn. eauto 8.
  - exists (Take t). cbn. eauto 8.
Qed.

(** A sequence of steps, each taken where it is enabled. *)
Inductive path : list action -> managed -> managed -> Prop :=
| path_nil st : path [] st st
| path_cons a l st ev st1 st2 : enabled full a st -> action_ok a -> exec full a st = Some (ev, st1) -> path l st1 st2 ->
    path (a :: l) st st2.

(** The paths of the steps that finish calls are as short as the calls they finish. *)
Lemma path_bounded l st st' : path l st st' -> Forall finishing l -> reachable st ->
  (length l + remaining st' <= remaining st)%nat /\ reachable st'.
Proof.
  induction 1 as [st|a l st ev st1 st2 En Ao E Pt IH]; intros F R; [auto|]. inversion F as [|? ? Fa F']; subst.
  destruct (IH F' (reach_step a st ev st1 R En Ao E)) as [L R2]. split; [|exact R2].
  pose proof (finishing_closer a st ev st1 Fa E). cbn [length]. lia.
Qed.

(** A state in which some thread is inside a call has a further step. *)
Lemma path_extends st t : reachable st -> is_Some (positions st !! t) -> exists a ev st', finishing a /\ action_ok a /\
  enabled full a st /\ (actor a = t \/ shared_context_mutex st = Some (actor a)) /\ exec full a st = Some (ev, st').
Proof.
  intros R I. destruct (finishing_enabled st t (reachable_ok st R) I) as (a & Fa & Ao & En & W).
  destruct (exec_steps a st (reachable_ok st R) En Ao) as (ev & st' & E & _). exists a, ev, st'. auto.
Qed.

(** Outside all calls the mutex is free. *)
Lemma no_calls_free st : managed_ok st -> positions st = ∅ -> shared_context_mutex st = None.
Proof.
  intros (_ & _ & M) E. destruct (shared_context_mutex st) as [t|]; [|reflexivity].
  destruct (M t eq_refl) as [e [W|W]]; rewrite E, lookup_empty in W; discriminate.
Qed.

Lemma all_return n : forall st, reachable st -> (remaining st <= n)%nat -> exists l st',
  Forall finishing l /\ path l st st' /\ positions st' = ∅ /\ shared_context_mutex st' = None.
Proof.
  induction n as [|n IH]; intros st R L; (destruct (decide (positions st = ∅)) as [E|Ne];
    [exists [], st; split; [constructor|]; split; [constructor|]; split; [exact E | exact (no_calls_free st (reachable_ok st R) E)]|]);
    destruct (map_choose (positions st) Ne) as (t & pos & W);
    destruct (path_extends st t R (ex_intro _ pos W)) as (a & ev & st1 & Fa & Ao & En & _ & E);
    pose proof (finishing_closer a st ev st1 Fa E); [lia|].
  destruct (IH st1 (reach_step a st ev st1 R En Ao E)) as (l & st' & Fl & Pl & K); [lia|].
  exists (a :: l), st'. split; [constructor; auto|]. split; [exact (path_cons a l st ev st1 st' En Ao E Pl) | exact K].
Qed.

Lemma remaining_size st : (remaining st <= 3 * size (positions st))%nat.
Proof.
  unfold remaining. induction (positions st) as [|t pos m E IH] using map_ind; [now rewrite map_fold_empty|].
  rewrite fold_insert, delete_id, map_size_insert_None by exact E. destruct pos; cbn [distance]; lia.
Qed.

Lemma call_sequence t e address st : ethash_get_global_epoch_context full t e address st =
  let! (ev, st) := get_global_epoch_context t e st in
  match ev with
  | Running =>
      let! (_, st) := lock_shared_context t e st in
      let! (_, st) :=
        match positions st !! t with
        | Some (Building _) => renew_shared_context full t e address st
        | _ => Some (Running, st)
        end in
      take_shared_context t e st
  | _ => Some (ev, st)
  end.
Proof.
  unfold ethash_get_global_epoch_context, get_global_epoch_context, update_local_context, reset_local_context.
  destruct (holds_epoch _ _ e) as [[|]|]; cbn [bind]; try reflexivity. now destruct (release _ _).
Qed.

(** A call that nothing interrupts. *)
Lemma uninterrupted t e p st : managed_ok st -> positions st !! t = None -> shared_context_mutex st = None ->
  0 <= e < max_epoch -> heap st !! p = None -> exists q st',
  ethash_get_global_epoch_context full t e (Some p) st = Some (Returned t e (Some q), st') /\ managed_ok st' /\
  thread_local_context st' !! t = Some q /\ of_epoch (heap st') e q.
Proof.
  intros Ok N Fr E Fp. rewrite call_sequence.
  destruct (call_steps t e st Ok N E) as (ev & st1 & -> & Ok1 & Out & _). cbn [bind].
  destruct ev as [|t' e' [q|]|]; cbn [outcome] in Out; try contradiction.
  2: { destruct Out as (-> & -> & Lo & Oe). exists q, st1. auto. }
  destruct Out as (W & M1 & H1). 
  destruct (lock_steps t e st1 Ok1 W ltac:(congruence)) as (ev & st2 & -> & Ok2 & Out & _). cbn [bind].
  destruct ev as [|? ? []|]; cbn [outcome] in Out; try contradiction. destruct Out as (e2 & W2 & Ps & H2).
  rewrite W in W2. injection W2 as <-.
  assert (K : exists st3, match positions st2 !! t with
      | Some (Building _) => renew_shared_context full t e (Some p) st2
      | _ => Some (Running, st2)
      end = Some (Running, st3) /\ managed_ok st3 /\ positions st3 !! t = Some (Leaving e) /\ is_Some (shared_context st3)).
  { destruct Ps as [B|[B Is]]; rewrite B; [|eauto].
    destruct (renew_steps t e (Some p) st2 Ok2 B) as (ev & st3 & -> & Ok3 & Out & _);
      [intros q Q; injection Q as <-; auto|]. destruct ev as [|? ? []|]; cbn [outcome] in Out; try contradiction.
    destruct Out as (e3 & B3 & L3 & S3 & _). rewrite B in B3. injection B3 as <-. eauto. }
  destruct K as (st3 & -> & Ok3 & L3 & [q S3]). cbn [bind].
  destruct (take_steps t e st3 Ok3 L3) as (ev & st4 & E4 & Ok4 & Out & _). rewrite E4.
  destruct ev as [|t' e' [q'|]|]; cbn [outcome] in Out; try contradiction; [|destruct Out; congruence].
  destruct Out as (-> & L4 & Lo & Oe). rewrite L3 in L4. injection L4 as <-. exists q', st4. auto.
Qed.
End Invariant.

(** ** Properties *)

(** C5.  The global contexts are safe: whatever calls of any number of threads, and hashes
    of theirs over the light contexts (which only read them), came before, in any
    interleaving, every further step of any thread succeeds (no freed or null pointer is
    read, no count underflows).  A call returns a context of the epoch asked for, and
    null only when the shared context is null; a hash gives what the light context of the
    epoch of its thread's context gives, and changes nothing.  No step changes the pointer of another
    thread, every pointer a thread holds stays valid, and there is at most one context
    more than threads that hold one. *)
Theorem global_contexts_safe {PP : ProgpowParams} {PL : ProgpowLaws PP} {max_epoch : Z} {DL : DagLaws (max_epoch := max_epoch)}
  full st a : reachable (max_epoch := max_epoch) full st -> enabled full a st ->
  action_ok (max_epoch := max_epoch) a ->
  exists ev st', exec full a st = Some (ev, st') /\ reachable (max_epoch := max_epoch) full st' /\ outcome a st ev st' /\
    (forall t, t <> actor a -> thread_local_context st' !! t = thread_local_context st !! t) /\
    (forall t p, thread_local_context st' !! t = Some p -> is_Some (heap st' !! p)) /\
    (size (heap st') <= 1 + size (thread_local_context st'))%nat.
Proof.
  intros R En Ao. destruct (exec_steps full a st (reachable_ok full st R) En Ao) as (ev & st' & E & Ok & Out & Oth).
  exists ev, st'. split; [exact E|]. split; [exact (reach_step full a st ev st' R En Ao E)|]. split; [exact Out|]. split; [exact Oth|].
  destruct Ok as (H & _). split; [|exact (heap_size _ _ _ _ H)].
  intros t p L. destruct (heap_ok_owned _ _ _ p H (local_owned st' t p L)) as (o & Eo & _). eauto.
Qed.

Lemma global_contexts_safe_witness : exists ev st',
  exec (PP := libkawpow) true (Call 3 400) initial = Some (ev, st') /\ (size (heap st') <= 1 + size (thread_local_context st'))%nat.
Proof.
  destruct (global_contexts_safe (PP := libkawpow) (max_epoch := 32640) true initial (Call 3 400)) as (ev & st' & E & _ & _ & _ & _ & S).
  - apply reach_initial.
  - exact (lookup_empty 3%nat).
  - split; lia.
  - exists ev, st'. split; [exact E | exact S].
Defined.

(** C20.  Calls end: from every state that calls and hashes of any threads lead to, however
    the threads inside calls are scheduled (each step taken only where it is enabled,
    so that a lock waits for a free mutex, and calloc failing or not), at most three
    steps per call bring all of them out; at every point of such a schedule a thread
    still inside a call can make its next step, or the thread that holds the mutex can
    make its own, which excludes a deadlock; some schedule does end with no thread
    inside a call and the mutex free; and a call that nothing interrupts, with a calloc
    that succeeds, returns a context of its epoch. *)
Theorem global_contexts_return {PP : ProgpowParams} {PL : ProgpowLaws PP} {max_epoch : Z} {DL : DagLaws (max_epoch := max_epoch)}
  full st : reachable (max_epoch := max_epoch) full st ->
  (forall l st', Forall finishing l -> path (max_epoch := max_epoch) full l st st' ->
     (length l <= 3 * size (positions st))%nat /\
     forall t, is_Some (positions st' !! t) -> exists a ev st'', finishing a /\ enabled full a st' /\
       (actor a = t \/ shared_context_mutex st' = Some (actor a)) /\ exec full a st' = Some (ev, st'')) /\
  (exists l st', Forall finishing l /\ path (max_epoch := max_epoch) full l st st' /\
     positions st' = ∅ /\ shared_context_mutex st' = None) /\
  forall t e p, positions st !! t = None -> shared_context_mutex st = None -> 0 <= e < max_epoch -> heap st !! p = None ->
    exists q st', ethash_get_global_epoch_context full t e (Some p) st = Some (Returned t e (Some q), st') /\
      thread_local_context st' !! t = Some q /\ of_epoch (heap st') e q.
Proof.
  intros R. split; [|split].
  - intros l st' F Pt. destruct (path_bounded full l st st' Pt F R) as [L R']. split; [pose proof (remaining_size st); lia|].
    intros t I. destruct (path_extends full st' t R' I) as (a & ev & st'' & Fa & _ & K). exists a, ev, st''. tauto.
  - exact (all_return full _ st R (le_n _)).
  - intros t e p N M E F. destruct (uninterrupted full t e p st (reachable_ok full st R) N M E F) as (q & st' & Ec & _ & K). eauto.
Qed.

Lemma global_contexts_return_witness : exists q st',
  ethash_get_global_epoch_context (PP := libsccpow) false 1 20 (Some 7%nat) initial = Some (Returned 1 20 (Some q), st').
Proof.
  destruct (proj2 (proj2 (global_contexts_return (PP := libsccpow) (max_epoch := 32576) false initial (reach_initial _))) 1%nat 20 7%nat)
    as (q & st' & E & _).
  - exact (lookup_empty 1%nat).
  - reflexivity.
  - lia.
  - exact (lookup_empty 7%nat).
  - exists q, st'. exact E.
Defined.
