(* ===== verification/ProgpowVariants.v ===== *)
(** The ProgPoW libraries one by one: a Module for each of libkawpow, libmeowpow,
    libmerakipow, libfiropow, libsccpow and libprogpowz with the functions of its
    ethash.cpp, ethash.hpp, progpow.cpp and managed.cpp, which are the shared ones at
    the parameters of the library, and the path of a share through each of them. *)
From Stdlib Require Import ZArith Lia List Bool.
From stdpp Require Import base list.
From S2P Require Import Prelude CInt SpongeSpec ProgpowDag ProgpowEthash Progpow ProgpowLibs ProgpowManaged.
Import ListNotations.
Local Open Scope Z_scope.

(** ** What a client calls *)

(** The functions a client of a library calls. *)
Record progpow_client : Type := {
  epoch_of : Z -> Z;
  new_context : bool -> Z -> bool -> option (option epoch_context);
  light_hash : epoch_context -> Z -> list Z -> Z -> option ((list Z * list Z) * epoch_context);
  full_hash : epoch_context -> Z -> list Z -> Z -> option ((list Z * list Z) * epoch_context);
  accepts : epoch_context -> Z -> list Z -> list Z -> Z -> list Z -> option bool
}.

(** For every block below [max_block] both contexts of its epoch are created, they hash
    every 32-byte header and nonce alike, and a mix hash is accepted exactly when it is
    the one of the hash and the final hash is at most the boundary. *)
Definition client_ok (max_block : Z) (c : progpow_client) : Prop :=
  forall block_number, 0 <= block_number < max_block -> exists cl cf,
  new_context c true (epoch_of c block_number) false = Some (Some cl) /\
  new_context c true (epoch_of c block_number) true = Some (Some cf) /\
  forall header_hash nonce, length header_hash = 32%nat -> exists final mh cf',
    light_hash c cl block_number header_hash nonce = Some ((final, mh), cl) /\
    full_hash c cf block_number header_hash nonce = Some ((final, mh), cf') /\
    forall mix_hash boundary, length mix_hash = 32%nat -> length boundary = 32%nat -> Forall is_byte boundary ->
      exists b, accepts c cl block_number header_hash mix_hash nonce boundary = Some b /\
        (b = true <-> mix_hash = mh /\ be_val final <= be_val boundary).

(** ** libkawpow *)

Module Kawpow.

Definition get_epoch_number := ProgpowLibs.get_epoch_number (P := libkawpow_dag).
Definition create_epoch_context := ProgpowDag.create_epoch_context (P := libkawpow_dag).
Definition hash := Progpow.hash (PP := libkawpow).
Definition hash_full := Progpow.hash_full (PP := libkawpow).
Definition verify := Progpow.verify (PP := libkawpow).
Definition update_local_context := ProgpowManaged.update_local_context (PP := libkawpow) false.
Definition update_local_context_full := ProgpowManaged.update_local_context (PP := libkawpow) true.
Definition ethash_get_global_epoch_context := ProgpowManaged.ethash_get_global_epoch_context (PP := libkawpow) false.
Definition ethash_get_global_epoch_context_full := ProgpowManaged.ethash_get_global_epoch_context (PP := libkawpow) true.

Definition client : progpow_client :=
  {| epoch_of := get_epoch_number; new_context := create_epoch_context; light_hash := hash; full_hash := hash_full;
     accepts := verify |}.
End Kawpow.

(** ** libmeowpow *)

Module Meowpow.

Definition get_epoch_number := ProgpowLibs.get_epoch_number (P := libmeowpow_dag).
Definition build_light_cache := ProgpowDag.build_light_cache.
Definition create_epoch_context := ProgpowDag.create_epoch_context (P := libmeowpow_dag).
Definition item_init := ProgpowDag.item_init.
Definition item_update := ProgpowDag.item_update.
Definition calculate_dataset_item_512 := ProgpowDag.calculate_dataset_item_512 (P := libmeowpow_dag).
Definition calculate_dataset_item_1024 := ProgpowDag.calculate_dataset_item_1024 (P := libmeowpow_dag).
Definition calculate_dataset_item_2048 := ProgpowDag.calculate_dataset_item_2048 (P := libmeowpow_dag).
Definition ethash_calculate_epoch_seed := ProgpowDag.ethash_calculate_epoch_seed.
Definition ethash_calculate_light_cache_num_items := ProgpowDag.ethash_calculate_light_cache_num_items.
Definition ethash_calculate_full_dataset_num_items := ProgpowDag.ethash_calculate_full_dataset_num_items (P := libmeowpow_dag).
Definition hash_kernel := ProgpowEthash.hash_kernel (P := libmeowpow_dag).
Definition ethash_hash := ProgpowEthash.ethash_hash (P := libmeowpow_dag).
Definition lazy_lookup_1024 := ProgpowDag.lazy_lookup_1024 (P := libmeowpow_dag).
Definition ethash_hash_full := ProgpowEthash.hash_full (P := libmeowpow_dag).
Definition ethash_verify_final_hash := ProgpowEthash.ethash_verify_final_hash.
Definition ethash_verify := ProgpowEthash.ethash_verify (P := libmeowpow_dag).
Definition find_epoch_number := ProgpowEthash.find_epoch_number.
Definition kiss99_next := Progpow.kiss99_next.
Definition new_mix_rng_state := Progpow.new_mix_rng_state (PP := libmeowpow).
Definition random_math := Progpow.random_math.
Definition random_merge := Progpow.random_merge.
Definition round := Progpow.round (PP := libmeowpow).
Definition init_mix := Progpow.init_mix (PP := libmeowpow).
Definition hash_mix := Progpow.hash_mix (PP := libmeowpow).
Definition lazy_lookup_2048 := ProgpowDag.lazy_lookup_2048 (P := libmeowpow_dag).
Definition hash := Progpow.hash (PP := libmeowpow).
Definition hash_full := Progpow.hash_full (PP := libmeowpow).
Definition verify := Progpow.verify (PP := libmeowpow).
Definition search_light := Progpow.search_light (PP := libmeowpow).
Definition search_full := Progpow.search_full (PP := libmeowpow).
Definition hashext := Progpow.hashext (PP := libmeowpow).
Definition update_local_context := ProgpowManaged.update_local_context (PP := libmeowpow) false.
Definition update_local_context_full := ProgpowManaged.update_local_context (PP := libmeowpow) true.
Definition ethash_get_global_epoch_context := ProgpowManaged.ethash_get_global_epoch_context (PP := libmeowpow) false.
Definition ethash_get_global_epoch_context_full := ProgpowManaged.ethash_get_global_epoch_context (PP := libmeowpow) true.

Definition client : progpow_client :=
  {| epoch_of := get_epoch_number; new_context := create_epoch_context; light_hash := hash; full_hash := hash_full;
     accepts := verify |}.
End Meowpow.

(** ** libmerakipow *)

Module Merakipow.

Definition get_epoch_number := ProgpowLibs.get_epoch_number (P := libmerakipow_dag).
Definition build_light_cache := ProgpowDag.build_light_cache.
Definition create_epoch_context := ProgpowDag.create_epoch_context (P := libmerakipow_dag).
Definition item_init := ProgpowDag.item_init.
Definition item_update := ProgpowDag.item_update.
Definition calculate_dataset_item_512 := ProgpowDag.calculate_dataset_item_512 (P := libmerakipow_dag).
Definition calculate_dataset_item_1024 := ProgpowDag.calculate_dataset_item_1024 (P := libmerakipow_dag).
Definition calculate_dataset_item_2048 := ProgpowDag.calculate_dataset_item_2048 (P := libmerakipow_dag).
Definition ethash_calculate_epoch_seed := ProgpowDag.ethash_calculate_epoch_seed.
Definition ethash_calculate_light_cache_num_items := ProgpowDag.ethash_calculate_light_cache_num_items.
Definition ethash_calculate_full_dataset_num_items := ProgpowDag.ethash_calculate_full_dataset_num_items (P := libmerakipow_dag).
Definition hash_kernel := ProgpowEthash.hash_kernel (P := libmerakipow_dag).
Definition ethash_hash := ProgpowEthash.ethash_hash (P := libmerakipow_dag).
Definition lazy_lookup_1024 := ProgpowDag.lazy_lookup_1024 (P := libmerakipow_dag).
Definition ethash_hash_full := ProgpowEthash.hash_full (P := libmerakipow_dag).
Definition ethash_verify_final_hash := ProgpowEthash.ethash_verify_final_hash.
Definition ethash_verify := ProgpowEthash.ethash_verify (P := libmerakipow_dag).
Definition find_epoch_number := ProgpowEthash.find_epoch_number.
Definition kiss99_next := Progpow.kiss99_next.
Definition new_mix_rng_state := Progpow.new_mix_rng_state (PP := libmerakipow).
Definition random_math := Progpow.random_math.
Definition random_merge := Progpow.random_merge.
Definition round := Progpow.round (PP := libmerakipow).
Definition init_mix := Progpow.init_mix (PP := libmerakipow).
Definition hash_mix := Progpow.hash_mix (PP := libmerakipow).
Definition lazy_lookup_2048 := ProgpowDag.lazy_lookup_2048 (P := libmerakipow_dag).
Definition hash := Progpow.hash (PP := libmerakipow).
Definition hash_full := Progpow.hash_full (PP := libmerakipow).
Definition verify := Progpow.verify (PP := libmerakipow).
Definition search_light := Progpow.search_light (PP := libmerakipow).
Definition search_full := Progpow.search_full (PP := libmerakipow).
Definition hash_no_verify := Progpow.hash_no_verify (PP := libmerakipow).
Definition update_local_context := ProgpowManaged.update_local_context (PP := libmerakipow) false.
Definition update_local_context_full := ProgpowManaged.update_local_context (PP := libmerakipow) true.
Definition ethash_get_global_epoch_context := ProgpowManaged.ethash_get_global_epoch_context (PP := libmerakipow) false.
Definition ethash_get_global_epoch_context_full := ProgpowManaged.ethash_get_global_epoch_context (PP := libmerakipow) true.

Definition client : progpow_client :=
  {| epoch_of := get_epoch_number; new_context := create_epoch_context; light_hash := hash; full_hash := hash_full;
     accepts := verify |}.
End Merakipow.

(** ** libfiropow *)

Module Firopow.

Definition get_epoch_number := ProgpowLibs.get_epoch_number (P := libfiropow_dag).
Definition build_light_cache := ProgpowDag.build_light_cache.
Definition create_epoch_context := ProgpowDag.create_epoch_context (P := libfiropow_dag).
Definition item_init := ProgpowDag.item_init.
Definition item_update := ProgpowDag.item_update.
Definition calculate_dataset_item_512 := ProgpowDag.calculate_dataset_item_512 (P := libfiropow_dag).
Definition calculate_dataset_item_1024 := ProgpowDag.calculate_dataset_item_1024 (P := libfiropow_dag).
Definition calculate_dataset_item_2048 := ProgpowDag.calculate_dataset_item_2048 (P := libfiropow_dag).
Definition ethash_calculate_epoch_seed := ProgpowDag.ethash_calculate_epoch_seed.
Definition ethash_calculate_light_cache_num_items := ProgpowDag.ethash_calculate_light_cache_num_items.
Definition ethash_calculate_full_dataset_num_items := ProgpowDag.ethash_calculate_full_dataset_num_items (P := libfiropow_dag).
Definition hash_kernel := ProgpowEthash.hash_kernel (P := libfiropow_dag).
Definition ethash_hash := ProgpowEthash.ethash_hash (P := libfiropow_dag).
Definition lazy_lookup_1024 := ProgpowDag.lazy_lookup_1024 (P := libfiropow_dag).
Definition ethash_hash_full := ProgpowEthash.hash_full (P := libfiropow_dag).
Definition ethash_verify_final_hash := ProgpowEthash.ethash_verify_final_hash.
Definition ethash_verify := ProgpowEthash.ethash_verify (P := libfiropow_dag).
Definition find_epoch_number := ProgpowEthash.find_epoch_number.
Definition kiss99_next := Progpow.kiss99_next.
Definition new_mix_rng_state := Progpow.new_mix_rng_state (PP := libfiropow).
Definition random_math := Progpow.random_math.
Definition random_merge := Progpow.random_merge.
Definition round := Progpow.round (PP := libfiropow).
Definition init_mix := Progpow.init_mix (PP := libfiropow).
Definition hash_mix := Progpow.hash_mix (PP := libfiropow).
Definition lazy_lookup_2048 := ProgpowDag.lazy_lookup_2048 (P := libfiropow_dag).
Definition hash := Progpow.hash (PP := libfiropow).
Definition hash_full := Progpow.hash_full (PP := libfiropow).
Definition verify := Progpow.verify_mix_first (PP := libfiropow).
Definition search_light := Progpow.search_light (PP := libfiropow).
Definition search_full := Progpow.search_full (PP := libfiropow).
Definition hashext := Progpow.hashext_mix_first (PP := libfiropow).
Definition update_local_context := ProgpowManaged.update_local_context (PP := libfiropow) false.
Definition update_local_context_full := ProgpowManaged.update_local_context (PP := libfiropow) true.
Definition ethash_get_global_epoch_context := ProgpowManaged.ethash_get_global_epoch_context (PP := libfiropow) false.
Definition ethash_get_global_epoch_context_full := ProgpowManaged.ethash_get_global_epoch_context (PP := libfiropow) true.

Definition client : progpow_client :=
  {| epoch_of := get_epoch_number; new_context := create_epoch_context; light_hash := hash; full_hash := hash_full;
     accepts := verify |}.
End Firopow.

(** ** libsccpow *)

Module Sccpow.

Definition get_epoch_number := ProgpowLibs.get_epoch_number (P := libsccpow_dag).
Definition build_light_cache := ProgpowDag.build_light_cache.
Definition create_epoch_context := ProgpowDag.create_epoch_context (P := libsccpow_dag).
Definition item_init := ProgpowDag.item_init.
Definition item_update := ProgpowDag.item_update.
Definition calculate_dataset_item_512 := ProgpowDag.calculate_dataset_item_512 (P := libsccpow_dag).
Definition calculate_dataset_item_1024 := ProgpowDag.calculate_dataset_item_1024 (P := libsccpow_dag).
Definition calculate_dataset_item_2048 := ProgpowDag.calculate_dataset_item_2048 (P := libsccpow_dag).
Definition ethash_calculate_epoch_seed := ProgpowDag.ethash_calculate_epoch_seed.
Definition ethash_calculate_light_cache_num_items := ProgpowDag.ethash_calculate_light_cache_num_items.
Definition ethash_calculate_full_dataset_num_items := ProgpowDag.ethash_calculate_full_dataset_num_items (P := libsccpow_dag).
Definition hash_kernel := ProgpowEthash.hash_kernel (P := libsccpow_dag).
Definition ethash_hash := ProgpowEthash.ethash_hash (P := libsccpow_dag).
Definition lazy_lookup_1024 := ProgpowDag.lazy_lookup_1024 (P := libsccpow_dag).
Definition ethash_hash_full := ProgpowEthash.hash_full (P := libsccpow_dag).
Definition ethash_verify_final_hash := ProgpowEthash.ethash_verify_final_hash.
Definition ethash_verify := ProgpowEthash.ethash_verify (P := libsccpow_dag).
Definition find_epoch_number := ProgpowEthash.find_epoch_number.
Definition kiss99_next := Progpow.kiss99_next.
Definition new_mix_rng_state := Progpow.new_mix_rng_state (PP := libsccpow).
Definition random_math := Progpow.random_math.
Definition random_merge := Progpow.random_merge.
Definition round := Progpow.round (PP := libsccpow).
Definition init_mix := Progpow.init_mix (PP := libsccpow).
Definition hash_mix := Progpow.hash_mix (PP := libsccpow).
Definition lazy_lookup_2048 := ProgpowDag.lazy_lookup_2048 (P := libsccpow_dag).
Definition hash := Progpow.hash (PP := libsccpow).
Definition hash_full := Progpow.hash_full (PP := libsccpow).
Definition verify := Progpow.verify_mix_first (PP := libsccpow).
Definition search_light := Progpow.search_light (PP := libsccpow).
Definition search_full := Progpow.search_full (PP := libsccpow).
Definition hashext := Progpow.hashext_mix_first (PP := libsccpow).
Definition hash_seed := firopow_seed.
Definition hash_final := firopow_final.
Definition update_local_context := ProgpowManaged.update_local_context (PP := libsccpow) false.
Definition update_local_context_full := ProgpowManaged.update_local_context (PP := libsccpow) true.
Definition ethash_get_global_epoch_context := ProgpowManaged.ethash_get_global_epoch_context (PP := libsccpow) false.
Definition ethash_get_global_epoch_context_full := ProgpowManaged.ethash_get_global_epoch_context (PP := libsccpow) true.

Definition client : progpow_client :=
  {| epoch_of := get_epoch_number; new_context := create_epoch_context; light_hash := hash; full_hash := hash_full;
     accepts := verify |}.
End Sccpow.

(** ** libprogpowz *)

Module Progpowz.

Definition get_epoch_number := ProgpowLibs.get_epoch_number (P := libprogpowz_dag).
Definition build_light_cache := ProgpowDag.build_light_cache.
Definition create_epoch_context := ProgpowDag.create_epoch_context (P := libprogpowz_dag).
Definition item_init := ProgpowDag.item_init.
Definition item_update := ProgpowDag.item_update.
Definition calculate_dataset_item_512 := ProgpowDag.calculate_dataset_item_512 (P := libprogpowz_dag).
Definition calculate_dataset_item_1024 := ProgpowDag.calculate_dataset_item_1024 (P := libprogpowz_dag).
Definition calculate_dataset_item_2048 := ProgpowDag.calculate_dataset_item_2048 (P := libprogpowz_dag).
Definition ethash_calculate_epoch_seed := ProgpowDag.ethash_calculate_epoch_seed.
Definition ethash_calculate_light_cache_num_items := ProgpowDag.ethash_calculate_light_cache_num_items.
Definition ethash_calculate_full_dataset_num_items := ProgpowDag.ethash_calculate_full_dataset_num_items (P := libprogpowz_dag).
Definition hash_kernel := ProgpowEthash.hash_kernel (P := libprogpowz_dag).
Definition ethash_hash := ProgpowEthash.ethash_hash (P := libprogpowz_dag).
Definition lazy_lookup_1024 := ProgpowDag.lazy_lookup_1024 (P := libprogpowz_dag).
Definition ethash_hash_full := ProgpowEthash.hash_full (P := libprogpowz_dag).
Definition ethash_verify_final_hash := ProgpowEthash.ethash_verify_final_hash.
Definition ethash_verify := ProgpowEthash.ethash_verify (P := libprogpowz_dag).
Definition find_epoch_number := ProgpowEthash.find_epoch_number.
Definition kiss99_next := Progpow.kiss99_next.
Definition new_mix_rng_state := Progpow.new_mix_rng_state (PP := libprogpowz).
Definition random_merge := Progpow.random_merge.
Definition round := Progpow.round (PP := libprogpowz).
Definition init_mix := Progpow.init_mix (PP := libprogpowz).
Definition hash_mix := Progpow.hash_mix (PP := libprogpowz).
Definition lazy_lookup_2048 := ProgpowDag.lazy_lookup_2048 (P := libprogpowz_dag).
Definition hash := Progpow.hash (PP := libprogpowz).
Definition hash_full := Progpow.hash_full (PP := libprogpowz).
Definition verify := Progpow.verify (PP := libprogpowz).
Definition search_light := Progpow.search_light (PP := libprogpowz).
Definition search_full := Progpow.search_full (PP := libprogpowz).
Definition update_local_context := ProgpowManaged.update_local_context (PP := libprogpowz) false.
Definition update_local_context_full := ProgpowManaged.update_local_context (PP := libprogpowz) true.
Definition ethash_get_global_epoch_context := ProgpowManaged.ethash_get_global_epoch_context (PP := libprogpowz) false.
Definition ethash_get_global_epoch_context_full := ProgpowManaged.ethash_get_global_epoch_context (PP := libprogpowz) true.

Definition client : progpow_client :=
  {| epoch_of := get_epoch_number; new_context := create_epoch_context; light_hash := hash; full_hash := hash_full;
     accepts := verify |}.
End Progpowz.
(** ** The path of a share *)

Section Path.
Context {PP : ProgpowParams} {PL : ProgpowLaws PP} {max_epoch : Z} {DL : DagLaws (max_epoch := max_epoch)}.

Lemma block_epoch block_number : 0 < epoch_length -> 0 <= block_number < max_epoch * epoch_length ->
  0 <= ProgpowLibs.get_epoch_number block_number < max_epoch.
Proof.
  intros E B. unfold ProgpowLibs.get_epoch_number. rewrite Z.quot_div_nonneg by lia.
  split; [apply Z.div_pos; lia | apply Z.div_lt_upper_bound; lia].
Qed.

(** The two orders of verify agree, so the lemma takes either. *)
Lemma client_path (v : epoch_context -> Z -> list Z -> list Z -> Z -> list Z -> option bool) :
  0 < epoch_length -> v = Progpow.verify \/ v = Progpow.verify_mix_first ->
  client_ok (max_epoch * epoch_length)
    {| epoch_of := ProgpowLibs.get_epoch_number; new_context := ProgpowDag.create_epoch_context;
       light_hash := Progpow.hash; full_hash := Progpow.hash_full; accepts := v |}.
Proof.
  intros El V bn B. cbn [epoch_of new_context light_hash full_hash accepts].
  destruct (contexts_of_epoch _ (block_epoch bn El B)) as (cl & cf & Ec & Ef & Cl & _ & _ & Lz & Si).
  exists cl, cf. split; [exact Ec|]. split; [exact Ef|]. intros header nonce Lh.
  destruct (hash_light_ok cl bn header nonce Cl Lh) as (final & mh & E & _).
  destruct (hash_full_ok cl cf bn header nonce Cl Lz Si) as (r & m & E1 & E2 & _).
  rewrite E in E1. injection E1 as <-. exists final, mh, (set_memory cf m). split; [exact E|]. split; [exact E2|].
  intros mix boundary Lm Lb Fb. destruct (verify_ok cl bn header mix nonce boundary Cl Lh Lm Lb Fb) as (b & Eb & Eb' & A).
  exists b. split; [destruct V as [-> | ->]; assumption|]. rewrite A, E.
  split; [intros (f & Q & Bd); injection Q as Q1 Q2; subst; auto | intros [-> Bd]; eauto].
Qed.

Lemma hash_no_verify_ok context block_number header_hash nonce final mh context' :
  Progpow.hash context block_number header_hash nonce = Some ((final, mh), context') ->
  Progpow.hash_no_verify header_hash mh nonce = final.
Proof.
  unfold Progpow.hash, hash_with. intros E. apply bind_Some in E. destruct E as ([mh' c] & _ & E).
  injection E as E1 <- _. exact E1.
Qed.
End Path.

(** C24.  A share of any of the six libraries: for every block whose epoch fits (below
    244,800,000 for libkawpow, 61,200,000 for libmeowpow, 897,600,000 for libmerakipow,
    42,348,800 for libfiropow, 105,546,240 for libsccpow and 979,200,000 for libprogpowz) both contexts of the
    epoch are created, agree on every hash, and verify accepts exactly the mix hash of a
    hash at most the boundary; hash_no_verify of libmerakipow gives the final hash of
    hash from its mix hash. *)
Theorem variants_share :
  Forall (fun '(max_block, c) => client_ok max_block c)
    [(244800000, Kawpow.client); (61200000, Meowpow.client); (897600000, Merakipow.client); (42348800, Firopow.client);
     (105546240, Sccpow.client); (979200000, Progpowz.client)] /\
  forall context block_number header_hash nonce final mh context',
    Merakipow.hash context block_number header_hash nonce = Some ((final, mh), context') ->
    Merakipow.hash_no_verify header_hash mh nonce = final.
Proof.
  split.
  - repeat (apply List.Forall_cons); [..|apply List.Forall_nil].
    + exact (client_path (PP := libkawpow) (max_epoch := 32640) _ eq_refl (or_introl eq_refl)).
    + exact (client_path (PP := libmeowpow) (max_epoch := 8160) _ eq_refl (or_introl eq_refl)).
    + exact (client_path (PP := libmerakipow) (max_epoch := 32640) _ eq_refl (or_introl eq_refl)).
    + exact (client_path (PP := libfiropow) (max_epoch := 32576) _ eq_refl (or_intror eq_refl)).
    + exact (client_path (PP := libsccpow) (max_epoch := 32576) _ eq_refl (or_intror eq_refl)).
    + exact (client_path (PP := libprogpowz) (max_epoch := 32640) _ eq_refl (or_introl eq_refl)).
  - exact (hash_no_verify_ok (PP := libmerakipow)).
Qed.

Lemma variants_share_witness : exists cl final mh,
  new_context Sccpow.client true (epoch_of Sccpow.client 5000) false = Some (Some cl) /\
  light_hash Sccpow.client cl 5000 (repeat 1 32%nat) 7 = Some ((final, mh), cl).
Proof.
  pose proof (proj1 variants_share) as F. do 4 apply List.Forall_inv_tail in F. apply List.Forall_inv in F.
  destruct (F 5000 ltac:(lia)) as (cl & cf & E & _ & H).
  destruct (H (repeat 1 32%nat) 7 ltac:(apply repeat_length)) as (final & mh & cf' & E1 & _).
  exists cl, final, mh. split; [exact E | exact E1].
Defined.
